(* ===== verification/_CoqProject ===== *)
-Q . S2P
Prelude.v
GoStrings.v
GoText.v
GoJson.v
GoSha256.v
GoSort.v
GoTemplate.v
Effects.v
Io.v
Policy.v
Config.v
SecureFile.v
BoundedIO.v
AccessDiag.v
ProjectList.v
Exec.v
Token.v
Runner.v
AuditLog.v
Relay.v
Http.v
RelayServer.v
Approval.v
Broker.v
Protocol.v
Worker.v
Serve.v
Cli.v
Session.v
RelayRun.v
RelayAnswers.v
EndToEnd.v
Recovery.v
PolicyText.v
PolicyEditor.v
PolicyWorld.v
AdminPath.v
AdminLog.v
AdminAudit.v
AdminSystem.v
AdminAccess.v
AdminWorld.v
AdminCli.v
AdminCliSpec.v
AdminForms.v
AdminWebConfig.v
AdminWebRun.v
AdminWeb.v
AdminPages.v
AdminWebSpec.v
AdminWebHistory.v
AdminPagesSpec.v
AdminWebSystem.v
