(* ===== verification/Prelude.v ===== *)
(** * secrets-broker: a verification development

    secrets-broker runs a command with a project's secrets on behalf of a
    caller that must never see the credential that fetches them.  The caller's
    [secrets-broker run] sends one request over a pipe to
    [secrets-broker-worker], which runs under an account of its own, owns the
    policy, the token and the audit log, decides by an exact argv allowlist
    and, where the policy says so, by a human's answer, and runs the approved
    command through [bws].  The human answers on the relay, an HTTP server
    with two listeners that holds the pending requests.

    ** The files

    The language and its library, as far as the program uses them:
    - [Prelude]: results (a Go [(T, error)]), tactics, hint databases.
    - [GoStrings], [GoText], [GoJson]: Go strings as byte sequences; strings,
      hex, html, filepath, UTF-8, strconv quoting, encoding/json's output and
      RFC 3339 times, each with the lemmas the components use.
    - [Effects]: programs over an interface, as trees of calls.  A [handler]
      answers calls from a state; [run] gives the result, the state and the
      trace of calls.  A theorem for every handler is a theorem about every
      environment.  [interp] replaces each call of one interface by a program
      over another: how [Serve] composes the broker with its adapters.
    - [Io]: programs that return a result, [try!] and its lemmas.
    - [GoSha256], [GoSort], [GoTemplate]: SHA-256, [sort.Slice], and the
      escaping of html/template, with the lemma that escaped values can be
      read back from a page.
    - [Http]: requests and responses as the handlers see them.

    The program, in the order of its imports:
    - [Policy] (internal/policy): [Match], the exact argv comparison.
    - [Config] (internal/config): the decoded policy as records, [Parse],
      [applyDefaults], [validate], [ValidateWorker], [lookup_project].
    - [SecureFile] (internal/securefile): a file system of nodes with kind,
      mode, owner and content; [Read], [OpenAppend] and the validators.
    - [BoundedIO], [AccessDiag], [ProjectList] (the packages of the same
      names): the capture buffer and the two diagnostic results.
    - [Exec] (internal/execx), [Token] (internal/token), [Runner]
      (internal/runner): the command port, the three token resolvers, and the
      [bws run] command line with its shell quoting.
    - [AuditLog] (internal/audit): the records, the [Logger] interface, and
      the JSONL logger over [SecureFile]'s file system.
    - [Relay] (internal/relay/store.go): module [Store] has the operations,
      [History] their interleavings as steps with a history.
    - [RelayServer] (internal/relay/server.go): the two handlers as programs
      over the store's operations, and the pages.
    - [Approval] (internal/approval): module [KDialog], module [Tailscale] (the
      polling approver), module [HTTPRelayClient]; [Trace] reads its calls and
      [World] is the relay's store with other clients and a lossy network.
    - [Broker] (internal/broker): [Run], [DryRun], [decide], [formatPrompt].
    - [Protocol] (internal/worker/protocol.go, client.go), [Worker] (check.go,
      access.go, projects.go and the loading of the policy), [Serve]
      (server.go): the pipe protocol from both ends, the diagnostics, and one
      whole request.
    - [Cli] (internal/cli, cmd): the caller's command, the worker's dispatch,
      the relay's startup checks; [Session] is one invocation of [run], with
      the client and the worker it starts.
    - [RelayRun] (cmd/secrets-broker-relay/main.go): the relay's process as a
      step relation: requests in flight over the shared store, the sweeper,
      the operator's log, the signal and the shutdown; [RelayAnswers] keeps
      the responses too, and [EndToEnd] puts worker, approver, client and this
      process together.

    The administrator's half, which edits the policy the worker reads:
    - [Recovery] (internal/admin/recovery.go): the recovery artifacts.
    - [PolicyText] (policy.go, the text): edits of the policy as text.
    - [PolicyEditor] (policy.go): [Editor]'s methods over the system calls
      they make, the lock and the atomic replacement; [PolicyWorld] is an
      executable file system to run them on.
    - [AdminPath] (path.go), [AdminAccess] (access.go): the two diagnoses.
    - [AdminLog], [AdminAudit] (audit.go): the mutation log and the audited
      editor; [AdminSystem] composes editor, log and system calls.
    - [AdminWorld]: what the edits mean to the broker, on any healthy file
      system; removal and restoration.
    - [AdminCli] (internal/admincli/root.go), [AdminCliSpec]: the root command.
    - [AdminForms] (the critical sections of the web server),
      [AdminWebConfig] (config.go), [AdminWebRun] (run.go,
      listener_linux.go), [AdminWeb] (server.go, controls.go, pages.go,
      checks.go), [AdminPages] (templates.go, over [GoTemplate]).
    - [AdminWebSpec], [AdminWebHistory], [AdminPagesSpec], [AdminWebSystem]:
      one request, any interleaving of requests, what the pages show, and a
      request down to the system calls.

    The parts meet in five places.  [Session] is the caller's command over
    the worker's frames; [Serve] is the broker over its adapters; [EndToEnd]
    joins the approver's HTTP calls to the relay process and its store; the
    front ends
    [AdminCli] and [AdminWeb] both call the audited editor of [AdminAudit],
    whose replacement of the policy is what [Worker] loads; and
    [AdminAccess] reads what [Cli]'s worker prints.

    ** What the theorems show

    - Authorization: the runner is reached only after the start record, the
      project and directory checks, an allowlisted argv or a human's approval
      of a prompt that determines the request, and the token
      ([Broker.no_execution_without_authorization]), and [Run] refines the
      abstract decision matrix [run_spec]; [Serve] extends this to the whole
      worker, with the trusted files and the [bws] command line that runs.
    - End to end: a command that needed an approval runs only if the relay's
      operator approved exactly its prompt, in time, by a same-origin request
      on the relay's log ([EndToEnd.command_runs_only_as_decided]), and a
      caller hears that it was rejected only if that operator refused it
      ([EndToEnd.rejection_was_decided]).  The hypotheses are on the wire
      only: a response that arrives is one the control listener wrote to such
      a request, net/url and encoding/json carry paths and texts as
      documented, and no ID is registered for two different prompts.  The
      caller gets the command's own bytes and exit code; a command that could
      not be run to an exit, or was not run, is reported on one line with 126
      or 125; and at most the audit warning comes on top
      ([Session.caller_gets_the_command]).
    - Approval: an approval the store reports was the first decision on that
      request and in time, and came through the decision listener; the remote
      approver against that store returns an approval only for such a one, and
      fails closed in every environment.  The relay's process keeps all of
      this: every approval is on its operator's log, no request is swept before
      its time, and it stops when told.
    - Administration: if a command or a web request changes a file at all, then
      it was asked for by root or by the administrator, announced to the log
      first, the file is the policy, and its new text parses to exactly the
      configuration the change is meant to produce from the one that was read,
      the file being found unchanged under the lock ([AdminCliSpec.cli_change_on_record],
      [AdminWebSystem.web_changes_what_was_shown]); a web change was reviewed
      and shown, and is carried out once.  The editor refines operations on
      configurations, keeps the policy acceptable to the worker, and a removed
      project comes back.
    - Audit: every run is bracketed by its records; the log only grows, one
      line for each record whatever bytes the inputs hold.  One limit is
      proved too: a policy whose directory cannot be synced after the rename
      has changed, and the record says that it failed
      ([AdminSystem.unsynced_change_recorded_failed]).
    - Confinement: the token's value reaches nothing but the runner: before it
      is called, outcome, log, prompt and state do not depend on that value,
      and after it only on its answer; shell quoting recovers the argv, and the pages cannot be injected.
    - Exactness: parsing, file checks, token reading, diagnostics and frames
      are characterised by equivalences with declarative conditions, so both
      what is accepted and what is refused are settled.
    - Agreement of the two ends: what [Serve] sends, the client reads back
      ([Serve.Serve_client_protocol]), a JSON or quoted string reads back as
      what was written, and what the worker's diagnoses find is what the
      administrator is told ([AdminAccess.diagnosis_end_to_end], where the
      JSON decoder reads back the one line in question).

    ** Fuel and bounds

    Two loops have no bound of their own.  The approver's poll loop takes one
    unit of fuel for each [select]; [Tailscale_returns] shows that fuel above
    the number of ticks before the timeout gives the outcome and that more
    changes nothing; the end-to-end theorems hold for any fuel the worker gives
    its approver.  The client's receive loop takes one unit for each frame,
    and [Client_accepts_exactly] gives the result for any fuel above the
    number of frames; [Session] gives it one more than the frames of the
    worker.  Every other function is total.  Times and durations
    are [Z] in nanoseconds; lengths and counts are [nat] or [Z] and cannot
    reach the width of Go's [int] before memory ends.

    ** What is not modelled

    Third-party decoders and parsers are arguments (the TOML decoder,
    [net/url.Parse], [json] decoding, [unicode.IsPrint] outside ASCII): the
    theorems hold for all of them.  File checks are stated on one snapshot of
    the file system.  Concurrency is interleaving of whole store operations,
    which the store's mutex makes atomic.  Cobra's flag parsing is glue
    without decisions of its own.  The operation deadlines
    of the administrator's server and the time-outs of the HTTP servers are not
    modelled, nor is the alignment of tabular output. *)

From stdpp Require Export prelude strings gmap.
From Stdlib Require Export ZArith Ascii Lia.

#[global] Set Default Proof Using "Type".
#[export] Set Warnings "-clear-no-such-hyp,-notation-for-abbreviation".

(** ** Results

    A Go function that returns [(T, error)] is modelled as a function to
    [result E T]: [Ok v] is [(v, nil)], [Err e] is a non-nil error.  Each
    component has its own error type [E], one constructor per error site. *)

Inductive result (E A : Type) : Type :=
| Ok (a : A)
| Err (e : E).
Arguments Ok {E A} a.
Arguments Err {E A} e.

#[export] Instance result_ret {E} : MRet (result E) := fun A a => Ok a.
#[export] Instance result_bind {E} : MBind (result E) :=
  fun A B f r => match r with Ok a => f a | Err e => Err e end.
#[export] Instance result_fmap {E} : FMap (result E) :=
  fun A B f r => match r with Ok a => Ok (f a) | Err e => Err e end.

#[export] Instance result_eq_dec {E A} `{EqDecision E, EqDecision A} :
  EqDecision (result E A).
Proof. solve_decision. Defined.

(** [fmt.Errorf("...: %w", err)]: the error of a call, wrapped. *)
Definition wrap_err {E F A} (f : E -> F) (r : result E A) : result F A :=
  match r with Ok a => Ok a | Err e => Err (f e) end.

Definition is_ok {E A} (r : result E A) : bool :=
  match r with Ok _ => true | Err _ => false end.

(** [if cond { return err }; rest] *)
Notation "'fail_if' c 'with' e ; k" := (if (c : bool) then Err e else k)
  (at level 10, c at level 100, e at level 100, k at level 200,
   format "'[v' 'fail_if'  c  'with'  e ;  '/' k ']'") : stdpp_scope.

Lemma bind_Ok {E A B} (f : A -> result E B) (r : result E A) (b : B) :
  r ≫= f = Ok b <-> exists a, r = Ok a /\ f a = Ok b.
Proof. destruct r; naive_solver. Qed.

Lemma wrap_err_Ok {E F A} (f : E -> F) (r : result E A) (a : A) :
  wrap_err f r = Ok a <-> r = Ok a.
Proof. destruct r; naive_solver. Qed.

Lemma fail_if_Ok {E A} (c : bool) (e : E) (k : result E A) (a : A) :
  (fail_if c with e; k) = Ok a <-> c = false /\ k = Ok a.
Proof. destruct c; naive_solver. Qed.

(** ** Hint databases

    [json]: the output of an encoder holds no control byte.  [effects]: the
    equations of [run] and of the traces, for [autorewrite]. *)
Create HintDb json discriminated.
Create Rewrite HintDb effects.

(** ** Tactics *)

(** Split a hypothesis [m = Ok a] about a chain of guards and calls. *)
Ltac inv_ok :=
  repeat match goal with
  | H : mbind _ _ = Ok _ |- _ => apply bind_Ok in H as (? & ? & H)
  | H : wrap_err _ _ = Ok _ |- _ => apply wrap_err_Ok in H
  | H : (if ?c then Err _ else _) = Ok _ |- _ => apply fail_if_Ok in H as [? H]
  | H : mret _ = Ok _ |- _ => unfold mret, result_ret in H
  | H : Ok _ = Ok _ |- _ => injection H as H; try subst
  | H : Err _ = Ok _ |- _ => discriminate H
  | H : Ok _ = Err _ |- _ => discriminate H
  end.

(** Case analysis on the scrutinee of every match in the goal. *)
Ltac case_matches := repeat (case_match; simplify_eq/=).

(** Turn boolean conditions of the code into propositions. *)
Ltac boolP :=
  repeat match goal with
  | H : _ && _ = true |- _ => apply andb_true_iff in H as [? ?]
  | H : _ || _ = false |- _ => apply orb_false_iff in H as [? ?]
  | H : negb _ = true |- _ => apply negb_true_iff in H
  | H : negb _ = false |- _ => apply negb_false_iff in H
  | H : bool_decide _ = true |- _ => apply bool_decide_eq_true in H
  | H : bool_decide _ = false |- _ => apply bool_decide_eq_false in H
  | H : Z.leb _ _ = true |- _ => apply Z.leb_le in H
  | H : Z.leb _ _ = false |- _ => apply Z.leb_gt in H
  | H : Z.ltb _ _ = true |- _ => apply Z.ltb_lt in H
  | H : Z.ltb _ _ = false |- _ => apply Z.ltb_ge in H
  | H : Z.eqb _ _ = true |- _ => apply Z.eqb_eq in H
  | H : Z.eqb _ _ = false |- _ => apply Z.eqb_neq in H
  | H : Nat.ltb _ _ = true |- _ => apply Nat.ltb_lt in H
  | H : Nat.ltb _ _ = false |- _ => apply Nat.ltb_ge in H
  | H : Nat.leb _ _ = true |- _ => apply Nat.leb_le in H
  | H : Nat.leb _ _ = false |- _ => apply Nat.leb_gt in H
  | H : String.eqb _ _ = true |- _ => apply String.eqb_eq in H
  | H : String.eqb _ _ = false |- _ => apply String.eqb_neq in H
  | H : Ascii.eqb _ _ = true |- _ => apply Ascii.eqb_eq in H
  | H : Ascii.eqb _ _ = false |- _ => apply Ascii.eqb_neq in H
  end.
