(* ===== verification/GoStrings.v ===== *)
(** * Go strings

    Go's [string] and [[]byte] are sequences of bytes: both are Rocq's
    [string].  This file models the parts of the Go standard library packages
    [strings], [bytes], [encoding/hex], [html] and [path/filepath] that
    secrets-broker calls, with the lemmas the components share. *)

From stdpp Require Import pretty.
From S2P Require Import Prelude.

#[global] Arguments String.append : simpl nomatch.

(** ** Lemmas on append and characters *)

Lemma append_assoc (a b c : string) : (a +:+ b) +:+ c = a +:+ b +:+ c.
Proof. induction a; simpl; congruence. Qed.

Lemma append_empty_r (a : string) : a +:+ "" = a.
Proof. induction a; simpl; congruence. Qed.

Lemma length_append (a b : string) :
  String.length (a +:+ b) = String.length a + String.length b.
Proof. induction a; simpl; congruence. Qed.

(** Go's [len(s)]. *)
Definition len (s : string) : Z := Z.of_nat (String.length s).

Lemma len_nonneg s : (0 <= len s)%Z.
Proof. unfold len. lia. Qed.

Lemma len_append a b : (len (a +:+ b) = len a + len b)%Z.
Proof. unfold len. rewrite length_append. lia. Qed.

Lemma len_cons c s : (len (String c s) = 1 + len s)%Z.
Proof. unfold len. cbn [String.length]. lia. Qed.

(** Every byte of [s] satisfies [P]. *)
Fixpoint all_bytes (P : ascii -> bool) (s : string) : bool :=
  match s with
  | EmptyString => true
  | String c s' => P c && all_bytes P s'
  end.

Lemma all_bytes_app P a b : all_bytes P (a +:+ b) = all_bytes P a && all_bytes P b.
Proof. induction a; simpl; [done|]. by rewrite IHa, andb_assoc. Qed.

Lemma all_bytes_impl (P Q : ascii -> bool) s :
  (forall c, P c = true -> Q c = true) -> all_bytes P s = true -> all_bytes Q s = true.
Proof.
  intros HPQ. induction s; simpl; [done|]. rewrite !andb_true_iff. naive_solver.
Qed.

(** The number of bytes of [s] that satisfy [P]. *)
Fixpoint count_bytes (P : ascii -> bool) (s : string) : nat :=
  match s with
  | EmptyString => 0
  | String c s' => (if P c then 1 else 0) + count_bytes P s'
  end.

Lemma count_bytes_app P a b : count_bytes P (a +:+ b) = count_bytes P a + count_bytes P b.
Proof. induction a; simpl; [done|]. case_match; lia. Qed.

Lemma count_bytes_0 P s : all_bytes (fun c => negb (P c)) s = true -> count_bytes P s = 0.
Proof. induction s; simpl; [done|]. intros [H1 H2]%andb_true_iff. destruct (P a); naive_solver. Qed.

(** The bytes of [s] that satisfy [P], in order. *)
Fixpoint filter_bytes (P : ascii -> bool) (s : string) : string :=
  match s with
  | EmptyString => EmptyString
  | String c s' => if P c then String c (filter_bytes P s') else filter_bytes P s'
  end.

Lemma filter_bytes_app P a b : filter_bytes P (a +:+ b) = filter_bytes P a +:+ filter_bytes P b.
Proof. induction a as [|c a IH]; simpl; [done|]. destruct (P c); simpl; by rewrite IH. Qed.

Lemma filter_bytes_none P s : all_bytes (fun c => negb (P c)) s = true -> filter_bytes P s = "".
Proof. induction s as [|c s IH]; simpl; [done|]. destruct (P c); simpl; [done|auto]. Qed.

(** [concat(map(f, l))] over strings. *)
Definition concat_map {A} (f : A -> string) (l : list A) : string :=
  foldr (fun a acc => f a +:+ acc) "" l.

Lemma all_bytes_concat_map {A} P (f : A -> string) l :
  (forall a, a ∈ l -> all_bytes P (f a) = true) -> all_bytes P (concat_map f l) = true.
Proof.
  induction l as [|a l IH]; simpl; [done|]. intros H.
  rewrite all_bytes_app, andb_true_iff. split; [|apply IH]; set_solver.
Qed.

(** A byte as an integer, and back. *)
Definition byte_val (c : ascii) : Z := Z.of_N (N_of_ascii c).
Definition byte_of (z : Z) : ascii := ascii_of_N (Z.to_N z).

Lemma byte_val_range c : (0 <= byte_val c < 256)%Z.
Proof. unfold byte_val. pose proof (N_ascii_bounded c). lia. Qed.

Lemma byte_of_val c : byte_of (byte_val c) = c.
Proof. unfold byte_of, byte_val. by rewrite N2Z.id, ascii_N_embedding. Qed.

Lemma byte_val_of z : (0 <= z < 256)%Z -> byte_val (byte_of z) = z.
Proof. intros. unfold byte_of, byte_val. rewrite N_ascii_embedding; lia. Qed.

#[export] Instance byte_val_inj : Inj (=) (=) byte_val.
Proof. intros a b H. by rewrite <- (byte_of_val a), H, byte_of_val. Qed.

(** A statement over all bytes is checked by evaluating it at the 256 bytes. *)
Definition all_ascii : list ascii := (fun n => ascii_of_nat n) <$> seq 0 256.

Lemma elem_of_all_ascii c : c ∈ all_ascii.
Proof.
  unfold all_ascii. apply list_elem_of_fmap. exists (nat_of_ascii c). split.
  - by rewrite ascii_nat_embedding.
  - apply elem_of_seq. pose proof (nat_ascii_bounded c). lia.
Qed.

Lemma forall_ascii (P : ascii -> bool) :
  forallb P all_ascii = true -> forall c, P c = true.
Proof.
  intros H c. rewrite forallb_forall in H. apply H, list_elem_of_In, elem_of_all_ascii.
Qed.

(** The special bytes that a string literal cannot hold. *)
Definition dquote : ascii := ascii_of_nat 34.
Definition squote : ascii := "'"%char.
Definition backslash : ascii := "\"%char.
Definition LF : ascii := "010"%char.
Definition CR : ascii := "013"%char.
Definition TAB : ascii := "009"%char.

Definition str1 (c : ascii) : string := String c EmptyString.

(** In a literal of the development a backquote stands for a double quote
    where the literal is under [dq]. *)
Fixpoint dq (s : string) : string :=
  match s with
  | EmptyString => EmptyString
  | String c s' => String (if Ascii.eqb c "`" then dquote else c) (dq s')
  end.

(** ** Package strings (and bytes) *)
Module Strings.

Fixpoint HasPrefix (s pre : string) : bool :=
  match pre, s with
  | EmptyString, _ => true
  | String p pre', String c s' => Ascii.eqb p c && HasPrefix s' pre'
  | _, _ => false
  end.

(** [s[n:]] and [s[:n]]. *)
Fixpoint drop (n : nat) (s : string) : string :=
  match n, s with
  | S n', String _ s' => drop n' s'
  | _, _ => s
  end.

Fixpoint take (n : nat) (s : string) : string :=
  match n, s with
  | S n', String c s' => String c (take n' s')
  | _, _ => EmptyString
  end.

Definition HasSuffix (s suf : string) : bool :=
  (String.length suf <=? String.length s)
  && String.eqb (drop (String.length s - String.length suf) s) suf.

Fixpoint Contains (s sub : string) : bool :=
  HasPrefix s sub ||
  match s with
  | EmptyString => false
  | String _ s' => Contains s' sub
  end.

(** [strings.Split(s, sep)] for a separator of one byte: never empty. *)
Fixpoint Split (s : string) (sep : ascii) : list string :=
  match s with
  | EmptyString => [EmptyString]
  | String c s' =>
      if Ascii.eqb c sep then EmptyString :: Split s' sep
      else match Split s' sep with
           | w :: ws => String c w :: ws
           | [] => [str1 c]
           end
  end.

Fixpoint Join (l : list string) (sep : string) : string :=
  match l with
  | [] => ""
  | [w] => w
  | w :: ws => w +:+ sep +:+ Join ws sep
  end.

(** [strings.ReplaceAll(s, old, new)] for an [old] of one byte. *)
Fixpoint ReplaceAll (s : string) (old : ascii) (new : string) : string :=
  match s with
  | EmptyString => EmptyString
  | String c s' =>
      if Ascii.eqb c old then new +:+ ReplaceAll s' old new
      else String c (ReplaceAll s' old new)
  end.

(** [strings.TrimRight(s, cutset)] for a cutset of one byte. *)
Fixpoint TrimRight (s : string) (cut : ascii) : string :=
  match s with
  | EmptyString => EmptyString
  | String c s' =>
      match TrimRight s' cut with
      | EmptyString => if Ascii.eqb c cut then EmptyString else str1 c
      | t => String c t
      end
  end.

(** [c], [n] times. *)
Fixpoint Repeat (c : ascii) (n : nat) : string :=
  match n with O => EmptyString | S n' => String c (Repeat c n') end.

Lemma HasPrefix_app p s : HasPrefix (p +:+ s) p = true.
Proof. induction p; simpl; [by destruct s|]. by rewrite Ascii.eqb_refl. Qed.

Lemma HasPrefix_spec s p : HasPrefix s p = true <-> exists t, s = p +:+ t.
Proof.
  split; [|intros [t ->]; apply HasPrefix_app].
  revert s. induction p as [|c p IH]; intros s; simpl.
  - intros _. by exists s.
  - destruct s as [|d s]; [done|]. intros [Hc Ht]%andb_true_iff.
    apply Ascii.eqb_eq in Hc as ->. destruct (IH s Ht) as [t ->]. by exists t.
Qed.

Lemma take_drop n s : take n s +:+ drop n s = s.
Proof. revert s. induction n; intros [|c s]; simpl; [done..|]. by rewrite IHn. Qed.

Lemma drop_app_length a b : drop (String.length a) (a +:+ b) = b.
Proof. by induction a. Qed.

Lemma HasSuffix_spec s x : HasSuffix s x = true <-> exists t, s = t +:+ x.
Proof.
  unfold HasSuffix. split.
  - intros [_ H]%andb_true_iff. apply String.eqb_eq in H.
    exists (take (String.length s - String.length x) s).
    rewrite <- H at 2. by rewrite take_drop.
  - intros [t ->]. rewrite length_append, andb_true_iff. split.
    + apply Nat.leb_le. lia.
    + replace (String.length t + String.length x - String.length x)
        with (String.length t) by lia.
      rewrite drop_app_length. apply String.eqb_refl.
Qed.

Lemma Split_nonempty s sep : Split s sep <> [].
Proof. destruct s; simpl; [done|]. repeat case_match; done. Qed.

(** [strings.Join] undoes [strings.Split]. *)
Lemma Join_Split s sep : Join (Split s sep) (str1 sep) = s.
Proof.
  induction s as [|c s IH]; simpl; [done|].
  pose proof (Split_nonempty s sep) as Hne.
  destruct (Ascii.eqb_spec c sep) as [->|Hc]; destruct (Split s sep) as [|w ws]; try done.
  - simpl in *. by rewrite IH.
  - destruct ws; simpl in *; by rewrite IH.
Qed.

(** The byte cut off at the end, and where it stops. *)
Lemma TrimRight_spec s cut :
  exists n, s = TrimRight s cut +:+ Repeat cut n.
Proof.
  induction s as [|c s [n IH]]; simpl; [by exists 0|].
  destruct (TrimRight s cut) as [|d t] eqn:E.
  - destruct (Ascii.eqb_spec c cut) as [->|]; [exists (S n)|exists n]; simpl; by rewrite IH at 1.
  - exists n. simpl. by rewrite IH at 1.
Qed.

Lemma TrimRight_no_suffix s cut t : TrimRight s cut <> t +:+ str1 cut.
Proof.
  revert t. induction s as [|c s IH]; intros t; simpl; [by destruct t|].
  destruct (TrimRight s cut) as [|d u] eqn:E.
  - destruct (Ascii.eqb_spec c cut); [by destruct t|].
    destruct t as [|e t]; [|by destruct t]. simpl. unfold str1. congruence.
  - destruct t as [|e t]; simpl; [done|]. intros [= -> H]. by apply (IH t).
Qed.

Lemma TrimRight_Repeat n cut : TrimRight (Repeat cut n) cut = "".
Proof. induction n; simpl; [done|]. by rewrite IHn, Ascii.eqb_refl. Qed.

(** The only text that trims to itself: it is not empty and does not end in
    the cut byte. *)
Lemma TrimRight_app v cut n :
  v <> "" -> (forall p, v <> p +:+ str1 cut) -> TrimRight (v +:+ Repeat cut n) cut = v.
Proof.
  induction v as [|c v IH]; [done|]. intros _ Hns. simpl.
  destruct v as [|d v].
  - simpl. rewrite TrimRight_Repeat. destruct (Ascii.eqb_spec c cut) as [->|]; [|done].
    by destruct (Hns "").
  - rewrite IH; [done..|]. intros p E. apply (Hns (String c p)). simpl. by rewrite E.
Qed.

Lemma TrimRight_empty s cut :
  TrimRight s cut = "" <-> s = Repeat cut (String.length s).
Proof.
  induction s as [|c s IH]; simpl; [done|].
  destruct IH as [IH1 IH2].
  destruct (TrimRight s cut) eqn:E; destruct (Ascii.eqb_spec c cut) as [->|];
    split; intros H; try done; try congruence; [f_equal; by apply IH1|].
  injection H as H. by discriminate (IH2 H).
Qed.

Lemma all_bytes_Join P l sep :
  (forall w, w ∈ l -> all_bytes P w = true) -> all_bytes P sep = true ->
  all_bytes P (Join l sep) = true.
Proof.
  intros Hl Hs. induction l as [|w l IH]; [done|].
  destruct l as [|w' l]; [apply Hl; set_solver|].
  change (Join (w :: w' :: l) sep) with (w +:+ sep +:+ Join (w' :: l) sep).
  rewrite !all_bytes_app, Hs, IH, Hl by set_solver. done.
Qed.

End Strings.

(** Lemmas on [s[:n]] and [s[n:]]. *)

Lemma length_drop n s : String.length (Strings.drop n s) = String.length s - n.
Proof. revert s. induction n; intros [|c s]; simpl; auto. Qed.

Lemma length_take n s : String.length (Strings.take n s) = Nat.min n (String.length s).
Proof. revert s. induction n; intros [|c s]; simpl; auto. Qed.

Lemma drop_app_ge n a b : String.length a <= n -> Strings.drop n (a +:+ b) = Strings.drop (n - String.length a) b.
Proof. revert n. induction a; intros [|n] H; simpl in *; try done; try lia. apply IHa. lia. Qed.

Lemma drop_app_le n a b : n <= String.length a -> Strings.drop n (a +:+ b) = Strings.drop n a +:+ b.
Proof. revert n. induction a; intros [|n] H; simpl in *; try done; try lia. apply IHa. lia. Qed.

Lemma take_app_le n a b : n <= String.length a -> Strings.take n (a +:+ b) = Strings.take n a.
Proof. revert n. induction a; intros [|n] H; simpl in *; try done; try lia. f_equal. apply IHa. lia. Qed.

Lemma take_app_ge n a b : String.length a <= n -> Strings.take n (a +:+ b) = a +:+ Strings.take (n - String.length a) b.
Proof. revert n. induction a; intros [|n] H; simpl in *; try done; try lia. f_equal. apply IHa. lia. Qed.

Lemma take_all s : Strings.take (String.length s) s = s.
Proof. induction s; simpl; congruence. Qed.

Lemma drop_all s : Strings.drop (String.length s) s = "".
Proof. by induction s. Qed.

Lemma take_app_length a b : Strings.take (String.length a) (a +:+ b) = a.
Proof. rewrite take_app_le by done. apply take_all. Qed.

Lemma drop_drop a b s : Strings.drop a (Strings.drop b s) = Strings.drop (b + a) s.
Proof. revert s. induction b; intros [|c s]; simpl; [by destruct a|done|by destruct a|apply IHb]. Qed.

Lemma take_ge n s : (String.length s <= n)%nat -> Strings.take n s = s.
Proof. revert s. induction n; intros [|c s]; simpl; intros; [done|lia|done|]. by rewrite IHn by lia. Qed.

(** ** Package encoding/hex *)
Module Hex.

(** The lower-case digit of [0 <= d < 16]. *)
Definition digit (d : Z) : ascii :=
  if (d <? 10)%Z then byte_of (48 + d) else byte_of (87 + d).

Definition undigit (c : ascii) : option Z :=
  let v := byte_val c in
  if (48 <=? v)%Z && (v <=? 57)%Z then Some (v - 48)%Z
  else if (97 <=? v)%Z && (v <=? 102)%Z then Some (v - 87)%Z
  else None.

Definition is_digit (c : ascii) : bool :=
  match undigit c with Some _ => true | None => false end.

Fixpoint EncodeToString (src : string) : string :=
  match src with
  | EmptyString => EmptyString
  | String c s =>
      String (digit (byte_val c / 16)) (String (digit (byte_val c mod 16)) (EncodeToString s))
  end.

Lemma undigit_digit d : (0 <= d < 16)%Z -> undigit (digit d) = Some d.
Proof.
  intros H. unfold digit, undigit. destruct (Z.ltb_spec d 10);
    rewrite byte_val_of by lia.
  - destruct (Z.leb_spec 48 (48 + d)), (Z.leb_spec (48 + d) 57); try lia.
    simpl. f_equal. lia.
  - destruct (Z.leb_spec 48 (87 + d)), (Z.leb_spec (87 + d) 57); try lia; simpl;
    destruct (Z.leb_spec 97 (87 + d)), (Z.leb_spec (87 + d) 102); try lia; simpl; f_equal; lia.
Qed.

Lemma is_digit_digit d : (0 <= d < 16)%Z -> is_digit (digit d) = true.
Proof. intros. unfold is_digit. by rewrite undigit_digit. Qed.

Lemma byte_nibbles c :
  (0 <= byte_val c / 16 < 16)%Z /\ (0 <= byte_val c mod 16 < 16)%Z.
Proof. pose proof (byte_val_range c). split; [|apply Z.mod_pos_bound; lia].
  split; [apply Z.div_pos; lia|apply Z.div_lt_upper_bound; lia]. Qed.

Lemma length_Encode s : String.length (EncodeToString s) = 2 * String.length s.
Proof. induction s; simpl; lia. Qed.

Lemma Encode_digits s : all_bytes is_digit (EncodeToString s) = true.
Proof.
  induction s as [|c s IH]; simpl; [done|].
  destruct (byte_nibbles c). by rewrite !is_digit_digit, IH.
Qed.

#[export] Instance Encode_inj : Inj (=) (=) EncodeToString.
Proof.
  intros a. induction a as [|c a IH]; intros [|d b]; simpl; try done.
  intros [= H1 H2 H3]. f_equal; [|by apply IH].
  destruct (byte_nibbles c), (byte_nibbles d).
  apply (f_equal undigit) in H1, H2. rewrite !undigit_digit in H1, H2 by done.
  apply byte_val_inj.
  rewrite (Z.div_mod (byte_val c) 16), (Z.div_mod (byte_val d) 16) by lia. congruence.
Qed.

End Hex.

(** ** Package html *)
Module Html.

(** [html.EscapeString]: the five bytes that have a meaning in HTML. *)
Definition escape_byte (c : ascii) : string :=
  if Ascii.eqb c "&" then "&amp;"
  else if Ascii.eqb c squote then "&#39;"
  else if Ascii.eqb c "<" then "&lt;"
  else if Ascii.eqb c ">" then "&gt;"
  else if Ascii.eqb c dquote then "&#34;"
  else str1 c.

Fixpoint EscapeString (s : string) : string :=
  match s with
  | EmptyString => EmptyString
  | String c s' => escape_byte c +:+ EscapeString s'
  end.

(** The bytes that open or close a tag or an attribute value. *)
Definition is_markup (c : ascii) : bool :=
  Ascii.eqb c "<" || Ascii.eqb c ">" || Ascii.eqb c dquote || Ascii.eqb c squote.

Lemma EscapeString_no_markup s :
  all_bytes (fun c => negb (is_markup c)) (EscapeString s) = true.
Proof.
  induction s as [|c s IH]; [done|]. simpl. rewrite all_bytes_app, IH, andb_true_r.
  revert c. apply (forall_ascii (fun c => all_bytes _ (escape_byte c))).
  vm_compute. reflexivity.
Qed.

End Html.

(** ** Package path/filepath, for a Unix system *)
Module Filepath.

Definition Separator : ascii := "/".
Definition ListSeparator : ascii := ":".

Definition IsAbs (path : string) : bool := Strings.HasPrefix path "/".

(** One element of a path against the elements kept so far, last first. *)
Definition clean_elem (rooted : bool) (out : list string) (e : string) : list string :=
  if String.eqb e "" || String.eqb e "." then out
  else if String.eqb e ".." then
    match out with
    | top :: out' => if String.eqb top ".." then e :: out else out'
    | [] => if rooted then [] else [e]
    end
  else e :: out.

Definition clean_elems (rooted : bool) (es : list string) : list string :=
  rev (foldl (clean_elem rooted) [] es).

Definition Clean (path : string) : string :=
  let rooted := IsAbs path in
  let body := Strings.Join (clean_elems rooted (Strings.Split path Separator)) "/" in
  if rooted then "/" +:+ body
  else if String.eqb body "" then "." else body.

(** [filepath.Join]: the non-empty elements, cleaned. *)
Definition Join (elems : list string) : string :=
  match filter (fun e => e <> "") elems with
  | [] => ""
  | es => Clean (Strings.Join es "/")
  end.

(** [filepath.Dir]: everything up to the last separator, cleaned. *)
Fixpoint dir_part (path : string) : string :=
  match path with
  | EmptyString => EmptyString
  | String c s =>
      if Strings.Contains path "/" then String c (dir_part s) else EmptyString
  end.

Definition Dir (path : string) : string := Clean (dir_part path).

Lemma IsAbs_nonempty p : IsAbs p = true -> p <> "".
Proof. by destruct p. Qed.

End Filepath.

(** ** Package strconv: decimal integers *)
Module Itoa.
Definition Itoa (z : Z) : string := pretty z.

#[export] Instance Itoa_inj : Inj (=) (=) Itoa.
Proof. apply pretty_Z_inj. Qed.

(** The bytes of a decimal number. *)
Definition itoa_char (c : ascii) : bool :=
  Ascii.eqb c "-" || ((48 <=? byte_val c)%Z && (byte_val c <=? 57)%Z).

Lemma pretty_N_go_chars x s :
  all_bytes itoa_char s = true -> all_bytes itoa_char (pretty_N_go x s) = true.
Proof.
  revert s. induction x as [x IH] using (well_founded_induction N.lt_wf_0). intros s Hs.
  destruct (decide (x = 0%N)) as [->|Hx]; [by rewrite pretty_N_go_0|].
  rewrite pretty_N_go_step by lia. apply IH; [apply N.div_lt; lia|]. simpl.
  rewrite Hs, andb_true_r. unfold pretty_N_char. by repeat case_match.
Qed.

Lemma pretty_N_chars (n : N) : all_bytes itoa_char (pretty n) = true.
Proof. unfold pretty, pretty_N. case_decide; [done|]. by apply pretty_N_go_chars. Qed.

Lemma Itoa_chars n : all_bytes itoa_char (Itoa n) = true.
Proof.
  unfold Itoa, pretty, pretty_Z. destruct n; [done| |].
  - apply pretty_N_chars.
  - rewrite all_bytes_app. simpl. apply pretty_N_chars.
Qed.

(** Numbers satisfy any predicate that digits and the sign do. *)
Lemma Itoa_all P n : (forall c, itoa_char c = true -> P c = true) -> all_bytes P (Itoa n) = true.
Proof. intros H. eapply all_bytes_impl; [exact H|apply Itoa_chars]. Qed.
End Itoa.

(** ** strconv.Atoi: [int] has 64 bits *)

Module Atoi.
#[local] Open Scope Z_scope.

Definition digit (c : ascii) : option Z :=
  let d := byte_val c - 48 in if (0 <=? d) && (d <=? 9) then Some d else None.

Fixpoint digits (n : Z) (s : string) : option Z :=
  match s with
  | EmptyString => Some n
  | String c s => d ← digit c; digits (10 * n + d) s
  end.

Definition Atoi (s : string) : option Z :=
  let '(neg, body) :=
    match s with
    | String "-" r => (true, r)
    | String "+" r => (false, r)
    | _ => (false, s)
    end in
  if String.eqb body "" then None else
  n ← digits 0 body;
  let v := if (neg : bool) then - n else n in
  if (-2^63 <=? v) && (v <? 2^63) then Some v else None.
End Atoi.
