(* ===== verification/GoText.v ===== *)
(** * Go text: UTF-8, strconv quoting and JSON strings

    A Go string need not be valid UTF-8.  [Utf8.chunks] splits one the way a
    [for range] loop does, into valid runes and single invalid bytes; the
    quoting functions of [strconv] and [encoding/json] map each chunk. *)

From S2P Require Import Prelude GoStrings.

#[local] Open Scope Z_scope.

(** ** Package unicode/utf8 *)
Module Utf8.

Definition RuneError : Z := 65533.

Inductive chunk : Type :=
| Rune (r : Z)        (** a validly encoded rune *)
| Bad (c : ascii).    (** a byte that starts no valid encoding: (RuneError, 1) *)

(** [utf8.AppendRune] for a valid rune. *)
Definition Encode (r : Z) : string :=
  if r <? 128 then str1 (byte_of r)
  else if r <? 2048 then
    String (byte_of (192 + r / 64)) (str1 (byte_of (128 + r mod 64)))
  else if r <? 65536 then
    String (byte_of (224 + r / 4096))
      (String (byte_of (128 + (r / 64) mod 64)) (str1 (byte_of (128 + r mod 64))))
  else
    String (byte_of (240 + r / 262144))
      (String (byte_of (128 + (r / 4096) mod 64))
        (String (byte_of (128 + (r / 64) mod 64)) (str1 (byte_of (128 + r mod 64))))).

Definition chunk_bytes (ch : chunk) : string :=
  match ch with Rune r => Encode r | Bad c => str1 c end.

Definition in_range (lo hi : Z) (c : ascii) : bool :=
  (lo <=? byte_val c) && (byte_val c <=? hi).

Definition is_cont : ascii -> bool := in_range 128 191.

(** The accepted multi-byte sequences, as in the table of [unicode/utf8]. *)
Definition seq2 (c0 c1 : ascii) : option Z :=
  if in_range 194 223 c0 && is_cont c1
  then Some ((byte_val c0 - 192) * 64 + (byte_val c1 - 128)) else None.

Definition seq3 (c0 c1 c2 : ascii) : option Z :=
  let lo := if byte_val c0 =? 224 then 160 else 128 in
  let hi := if byte_val c0 =? 237 then 159 else 191 in
  if in_range 224 239 c0 && in_range lo hi c1 && is_cont c2
  then Some ((byte_val c0 - 224) * 4096 + (byte_val c1 - 128) * 64 + (byte_val c2 - 128))
  else None.

Definition seq4 (c0 c1 c2 c3 : ascii) : option Z :=
  let lo := if byte_val c0 =? 240 then 144 else 128 in
  let hi := if byte_val c0 =? 244 then 143 else 191 in
  if in_range 240 244 c0 && in_range lo hi c1 && is_cont c2 && is_cont c3
  then Some ((byte_val c0 - 240) * 262144 + (byte_val c1 - 128) * 4096
             + (byte_val c2 - 128) * 64 + (byte_val c3 - 128))
  else None.

(** [for _, r := range s] / [utf8.DecodeRuneInString] repeated. *)
Fixpoint chunks (s : string) : list chunk :=
  match s with
  | EmptyString => []
  | String c0 s1 =>
      if byte_val c0 <? 128 then Rune (byte_val c0) :: chunks s1 else
      match s1 with
      | EmptyString => Bad c0 :: chunks s1
      | String c1 s2 =>
          match seq2 c0 c1 with
          | Some r => Rune r :: chunks s2
          | None =>
              match s2 with
              | EmptyString => Bad c0 :: chunks s1
              | String c2 s3 =>
                  match seq3 c0 c1 c2 with
                  | Some r => Rune r :: chunks s3
                  | None =>
                      match s3 with
                      | EmptyString => Bad c0 :: chunks s1
                      | String c3 s4 =>
                          match seq4 c0 c1 c2 c3 with
                          | Some r => Rune r :: chunks s4
                          | None => Bad c0 :: chunks s1
                          end
                      end
                  end
              end
          end
      end
  end.

Definition is_rune (ch : chunk) : bool := match ch with Rune _ => true | Bad _ => false end.

(** [utf8.ValidString] *)
Definition ValidString (s : string) : bool := forallb is_rune (chunks s).

(** The runes a loop sees: an invalid byte is [RuneError]. *)
Definition runes (s : string) : list Z :=
  (fun ch => match ch with Rune r => r | Bad _ => RuneError end) <$> chunks s.

Definition valid_rune (r : Z) : Prop :=
  0 <= r < 55296 \/ 57344 <= r < 1114112.

Definition chunk_ok (ch : chunk) : Prop :=
  match ch with Rune r => valid_rune r | Bad c => 128 <= byte_val c end.

Ltac byte_ranges :=
  repeat match goal with c : ascii |- _ =>
    lazymatch goal with
    | _ : 0 <= byte_val c < 256 |- _ => fail
    | _ => pose proof (byte_val_range c)
    end end.

Ltac seq_cases :=
  unfold seq2, seq3, seq4, is_cont, in_range; intros; byte_ranges;
  repeat case_match; simplify_eq; boolP.

Lemma byte_of_eq z c : z = byte_val c -> byte_of z = c.
Proof. intros ->. apply byte_of_val. Qed.

Ltac solve_seq :=
  seq_cases; unfold valid_rune, chunk_ok, Encode;
  (split; [lia|]);
  repeat match goal with |- context [?a <? ?b] =>
    destruct (Z.ltb_spec a b); try lia end;
  unfold str1; repeat f_equal; apply byte_of_eq; Z.to_euclidean_division_equations; lia.

Lemma seq2_spec c0 c1 r : seq2 c0 c1 = Some r ->
  valid_rune r /\ Encode r = String c0 (str1 c1).
Proof. solve_seq. Qed.

Lemma seq3_spec c0 c1 c2 r : seq3 c0 c1 c2 = Some r ->
  valid_rune r /\ Encode r = String c0 (String c1 (str1 c2)).
Proof. solve_seq. Qed.

Lemma seq4_spec c0 c1 c2 c3 r : seq4 c0 c1 c2 c3 = Some r ->
  valid_rune r /\ Encode r = String c0 (String c1 (String c2 (str1 c3))).
Proof. solve_seq. Qed.

Lemma Encode_ascii c : byte_val c < 128 -> Encode (byte_val c) = str1 c.
Proof. intros H. unfold Encode. destruct (Z.ltb_spec (byte_val c) 128); [|lia].
  by rewrite byte_of_val. Qed.

(** The chunks of [s] are well formed and spell [s]. *)
Lemma chunks_spec s :
  concat_map chunk_bytes (chunks s) = s /\ Forall chunk_ok (chunks s).
Proof.
  induction s as [s IH] using (induction_ltof1 _ String.length).
  unfold ltof in IH. destruct s as [|c0 s1]; [done|]. simpl.
  pose proof (byte_val_range c0).
  assert (Hbad : 128 <= byte_val c0 ->
    concat_map chunk_bytes (Bad c0 :: chunks s1) = String c0 s1
    /\ Forall chunk_ok (Bad c0 :: chunks s1)).
  { intros. destruct (IH s1) as [E F]; [simpl; lia|]. simpl. rewrite E. by repeat constructor. }
  destruct (Z.ltb_spec (byte_val c0) 128).
  { destruct (IH s1) as [E F]; [simpl; lia|]. simpl. rewrite E, Encode_ascii by done.
    split; [done|]. constructor; [left; lia|done]. }
  destruct s1 as [|c1 s2]; [auto|].
  destruct (seq2 c0 c1) eqn:E2.
  { apply seq2_spec in E2 as [V E2]. destruct (IH s2) as [E F]; [simpl; lia|].
    simpl. rewrite E, E2. split; [done|]. by constructor. }
  destruct s2 as [|c2 s3]; [auto|].
  destruct (seq3 c0 c1 c2) eqn:E3.
  { apply seq3_spec in E3 as [V E3]. destruct (IH s3) as [E F]; [simpl; lia|].
    simpl. rewrite E, E3. split; [done|]. by constructor. }
  destruct s3 as [|c3 s4]; [auto|].
  destruct (seq4 c0 c1 c2 c3) eqn:E4; [|auto].
  apply seq4_spec in E4 as [V E4]. destruct (IH s4) as [E F]; [simpl; lia|].
  simpl. rewrite E, E4. split; [done|]. by constructor.
Qed.

Lemma chunks_bytes s : concat_map chunk_bytes (chunks s) = s.
Proof. apply chunks_spec. Qed.

Lemma chunks_ok s ch : ch ∈ chunks s -> chunk_ok ch.
Proof. destruct (chunks_spec s) as [_ H]. rewrite Forall_forall in H. apply H. Qed.

(** *** Valid strings *)

(** One step of [chunks] at a multi-byte sequence. *)
Lemma chunks_step2 c0 c1 s r :
  128 <= byte_val c0 -> seq2 c0 c1 = Some r -> chunks (String c0 (String c1 s)) = Rune r :: chunks s.
Proof. intros H E. simpl. destruct (Z.ltb_spec (byte_val c0) 128); [lia|]. by rewrite E. Qed.

Lemma chunks_step3 c0 c1 c2 s r :
  128 <= byte_val c0 -> seq2 c0 c1 = None -> seq3 c0 c1 c2 = Some r ->
  chunks (String c0 (String c1 (String c2 s))) = Rune r :: chunks s.
Proof. intros H E2 E3. simpl. destruct (Z.ltb_spec (byte_val c0) 128); [lia|]. by rewrite E2, E3. Qed.

Lemma chunks_step4 c0 c1 c2 c3 s r :
  128 <= byte_val c0 -> seq2 c0 c1 = None -> seq3 c0 c1 c2 = None -> seq4 c0 c1 c2 c3 = Some r ->
  chunks (String c0 (String c1 (String c2 (String c3 s)))) = Rune r :: chunks s.
Proof. intros H E2 E3 E4. simpl. destruct (Z.ltb_spec (byte_val c0) 128); [lia|]. by rewrite E2, E3, E4. Qed.

(** The base-64 digits of a rune. *)
Lemma rune_digits r : 0 <= r ->
  exists a b c d, r / 262144 = a /\ (r / 4096) mod 64 = b /\ (r / 64) mod 64 = c /\ r mod 64 = d
    /\ r / 64 = (a * 64 + b) * 64 + c /\ r / 4096 = a * 64 + b
    /\ r = ((a * 64 + b) * 64 + c) * 64 + d /\ 0 <= a /\ 0 <= b < 64 /\ 0 <= c < 64 /\ 0 <= d < 64.
Proof.
  intros H. exists (r / 262144), ((r / 4096) mod 64), ((r / 64) mod 64), (r mod 64).
  split_and!; try done; Z.to_euclidean_division_equations; lia.
Qed.

(** Decide the comparisons of bytes that are spelled as numbers. *)
Ltac byte_tests :=
  unfold seq2, seq3, seq4, is_cont, in_range; rewrite ?byte_val_of by lia;
  repeat match goal with
  | |- context [?a =? ?b] => destruct (Z.eqb_spec a b); try lia
  | |- context [?a <? ?b] => destruct (Z.ltb_spec a b); try lia
  | |- context [?a <=? ?b] => destruct (Z.leb_spec a b); try lia
  end; simpl; try done; f_equal; lia.

Lemma chunks_Encode r s : valid_rune r -> chunks (Encode r +:+ s) = Rune r :: chunks s.
Proof.
  intros Hv. unfold Encode, valid_rune in *.
  destruct (rune_digits r) as (a & b & c & d & Ea & Eb & Ec & Ed & E2 & E3 & Er & Ha & Hb & Hc & Hd); [lia|].
  rewrite Ea, Eb, Ec, Ed, E2, E3. clear Ea Eb Ec Ed E2 E3.
  destruct (Z.ltb_spec r 128); [|destruct (Z.ltb_spec r 2048); [|destruct (Z.ltb_spec r 65536)]].
  - simpl. rewrite byte_val_of by lia. destruct (Z.ltb_spec r 128); [done|lia].
  - apply chunks_step2; [rewrite byte_val_of; lia|byte_tests].
  - apply chunks_step3; [rewrite byte_val_of; lia|byte_tests..].
  - apply chunks_step4; [rewrite byte_val_of; lia|byte_tests..].
Qed.

(** [strings.ToValidUTF8(s, "\uFFFD")] for one invalid byte at a time: what a
    loop over the runes of [s] spells. *)
Definition coerce_chunk (ch : chunk) : string := match ch with Rune r => Encode r | Bad _ => Encode RuneError end.
Definition coerce (s : string) : string := concat_map coerce_chunk (chunks s).

Lemma ValidString_coerce s : ValidString s = true -> coerce s = s.
Proof.
  unfold ValidString, coerce. intros H. rewrite <- (chunks_bytes s) at 2.
  induction (chunks s) as [|[r|c] l IH]; [done| |done]. simpl. by rewrite IH.
Qed.

Lemma chunks_spelled l s :
  Forall chunk_ok l -> forallb is_rune l = true -> chunks (concat_map chunk_bytes l +:+ s) = l ++ chunks s.
Proof.
  induction 1 as [|[r|c] l Hr _ IH]; [done| |done]. intros H. simpl.
  rewrite append_assoc, chunks_Encode by done. f_equal. by apply IH.
Qed.

Lemma chunks_app a b : ValidString a = true -> chunks (a +:+ b) = chunks a ++ chunks b.
Proof.
  intros H. rewrite <- (chunks_bytes a) at 1. apply chunks_spelled; [apply chunks_spec|exact H].
Qed.

Lemma ValidString_app a b : ValidString a = true -> ValidString b = true -> ValidString (a +:+ b) = true.
Proof. intros Ha Hb. unfold ValidString. rewrite chunks_app, forallb_app by done. by apply andb_true_iff. Qed.

Lemma ValidString_Encode r : valid_rune r -> ValidString (Encode r) = true.
Proof.
  intros H. unfold ValidString. rewrite <- (append_empty_r (Encode r)). by rewrite chunks_Encode.
Qed.

Definition is_ascii (c : ascii) : bool := byte_val c <? 128.

Lemma ValidString_ascii s : all_bytes is_ascii s = true -> ValidString s = true.
Proof.
  induction s as [|c s IH]; [done|]. simpl. intros [Hc Hs]%andb_true_iff.
  unfold ValidString. simpl. unfold is_ascii in Hc. rewrite Hc. simpl. by apply IH.
Qed.

Lemma ValidString_concat_map {A} (f : A -> string) l :
  (forall a, a ∈ l -> ValidString (f a) = true) -> ValidString (concat_map f l) = true.
Proof.
  induction l as [|a l IH]; [done|]. intros H. simpl. apply ValidString_app; [|apply IH]; set_solver.
Qed.

End Utf8.

(** ** Package strconv: quoting *)
Module Strconv.

(** [lowerhex[r>>s & 0xF]] for the [n] low nibbles of [r], high one first. *)
Fixpoint hex_digits (n : nat) (r : Z) : string :=
  match n with
  | O => EmptyString
  | S n' => String (Hex.digit (r / 16 ^ Z.of_nat n' mod 16)) (hex_digits n' r)
  end.

Definition esc (s : string) : string := String backslash s.

(** [strconv.IsPrint]: 0x20 to 0x7E of ASCII; the Unicode tables for the
    rest are the argument [unicode_print]. *)
Definition IsPrint (unicode_print : Z -> bool) (r : Z) : bool :=
  if r <? 128 then (32 <=? r) && (r <=? 126) else unicode_print r.

(** The escapes of one letter. *)
Definition letter_of (r : Z) : option ascii :=
  if r =? 7 then Some "a"%char else if r =? 8 then Some "b"%char
  else if r =? 12 then Some "f"%char else if r =? 10 then Some "n"%char
  else if r =? 13 then Some "r"%char else if r =? 9 then Some "t"%char
  else if r =? 11 then Some "v"%char else None.

Section Quote.
(** [ASCIIonly] of [appendQuotedWith], and the Unicode print table. *)
Context (ascii_only : bool) (unicode_print : Z -> bool).

(** [appendEscapedRune] for a valid rune and the quote [dquote]. *)
Definition escape_rune (r : Z) : string :=
  if (r =? byte_val dquote) || (r =? byte_val backslash) then esc (str1 (byte_of r))
  else if (if ascii_only then (r <? 128) && IsPrint unicode_print r
           else IsPrint unicode_print r) then Utf8.Encode r
  else match letter_of r with
       | Some l => esc (str1 l)
       | None =>
           if (r <? 32) || (r =? 127) then esc (String "x" (hex_digits 2 r))
           else if r <? 65536 then esc (String "u" (hex_digits 4 r))
           else esc (String "U" (hex_digits 8 r))
       end.

Definition escape_chunk (ch : Utf8.chunk) : string :=
  match ch with
  | Utf8.Rune r => escape_rune r
  | Utf8.Bad c => esc (String "x" (hex_digits 2 (byte_val c)))
  end.

Definition quote_body (s : string) : string := concat_map escape_chunk (Utf8.chunks s).

Definition quote_with (s : string) : string :=
  String dquote (quote_body s +:+ str1 dquote).
End Quote.

(** [strconv.QuoteToASCII(s)] *)
Definition QuoteToASCII (s : string) : string := quote_with true (fun _ => false) s.

(** [strconv.Quote(s)], which is also what [%q] prints. *)
Definition Quote (unicode_print : Z -> bool) (s : string) : string :=
  quote_with false unicode_print s.

(** *** Reading a quoted string back

    [unquote s] reads up to the closing quote: the bytes written and what
    follows.  It is the inverse the round-trip lemmas use. *)
Definition hex_value (l : list ascii) : option Z :=
  foldl (fun acc c => match acc, Hex.undigit c with
                      | Some a, Some d => Some (a * 16 + d) | _, _ => None end) (Some 0) l.

Definition unletter (c : ascii) : option ascii :=
  if Ascii.eqb c "a" then Some (byte_of 7) else if Ascii.eqb c "b" then Some (byte_of 8)
  else if Ascii.eqb c "f" then Some (byte_of 12) else if Ascii.eqb c "n" then Some (byte_of 10)
  else if Ascii.eqb c "r" then Some (byte_of 13) else if Ascii.eqb c "t" then Some (byte_of 9)
  else if Ascii.eqb c "v" then Some (byte_of 11)
  else if Ascii.eqb c dquote then Some dquote
  else if Ascii.eqb c backslash then Some backslash else None.

Definition prepend (p : string) (r : option (string * string)) : option (string * string) :=
  match r with Some (v, rest) => Some (p +:+ v, rest) | None => None end.

Definition with_hex (l : list ascii) (f : Z -> string)
    (k : option (string * string)) : option (string * string) :=
  match hex_value l with Some v => prepend (f v) k | None => None end.

Fixpoint unquote (s : string) : option (string * string) :=
  match s with
  | EmptyString => None
  | String c s1 =>
      if Ascii.eqb c dquote then Some (EmptyString, s1)
      else if negb (Ascii.eqb c backslash) then prepend (str1 c) (unquote s1)
      else match s1 with
      | EmptyString => None
      | String e s2 =>
          if Ascii.eqb e "x" then
            match s2 with
            | String h1 (String h2 s3) =>
                with_hex [h1; h2] (fun v => str1 (byte_of v)) (unquote s3)
            | _ => None
            end
          else if Ascii.eqb e "u" then
            match s2 with
            | String h1 (String h2 (String h3 (String h4 s3))) =>
                with_hex [h1; h2; h3; h4] Utf8.Encode (unquote s3)
            | _ => None
            end
          else if Ascii.eqb e "U" then
            match s2 with
            | String h1 (String h2 (String h3 (String h4
                (String h5 (String h6 (String h7 (String h8 s3))))))) =>
                with_hex [h1; h2; h3; h4; h5; h6; h7; h8] Utf8.Encode (unquote s3)
            | _ => None
            end
          else match unletter e with
               | Some b => prepend (str1 b) (unquote s2)
               | None => None
               end
      end
  end.

Definition digit_list (n : nat) (r : Z) : list ascii :=
  map (fun i => Hex.digit (r / 16 ^ Z.of_nat i mod 16)) (rev (seq 0 n)).

Lemma mod16_range r n : 0 <= r / 16 ^ Z.of_nat n mod 16 < 16.
Proof. apply Z.mod_pos_bound. lia. Qed.

Lemma hex_value_app l a v :
  hex_value l = Some a -> forall c, Hex.undigit c = Some v -> hex_value (l ++ [c]) = Some (a * 16 + v).
Proof. intros H c Hc. unfold hex_value in *. by rewrite foldl_app, H; simpl; rewrite Hc. Qed.

(** The digits of [r] read back as [r], modulo what they can hold. *)
Lemma hex_value_digits n r :
  hex_value (digit_list n r) = Some (r mod 16 ^ Z.of_nat n).
Proof.
  revert r. induction n as [|n IH]; intros r.
  { simpl. by rewrite Z.mod_1_r. }
  assert (E : digit_list (S n) r = digit_list n (r / 16) ++ [Hex.digit (r mod 16)]).
  { unfold digit_list. rewrite <- cons_seq, <- seq_shift. simpl. rewrite map_app. simpl.
    rewrite Z.div_1_r, <- map_rev, map_map. f_equal. apply map_ext. intros i.
    rewrite Nat2Z.inj_succ, Z.pow_succ_r, Z.div_div by lia. done. }
  rewrite E. erewrite hex_value_app; [|apply IH|apply Hex.undigit_digit, Z.mod_pos_bound; lia].
  f_equal. rewrite Nat2Z.inj_succ, Z.pow_succ_r by lia.
  rewrite Z.rem_mul_r by lia. lia.
Qed.

(** *** Round trip *)
Lemma hex_digits_list n r : hex_digits n r = foldr String EmptyString (digit_list n r).
Proof.
  induction n as [|n IH]; [done|]. unfold digit_list. rewrite seq_S, rev_app_distr. simpl.
  by rewrite IH.
Qed.

Lemma with_hex_digits n r f k :
  0 <= r < 16 ^ Z.of_nat n -> with_hex (digit_list n r) f k = prepend (f r) k.
Proof. intros. unfold with_hex. by rewrite hex_value_digits, Z.mod_small. Qed.

Lemma unquote_x r s : 0 <= r < 256 ->
  unquote (esc (String "x" (hex_digits 2 r)) +:+ s) = prepend (str1 (byte_of r)) (unquote s).
Proof. intros. apply (with_hex_digits 2 r (fun v => str1 (byte_of v)) (unquote s)). lia. Qed.

Lemma unquote_u r s : 0 <= r < 65536 ->
  unquote (esc (String "u" (hex_digits 4 r)) +:+ s) = prepend (Utf8.Encode r) (unquote s).
Proof. intros. apply (with_hex_digits 4 r Utf8.Encode (unquote s)). lia. Qed.

Lemma unquote_U r s : 0 <= r < 4294967296 ->
  unquote (esc (String "U" (hex_digits 8 r)) +:+ s) = prepend (Utf8.Encode r) (unquote s).
Proof. intros. apply (with_hex_digits 8 r Utf8.Encode (unquote s)). lia. Qed.

Lemma prepend_app a b r : prepend (a +:+ b) r = prepend a (prepend b r).
Proof. destruct r as [[]|]; simpl; [by rewrite append_assoc|done]. Qed.

(** Bytes that are neither the quote nor the backslash stand for themselves. *)
Definition plain (c : ascii) : bool :=
  negb (Ascii.eqb c dquote) && negb (Ascii.eqb c backslash).

Lemma unquote_plain p s : all_bytes plain p = true ->
  unquote (p +:+ s) = prepend p (unquote s).
Proof.
  induction p as [|c p IH]; simpl.
  { intros _. by destruct (unquote s) as [[]|]. }
  unfold plain at 1. intros [[H1 H2]%andb_true_iff Hp]%andb_true_iff.
  apply negb_true_iff in H1, H2. rewrite H1, H2. simpl. rewrite IH by done.
  by destruct (unquote s) as [[]|].
Qed.

Lemma Encode_plain r : Utf8.valid_rune r -> r <> 34 -> r <> 92 ->
  all_bytes plain (Utf8.Encode r) = true.
Proof.
  intros Hv H34 H92.
  assert (Hp : forall z, 0 <= z < 256 -> z <> 34 -> z <> 92 -> plain (byte_of z) = true).
  { intros z Hz Hq Hb. unfold plain. rewrite andb_true_iff, !negb_true_iff.
    split; apply Ascii.eqb_neq; intros E; apply (f_equal byte_val) in E;
      rewrite byte_val_of in E by done; [exact (Hq E)|exact (Hb E)]. }
  unfold Utf8.Encode, Utf8.valid_rune in *.
  repeat match goal with |- context [?a <? ?b] => destruct (Z.ltb_spec a b) end;
    simpl; rewrite !andb_true_iff; repeat split; apply Hp;
    Z.to_euclidean_division_equations; lia.
Qed.

Lemma letter_of_spec r l : letter_of r = Some l ->
  unletter l = Some (byte_of r) /\ 0 <= r < 128 /\ l <> "x"%char /\ l <> "u"%char /\ l <> "U"%char.
Proof.
  unfold letter_of. intros. repeat case_match; simplify_eq; boolP; subst;
    (split; [reflexivity|]); repeat split; try lia; done.
Qed.

Lemma unquote_letter l b s :
  unletter l = Some b -> l <> "x"%char -> l <> "u"%char -> l <> "U"%char ->
  unquote (esc (str1 l) +:+ s) = prepend (str1 b) (unquote s).
Proof.
  intros Hl H1 H2 H3. apply Ascii.eqb_neq in H1, H2, H3.
  simpl. by rewrite H1, H2, H3, Hl.
Qed.

Lemma unquote_rune ao up r s : Utf8.valid_rune r ->
  unquote (escape_rune ao up r +:+ s) = prepend (Utf8.Encode r) (unquote s).
Proof.
  intros Hv. unfold escape_rune.
  assert (Hlow : 0 <= r < 128 -> Utf8.Encode r = str1 (byte_of r)).
  { intros. unfold Utf8.Encode. destruct (Z.ltb_spec r 128); [done|lia]. }
  destruct (Z.eqb_spec r (byte_val dquote)) as [->|Hq]; [done|].
  destruct (Z.eqb_spec r (byte_val backslash)) as [->|Hb]; [done|]. simpl.
  change (byte_val dquote) with 34 in Hq. change (byte_val backslash) with 92 in Hb.
  case_match; [apply unquote_plain, Encode_plain; done|].
  destruct (letter_of r) as [l|] eqn:El.
  { apply letter_of_spec in El as (? & ? & ? & ? & ?).
    rewrite Hlow by done. by apply unquote_letter. }
  unfold Utf8.valid_rune in Hv.
  destruct (Z.ltb_spec r 32); [|destruct (Z.eqb_spec r 127); [|destruct (Z.ltb_spec r 65536)]];
    simpl orb; cbv iota.
  - rewrite Hlow by lia. apply unquote_x. lia.
  - rewrite Hlow by lia. apply unquote_x. lia.
  - apply unquote_u. lia.
  - apply unquote_U. lia.
Qed.

Lemma unquote_chunk ao up ch s : Utf8.chunk_ok ch ->
  unquote (escape_chunk ao up ch +:+ s) = prepend (Utf8.chunk_bytes ch) (unquote s).
Proof.
  destruct ch as [r|c]; [apply unquote_rune|intros _].
  pose proof (unquote_x (byte_val c) s (byte_val_range c)) as H.
  by rewrite byte_of_val in H.
Qed.

Lemma unquote_chunks ao up l s : Forall Utf8.chunk_ok l ->
  unquote (concat_map (escape_chunk ao up) l +:+ s)
  = prepend (concat_map Utf8.chunk_bytes l) (unquote s).
Proof.
  induction 1 as [|ch l Hch Hl IH]; simpl.
  { by destruct (unquote s) as [[]|]. }
  by rewrite append_assoc, unquote_chunk, IH, prepend_app.
Qed.

(** What follows a quoted string does not disturb reading it back. *)
Lemma unquote_quote ao up s rest :
  unquote (quote_body ao up s +:+ String dquote rest) = Some (s, rest).
Proof.
  unfold quote_body. rewrite unquote_chunks by apply Utf8.chunks_spec.
  rewrite Utf8.chunks_bytes. simpl. by rewrite append_empty_r.
Qed.

(** A quoted string is a prefix code: it determines the string and the rest. *)
Lemma quote_with_inj ao up s s' rest rest' :
  quote_with ao up s +:+ rest = quote_with ao up s' +:+ rest' -> s = s' /\ rest = rest'.
Proof.
  unfold quote_with. simpl. rewrite !append_assoc. intros [= H].
  apply (f_equal unquote) in H. rewrite !unquote_quote in H. by simplify_eq.
Qed.

(** *** The bytes of a quoted string *)

(** Space to [~]: nothing a terminal or a page could take for a control. *)
Definition printable_ascii (c : ascii) : bool := (32 <=? byte_val c) && (byte_val c <=? 126).

Lemma hex_digits_printable n r : all_bytes printable_ascii (hex_digits n r) = true.
Proof.
  induction n as [|n IH]; simpl; [done|]. rewrite IH, andb_true_r.
  assert (H : forall d, 0 <= d < 16 -> printable_ascii (Hex.digit d) = true); [|apply H, mod16_range].
  intros d Hd. unfold Hex.digit, printable_ascii.
  destruct (Z.ltb_spec d 10); rewrite byte_val_of by lia;
    rewrite andb_true_iff, !Z.leb_le; lia.
Qed.

Lemma esc_printable (p : string) : all_bytes printable_ascii p = true ->
  all_bytes printable_ascii (esc p) = true.
Proof. done. Qed.

Lemma letter_printable r l : letter_of r = Some l ->
  all_bytes printable_ascii (esc (str1 l)) = true.
Proof. unfold letter_of. intros. repeat case_match; simplify_eq; reflexivity. Qed.

Lemma escape_chunk_printable up ch :
  Utf8.chunk_ok ch -> all_bytes printable_ascii (escape_chunk true up ch) = true.
Proof.
  destruct ch as [r|c]; simpl; [|intros _; apply (hex_digits_printable 2)].
  intros Hv. unfold escape_rune, IsPrint.
  destruct (Z.eqb_spec r (byte_val dquote)) as [->|]; [done|].
  destruct (Z.eqb_spec r (byte_val backslash)) as [->|]; [done|]. simpl.
  destruct (Z.ltb_spec r 128); simpl.
  - destruct (Z.leb_spec 32 r), (Z.leb_spec r 126); simpl.
    { unfold Utf8.Encode. destruct (Z.ltb_spec r 128); [|lia]. simpl.
      unfold printable_ascii. rewrite byte_val_of by lia.
      rewrite andb_true_r, andb_true_iff, !Z.leb_le. lia. }
    all: destruct (letter_of r) eqn:El; [by apply letter_printable in El|].
    all: case_match; [apply (hex_digits_printable 2)|boolP; lia].
  - destruct (letter_of r) eqn:El; [by apply letter_printable in El|].
    repeat case_match; apply (hex_digits_printable 2) || apply (hex_digits_printable 4)
      || apply (hex_digits_printable 8).
Qed.

(** [QuoteToASCII] prints printable ASCII only. *)
Lemma QuoteToASCII_printable s : all_bytes printable_ascii (QuoteToASCII s) = true.
Proof.
  unfold QuoteToASCII, quote_with, quote_body. simpl. rewrite all_bytes_app.
  rewrite all_bytes_concat_map; [done|]. intros ch Hch.
  apply escape_chunk_printable. by apply (Utf8.chunks_ok s).
Qed.

Lemma printable_is_ascii s : all_bytes printable_ascii s = true -> Utf8.ValidString s = true.
Proof.
  intros H. apply Utf8.ValidString_ascii. revert H. apply all_bytes_impl. intros c.
  unfold printable_ascii, Utf8.is_ascii. rewrite andb_true_iff, Z.leb_le, Z.leb_le, Z.ltb_lt. lia.
Qed.

(** [Quote] prints valid UTF-8. *)
Lemma Quote_valid up s : Utf8.ValidString (Quote up s) = true.
Proof.
  unfold Quote, quote_with, quote_body.
  apply (Utf8.ValidString_app (str1 dquote)); [done|]. apply Utf8.ValidString_app; [|done].
  apply Utf8.ValidString_concat_map. intros ch Hch%Utf8.chunks_ok.
  pose proof (escape_chunk_printable up ch Hch) as Hp%printable_is_ascii.
  destruct ch as [r|c]; [|done]. cbn [escape_chunk] in *. unfold escape_rune in *.
  destruct (_ || _); [done|]. destruct (IsPrint up r); [by apply Utf8.ValidString_Encode|].
  by rewrite andb_false_r in Hp.
Qed.

End Strconv.

(** ** Package strings: case *)
Module Lower.
(** [strings.ToLower]; [unicode_lower] is [unicode.ToLower] beyond ASCII.  An
    invalid byte becomes the encoding of [RuneError]. *)
Definition lower_rune (unicode_lower : Z -> Z) (r : Z) : Z :=
  if r <? 128 then (if (65 <=? r) && (r <=? 90) then r + 32 else r) else unicode_lower r.

Definition ToLower (unicode_lower : Z -> Z) (s : string) : string :=
  concat_map (fun r => Utf8.Encode (lower_rune unicode_lower r)) (Utf8.runes s).
End Lower.
