(* ===== verification/GoJson.v ===== *)
(** * Go encoding/json and time, the output side

    [json.Marshal] of the records secrets-broker writes, byte for byte, and the
    RFC 3339 form of the UTC times in them. *)

From stdpp Require Import pretty.
From S2P Require Import Prelude GoStrings GoText.

#[local] Open Scope Z_scope.

(** ** Package encoding/json: output *)
Module Json.

(** [htmlSafeSet]: the ASCII bytes that need no escape. *)
Definition html_safe (r : Z) : bool :=
  (32 <=? r) && (r <? 128) && negb (r =? 34) && negb (r =? 38)
  && negb (r =? 60) && negb (r =? 62) && negb (r =? 92).

(** [appendString] with HTML escaping, on one chunk. *)
Definition escape_chunk (ch : Utf8.chunk) : string :=
  match ch with
  | Utf8.Bad _ => Strconv.esc "ufffd"
  | Utf8.Rune r =>
      if r <? 128 then
        if html_safe r then Utf8.Encode r
        else if (r =? 92) || (r =? 34) then Strconv.esc (str1 (byte_of r))
        else if r =? 8 then Strconv.esc "b"
        else if r =? 12 then Strconv.esc "f"
        else if r =? 10 then Strconv.esc "n"
        else if r =? 13 then Strconv.esc "r"
        else if r =? 9 then Strconv.esc "t"
        else Strconv.esc ("u00" +:+ Strconv.hex_digits 2 r)
      else if (r =? 8232) || (r =? 8233)
      then Strconv.esc ("u202" +:+ str1 (Hex.digit (r mod 16)))
      else Utf8.Encode r
  end.

Definition encode_body (s : string) : string := concat_map escape_chunk (Utf8.chunks s).

Definition encode_string (s : string) : string :=
  String dquote (encode_body s +:+ str1 dquote).

Definition encode_array (l : list string) : string :=
  "[" +:+ Strings.Join l "," +:+ "]".

(** A [[]string] that is not nil. *)
Definition encode_strings (l : list string) : string :=
  encode_array (map encode_string l).

Definition encode_bool (b : bool) : string := if b then "true" else "false".

(** One member of an object; [None] is a field left out by [omitempty]. *)
Definition member (name : string) (v : string) : option string :=
  Some (String dquote (name +:+ String dquote (":" +:+ v))).

Definition omitempty (name : string) (empty : bool) (v : string) : option string :=
  if empty then None else member name v.

Definition encode_object (members : list (option string)) : string :=
  "{" +:+ Strings.Join (omap id members) "," +:+ "}".

(** *** Reading a string back

    [Strconv.unquote] reads every escape [encode_string] writes; a decoder
    gives the string back, with each invalid byte as [RuneError]. *)

Lemma unquote_escape_chunk ch s :
  Utf8.chunk_ok ch ->
  Strconv.unquote (escape_chunk ch +:+ s) = Strconv.prepend (Utf8.coerce_chunk ch) (Strconv.unquote s).
Proof.
  destruct ch as [r|c]; [|intros _; apply (Strconv.unquote_u 65533); lia]. cbn. intros Hv.
  assert (Hp : r <> 34 -> r <> 92 -> Strconv.unquote (Utf8.Encode r +:+ s)
                 = Strconv.prepend (Utf8.Encode r) (Strconv.unquote s))
    by (intros; by apply Strconv.unquote_plain, Strconv.Encode_plain).
  destruct (Z.ltb_spec r 128).
  - assert (He : Utf8.Encode r = str1 (byte_of r))
      by (unfold Utf8.Encode; destruct (Z.ltb_spec r 128); [done|lia]).
    destruct (html_safe r) eqn:Hs; [unfold html_safe in Hs; boolP; by apply Hp|].
    destruct (_ || _) eqn:Hq; [apply orb_true_iff in Hq as [Hq|Hq]; boolP; by subst|].
    repeat (case_match; [boolP; by subst|]). rewrite He.
    unfold Utf8.valid_rune in Hv.
    pose proof (Strconv.unquote_u r s ltac:(lia)) as Hu. rewrite He in Hu. rewrite <- Hu.
    f_equal. cbn [Strconv.hex_digits Strconv.esc String.append].
    rewrite (Z.div_small r (16 ^ Z.of_nat 3)), (Z.div_small r (16 ^ Z.of_nat 2)) by (simpl; lia). done.
  - destruct (_ || _) eqn:Hq; [apply orb_true_iff in Hq as [Hq|Hq]; boolP; by subst|].
    apply Hp; lia.
Qed.

Lemma unquote_encode_body s rest :
  Strconv.unquote (encode_body s +:+ String dquote rest) = Some (Utf8.coerce s, rest).
Proof.
  unfold encode_body, Utf8.coerce. destruct (Utf8.chunks_spec s) as [_ H].
  induction H as [|ch l Hch _ IH]; [done|]. cbn [concat_map foldr]. rewrite append_assoc.
  rewrite unquote_escape_chunk by done. fold (concat_map escape_chunk l).
  fold (concat_map Utf8.coerce_chunk l). by rewrite IH.
Qed.

(** *** The length of the output *)

Lemma len_Encode r : 1 <= len (Utf8.Encode r) /\ (2048 <= r -> 3 <= len (Utf8.Encode r)).
Proof. unfold Utf8.Encode. repeat case_match; unfold len; cbn; lia. Qed.

Lemma len_escape_chunk ch : len (escape_chunk ch) <= 6 * len (Utf8.chunk_bytes ch).
Proof.
  destruct ch as [r|c]; [|done]. cbn. destruct (len_Encode r) as [H1 H3].
  repeat case_match; unfold len in *; cbn -[Z.of_nat Utf8.Encode Z.mul] in *; boolP; lia.
Qed.

(** No byte takes more than six in a JSON string. *)
Lemma len_encode_string s : len (encode_string s) <= 2 + 6 * len s.
Proof.
  unfold encode_string, encode_body. rewrite <- (Utf8.chunks_bytes s) at 2.
  assert (H : len (concat_map escape_chunk (Utf8.chunks s)) <= 6 * len (concat_map Utf8.chunk_bytes (Utf8.chunks s))).
  { induction (Utf8.chunks s) as [|ch l IH]; [unfold len; cbn; lia|].
    unfold concat_map in *. cbn [foldr].
    rewrite !len_append. pose proof (len_escape_chunk ch). lia. }
  unfold len in *. cbn [String.length]. rewrite length_append. cbn [String.length str1]. lia.
Qed.

Lemma len_Join l k : Forall (fun e => len e <= k) l -> len (Strings.Join l ",") <= (k + 1) * Z.of_nat (length l).
Proof.
  induction 1 as [|e l He Hl IH]; [unfold len; cbn; lia|].
  destruct l as [|e' l]; [cbn -[Z.mul]; lia|].
  change (Strings.Join (e :: e' :: l) ",") with (e +:+ "," +:+ Strings.Join (e' :: l) ",").
  rewrite !len_append. change (len ",") with 1. cbn [length] in *. lia.
Qed.

(** *** No control byte in the output *)

(** Any byte from the space up: not a line feed, not a carriage return. *)
Definition no_control (c : ascii) : bool := 32 <=? byte_val c.

Lemma printable_no_control s :
  all_bytes Strconv.printable_ascii s = true -> all_bytes no_control s = true.
Proof.
  apply all_bytes_impl. unfold Strconv.printable_ascii, no_control. intros c.
  by intros [? _]%andb_true_iff.
Qed.

Lemma Encode_no_control r : Utf8.valid_rune r -> 32 <= r ->
  all_bytes no_control (Utf8.Encode r) = true.
Proof.
  intros Hv Hr. unfold Utf8.Encode, Utf8.valid_rune in *.
  repeat match goal with |- context [?a <? ?b] => destruct (Z.ltb_spec a b) end;
    simpl; unfold no_control; rewrite ?byte_val_of, ?andb_true_iff, ?Z.leb_le;
    repeat split; Z.to_euclidean_division_equations; lia.
Qed.

Lemma escape_chunk_no_control ch : Utf8.chunk_ok ch ->
  all_bytes no_control (escape_chunk ch) = true.
Proof.
  destruct ch as [r|c]; simpl; [|done]. intros Hv.
  destruct (Z.ltb_spec r 128).
  - destruct (html_safe r) eqn:Hs.
    { unfold html_safe in Hs. boolP. apply Encode_no_control; [done|lia]. }
    repeat (case_match; [try reflexivity|]).
    + boolP. unfold html_safe in Hs.
      match goal with H : _ || _ = true |- _ => apply orb_true_iff in H end.
      boolP. simpl. unfold no_control. destruct H0 as [H0|H0]; boolP; by subst.
    + apply (printable_no_control (Strconv.hex_digits 2 r)), Strconv.hex_digits_printable.
  - case_match; [|apply Encode_no_control; [done|lia]].
    match goal with H : _ || _ = true |- _ => apply orb_true_iff in H as [H|H] end;
      boolP; by subst.
Qed.

Lemma encode_string_no_control s : all_bytes no_control (encode_string s) = true.
Proof.
  unfold encode_string, encode_body. simpl. rewrite all_bytes_app.
  rewrite all_bytes_concat_map; [done|]. intros ch Hch.
  apply escape_chunk_no_control. by apply (Utf8.chunks_ok s).
Qed.

Lemma encode_array_no_control l :
  (forall w, w ∈ l -> all_bytes no_control w = true) ->
  all_bytes no_control (encode_array l) = true.
Proof. intros. unfold encode_array. rewrite !all_bytes_app.
  by rewrite Strings.all_bytes_Join. Qed.

Lemma encode_strings_no_control l : all_bytes no_control (encode_strings l) = true.
Proof.
  apply encode_array_no_control. intros w (s & -> & _)%list_elem_of_fmap.
  apply encode_string_no_control.
Qed.

Definition member_no_control (m : option string) : Prop :=
  forall v, m = Some v -> all_bytes no_control v = true.

Lemma member_ok name v :
  all_bytes no_control name = true -> all_bytes no_control v = true ->
  member_no_control (member name v).
Proof.
  intros Hn Hv w [= <-]. simpl. rewrite all_bytes_app, Hn. simpl. done.
Qed.

Lemma omitempty_ok name e v :
  all_bytes no_control name = true -> all_bytes no_control v = true ->
  member_no_control (omitempty name e v).
Proof. intros. destruct e; [done|]. by apply member_ok. Qed.

Lemma encode_object_no_control ms :
  Forall member_no_control ms -> all_bytes no_control (encode_object ms) = true.
Proof.
  intros H. unfold encode_object. rewrite !all_bytes_app, Strings.all_bytes_Join; [done| |done].
  intros w (m & Hm & E)%list_elem_of_omap. rewrite Forall_forall in H. by apply (H m Hm).
Qed.

#[export] Hint Resolve encode_string_no_control encode_strings_no_control member_ok omitempty_ok
  encode_object_no_control : json.

End Json.

(** ** Package time: formatting

    A [time.Time] is its nanoseconds since the Unix epoch, a [time.Duration]
    a number of nanoseconds. *)
Module Time.

Definition Nanosecond : Z := 1.
Definition Second : Z := 1000000000.
Definition Minute : Z := 60 * Second.

(** [t.After(u)], [t.Before(u)], [t.Equal(u)], [t.Add(d)] *)
Definition After (t u : Z) : bool := u <? t.
Definition Before (t u : Z) : bool := t <? u.
Definition Equal (t u : Z) : bool := t =? u.
Definition Add (t d : Z) : Z := t + d.

(** The proleptic Gregorian date of a day number (0 is 1970-01-01). *)
Definition civil (days : Z) : Z * Z * Z :=
  let z := days + 719468 in
  let era := z / 146097 in
  let doe := z - era * 146097 in
  let yoe := (doe - doe / 1460 + doe / 36524 - doe / 146096) / 365 in
  let doy := doe - (365 * yoe + yoe / 4 - yoe / 100) in
  let mp := (5 * doy + 2) / 153 in
  let d := doy - (153 * mp + 2) / 5 + 1 in
  let m := if mp <? 10 then mp + 3 else mp - 9 in
  ((if m <=? 2 then yoe + era * 400 + 1 else yoe + era * 400), m, d).

Definition year (t : Z) : Z := let '(y, _, _) := civil (t / (86400 * Second)) in y.

(** [n] in decimal, padded with zeros to [w] digits. *)
Definition pad (w : nat) (n : Z) : string :=
  let s := Itoa.Itoa n in Strings.Repeat "0" (w - String.length s) +:+ s.

Definition RFC3339_seconds (t : Z) : string :=
  let secs := t / Second in
  let '(y, m, d) := civil (secs / 86400) in
  let sod := secs mod 86400 in
  pad 4 y +:+ "-" +:+ pad 2 m +:+ "-" +:+ pad 2 d +:+ "T"
  +:+ pad 2 (sod / 3600) +:+ ":" +:+ pad 2 (sod / 60 mod 60) +:+ ":" +:+ pad 2 (sod mod 60).

(** [t.UTC().Format(time.RFC3339)] *)
Definition FormatRFC3339 (t : Z) : string := RFC3339_seconds t +:+ "Z".

(** [t.UTC().Format(time.RFC3339Nano)]: trailing zeros of the fraction are
    dropped, and the point with them. *)
Definition FormatRFC3339Nano (t : Z) : string :=
  let frac := t mod Second in
  RFC3339_seconds t
  +:+ (if frac =? 0 then "" else "." +:+ Strings.TrimRight (pad 9 frac) "0") +:+ "Z".

(** [Time.MarshalJSON]: the years 0 to 9999 have a form. *)
Definition MarshalJSON (t : Z) : option string :=
  if (0 <=? year t) && (year t <=? 9999)
  then Some (String dquote (FormatRFC3339Nano t +:+ str1 dquote)) else None.

(** *** No control byte in a formatted time *)
Notation clean := (all_bytes Json.no_control).

Lemma Itoa_clean n : clean (Itoa.Itoa n) = true.
Proof.
  apply Itoa.Itoa_all. intros c.
  pose proof (forall_ascii (fun c => implb (Itoa.itoa_char c) (Json.no_control c))
                ltac:(vm_compute; reflexivity) c) as H.
  simpl in H. intros Hc. by rewrite Hc in H.
Qed.

Lemma Repeat_0_clean n : clean (Strings.Repeat "0" n) = true.
Proof. by induction n. Qed.

Lemma pad_clean w n : clean (pad w n) = true.
Proof. unfold pad. by rewrite all_bytes_app, Repeat_0_clean, Itoa_clean. Qed.

Lemma TrimRight_clean s c : clean s = true -> clean (Strings.TrimRight s c) = true.
Proof.
  intros H. destruct (Strings.TrimRight_spec s c) as [n E]. rewrite E, all_bytes_app in H.
  by apply andb_true_iff in H as [? _].
Qed.

Lemma MarshalJSON_clean t s : MarshalJSON t = Some s -> clean s = true.
Proof.
  unfold MarshalJSON. case_match; [|done]. intros [= <-]. simpl.
  unfold FormatRFC3339Nano, RFC3339_seconds. destruct (civil _) as [[y m] d].
  rewrite !all_bytes_app, !pad_clean. simpl.
  case_match; simpl; rewrite ?TrimRight_clean by apply pad_clean; done.
Qed.

#[export] Hint Resolve Itoa_clean MarshalJSON_clean : json.

End Time.

Export (hints) Json Time.
