(* ===== verification/GoSha256.v ===== *)
(** * GoSha256: package crypto/sha256

    SHA-256 (FIPS 180-4) on byte strings: 32-bit words are integers below
    2^32, and every addition is taken modulo 2^32.  The administrator's code
    uses the digest as the revision of a policy, as a fingerprint of an argv
    in its log, and to tie a recovery artifact to the policy it restores. *)

From S2P Require Import Prelude GoStrings.

#[local] Open Scope Z_scope.

Module Sha256.

(** The first 32 bits of the fractional parts of the cube roots of the first
    64 primes, and of the square roots of the first 8. *)
Definition K : list Z := [
    1116352408; 1899447441; 3049323471; 3921009573; 961987163; 1508970993; 2453635748; 2870763221;
    3624381080; 310598401; 607225278; 1426881987; 1925078388; 2162078206; 2614888103; 3248222580;
    3835390401; 4022224774; 264347078; 604807628; 770255983; 1249150122; 1555081692; 1996064986;
    2554220882; 2821834349; 2952996808; 3210313671; 3336571891; 3584528711; 113926993; 338241895;
    666307205; 773529912; 1294757372; 1396182291; 1695183700; 1986661051; 2177026350; 2456956037;
    2730485921; 2820302411; 3259730800; 3345764771; 3516065817; 3600352804; 4094571909; 275423344;
    430227734; 506948616; 659060556; 883997877; 958139571; 1322822218; 1537002063; 1747873779;
    1955562222; 2024104815; 2227730452; 2361852424; 2428436474; 2756734187; 3204031479; 3329325298 ].

Definition H0 : list Z := [
    1779033703; 3144134277; 1013904242; 2773480762; 1359893119; 2600822924; 528734635; 1541459225 ].

Definition w32 (x : Z) : Z := x mod 2 ^ 32.
Definition rotr (n x : Z) : Z := Z.lor (Z.shiftr x n) (w32 (Z.shiftl x (32 - n))).
Definition not32 (x : Z) : Z := 2 ^ 32 - 1 - x.

Definition Sigma0 (x : Z) : Z := Z.lxor (Z.lxor (rotr 2 x) (rotr 13 x)) (rotr 22 x).
Definition Sigma1 (x : Z) : Z := Z.lxor (Z.lxor (rotr 6 x) (rotr 11 x)) (rotr 25 x).
Definition sigma0 (x : Z) : Z := Z.lxor (Z.lxor (rotr 7 x) (rotr 18 x)) (Z.shiftr x 3).
Definition sigma1 (x : Z) : Z := Z.lxor (Z.lxor (rotr 17 x) (rotr 19 x)) (Z.shiftr x 10).
Definition Ch (x y z : Z) : Z := Z.lxor (Z.land x y) (Z.land (not32 x) z).
Definition Maj (x y z : Z) : Z := Z.lxor (Z.lxor (Z.land x y) (Z.land x z)) (Z.land y z).

(** [n] bytes of [x], the most significant first. *)
Fixpoint big_endian (n : nat) (x : Z) : string :=
  match n with
  | O => ""
  | S n' => String (byte_of (Z.shiftr x (8 * Z.of_nat n') mod 256)) (big_endian n' x)
  end.

(** The message, a one bit, zeros, and the length in bits. *)
Definition pad (s : string) : string :=
  let zeros := (55 - String.length s `mod` 64)%nat in
  let zeros := if (String.length s `mod` 64 <=? 55)%nat then zeros
               else (119 - String.length s `mod` 64)%nat in
  s +:+ String (byte_of 128) (Strings.Repeat (byte_of 0) zeros +:+ big_endian 8 (8 * len s)).

(** The 32-bit words of a string of bytes. *)
Fixpoint words (s : string) : list Z :=
  match s with
  | String a (String b (String c (String d s'))) =>
      ((byte_val a * 256 + byte_val b) * 256 + byte_val c) * 256 + byte_val d :: words s'
  | _ => []
  end.

(** The message schedule, last word first. *)
Fixpoint schedule (n : nat) (w : list Z) : list Z :=
  match n with
  | O => w
  | S n' =>
      let w := schedule n' w in
      let at_ i := nth (i - 1) w 0 in
      w32 (sigma1 (at_ 2%nat) + at_ 7%nat + sigma0 (at_ 15%nat) + at_ 16%nat) :: w
  end.

Definition round (h : list Z) (kw : Z * Z) : list Z :=
  match h with
  | [a; b; c; d; e; f; g; hh] =>
      let t1 := hh + Sigma1 e + Ch e f g + kw.1 + kw.2 in
      let t2 := Sigma0 a + Maj a b c in
      [w32 (t1 + t2); a; b; c; w32 (d + t1); e; f; g]
  | _ => h
  end.

(** One block of sixteen words. *)
Definition compress (h block : list Z) : list Z :=
  let w := rev (schedule 48 (rev block)) in
  zip_with (fun x y => w32 (x + y)) h (foldl round h (zip K w)).

Fixpoint blocks (fuel : nat) (h ws : list Z) : list Z :=
  match fuel with
  | O => h
  | S fuel' =>
      match ws with
      | [] => h
      | _ => blocks fuel' (compress h (take 16 ws)) (drop 16 ws)
      end
  end.

(** [sha256.Sum256]: there are fewer blocks than words. *)
Definition Sum256 (s : string) : string :=
  let ws := words (pad s) in
  concat_map (big_endian 4) (blocks (length ws) H0 ws).

End Sha256.

(** [digestBytes]: [hex.EncodeToString] of the digest. *)
Definition digestBytes (data : string) : string := Hex.EncodeToString (Sha256.Sum256 data).

Example digest_empty :
  digestBytes "" = "e3b0c44298fc1c149afbf4c8996fb92427ae41e4649b934ca495991b7852b855".
Proof. vm_compute. reflexivity. Qed.

Example digest_abc :
  digestBytes "abc" = "ba7816bf8f01cfea414140de5dae2223b00361a396177a9cb410ff61f20015ad".
Proof. vm_compute. reflexivity. Qed.

Example digest_two_blocks :
  digestBytes "abcdbcdecdefdefgefghfghighijhijkijkljklmklmnlmnomnopnopq"
  = "248d6a61d20638b8e5c026930c3e6039a33ce45964ff2167f6ecedd419db06c1".
Proof. vm_compute. reflexivity. Qed.

(** ** The form of a digest *)

Lemma round_length h kw : length (Sha256.round h kw) = length h.
Proof. do 9 (destruct h as [|? h]; [done|]). done. Qed.

Lemma rounds_length l h : length (foldl Sha256.round h l) = length h.
Proof. revert h. induction l as [|kw l IH]; intros h; simpl; [done|]. by rewrite IH, round_length. Qed.

Lemma compress_length h b : length (Sha256.compress h b) = length h.
Proof. unfold Sha256.compress. rewrite length_zip_with, rounds_length. lia. Qed.

Lemma blocks_length fuel h ws : length (Sha256.blocks fuel h ws) = length h.
Proof.
  revert h ws. induction fuel as [|fuel IH]; intros h ws; simpl; [done|].
  destruct ws; [done|]. by rewrite IH, compress_length.
Qed.

Lemma big_endian_length n x : String.length (Sha256.big_endian n x) = n.
Proof. induction n as [|n IH]; simpl; [done|]. by rewrite IH. Qed.

Lemma concat_words_length l :
  String.length (concat_map (Sha256.big_endian 4) l) = (4 * length l)%nat.
Proof.
  induction l as [|x l IH]; [done|]. unfold concat_map in *. cbn [foldr].
  rewrite length_append, IH, big_endian_length. cbn [length]. lia.
Qed.

Lemma digestBytes_length s : String.length (digestBytes s) = 64%nat.
Proof.
  unfold digestBytes, Sha256.Sum256. by rewrite Hex.length_Encode, concat_words_length, blocks_length.
Qed.

Lemma digestBytes_hex s : all_bytes Hex.is_digit (digestBytes s) = true.
Proof. apply Hex.Encode_digits. Qed.
