(* ===== verification/GoSort.v ===== *)
(** * GoSort: package sort, by a time and then an ID

    Two components sort records with [sort.Slice] by a time, and by an ID
    where the times are equal.  [sort.Slice] promises some permutation that is
    sorted; with distinct IDs there is one. *)

From stdpp Require Import sorting.
From S2P Require Import Prelude GoJson.

#[local] Open Scope Z_scope.

(** [a] may come before [b] in a slice sorted by [less]. *)
Definition not_after {A} (less : A -> A -> bool) (a b : A) : Prop := less b a = false.

#[export] Instance not_after_dec {A} (less : A -> A -> bool) : RelDecision (not_after less).
Proof. intros a b. unfold not_after. apply _. Defined.

(** [sort.Slice] *)
Definition Slice {A} (less : A -> A -> bool) (l : list A) : list A := merge_sort (not_after less) l.

Lemma Slice_Permutation {A} (less : A -> A -> bool) l : Slice less l ≡ₚ l.
Proof. apply merge_sort_Permutation. Qed.

Module KeyOrder.
Section Order.
Context {A : Type} (key : A -> Z) (id : A -> string).

(** The comparison given to [sort.Slice]. *)
Definition less (a b : A) : bool :=
  if Time.Equal (key a) (key b)
  then bool_decide (String.le (id a) (id b) /\ id a <> id b)
  else Time.Before (key a) (key b).

(** Strictly or weakly before, by time and then by ID. *)
Definition by_key (a b : A) : Prop :=
  key a < key b \/ key a = key b /\ String.le (id a) (id b).

Notation not_after := (not_after less).
Notation Slice := (Slice less).

Lemma not_after_spec a b : not_after a b <-> by_key a b.
Proof.
  unfold GoSort.not_after, less, by_key, Time.Equal, Time.Before.
  destruct (Z.eqb_spec (key b) (key a)) as [E|E].
  - rewrite bool_decide_eq_false. split.
    + intros H. right. split; [done|]. destruct (decide (id b = id a)) as [->|]; [done|].
      destruct (total String.le (id a) (id b)); tauto.
    + intros [|[_ H]] [H1 H2]; [lia|]. apply H2. by apply (anti_symm String.le).
  - rewrite Z.ltb_ge. lia.
Qed.

Lemma StronglySorted_spec l : StronglySorted by_key l <-> StronglySorted not_after l.
Proof.
  split; induction 1; constructor; try done;
    (eapply Forall_impl; [done|]); intros; by apply not_after_spec.
Qed.

#[export] Instance not_after_total : Total not_after.
Proof.
  intros a b. rewrite !not_after_spec. unfold by_key.
  destruct (Z.lt_total (key a) (key b)) as [|[|]]; [tauto| |tauto].
  destruct (total String.le (id a) (id b)); naive_solver.
Qed.

#[export] Instance not_after_trans : Transitive not_after.
Proof.
  intros a b c. rewrite !not_after_spec. unfold by_key.
  intros [?|[? H1]] [?|[? H2]]; try (left; lia). right. split; [lia|]. by etrans.
Qed.

(** With an ID for each element the result is the only sorted permutation. *)
Lemma Slice_unique l l' :
  (forall a b, a ∈ l -> b ∈ l -> id a = id b -> a = b) ->
  l' ≡ₚ l /\ StronglySorted by_key l' <-> l' = Slice l.
Proof.
  intros Hid. assert (Hs : StronglySorted not_after (Slice l)) by (apply StronglySorted_merge_sort; apply _).
  split.
  - intros [Hp Hsort]. apply (StronglySorted_unique_strong not_after); [|..|done|].
    + intros a b Ha Hb. rewrite !not_after_spec. intros [?|[? H1]] [?|[? H2]]; try lia.
      rewrite Hp in Ha. rewrite Slice_Permutation in Hb.
      apply Hid; [done|done|by apply (anti_symm String.le)].
    + by apply StronglySorted_spec.
    + by rewrite Hp, Slice_Permutation.
  - intros ->. split; [apply Slice_Permutation|by apply StronglySorted_spec].
Qed.

End Order.
End KeyOrder.
