(* ===== verification/GoTemplate.v ===== *)
(** * GoTemplate: what the pages use of html/template

    A page is a list of pieces: the template's own text, and values escaped
    for the context they stand in, which [html/template] works out when it
    parses the template: text or a quoted attribute, or a URL in a quoted
    attribute.  The control actions ([if], [range], [else]) are the host
    language's. *)

From S2P Require Import Prelude GoStrings.

#[local] Open Scope Z_scope.

(** ** Escapers *)

(** [htmlReplacementTable]; the replacement of the zero byte is U+FFFD. *)
Definition replacement (c : ascii) : option string :=
  if Z.eqb (byte_val c) 0 then Some (String (byte_of 239) (String (byte_of 191) (str1 (byte_of 189))))
  else if Ascii.eqb c dquote then Some "&#34;"
  else if Ascii.eqb c "&" then Some "&amp;"
  else if Ascii.eqb c squote then Some "&#39;"
  else if Ascii.eqb c "+" then Some "&#43;"
  else if Ascii.eqb c "<" then Some "&lt;"
  else if Ascii.eqb c ">" then Some "&gt;"
  else None.

Definition escape_char (c : ascii) : string := default (str1 c) (replacement c).

(** [htmlReplacer] with [badRunes]: [_html_template_htmlescaper] of a string,
    and, for a string, [_html_template_attrescaper].  Every byte it replaces
    is ASCII, so the runes of the loop can be taken byte by byte. *)
Fixpoint escape (s : string) : string :=
  match s with
  | EmptyString => EmptyString
  | String c s => escape_char c +:+ escape s
  end.

Definition lower (c : ascii) : ascii :=
  if (65 <=? byte_val c) && (byte_val c <=? 90) then byte_of (byte_val c + 32) else c.

Fixpoint to_lower (s : string) : string :=
  match s with EmptyString => EmptyString | String c s => String (lower c) (to_lower s) end.

(** [isSafeURL]: a scheme, if there is one before any slash, is http, https
    or mailto.  Folding outside ASCII cannot make another scheme equal to
    these but for U+017F, a long s, which folds to the s of https. *)
Definition long_s : string := String (byte_of 197) (str1 (byte_of 191)).

Definition fold_equal_scheme (protocol : string) : bool :=
  bool_decide (to_lower protocol ∈ ["http"; "https"; "mailto"; "http" +:+ long_s]).

Fixpoint before_colon (s : string) : option string :=
  match s with
  | EmptyString => None
  | String c s => if Ascii.eqb c ":" then Some "" else String c <$> before_colon s
  end.

Definition isSafeURL (s : string) : bool :=
  match before_colon s with
  | Some protocol => Strings.Contains protocol "/" || fold_equal_scheme protocol
  | None => true
  end.

(** [_html_template_urlfilter] *)
Definition url_filter (s : string) : string := if isSafeURL s then s else "#ZgotmplZ".

Definition is_alnum (c : ascii) : bool :=
  let v := byte_val c in
  (97 <=? v) && (v <=? 122) || (65 <=? v) && (v <=? 90) || (48 <=? v) && (v <=? 57).

Definition is_hex (c : ascii) : bool :=
  let v := byte_val c in
  (48 <=? v) && (v <=? 57) || (97 <=? v) && (v <=? 102) || (65 <=? v) && (v <=? 70).

Definition kept_in_url (c : ascii) : bool :=
  Strings.Contains "!#$&*+,/:;=?@[]-._~" (str1 c) || is_alnum c.

Definition percent (c : ascii) : string := "%" +:+ Hex.EncodeToString (str1 c).

(** [_html_template_urlnormalizer] ([processURLOnto] with [norm]): valid
    escapes stay. *)
Fixpoint url_normalize (s : string) : string :=
  match s with
  | EmptyString => EmptyString
  | String c rest =>
      (if kept_in_url c then str1 c
       else match c, rest with
            | "%"%char, String a (String b _) => if is_hex a && is_hex b then str1 c else percent c
            | _, _ => percent c
            end) +:+ url_normalize rest
  end.

(** ** Pieces *)

Inductive piece : Type :=
| Lit (s : string)      (** the template's text *)
| Text (s : string)     (** [{{s}}] in text or in a quoted attribute *)
| Url (s : string)      (** [{{s}}] as a whole URL, quoted *)
| Segment (s : string). (** [{{s}}] inside the path of a URL, quoted *)

Definition piece_text (p : piece) : string :=
  match p with
  | Lit s => s
  | Text s => escape s
  | Url s => escape (url_normalize (url_filter s))
  | Segment s => escape (url_normalize s)
  end.

Definition render (ps : list piece) : string := concat_map piece_text ps.

(** [{{if b}}ps{{end}}], and an action over the elements of a list. *)
Definition when (b : bool) (ps : list piece) : list piece := if b then ps else [].
Definition range {A} (l : list A) (f : A -> list piece) : list piece := List.concat (f <$> l).

(** A bool and an int as [{{.}}] prints them. *)
Definition of_bool (b : bool) : string := if b then "true" else "false".
Definition of_int (z : Z) : string := Itoa.Itoa z.

(** ** What escaped values can contain *)

Lemma render_app ps qs : render (ps ++ qs) = render ps +:+ render qs.
Proof.
  unfold render, concat_map. induction ps as [|p ps IH]; [done|]. cbn. by rewrite IH, append_assoc.
Qed.

Lemma render_cons p ps : render (p :: ps) = piece_text p +:+ render ps.
Proof. done. Qed.

Lemma escape_no_markup s : all_bytes (fun c => negb (Html.is_markup c)) (escape s) = true.
Proof.
  induction s as [|c s IH]; [done|]. cbn. rewrite all_bytes_app, IH, andb_true_r.
  revert c. apply (forall_ascii (fun c => all_bytes _ (escape_char c))). vm_compute. reflexivity.
Qed.

Definition is_lit (p : piece) : bool := match p with Lit _ => true | _ => false end.

(** The tags and attribute quotes of a page are those of the template. *)
Lemma render_markup ps :
  filter_bytes Html.is_markup (render ps)
  = filter_bytes Html.is_markup (render (filter (fun p => is_lit p = true) ps)).
Proof.
  induction ps as [|p ps IH]; [done|]. rewrite render_cons, filter_bytes_app, IH, filter_cons.
  destruct p; cbn [is_lit piece_text]; rewrite ?decide_True, ?decide_False by done.
  { by rewrite render_cons, filter_bytes_app. }
  all: by rewrite (filter_bytes_none _ _ (escape_no_markup _)).
Qed.

Lemma append_inv_head (x a b : string) : x +:+ a = x +:+ b -> a = b.
Proof. induction x as [|c x IH]; cbn; [done|]. intros [= H]. by apply IH. Qed.

(** *** Escaping loses nothing but the zero byte *)

Definition no_nul (s : string) : bool := all_bytes (fun c => negb (Z.eqb (byte_val c) 0)) s.

(** No replacement is the beginning of another. *)
Lemma escape_char_prefix c d a b :
  Z.eqb (byte_val c) 0 = false -> Z.eqb (byte_val d) 0 = false ->
  escape_char c +:+ a = escape_char d +:+ b -> c = d.
Proof.
  intros Hc Hd H.
  assert (Hp : Strings.HasPrefix (escape_char c) (escape_char d)
               || Strings.HasPrefix (escape_char d) (escape_char c) = true).
  { clear Hc Hd. revert H. generalize (escape_char c) (escape_char d). intros x.
    induction x as [|u x IH]; intros [|v y]; cbn; try done. intros [= -> H].
    rewrite !Ascii.eqb_refl. apply IH, H. }
  clear H. enough (He : forallb (fun c => forallb (fun d =>
            Z.eqb (byte_val c) 0 || Z.eqb (byte_val d) 0
            || negb (Strings.HasPrefix (escape_char c) (escape_char d)
                     || Strings.HasPrefix (escape_char d) (escape_char c))
            || bool_decide (c = d)) all_ascii) all_ascii = true).
  { pose proof (forall_ascii _ (forall_ascii _ He c) d) as H. cbn beta in H.
    rewrite Hc, Hd, Hp in H. by apply bool_decide_eq_true in H. }
  vm_compute. reflexivity.
Qed.

Lemma escape_inj a b : no_nul a = true -> no_nul b = true -> escape a = escape b -> a = b.
Proof.
  assert (Hne : forall c, escape_char c <> "").
  { intros c. enough (H : negb (String.eqb (escape_char c) "") = true).
    { intros E. by rewrite E in H. }
    revert c. apply (forall_ascii (fun c => negb (String.eqb (escape_char c) ""))). vm_compute. reflexivity. }
  revert b. induction a as [|c a IH]; intros [|d b]; cbn; [done|..].
  - intros _ _ H. destruct (escape_char d) eqn:E; [by apply Hne in E|done].
  - intros _ _ H. destruct (escape_char c) eqn:E; [by apply Hne in E|done].
  - intros [Hc Ha]%andb_true_iff [Hd Hb]%andb_true_iff H. apply negb_true_iff in Hc, Hd.
    assert (c = d) as -> by (by eapply escape_char_prefix). f_equal. apply IH; [done|done|].
    by apply append_inv_head in H.
Qed.

(** A value is empty exactly when its escaped text is. *)
Lemma escape_empty s : String.eqb (escape s) "" = String.eqb s "".
Proof.
  destruct s as [|c s]; [done|]. cbn.
  assert (H : escape_char c <> "").
  { intros E. enough (H : negb (String.eqb (escape_char c) "") = true) by (by rewrite E in H).
    clear E. revert c. apply (forall_ascii (fun c => negb (String.eqb (escape_char c) ""))). vm_compute. reflexivity. }
  by destruct (escape_char c).
Qed.

(** ** Reading a page back

    From equal pages to equal values: the template's text is the same on both
    sides or clashes, and a value ends where the next tag or quote is. *)

Definition markup_free (s : string) : Prop := all_bytes (fun c => negb (Html.is_markup c)) s = true.

Definition starts_marked (s : string) : bool :=
  match s with String c _ => Html.is_markup c | EmptyString => false end.

Lemma markup_free_app a b : markup_free a -> markup_free b -> markup_free (a +:+ b).
Proof. unfold markup_free. rewrite all_bytes_app. by intros -> ->. Qed.

Lemma cut_at_markup u v x y :
  markup_free u -> markup_free v -> starts_marked x = true -> starts_marked y = true ->
  u +:+ x = v +:+ y -> u = v /\ x = y.
Proof.
  intros Hu Hv Hx Hy. revert v Hv. induction u as [|c u IH]; intros [|d v] Hv; cbn.
  - done.
  - intros ->. cbn in Hx, Hv. apply andb_true_iff in Hv as [Hv _]. by rewrite Hx in Hv.
  - intros <-. cbn in Hy, Hu. apply andb_true_iff in Hu as [Hu _]. by rewrite Hy in Hu.
  - intros [= -> H]. apply andb_true_iff in Hu as [_ Hu], Hv as [_ Hv].
    destruct (IH Hu v Hv H) as [-> ->]. done.
Qed.

(** Two texts that differ before either ends. *)
Fixpoint clash (a b : string) : bool :=
  match a, b with
  | String c a, String d b => negb (Ascii.eqb c d) || clash a b
  | _, _ => false
  end.

Lemma clash_neq a b x y : clash a b = true -> a +:+ x <> b +:+ y.
Proof.
  revert b. induction a as [|c a IH]; intros [|d b]; cbn; try done.
  intros [H|H]%orb_true_iff [= -> E]; [by rewrite Ascii.eqb_refl in H|by eapply IH].
Qed.

Lemma render_same p ps qs : render (p :: ps) = render (p :: qs) -> render ps = render qs.
Proof. rewrite !render_cons. apply append_inv_head. Qed.

Lemma render_lit s ps qs : render (Lit s :: ps) = render (Lit s :: qs) -> render ps = render qs.
Proof. apply render_same. Qed.

Lemma render_clash s s' ps qs : clash s s' = true -> render (Lit s :: ps) <> render (Lit s' :: qs).
Proof. rewrite !render_cons. apply clash_neq. Qed.

Lemma starts_marked_lit s ps : starts_marked s = true -> starts_marked (render (Lit s :: ps)) = true.
Proof. rewrite render_cons. by destruct s. Qed.

Lemma render_text a b s s' ps qs :
  starts_marked s = true -> starts_marked s' = true ->
  render (Text a :: Lit s :: ps) = render (Text b :: Lit s' :: qs) ->
  escape a = escape b /\ render (Lit s :: ps) = render (Lit s' :: qs).
Proof.
  intros Hs Hs'. rewrite !(render_cons (Text _)). apply cut_at_markup;
    [apply escape_no_markup..|by apply starts_marked_lit|by apply starts_marked_lit].
Qed.

(** Two values with text between them. *)
Lemma render_two_texts a b a' b' m s ps qs :
  markup_free m -> starts_marked s = true ->
  render (Text a :: Lit m :: Text b :: Lit s :: ps) = render (Text a' :: Lit m :: Text b' :: Lit s :: qs) ->
  render (Lit s :: ps) = render (Lit s :: qs).
Proof.
  intros Hm Hs. rewrite !(render_cons (Text _)), !(render_cons (Lit m)), !(render_cons (Text _)).
  cbn [piece_text]. rewrite <- !append_assoc. intros H. apply cut_at_markup in H as [_ H]; [done|..];
    repeat apply markup_free_app; try apply escape_no_markup; try done; by apply starts_marked_lit.
Qed.
