(* ===== verification/Effects.v ===== *)
(** * Effects: programs that call their environment

    Code that calls an interface (a logger, an approver, a child process) is a
    [prog]: a tree of calls, each with a continuation for the answer.  A
    [handler] answers calls from a state; [run] executes a program against one
    and records the calls with their answers in order.  A theorem about [run]
    for every handler and state is a theorem about every environment. *)

From S2P Require Import Prelude.

(** An interface: what a call is answered with. *)
Class Interface (C : Type) := answer : C -> Type.
#[global] Hint Mode Interface ! : typeclass_instances.

Inductive prog (C : Type) `{Interface C} (A : Type) : Type :=
| Ret (a : A)
| Call (c : C) (k : answer c -> prog C A).
Arguments Ret {C _ A} a.
Arguments Call {C _ A} c k.

Section Prog.
Context {C : Type} `{I : Interface C}.

Fixpoint prog_bind_def {A B} (f : A -> prog C B) (p : prog C A) : prog C B :=
  match p with
  | Ret a => f a
  | Call c k => Call c (fun r => prog_bind_def f (k r))
  end.

#[export] Instance prog_ret : MRet (prog C) := fun A a => Ret a.
#[export] Instance prog_bind : MBind (prog C) := fun A B => prog_bind_def.

Definition call (c : C) : prog C (answer c) := Call c (fun r => Ret r).

(** One call and its answer. *)
Definition event : Type := { c : C & answer c }.
Definition ev (c : C) (r : answer c) : event := existT c r.

Definition handler (S : Type) : Type := forall c : C, S -> answer c * S.

Fixpoint run {S A} (h : handler S) (p : prog C A) (s : S) : A * S * list event :=
  match p with
  | Ret a => (a, s, [])
  | Call c k =>
      let '(r, s1) := h c s in
      let '(a, s2, t) := run h (k r) s1 in
      (a, s2, ev c r :: t)
  end.

Definition result_of {S A} (h : handler S) (p : prog C A) (s : S) : A := (run h p s).1.1.
Definition state_of {S A} (h : handler S) (p : prog C A) (s : S) : S := (run h p s).1.2.
Definition trace_of {S A} (h : handler S) (p : prog C A) (s : S) : list event := (run h p s).2.

Lemma run_bind {S A B} (h : handler S) (p : prog C A) (f : A -> prog C B) s :
  run h (p ≫= f) s =
    let '(a, s1, t1) := run h p s in
    let '(b, s2, t2) := run h (f a) s1 in (b, s2, t1 ++ t2).
Proof.
  unfold mbind, prog_bind. revert s. induction p as [a|c k IH]; intros s; simpl.
  { by destruct (run h (f a) s) as [[? ?] ?]. }
  destruct (h c s) as [r s1]. rewrite IH.
  destruct (run h (k r) s1) as [[a s2] t1].
  by destruct (run h (f a) s2) as [[? ?] ?].
Qed.

Lemma result_of_bind {S A B} (h : handler S) (p : prog C A) (f : A -> prog C B) s :
  result_of h (p ≫= f) s = result_of h (f (result_of h p s)) (state_of h p s).
Proof.
  unfold result_of, state_of. rewrite run_bind. destruct (run h p s) as [[a s1] t1]. simpl.
  by destruct (run h (f a) s1) as [[? ?] ?].
Qed.

Lemma state_of_bind {S A B} (h : handler S) (p : prog C A) (f : A -> prog C B) s :
  state_of h (p ≫= f) s = state_of h (f (result_of h p s)) (state_of h p s).
Proof.
  unfold result_of, state_of. rewrite run_bind. destruct (run h p s) as [[a s1] t1]. simpl.
  by destruct (run h (f a) s1) as [[? ?] ?].
Qed.

Lemma trace_of_bind {S A B} (h : handler S) (p : prog C A) (f : A -> prog C B) s :
  trace_of h (p ≫= f) s
  = trace_of h p s ++ trace_of h (f (result_of h p s)) (state_of h p s).
Proof.
  unfold result_of, state_of, trace_of. rewrite run_bind. destruct (run h p s) as [[a s1] t1]. simpl.
  by destruct (run h (f a) s1) as [[? ?] ?].
Qed.

Lemma trace_of_call {S} (h : handler S) c s : trace_of h (call c) s = [ev c (fst (h c s))].
Proof. unfold trace_of. simpl. by destruct (h c s). Qed.

Lemma result_of_call {S} (h : handler S) c s : result_of h (call c) s = fst (h c s).
Proof. unfold result_of. simpl. by destruct (h c s). Qed.

Lemma state_of_call {S} (h : handler S) c s : state_of h (call c) s = snd (h c s).
Proof. unfold state_of. simpl. by destruct (h c s). Qed.

Lemma trace_of_ret {S A} (h : handler S) (a : A) s : trace_of h (mret a) s = [].
Proof. done. Qed.

(** The calls of a trace, in order. *)
Definition calls (t : list event) : list C := projT1 <$> t.

Lemma calls_cons e t : calls (e :: t) = projT1 e :: calls t.
Proof. done. Qed.

Lemma calls_app t1 t2 : calls (t1 ++ t2) = calls t1 ++ calls t2.
Proof. apply fmap_app. Qed.

(** [issues p c]: the program can make the call [c], for some answers to
    the calls before it. *)
Fixpoint issues {A} (p : prog C A) (c : C) : Prop :=
  match p with
  | Ret _ => False
  | Call c' k => c = c' \/ exists r, issues (k r) c
  end.

Lemma run_issues {S A} (h : handler S) (p : prog C A) s c :
  c ∈ calls (run h p s).2 -> issues p c.
Proof.
  revert s. induction p as [a|c' k IH]; intros s; simpl; [by inversion 1|].
  destruct (h c' s) as [r s1]. specialize (IH r s1).
  destruct (run h (k r) s1) as [[a s2] t]. simpl in *.
  intros [->|H]%elem_of_cons; [by left|]. right. exists r. by apply IH.
Qed.

(** *** Behaviours

    What a program can do in some environment: its calls with their answers,
    and its result. *)
Fixpoint behaves {A} (p : prog C A) (t : list event) (a : A) : Prop :=
  match p with
  | Ret b => t = [] /\ a = b
  | Call c k => exists r t', t = ev c r :: t' /\ behaves (k r) t' a
  end.

Lemma run_behaves {S A} (h : handler S) (p : prog C A) s :
  behaves p (trace_of h p s) (result_of h p s).
Proof.
  unfold trace_of, result_of. revert s. induction p as [a|c k IH]; intros s; simpl; [done|].
  destruct (h c s) as [r s1]. specialize (IH r s1).
  destruct (run h (k r) s1) as [[a s2] t]. by eexists _, _.
Qed.

Lemma behaves_bind {A B} (p : prog C A) (f : A -> prog C B) t b :
  behaves (p ≫= f) t b <-> exists t1 t2 a, t = t1 ++ t2 /\ behaves p t1 a /\ behaves (f a) t2 b.
Proof.
  revert t. induction p as [a|c k IH]; intros t.
  - split; [intros H; by exists [], t, a|]. by intros (t1 & t2 & a' & -> & [-> ->] & H).
  - cbn [mbind prog_bind prog_bind_def behaves]. split.
    + intros (r & t' & -> & (t1 & t2 & a & -> & H1 & H2)%IH).
      exists (ev c r :: t1), t2, a. split_and!; [done|by eexists _, _|done].
    + intros (t1 & t2 & a & -> & (r & t' & -> & H1) & H2). eexists r, _. split; [done|].
      apply IH. by exists t', t2, a.
Qed.

Lemma behaves_of_call c t r : behaves (call c) t r <-> t = [ev c r].
Proof.
  split; [|intros ->; by eexists r, []]. by intros (r' & t' & -> & [-> ->]).
Qed.

Lemma behaves_call_bind {A} c (f : answer c -> prog C A) (x : answer c) t a :
  behaves (f x) t a -> behaves (call c ≫= f) (ev c x :: t) a.
Proof. intros H. by exists x, t. Qed.

Lemma behaves_call_inv {A} c (f : answer c -> prog C A) t a :
  behaves (call c ≫= f) t a -> exists x t', t = ev c x :: t' /\ behaves (f x) t' a.
Proof. by intros (x & t' & -> & H); exists x, t'. Qed.

(** What holds of every answer of the handler holds of the trace. *)
Lemma trace_answers {S A} (h : handler S) (P : event -> Prop) (p : prog C A) s :
  (forall c s, P (ev c (fst (h c s)))) -> Forall P (trace_of h p s).
Proof.
  intros H. unfold trace_of. revert s. induction p as [a|c k IH]; intros s; simpl; [constructor|].
  specialize (H c s). destruct (h c s) as [r s1]. specialize (IH r s1).
  destruct (run h (k r) s1) as [[a s2] t]. by constructor.
Qed.

(** *** Programs restricted to some calls *)

Fixpoint only {A} (P : C -> Prop) (p : prog C A) : Prop :=
  match p with
  | Ret _ => True
  | Call c k => P c /\ forall r, only P (k r)
  end.

Lemma only_ret {A} P (a : A) : only P (mret a).
Proof. done. Qed.

Lemma only_call (P : C -> Prop) c : P c -> only P (call c).
Proof. by split. Qed.

Lemma only_bind {A B} P (p : prog C A) (f : A -> prog C B) :
  only P p -> (forall a, only P (f a)) -> only P (p ≫= f).
Proof.
  intros Hp Hf. induction p as [a|c k IH]; [apply Hf|].
  destruct Hp as [Hc Hk]. split; [done|]. intros r. by apply IH.
Qed.

Lemma only_behaves {A} P (p : prog C A) t a : only P p -> behaves p t a -> Forall P (calls t).
Proof.
  revert t. induction p as [b|c k IH]; intros t.
  - intros _ [-> _]. constructor.
  - intros [Hc Hk] (r & t' & -> & H). constructor; [done|]. by eapply IH.
Qed.

Lemma only_weaken {A} (P Q : C -> Prop) (p : prog C A) : (forall c, P c -> Q c) -> only P p -> only Q p.
Proof. intros H. induction p as [b|c k IH]; [done|]. intros [Hc Hk]. split; auto. Qed.

End Prog.
#[export] Hint Rewrite @result_of_bind @state_of_bind @trace_of_bind @result_of_call @state_of_call
  @trace_of_call @trace_of_ret @calls_app : effects.

Arguments event C {_}.
#[global] Arguments behaves : simpl never.
Create HintDb only.
#[export] Hint Resolve only_ret only_call only_bind : only.
Arguments handler C {_} S.

(** Execute a program step by step: reduce [run], and case on each answer. *)
Ltac run_steps :=
  repeat first
    [ progress simpl
    | match goal with
      | |- context [let '(_, _) := ?h ?c ?s in _] =>
          let r := fresh "r" in let s' := fresh "s" in
          let E := fresh "Eh" in destruct (h c s) as [r s'] eqn:E
      end
    | case_match ].

(** ** Interpreting one interface in another *)

Section Interp.
Context {C D : Type} `{IC : Interface C} `{ID : Interface D}.
Context (f : forall c : C, prog D (answer c)).

(** Every call [c] becomes the program [f c]. *)
Fixpoint interp {A} (p : prog C A) : prog D A :=
  match p with
  | Ret a => Ret a
  | Call c k => f c ≫= (fun r => interp (k r))
  end.

(** The environment a program sees through [f]. *)
Definition handler_of {S} (h : handler D S) : handler C S :=
  fun c s => let '(r, s', _) := run h (f c) s in (r, s').

Lemma run_interp {S A} (h : handler D S) (p : prog C A) s :
  (run h (interp p) s).1 = (run (handler_of h) p s).1.
Proof.
  revert s. induction p as [a|c k IH]; intros s; [done|].
  cbn [interp]. rewrite run_bind. simpl. unfold handler_of at 1.
  destruct (run h (f c) s) as [[r s1] t1]. specialize (IH r s1).
  destruct (run h (interp (k r)) s1) as [[a s2] t2], (run (handler_of h) (k r) s1) as [[a' s2'] t2'].
  simpl in *. done.
Qed.

Lemma interp_result {S A} (h : handler D S) (p : prog C A) s :
  result_of h (interp p) s = result_of (handler_of h) p s.
Proof. unfold result_of. by rewrite run_interp. Qed.

(** The trace is made of the traces of the program's own calls, in order,
    each with the result the program saw. *)
Definition call_traces {S} (h : handler D S) (t : list (event C)) (ts : list (list (event D))) : Prop :=
  Forall2 (fun e te => exists s0, te = trace_of h (f (projT1 e)) s0
                         /\ result_of h (f (projT1 e)) s0 = projT2 e) t ts.

Lemma interp_trace {S A} (h : handler D S) (p : prog C A) s :
  exists ts, trace_of h (interp p) s = concat ts
    /\ call_traces h (trace_of (handler_of h) p s) ts.
Proof.
  unfold trace_of at 1 2. revert s. induction p as [a|c k IH]; intros s.
  { exists []. split; [done|constructor]. }
  cbn [interp]. rewrite run_bind. simpl. unfold handler_of at 1.
  destruct (run h (f c) s) as [[r s1] t1] eqn:E1. destruct (IH r s1) as (ts & Ht & Hts).
  destruct (run h (interp (k r)) s1) as [[a s2] t2], (run (handler_of h) (k r) s1) as [[a' s2'] t2'].
  simpl in *. exists (t1 :: ts). subst t2. split; [done|]. constructor; [|done].
  exists s. simpl. unfold trace_of, result_of. by rewrite E1.
Qed.

(** A predicate on calls that every [f c] respects. *)
Lemma interp_Forall {S A} (h : handler D S) (P : D -> Prop) (p : prog C A) s :
  (forall c s0, c ∈ calls (trace_of (handler_of h) p s) -> Forall P (calls (trace_of h (f c) s0))) ->
  Forall P (calls (trace_of h (interp p) s)).
Proof.
  intros H. destruct (interp_trace h p s) as (ts & -> & Hts).
  induction Hts as [|e te t ts (s0 & -> & _) _ IH]; [constructor|].
  simpl. unfold calls in *. rewrite fmap_app. apply Forall_app. split.
  - apply H. by left.
  - apply IH. intros. apply H. by right.
Qed.

(** An event of the program, among the events it became. *)
Lemma interp_event {S A} (h : handler D S) (p : prog C A) s e :
  e ∈ trace_of (handler_of h) p s ->
  exists s0, result_of h (f (projT1 e)) s0 = projT2 e
    /\ forall d, d ∈ trace_of h (f (projT1 e)) s0 -> d ∈ trace_of h (interp p) s.
Proof.
  intros He. destruct (interp_trace h p s) as (ts & -> & Hts).
  induction Hts as [|e' te t ts (s0 & -> & Hr) _ IH]; [by inversion He|].
  apply elem_of_cons in He as [->|He].
  - exists s0. split; [done|]. intros d Hd. simpl. apply elem_of_app. by left.
  - destruct (IH He) as (s1 & Hr1 & Hd). exists s1. split; [done|].
    intros d H. simpl. apply elem_of_app. right. by apply Hd.
Qed.

Lemma interp_call_of {S A} (h : handler D S) (p : prog C A) s d :
  d ∈ trace_of h (interp p) s ->
  exists e s0, e ∈ trace_of (handler_of h) p s /\ d ∈ trace_of h (f (projT1 e)) s0
    /\ result_of h (f (projT1 e)) s0 = projT2 e.
Proof.
  destruct (interp_trace h p s) as (ts & -> & Hts).
  induction Hts as [|e te t ts (s0 & -> & Hr) _ IH]; [by inversion 1|].
  simpl. intros [H|H]%elem_of_app; [exists e, s0; split_and!; [by left|done|done]|].
  destruct (IH H) as (e0 & s1 & He & Hd & Hr0). exists e0, s1. split_and!; [by right|done|done].
Qed.

(** The behaviours of an interpreted program are those of the program, each
    call's event replaced by a behaviour of what it became. *)
Definition expands (es : list (event C)) (ts : list (list (event D))) : Prop :=
  Forall2 (fun e te => behaves (f (projT1 e)) te (projT2 e)) es ts.

Lemma behaves_interp {A} (p : prog C A) t a :
  behaves (interp p) t a <-> exists es ts, behaves p es a /\ t = concat ts /\ expands es ts.
Proof.
  revert t. induction p as [b|c k IH]; intros t; cbn [interp].
  - split.
    + intros [-> ->]. exists [], []. by split_and!; [|done|constructor].
    + intros (es & ts & [-> ->] & -> & H). by inversion H; subst.
  - rewrite behaves_bind. split.
    + intros (t1 & t2 & r & -> & H1 & (es & ts & H & -> & Hx)%IH).
      exists (ev c r :: es), (t1 :: ts). split_and!; [by exists r, es|done|by constructor].
    + intros (es & ts & (r & es' & -> & H) & -> & Hx). inversion Hx as [|? t1 ? ts' H1 Hx' E]; subst.
      cbn in H1. exists t1, (concat ts'), r. split_and!; [done|done|]. apply IH. by exists es', ts'.
Qed.
End Interp.

(** Name the result, state and trace of the run that is matched on. *)
Ltac run_case E :=
  match goal with
  | |- context [run ?h ?p ?x] =>
      let r := fresh "r" in let s := fresh "s" in let t := fresh "t" in
      destruct (run h p x) as [[r s] t] eqn:E
  end.

(** ** Two interfaces side by side *)

#[export] Instance sum_interface {C D} `{Interface C, Interface D} : Interface (C + D) := fun c =>
  match c with inl c => answer c | inr d => answer d end.

Section Sum.
Context {C D : Type} `{IC : Interface C} `{ID : Interface D}.

Fixpoint on_left {A} (p : prog C A) : prog (C + D) A :=
  match p with
  | Ret a => Ret a
  | Call c k => Call (inl c : C + D) (fun r => on_left (k r))
  end.

Fixpoint on_right {A} (p : prog D A) : prog (C + D) A :=
  match p with
  | Ret a => Ret a
  | Call d k => Call (inr d : C + D) (fun r => on_right (k r))
  end.

Definition left_ev (x : event C) : event (C + D) := let 'existT c r := x in ev (inl c : C + D) r.
Definition right_ev (x : event D) : event (C + D) := let 'existT d r := x in ev (inr d : C + D) r.

Lemma behaves_on_left {A} (p : prog C A) t a :
  behaves (on_left p) t a <-> exists t', t = left_ev <$> t' /\ behaves p t' a.
Proof.
  revert t. induction p as [b|c k IH]; intros t.
  - split; [intros [-> ->]; by exists []|]. by intros (t' & -> & [-> ->]).
  - split.
    + intros (r & t1 & -> & (t' & -> & H)%IH). exists (ev c r :: t'). split; [done|by exists r, t'].
    + intros (t' & -> & (r & t1 & -> & H)). exists r, (left_ev <$> t1). split; [done|].
      apply IH. by exists t1.
Qed.

Lemma behaves_on_right {A} (p : prog D A) t a :
  behaves (on_right p) t a <-> exists t', t = right_ev <$> t' /\ behaves p t' a.
Proof.
  revert t. induction p as [b|c k IH]; intros t.
  - split; [intros [-> ->]; by exists []|]. by intros (t' & -> & [-> ->]).
  - split.
    + intros (r & t1 & -> & (t' & -> & H)%IH). exists (ev c r :: t'). split; [done|by exists r, t'].
    + intros (t' & -> & (r & t1 & -> & H)). exists r, (right_ev <$> t1). split; [done|].
      apply IH. by exists t1.
Qed.

End Sum.

(** ** Interpreting each call as one call *)

Lemma expands_in {C D} `{Interface C, Interface D} (f : forall c : C, prog D (answer c)) es ts e :
  expands f es ts -> e ∈ es -> exists te, behaves (f (projT1 e)) te (projT2 e) /\ forall d, d ∈ te -> d ∈ concat ts.
Proof.
  induction 1 as [|e' te es' ts' Hb _ IH]; [by inversion 1|]. intros [->|Hin]%elem_of_cons.
  - exists te. split; [done|]. intros d Hd. cbn. apply elem_of_app. by left.
  - destruct (IH Hin) as (te' & ? & Hd). exists te'. split; [done|]. intros d Hd'. cbn. apply elem_of_app.
    right. by apply Hd.
Qed.

Lemma expands_map {C D} `{Interface C, Interface D} (f : forall c : C, prog D (answer c))
    (g : event C -> event D) es ts :
  (forall c t a, behaves (f c) t a <-> t = [g (ev c a)]) ->
  expands f es ts <-> ts = (fun x => [g x]) <$> es.
Proof.
  intros Hf. unfold expands. split.
  - induction 1 as [|[c r] te es' ts' Hc _ IH]; [done|]. apply Hf in Hc as ->. cbn. by rewrite IH.
  - intros ->. induction es as [|[c r] es IH]; constructor; [|done]. by apply Hf.
Qed.

Lemma concat_singletons {A B} (g : A -> B) (l : list A) : List.concat ((fun x => [g x]) <$> l) = g <$> l.
Proof. induction l as [|x l IH]; [done|]. cbn. by rewrite IH. Qed.

Lemma behaves_interp_map {C D A} `{Interface C, Interface D} (f : forall c : C, prog D (answer c))
    (g : event C -> event D) (p : prog C A) t a :
  (forall c t a, behaves (f c) t a <-> t = [g (ev c a)]) ->
  behaves (interp f p) t a <-> exists t0, behaves p t0 a /\ t = g <$> t0.
Proof.
  intros Hf. rewrite behaves_interp. split.
  - intros (es & ts & Hb & -> & ->%(expands_map f g)); [|done]. exists es. by rewrite concat_singletons.
  - intros (t0 & Hb & ->). exists t0, ((fun x => [g x]) <$> t0).
    split_and!; [done|by rewrite concat_singletons|by apply (expands_map f g)].
Qed.

Lemma no_calls {C} `{Interface C} (c : C) : c ∈ calls ([] : list (event C)) -> False.
Proof. inversion 1. Qed.

Lemma cons_eq_inv {A} (x y : A) l l' : x :: l = y :: l' -> x = y /\ l = l'.
Proof. intros H. by injection H. Qed.
