(* ===== verification/Io.v ===== *)
(** * Io: programs that can fail

    Go code that makes a call, tests its error and goes on is a program whose
    answer is a [result]: [and_then] is that sequencing, with [try!] as its
    notation, and [require] turns a call that only succeeds or fails into a
    step with a given error.  [inv_io] takes a behaviour of such a program
    apart, call by call. *)

From S2P Require Import Prelude Effects.

Section Io.
Context {C : Type} `{I : Interface C} {E : Type}.

Definition ok {A} (a : A) : prog C (result E A) := mret (Ok a).
Definition fail {A} (e : E) : prog C (result E A) := mret (Err e).
Definition lift {A} (r : result E A) : prog C (result E A) := mret r.

Definition and_then {A B} (m : prog C (result E A)) (f : A -> prog C (result E B))
    : prog C (result E B) :=
  r ← m; match r with Ok a => f a | Err e => fail e end.

(** [if err := ...; err != nil { return e }] *)
Definition require (e : E) (m : prog C bool) : prog C (result E unit) :=
  b ← m; if (b : bool) then ok tt else fail e.

Lemma behaves_and_then {A B} (m : prog C (result E A)) (f : A -> prog C (result E B)) t r :
  behaves (and_then m f) t r <->
  (exists t1 t2 a, t = t1 ++ t2 /\ behaves m t1 (Ok a) /\ behaves (f a) t2 r)
  \/ (exists e, behaves m t (Err e) /\ r = Err e).
Proof.
  unfold and_then. rewrite behaves_bind. split.
  - intros (t1 & t2 & [a|e] & -> & H1 & H2); [left; by exists t1, t2, a|].
    destruct H2 as [-> ->]. rewrite app_nil_r. right. by exists e.
  - intros [(t1 & t2 & a & -> & H1 & H2)|(e & H & ->)]; [by exists t1, t2, (Ok a)|].
    exists t, [], (Err e). rewrite app_nil_r. by split_and!.
Qed.

Lemma behaves_require e m t r :
  behaves (require e m) t r <-> exists b : bool, behaves m t b /\ r = if b then Ok tt else Err e.
Proof.
  unfold require. rewrite behaves_bind. split.
  - intros (t1 & t2 & b & -> & H1 & H2). exists b. destruct b, H2 as [-> ->]; by rewrite app_nil_r.
  - intros (b & H & ->). exists t, [], b. rewrite app_nil_r. by destruct b.
Qed.

(** *** Building a behaviour *)

Lemma behaves_bind_split {A B} (p : prog C A) (f : A -> prog C B) t1 t2 a b :
  behaves p t1 a -> behaves (f a) t2 b -> behaves (p ≫= f) (t1 ++ t2) b.
Proof. intros. apply behaves_bind. by exists t1, t2, a. Qed.

Lemma behaves_then {A B} (m : prog C (result E A)) (f : A -> prog C (result E B)) t1 t2 a r :
  behaves m t1 (Ok a) -> behaves (f a) t2 r -> behaves (and_then m f) (t1 ++ t2) r.
Proof. intros. apply behaves_and_then. left. by exists t1, t2, a. Qed.

Lemma behaves_lift_then {A B} (v : result E A) (f : A -> prog C (result E B)) t a r :
  v = Ok a -> behaves (f a) t r -> behaves (and_then (lift v) f) t r.
Proof. intros -> H. by apply (behaves_then (lift (Ok a)) f [] t a). Qed.

(** *** Running *)

Lemma run_and_then {S A B} (h : handler C S) (m : prog C (result E A)) (f : A -> prog C (result E B)) s :
  run h (and_then m f) s =
    let '(r, s1, t1) := run h m s in
    match r with
    | Ok a => let '(b, s2, t2) := run h (f a) s1 in (b, s2, t1 ++ t2)
    | Err e => (Err e, s1, t1)
    end.
Proof.
  unfold and_then. rewrite run_bind. destruct (run h m s) as [[[a|e] s1] t1]; [done|].
  simpl. by rewrite app_nil_r.
Qed.

(** *** Restricted to some calls *)

Lemma only_and_then {A B} P (m : prog C (result E A)) (f : A -> prog C (result E B)) :
  only P m -> (forall a, only P (f a)) -> only P (and_then m f).
Proof. intros Hm Hf. apply only_bind; [done|]. intros [a|e]; [apply Hf|done]. Qed.

Lemma only_lift {A} P (r : result E A) : only P (lift r).
Proof. done. Qed.

End Io.
#[export] Hint Resolve only_and_then only_lift : only.

Notation "'try!' x := m ; k" := (and_then m (fun x => k))
  (at level 10, x binder, m at level 100, k at level 200,
   format "'[v' 'try!'  x  :=  m ;  '/' k ']'") : stdpp_scope.

(** Take a behaviour apart, call by call. *)
Ltac inv_io :=
  repeat match goal with
  | H : behaves (and_then _ _) _ _ |- _ => apply (proj1 (behaves_and_then _ _ _ _)) in H
  | H : behaves (require _ _) _ _ |- _ => apply (proj1 (behaves_require _ _ _ _)) in H
  | H : behaves (ok _) _ _ |- _ => destruct H
  | H : behaves (fail _) _ _ |- _ => destruct H
  | H : behaves (lift _) _ _ |- _ => destruct H
  | H : behaves (call _) _ _ |- _ => destruct H as (? & ? & ? & ? & ?)
  | H : behaves (mret _) _ _ |- _ => destruct H
  | H : behaves (Ret _) _ _ |- _ => destruct H
  | H : behaves (Call _ _) _ _ |- _ => destruct H as (? & ? & ? & ?)
  | H : behaves (mbind _ _) _ _ |- _ => apply (proj1 (behaves_bind _ _ _ _)) in H
  | H : ex _ |- _ => destruct H
  | H : _ /\ _ |- _ => destruct H
  | H : Ok _ = Ok _ |- _ => injection H as H
  | H : Err _ = Err _ |- _ => injection H as H
  | H : Ok _ = Err _ |- _ => discriminate H
  | H : Err _ = Ok _ |- _ => discriminate H
  | H : behaves (if ?b then _ else _) _ _ |- _ => destruct b eqn:?
  | H : Ok _ = wrap_err _ _ |- _ => symmetry in H; apply (proj1 (wrap_err_Ok _ _ _)) in H
  | H : Ok _ = (if ?b then _ else _) |- _ => destruct b; [|discriminate H]
  | H : Err _ = (if ?b then _ else _) |- _ => destruct b; [discriminate H|]
  | H : _ \/ _ |- _ => destruct H
  end; simplify_eq/=.
