(* ===== verification/Policy.v ===== *)
(** * Policy: the exact argv allowlist (internal/policy) *)

From S2P Require Import Prelude.

(** [argvEqual]: the lengths first, then element by element. *)
Fixpoint argv_loop (a b : list string) : bool :=
  match a, b with
  | x :: a', y :: b' => if String.eqb x y then argv_loop a' b' else false
  | _, _ => true
  end.

Definition argvEqual (a b : list string) : bool :=
  if Nat.eqb (length a) (length b) then argv_loop a b else false.

(** [Match]: the first entry that is equal. *)
Fixpoint Match (allow : list (list string)) (argv : list string) : bool :=
  match allow with
  | [] => false
  | entry :: allow' => if argvEqual entry argv then true else Match allow' argv
  end.

Lemma argvEqual_spec a b : argvEqual a b = true <-> a = b.
Proof.
  unfold argvEqual. revert b. induction a as [|x a IH]; intros [|y b]; simpl; try done.
  specialize (IH b). destruct (Nat.eqb (length a) (length b)) eqn:El.
  - destruct (String.eqb_spec x y) as [->|Hn].
    + rewrite IH. split; [by intros ->|by intros [= ->]].
    + split; [done|]. by intros [= -> ->].
  - split; [done|]. intros [= -> ->]. by rewrite Nat.eqb_refl in El.
Qed.

Lemma Match_iff allow argv : Match allow argv = true <-> argv ∈ allow.
Proof.
  induction allow as [|e allow IH]; simpl; [set_solver|].
  rewrite elem_of_cons. destruct (argvEqual e argv) eqn:E.
  - apply argvEqual_spec in E as ->. naive_solver.
  - rewrite IH. split; [by right|]. intros [->|]; [|done].
    assert (argvEqual e e = true) by by apply argvEqual_spec. congruence.
Qed.

Lemma Match_false allow argv : Match allow argv = false <-> argv ∉ allow.
Proof. rewrite <- Match_iff. by destruct (Match allow argv). Qed.

(** The allowlist decision is exact: a request matches if and only if the
    same argv, element for element, is an entry of the list. *)
Theorem Match_exact allow argv : Match allow argv = bool_decide (argv ∈ allow).
Proof.
  destruct (Match allow argv) eqn:E; symmetry.
  - by apply bool_decide_eq_true, Match_iff.
  - by apply bool_decide_eq_false, Match_false.
Qed.
