(* ===== verification/Config.v ===== *)
(** * Config: policy.toml (internal/config)

    The decoded policy, its defaults, its validation, and the lookups other
    components make.  The TOML decoder (github.com/pelletier/go-toml) and
    [net/url.Parse] are arguments: [Parse] holds for every decoder. *)

From S2P Require Import Prelude GoStrings Policy.

#[local] Open Scope Z_scope.

(** ** Data *)

Definition ApprovalAlways : string := "always".
Definition ApprovalPrompt : string := "prompt".
Definition ApprovalAllowlistedPrompt : string := "allowlisted-prompt".
Definition ApprovalNever : string := "never".

Definition BackendSecretService : string := "secret-service".
Definition BackendEnv : string := "env".
Definition BackendFile : string := "file".

Definition ApprovalBackendKDialog : string := "kdialog".
Definition ApprovalBackendTailscaleRelay : string := "tailscale-relay".

Definition defaultRelayPollIntervalSeconds : Z := 2.
Definition defaultRelayTimeoutSeconds : Z := 300.

Record Runtime := mkRuntime {
  BWSBinary : string;
  CommandPath : string;
  Home : string;
}.

Record EnvSource := mkEnvSource { Var : string }.
Record FileSource := mkFileSource { Path : string }.

Record TokenSource := mkTokenSource {
  ts_Backend : string;
  ts_Env : EnvSource;
  ts_File : FileSource;
}.

Record TailscaleRelaySource := mkTailscaleRelaySource {
  ControlURL : string;
  PollIntervalSeconds : Z;
  TimeoutSeconds : Z;
}.

Record ApprovalSource := mkApprovalSource {
  as_Backend : string;
  as_TailscaleRelay : TailscaleRelaySource;
}.

Record AllowEntry := mkAllowEntry { Argv : list string }.

Record Project := mkProject {
  Alias : string;
  BWSProjectID : string;
  TokenEntry : string;
  WorkingDir : string;
  Approval : string;
  Allow : list AllowEntry;
}.

Record Config := mkConfig {
  cfg_Runtime : Runtime;
  cfg_TokenSource : TokenSource;
  cfg_ApprovalSource : ApprovalSource;
  cfg_Projects : list Project;
}.

#[export] Instance Runtime_eq_dec : EqDecision Runtime. Proof. solve_decision. Defined.
#[export] Instance EnvSource_eq_dec : EqDecision EnvSource. Proof. solve_decision. Defined.
#[export] Instance FileSource_eq_dec : EqDecision FileSource. Proof. solve_decision. Defined.
#[export] Instance TokenSource_eq_dec : EqDecision TokenSource. Proof. solve_decision. Defined.
#[export] Instance TailscaleRelaySource_eq_dec : EqDecision TailscaleRelaySource.
Proof. solve_decision. Defined.
#[export] Instance ApprovalSource_eq_dec : EqDecision ApprovalSource. Proof. solve_decision. Defined.
#[export] Instance AllowEntry_eq_dec : EqDecision AllowEntry. Proof. solve_decision. Defined.
#[export] Instance Project_eq_dec : EqDecision Project. Proof. solve_decision. Defined.
#[export] Instance Config_eq_dec : EqDecision Config. Proof. solve_decision. Defined.

(** What [url.Parse] returns, for the fields [validate] reads. *)
Record URL := mkURL {
  Scheme : string;
  Host : string;
  User : bool;          (** [u.User != nil] *)
  URLPath : string;
  RawQuery : string;
  Fragment : string;
}.

(** The error sites of the package, in source order. *)
Inductive config_error : Type :=
| EReadingConfig
| EParsingConfig
| EEnvVarRequired
| EFilePathRequired
| ETokenBackendUnsupported (b : string)
| EControlURLRequired
| EControlURLNotOrigin
| EPollIntervalNotPositive
| ETimeoutNotPositive
| EPollNotLessThanTimeout
| EApprovalBackendUnsupported (b : string)
| ENoProjects
| EMissingAlias
| EDuplicateAlias (a : string)
| EBWSProjectIDRequired (a : string)
| ETokenEntryRequired (a : string)
| EBadApproval (a m : string)
| EEmptyArgv (a : string)
| EWorkerTokenBackend
| EWorkerTokenPathNotAbs
| EWorkerApprovalBackend
| EWorkerBWSBinaryNotAbs
| EWorkerHomeNotAbs
| EWorkerCommandPathRequired
| EWorkerCommandPathEntryNotAbs (d : string)
| EWorkerWorkingDirNotAbs (a : string).

(** ** Operations *)

Definition AllowArgv (p : Project) : list (list string) := map Argv (Allow p).

Definition default_approval (p : Project) : Project :=
  if String.eqb (Approval p) "" then
    mkProject (Alias p) (BWSProjectID p) (TokenEntry p) (WorkingDir p) ApprovalNever (Allow p)
  else p.

Definition default_relay (r : TailscaleRelaySource) : TailscaleRelaySource :=
  mkTailscaleRelaySource (ControlURL r)
    (if PollIntervalSeconds r =? 0 then defaultRelayPollIntervalSeconds else PollIntervalSeconds r)
    (if TimeoutSeconds r =? 0 then defaultRelayTimeoutSeconds else TimeoutSeconds r).

Definition default_approval_source (a : ApprovalSource) : ApprovalSource :=
  let backend := if String.eqb (as_Backend a) "" then ApprovalBackendKDialog else as_Backend a in
  mkApprovalSource backend
    (if String.eqb backend ApprovalBackendTailscaleRelay
     then default_relay (as_TailscaleRelay a) else as_TailscaleRelay a).

Definition applyDefaults (c : Config) : Config :=
  mkConfig (cfg_Runtime c) (cfg_TokenSource c)
    (default_approval_source (cfg_ApprovalSource c))
    (map default_approval (cfg_Projects c)).

Definition known_approval (m : string) : bool :=
  String.eqb m ApprovalAlways || String.eqb m ApprovalPrompt
  || String.eqb m ApprovalAllowlistedPrompt || String.eqb m ApprovalNever.

Definition validate_token_source (t : TokenSource) : result config_error unit :=
  if String.eqb (ts_Backend t) BackendSecretService then Ok tt
  else if String.eqb (ts_Backend t) BackendEnv then
    fail_if String.eqb (Var (ts_Env t)) "" with EEnvVarRequired; Ok tt
  else if String.eqb (ts_Backend t) BackendFile then
    fail_if String.eqb (Path (ts_File t)) "" with EFilePathRequired; Ok tt
  else Err (ETokenBackendUnsupported (ts_Backend t)).

Section Validate.
(** [net/url.Parse] *)
Context (url_Parse : string -> option URL).

Definition is_http_origin (s : string) : bool :=
  match url_Parse s with
  | None => false
  | Some u =>
      negb (negb (String.eqb (Scheme u) "http") || String.eqb (Host u) "" || User u
            || negb (String.eqb (URLPath u) "") || negb (String.eqb (RawQuery u) "")
            || negb (String.eqb (Fragment u) ""))
  end.

Definition validate_approval_source (a : ApprovalSource) : result config_error unit :=
  let r := as_TailscaleRelay a in
  if String.eqb (as_Backend a) ApprovalBackendKDialog then Ok tt
  else if String.eqb (as_Backend a) ApprovalBackendTailscaleRelay then
    fail_if String.eqb (ControlURL r) "" with EControlURLRequired;
    fail_if negb (is_http_origin (ControlURL r)) with EControlURLNotOrigin;
    fail_if PollIntervalSeconds r <=? 0 with EPollIntervalNotPositive;
    fail_if TimeoutSeconds r <=? 0 with ETimeoutNotPositive;
    fail_if TimeoutSeconds r <=? PollIntervalSeconds r with EPollNotLessThanTimeout;
    Ok tt
  else Err (EApprovalBackendUnsupported (as_Backend a)).

(** The loop over [c.Projects], with the aliases already seen. *)
Fixpoint validate_projects (seen : gset string) (ps : list Project) : result config_error unit :=
  match ps with
  | [] => Ok tt
  | p :: ps' =>
      fail_if String.eqb (Alias p) "" with EMissingAlias;
      fail_if bool_decide (Alias p ∈ seen) with EDuplicateAlias (Alias p);
      fail_if String.eqb (BWSProjectID p) "" with EBWSProjectIDRequired (Alias p);
      fail_if String.eqb (TokenEntry p) "" with ETokenEntryRequired (Alias p);
      fail_if negb (known_approval (Approval p)) with EBadApproval (Alias p) (Approval p);
      fail_if existsb (fun e => Nat.eqb (length (Argv e)) 0) (Allow p) with EEmptyArgv (Alias p);
      validate_projects ({[Alias p]} ∪ seen) ps'
  end.

Definition validate (c : Config) : result config_error unit :=
  _ ← validate_token_source (cfg_TokenSource c);
  _ ← validate_approval_source (cfg_ApprovalSource c);
  fail_if Nat.eqb (length (cfg_Projects c)) 0 with ENoProjects;
  validate_projects ∅ (cfg_Projects c).

(** [Parse]: decode, apply the defaults, validate. *)
Definition Parse (toml_Unmarshal : string -> option Config) (data : string)
    : result config_error Config :=
  match toml_Unmarshal data with
  | None => Err EParsingConfig
  | Some raw =>
      let cfg := applyDefaults raw in
      _ ← validate cfg;
      Ok cfg
  end.
End Validate.

Fixpoint first_not_abs (dirs : list string) : option string :=
  match dirs with
  | [] => None
  | d :: ds => if negb (Filepath.IsAbs d) then Some d else first_not_abs ds
  end.

Fixpoint worker_dirs (ps : list Project) : result config_error unit :=
  match ps with
  | [] => Ok tt
  | p :: ps' =>
      fail_if negb (Filepath.IsAbs (WorkingDir p)) with EWorkerWorkingDirNotAbs (Alias p);
      worker_dirs ps'
  end.

Definition ValidateWorker (c : Config) : result config_error unit :=
  let r := cfg_Runtime c in
  fail_if negb (String.eqb (ts_Backend (cfg_TokenSource c)) BackendFile) with EWorkerTokenBackend;
  fail_if negb (Filepath.IsAbs (Path (ts_File (cfg_TokenSource c)))) with EWorkerTokenPathNotAbs;
  fail_if negb (String.eqb (as_Backend (cfg_ApprovalSource c)) ApprovalBackendTailscaleRelay)
    with EWorkerApprovalBackend;
  fail_if negb (Filepath.IsAbs (BWSBinary r)) with EWorkerBWSBinaryNotAbs;
  fail_if negb (Filepath.IsAbs (Home r)) with EWorkerHomeNotAbs;
  fail_if String.eqb (CommandPath r) "" with EWorkerCommandPathRequired;
  match first_not_abs (Strings.Split (CommandPath r) Filepath.ListSeparator) with
  | Some d => Err (EWorkerCommandPathEntryNotAbs d)
  | None => worker_dirs (cfg_Projects c)
  end.

(** [c.Project(alias)]: the first project with the alias. *)
Fixpoint find_alias (alias : string) (ps : list Project) : option Project :=
  match ps with
  | [] => None
  | p :: ps' => if String.eqb (Alias p) alias then Some p else find_alias alias ps'
  end.

Definition lookup_project (c : Config) (alias : string) : option Project :=
  find_alias alias (cfg_Projects c).

(** [DefaultPath] and [DefaultAuditLogPath]: the environment variable, or the
    home directory ([os.UserHomeDir], which can fail). *)
Definition DefaultPath (getenv : string -> string) (home : result string string)
    : result string string :=
  let dir := getenv "XDG_CONFIG_HOME" in
  if negb (String.eqb dir "") then Ok (Filepath.Join [dir; "secrets-broker"; "policy.toml"])
  else h ← wrap_err (fun e => "resolving home directory: " +:+ e) home;
       Ok (Filepath.Join [h; ".config"; "secrets-broker"; "policy.toml"]).

Definition DefaultAuditLogPath (getenv : string -> string) (home : result string string)
    : result string string :=
  let dir := getenv "XDG_STATE_HOME" in
  if negb (String.eqb dir "") then Ok (Filepath.Join [dir; "secrets-broker"; "audit.jsonl"])
  else h ← wrap_err (fun e => "resolving home directory: " +:+ e) home;
       Ok (Filepath.Join [h; ".local"; "state"; "secrets-broker"; "audit.jsonl"]).

(** ** Specification *)

(** The four approval modes. *)
Definition approval_modes : list string := ["always"; "prompt"; "allowlisted-prompt"; "never"].

Record wf_project (p : Project) : Prop := {
  wfp_alias : Alias p <> "";
  wfp_bws : BWSProjectID p <> "";
  wfp_token : TokenEntry p <> "";
  wfp_approval : Approval p ∈ approval_modes;
  wfp_allow : forall e, e ∈ Allow p -> Argv e <> [];
}.

Definition wf_token_source (t : TokenSource) : Prop :=
  ts_Backend t = "secret-service"
  \/ ts_Backend t = "env" /\ Var (ts_Env t) <> ""
  \/ ts_Backend t = "file" /\ Path (ts_File t) <> "".

(** [url.Parse] takes the string apart as an origin over http: a host, and no
    user, path, query or fragment.  It reports an empty query and an empty
    fragment for a string that ends in a bare question mark or hash sign, so
    such a string passes. *)
Definition http_origin (url_Parse : string -> option URL) (s : string) : Prop :=
  exists u, url_Parse s = Some u /\ Scheme u = "http" /\ Host u <> "" /\ User u = false
    /\ URLPath u = "" /\ RawQuery u = "" /\ Fragment u = "".

Definition wf_approval_source (url_Parse : string -> option URL) (a : ApprovalSource) : Prop :=
  as_Backend a = "kdialog"
  \/ as_Backend a = "tailscale-relay"
     /\ http_origin url_Parse (ControlURL (as_TailscaleRelay a))
     /\ ControlURL (as_TailscaleRelay a) <> ""
     /\ 0 < PollIntervalSeconds (as_TailscaleRelay a) < TimeoutSeconds (as_TailscaleRelay a).

Record wf_config (url_Parse : string -> option URL) (c : Config) : Prop := {
  wfc_token : wf_token_source (cfg_TokenSource c);
  wfc_approval : wf_approval_source url_Parse (cfg_ApprovalSource c);
  wfc_some_project : cfg_Projects c <> [];
  wfc_projects : Forall wf_project (cfg_Projects c);
  wfc_unique : NoDup (map Alias (cfg_Projects c));
}.

(** A value that was written, or the default of one that was left out: what
    the decoder leaves at [missing]. *)
Definition written_or {A} (missing default raw v : A) : Prop :=
  raw <> missing /\ v = raw \/ raw = missing /\ v = default.

Record defaulted_project (raw p : Project) : Prop := {
  dp_alias : Alias p = Alias raw;
  dp_bws : BWSProjectID p = BWSProjectID raw;
  dp_token : TokenEntry p = TokenEntry raw;
  dp_dir : WorkingDir p = WorkingDir raw;
  dp_approval : written_or "" "never" (Approval raw) (Approval p);
  dp_allow : Allow p = Allow raw;
}.

(** [c] is [raw] with the documented defaults: no approval without a mode, the
    local dialog without a backend, a poll every 2 seconds for 5 minutes. *)
Record defaulted (raw c : Config) : Prop := {
  df_runtime : cfg_Runtime c = cfg_Runtime raw;
  df_token : cfg_TokenSource c = cfg_TokenSource raw;
  df_backend : written_or "" "kdialog" (as_Backend (cfg_ApprovalSource raw)) (as_Backend (cfg_ApprovalSource c));
  df_url : ControlURL (as_TailscaleRelay (cfg_ApprovalSource c))
    = ControlURL (as_TailscaleRelay (cfg_ApprovalSource raw));
  df_relay : as_Backend (cfg_ApprovalSource raw) = "tailscale-relay" ->
    written_or 0 2 (PollIntervalSeconds (as_TailscaleRelay (cfg_ApprovalSource raw)))
                   (PollIntervalSeconds (as_TailscaleRelay (cfg_ApprovalSource c)))
    /\ written_or 0 300 (TimeoutSeconds (as_TailscaleRelay (cfg_ApprovalSource raw)))
                        (TimeoutSeconds (as_TailscaleRelay (cfg_ApprovalSource c)));
  df_other : as_Backend (cfg_ApprovalSource raw) <> "tailscale-relay" ->
    as_TailscaleRelay (cfg_ApprovalSource c) = as_TailscaleRelay (cfg_ApprovalSource raw);
  df_projects : Forall2 defaulted_project (cfg_Projects raw) (cfg_Projects c);
}.

(** What a credential-bearing worker relies on. *)
Record worker_ready (c : Config) : Prop := {
  wr_token : ts_Backend (cfg_TokenSource c) = BackendFile;
  wr_token_path : Filepath.IsAbs (Path (ts_File (cfg_TokenSource c))) = true;
  wr_approval : as_Backend (cfg_ApprovalSource c) = ApprovalBackendTailscaleRelay;
  wr_bws : Filepath.IsAbs (BWSBinary (cfg_Runtime c)) = true;
  wr_home : Filepath.IsAbs (Home (cfg_Runtime c)) = true;
  wr_path : CommandPath (cfg_Runtime c) <> "";
  wr_path_dirs : Forall (fun d => Filepath.IsAbs d = true)
    (Strings.Split (CommandPath (cfg_Runtime c)) Filepath.ListSeparator);
  wr_dirs : Forall (fun p => Filepath.IsAbs (WorkingDir p) = true) (cfg_Projects c);
}.

(** ** Lemmas *)

Lemma known_approval_spec m : known_approval m = true <-> m ∈ approval_modes.
Proof.
  unfold known_approval, approval_modes.
  rewrite !orb_true_iff, !String.eqb_eq, !elem_of_cons. set_solver.
Qed.

Lemma empty_argv_spec (l : list AllowEntry) :
  existsb (fun e => Nat.eqb (length (Argv e)) 0) l = false <-> forall e, e ∈ l -> Argv e <> [].
Proof.
  induction l as [|e l IH]; simpl; [set_solver|].
  rewrite orb_false_iff, IH. destruct (Argv e) eqn:E; simpl.
  - split; [naive_solver|]. intros H. by destruct (H e); [set_solver|].
  - split; [|set_solver]. intros [_ H] e' [->|He]%elem_of_cons; [congruence|auto].
Qed.

Lemma eqb_false_iff s t : String.eqb s t = false <-> s <> t.
Proof. apply String.eqb_neq. Qed.

Lemma validate_projects_spec seen ps :
  validate_projects seen ps = Ok tt <->
  Forall wf_project ps /\ NoDup (map Alias ps) /\ (forall p, p ∈ ps -> Alias p ∉ seen).
Proof.
  revert seen. induction ps as [|p ps IH]; intros seen.
  { simpl. split; [|done]. intros _. split_and!; [constructor..|set_solver]. }
  cbn [validate_projects]. rewrite !fail_if_Ok, IH, !eqb_false_iff, negb_false_iff,
    known_approval_spec, empty_argv_spec, bool_decide_eq_false.
  rewrite Forall_cons. cbn [map]. rewrite NoDup_cons.
  assert (Hin : Alias p ∈ map Alias ps <-> exists q, q ∈ ps /\ Alias q = Alias p).
  { rewrite list_elem_of_fmap. naive_solver. }
  rewrite Hin. split.
  - intros (? & ? & ? & ? & ? & ? & ? & ? & Hs). split_and!; [by constructor|done| |done|].
    + intros (q & Hq & E). specialize (Hs q Hq). set_solver.
    + intros q [->|Hq]%elem_of_cons; [done|]. specialize (Hs q Hq). set_solver.
  - intros ([[] ?] & [Hn ?] & Hs). split_and!; try done; [set_solver|].
    intros q Hq. assert (Alias q <> Alias p) by naive_solver.
    specialize (Hs q). set_solver.
Qed.

Lemma validate_token_source_spec t :
  validate_token_source t = Ok tt <-> wf_token_source t.
Proof.
  unfold validate_token_source, wf_token_source.
  destruct (String.eqb_spec (ts_Backend t) BackendSecretService) as [->|]; [naive_solver|].
  destruct (String.eqb_spec (ts_Backend t) BackendEnv) as [->|].
  { rewrite fail_if_Ok, eqb_false_iff. naive_solver. }
  destruct (String.eqb_spec (ts_Backend t) BackendFile) as [->|]; [|naive_solver].
  rewrite fail_if_Ok, eqb_false_iff. naive_solver.
Qed.

Lemma is_http_origin_spec up s : is_http_origin up s = true <-> http_origin up s.
Proof.
  unfold is_http_origin, http_origin. destruct (up s) as [u|]; [|naive_solver].
  rewrite negb_true_iff, !orb_false_iff, !negb_false_iff, !String.eqb_eq, eqb_false_iff. naive_solver.
Qed.

Lemma validate_approval_source_spec up a :
  validate_approval_source up a = Ok tt <-> wf_approval_source up a.
Proof.
  unfold validate_approval_source, wf_approval_source.
  destruct (String.eqb_spec (as_Backend a) ApprovalBackendKDialog) as [->|]; [naive_solver|].
  destruct (String.eqb_spec (as_Backend a) ApprovalBackendTailscaleRelay) as [->|];
    [|naive_solver].
  rewrite !fail_if_Ok, eqb_false_iff, negb_false_iff, is_http_origin_spec, !Z.leb_gt. naive_solver lia.
Qed.

Lemma validate_spec up c : validate up c = Ok tt <-> wf_config up c.
Proof.
  unfold validate. rewrite bind_Ok. setoid_rewrite bind_Ok. setoid_rewrite fail_if_Ok.
  setoid_rewrite validate_projects_spec. split.
  - intros ([] & H1 & [] & H2 & H3 & ? & ? & _).
    apply validate_token_source_spec in H1. apply validate_approval_source_spec in H2.
    split; try done. intros E. by rewrite E in H3.
  - intros [H1 H2 H3 H4 H5]. exists tt. split; [by apply validate_token_source_spec|].
    exists tt. split; [by apply validate_approval_source_spec|].
    split; [by destruct (cfg_Projects c)|]. split_and!; [done..|set_solver].
Qed.

Lemma first_not_abs_None ds :
  first_not_abs ds = None <-> Forall (fun d => Filepath.IsAbs d = true) ds.
Proof.
  induction ds as [|d ds IH]; simpl; [done|]. rewrite Forall_cons, <- IH.
  destruct (Filepath.IsAbs d); naive_solver.
Qed.

Lemma worker_dirs_spec ps :
  worker_dirs ps = Ok tt <-> Forall (fun p => Filepath.IsAbs (WorkingDir p) = true) ps.
Proof.
  induction ps as [|p ps IH]; [done|]. cbn [worker_dirs].
  by rewrite fail_if_Ok, Forall_cons, <- IH, negb_false_iff.
Qed.

Lemma ValidateWorker_spec c : ValidateWorker c = Ok tt <-> worker_ready c.
Proof.
  unfold ValidateWorker. rewrite !fail_if_Ok, !negb_false_iff, !String.eqb_eq, eqb_false_iff.
  split.
  - intros (? & ? & ? & ? & ? & ? & H). destruct (first_not_abs _) eqn:E; [done|].
    split; try done; [by apply first_not_abs_None|by apply worker_dirs_spec].
  - intros [? ? ? ? ? ? H ?]. apply first_not_abs_None in H. rewrite H.
    split_and!; try done. by apply worker_dirs_spec.
Qed.

Lemma find_alias_Some alias ps p :
  find_alias alias ps = Some p -> p ∈ ps /\ Alias p = alias.
Proof.
  induction ps as [|q ps IH]; simpl; [done|].
  destruct (String.eqb_spec (Alias q) alias) as [<-|]; [intros [= ->]; set_solver|].
  intros H. destruct (IH H). set_solver.
Qed.

Lemma find_alias_None alias ps :
  find_alias alias ps = None <-> forall p, p ∈ ps -> Alias p <> alias.
Proof.
  induction ps as [|q ps IH]; simpl; [set_solver|].
  destruct (String.eqb_spec (Alias q) alias) as [<-|]; [|rewrite IH; set_solver].
  split; [done|]. intros H. by destruct (H q); [set_solver|].
Qed.

Lemma find_alias_unique alias ps p :
  NoDup (map Alias ps) -> p ∈ ps -> Alias p = alias -> find_alias alias ps = Some p.
Proof.
  induction ps as [|q ps IH]; simpl; [set_solver|]. rewrite NoDup_cons.
  intros [Hn ?] [->|Hp]%elem_of_cons E.
  - by rewrite E, String.eqb_refl.
  - destruct (String.eqb_spec (Alias q) alias) as [Eq|]; [|auto].
    destruct Hn. rewrite Eq, <- E. by apply list_elem_of_fmap_2.
Qed.

Lemma default_approval_idemp p : default_approval (default_approval p) = default_approval p.
Proof.
  unfold default_approval at 2 3. destruct (String.eqb (Approval p) "") eqn:E; [done|].
  unfold default_approval. by rewrite E.
Qed.

Lemma default_relay_idemp r : default_relay (default_relay r) = default_relay r.
Proof.
  unfold default_relay; simpl. f_equal.
  - destruct (Z.eqb_spec (PollIntervalSeconds r) 0); [done|]. by case_match; boolP.
  - destruct (Z.eqb_spec (TimeoutSeconds r) 0); [done|]. by case_match; boolP.
Qed.

Lemma default_approval_source_idemp a :
  default_approval_source (default_approval_source a) = default_approval_source a.
Proof.
  unfold default_approval_source.
  destruct (String.eqb_spec (as_Backend a) "") as [|Hne]; simpl; [done|].
  apply eqb_false_iff in Hne. rewrite Hne. case_match; [|done].
  by rewrite default_relay_idemp.
Qed.

Lemma Parse_Ok up toml data c :
  Parse up toml data = Ok c <->
  exists raw, toml data = Some raw /\ c = applyDefaults raw /\ wf_config up c.
Proof.
  unfold Parse. destruct (toml data) as [raw|]; [|naive_solver].
  rewrite bind_Ok. setoid_rewrite <- validate_spec. split.
  - intros ([] & ? & [= <-]). eauto.
  - intros (? & [= <-] & -> & ?). by exists tt.
Qed.

Lemma default_approval_spec raw p : defaulted_project raw p <-> p = default_approval raw.
Proof.
  unfold default_approval. destruct raw as [a b tk w m al], p as [a' b' tk' w' m' al']. cbn.
  destruct (String.eqb_spec m "") as [->|Hm]; split.
  - intros [? ? ? ? [[]|[_ ?]] ?]; by simplify_eq/=.
  - intros [= -> -> -> -> -> ->]. split; try done. by right.
  - intros [? ? ? ? [[_ ?]|[]] ?]; by simplify_eq/=.
  - intros [= -> -> -> -> -> ->]. split; try done. by left.
Qed.

Lemma written_or_eqb raw d v : written_or 0 d raw v <-> v = (if raw =? 0 then d else raw).
Proof. unfold written_or. destruct (Z.eqb_spec raw 0); naive_solver. Qed.

Lemma default_relay_spec raw v :
  v = default_relay raw <->
  ControlURL v = ControlURL raw /\ written_or 0 2 (PollIntervalSeconds raw) (PollIntervalSeconds v)
  /\ written_or 0 300 (TimeoutSeconds raw) (TimeoutSeconds v).
Proof. rewrite !written_or_eqb. destruct raw, v. cbn. split; [by intros [= -> -> ->]|by intros (-> & -> & ->)]. Qed.

Lemma defaulted_iff raw c : defaulted raw c <-> c = applyDefaults raw.
Proof.
  destruct raw as [rt ts [b r] ps], c as [rt' ts' [b' r'] ps']. unfold applyDefaults, default_approval_source, ApprovalBackendTailscaleRelay, ApprovalBackendKDialog.
  assert (Hps : Forall2 defaulted_project ps ps' <-> ps' = map default_approval ps).
  { clear. split.
    - induction 1 as [|p p' ps ps' ->%default_approval_spec _ ->]; done.
    - intros ->. induction ps; constructor; [by apply default_approval_spec|done]. }
  cbn. destruct (String.eqb_spec b "") as [->|Hb]; cbn.
  - split.
    + intros [? ? [[]|[_ ?]] ? _ Ho ->%Hps]; [done|]. cbn in *. rewrite Ho by done. by subst.
    + intros [= -> -> -> -> ->]. split; cbn; try done; [by right|by apply Hps].
  - destruct (String.eqb_spec b "tailscale-relay") as [->|Hr]; cbn.
    + split.
      * intros [? ? [[_ ?]|[]] ? Hr _ ->%Hps]; [|done]. cbn in *. destruct (Hr eq_refl) as [H1 H2].
        rewrite (proj2 (default_relay_spec r r')) by done. by subst.
      * intros [= -> -> -> E ->]. pose proof (proj1 (default_relay_spec r r')) as Hd.
        assert (r' = default_relay r) as Hr' by (by destruct r', r; cbn in *; simplify_eq/=).
        destruct (Hd Hr') as (? & ? & ?). split; cbn; try done; [by left|by apply Hps].
    + split.
      * intros [? ? [[_ ?]|[]] ? _ Ho ->%Hps]; [|done]. cbn in *. rewrite Ho by done. by subst.
      * intros [= -> -> -> -> ->]. split; cbn; try done; [by left|by apply Hps].
Qed.

(** ** Properties *)

(** C36: parsing accepts exactly the well-formed policies, and fills in exactly
    the documented defaults.  [Parse] returns [c] if and only if the decoder
    produced a policy of which [c] is the defaulted form, every value that was
    written being kept, and [c] meets the rules: a supported token source and
    approval source with their required fields, a relay URL that [url.Parse]
    takes for an origin over http, a poll interval below the timeout, at least
    one project, distinct aliases, and in each project the identifiers, a known
    approval mode and no empty argv. *)
Theorem Parse_accepts_exactly up toml data c :
  Parse up toml data = Ok c <->
  exists raw, toml data = Some raw /\ defaulted raw c /\ wf_config up c.
Proof. rewrite Parse_Ok. by setoid_rewrite defaulted_iff. Qed.

(** The finding on control_url: if [url.Parse] reports an empty query for an
    origin with a question mark at its end, as net/url does, a policy with
    that URL is accepted. *)
Lemma bare_query_accepted up c host :
  up ("http://" +:+ host +:+ "?") = Some (mkURL "http" host false "" "" "") -> host <> "" ->
  ControlURL (as_TailscaleRelay (cfg_ApprovalSource c)) = "http://" +:+ host +:+ "?" ->
  is_http_origin up (ControlURL (as_TailscaleRelay (cfg_ApprovalSource c))) = true.
Proof. intros Hu Hh ->. apply is_http_origin_spec. eexists. split; [exact Hu|]. done. Qed.

(** The worker check accepts exactly the deployments that keep the
    credential out of the caller's reach: file token, remote approval, absolute
    paths everywhere, and an absolute working directory for every project. *)
Theorem ValidateWorker_accepts_exactly c : ValidateWorker c = Ok tt <-> worker_ready c.
Proof. apply ValidateWorker_spec. Qed.

(** In a parsed policy an alias names at most one project, and the lookup
    finds it: [lookup_project] returns [p] if and only if [p] is a configured
    project with that alias. *)
Theorem lookup_project_exact up toml data c alias p :
  Parse up toml data = Ok c ->
  (lookup_project c alias = Some p <-> p ∈ cfg_Projects c /\ Alias p = alias).
Proof.
  intros (raw & _ & _ & Hwf)%Parse_Ok. split; [apply find_alias_Some|].
  intros [Hin Ha]. apply find_alias_unique; [apply Hwf|done|done].
Qed.

(** The defaults are stable: applying them to a defaulted configuration
    changes nothing, so a value that was written is never overridden. *)
Theorem applyDefaults_idempotent c : applyDefaults (applyDefaults c) = applyDefaults c.
Proof.
  unfold applyDefaults; simpl. rewrite default_approval_source_idemp, map_map.
  f_equal. apply map_ext, default_approval_idemp.
Qed.
