(* ===== verification/SecureFile.v ===== *)
(** * SecureFile: checked access to sensitive files (internal/securefile)

    A file system is a map from paths to nodes.  The path of a node is the
    path the kernel has resolved up to its last component; a final symbolic
    link is a node of its own, which [open] refuses ([O_NOFOLLOW]) and
    [os.Stat] follows.  Each function works on one snapshot: the code opens a
    descriptor once and inspects that descriptor. *)

From S2P Require Import Prelude GoStrings.

#[local] Open Scope Z_scope.

(** ** The file system *)

Inductive kind : Type :=
| Regular
| Directory
| Symlink (target : string)
| Special.              (** FIFO, socket, device *)

#[export] Instance kind_eq_dec : EqDecision kind. Proof. solve_decision. Defined.

Record node := mkNode {
  n_kind : kind;
  n_mode : Z;           (** the permission bits, with setuid, setgid and sticky *)
  n_uid : Z;
  n_data : string;
}.

Record FS := mkFS {
  nodes : gmap string node;
  euid : Z;                      (** [os.Geteuid()] *)
  umask : Z;
  io_error : string -> bool;     (** the kernel refuses to open or read this path *)
}.

(** [info.Mode().Perm()] *)
Definition Perm (n : node) : Z := Z.land (n_mode n) 511.

Inductive securefile_error : Type :=
| EOpening (path : string)
| EReading (path : string)
| EExceeds (path : string) (max : Z)
| EStating (path : string)
| ENotRegular (path : string)
| ETooOpen (path : string) (perm : Z)
| ENotDirectory (path : string)
| EGroupOtherWritable (path : string) (perm : Z)
| ENotExecutable (path : string)
| EOwner (path : string) (uid : Z) (allow_root : bool) (got : Z).

(** ** Operations *)

(** [validateOwner] *)
Definition validateOwner (fs : FS) (path : string) (n : node) (allowRoot : bool)
    : result securefile_error unit :=
  if (n_uid n =? euid fs) || (allowRoot && (n_uid n =? 0)) then Ok tt
  else Err (EOwner path (euid fs) allowRoot (n_uid n)).

(** [validate] on the opened descriptor. *)
Definition validate (fs : FS) (path : string) (n : node) (forbiddenPerms : Z)
    (allowRootOwner : bool) : result securefile_error unit :=
  fail_if negb (bool_decide (n_kind n = Regular)) with ENotRegular path;
  fail_if negb (Z.land (Perm n) forbiddenPerms =? 0) with ETooOpen path (Perm n);
  validateOwner fs path n allowRootOwner.

(** [open] for reading: the last component must not be a symbolic link. *)
Definition open_read (fs : FS) (path : string) : result securefile_error node :=
  match nodes fs !! path with
  | None => Err (EOpening path)
  | Some n =>
      match n_kind n with
      | Symlink _ => Err (EOpening path)
      | _ => if io_error fs path then Err (EOpening path) else Ok n
      end
  end.

(** [open] with [O_APPEND|O_CREAT|O_WRONLY]: a missing file is created with
    the caller as owner; a directory cannot be opened for writing. *)
Definition open_append (fs : FS) (path : string) (perm : Z) : result securefile_error (node * FS) :=
  if io_error fs path then Err (EOpening path) else
  match nodes fs !! path with
  | None =>
      let n := mkNode Regular (Z.land perm (Z.lnot (umask fs))) (euid fs) "" in
      Ok (n, mkFS (<[path := n]> (nodes fs)) (euid fs) (umask fs) (io_error fs))
  | Some n =>
      match n_kind n with
      | Symlink _ | Directory => Err (EOpening path)
      | _ => Ok (n, fs)
      end
  end.

(** [os.Stat]: follows symbolic links, at most 40 as the kernel does. *)
Fixpoint stat_fuel (fuel : nat) (fs : FS) (path : string) : option node :=
  match nodes fs !! path with
  | None => None
  | Some n =>
      match n_kind n with
      | Symlink target => match fuel with O => None | S f => stat_fuel f fs target end
      | _ => Some n
      end
  end.

Definition Stat (fs : FS) (path : string) : option node := stat_fuel 40 fs path.

(** [Read]: one byte more than [maxBytes] is asked for, to see a longer file. *)
Definition Read (fs : FS) (path : string) (maxBytes forbiddenPerms : Z) (allowRootOwner : bool)
    : result securefile_error string :=
  n ← open_read fs path;
  _ ← validate fs path n forbiddenPerms allowRootOwner;
  let data := Strings.take (Z.to_nat (maxBytes + 1)) (n_data n) in
  fail_if maxBytes <? len data with EExceeds path maxBytes;
  Ok data.

Definition ValidatePrivateFile (fs : FS) (path : string) (maxBytes : Z)
    : result securefile_error Z :=
  n ← open_read fs path;
  _ ← validate fs path n 63 false;
  fail_if maxBytes <? len (n_data n) with EExceeds path maxBytes;
  Ok (len (n_data n)).

(** A file created and then refused stays behind, as in the code. *)
Definition OpenAppend (fs : FS) (path : string) (perm : Z) : result securefile_error unit * FS :=
  match open_append fs path perm with
  | Err e => (Err e, fs)
  | Ok (n, fs') => (validate fs' path n 63 false, fs')
  end.

Definition ValidatePrivateDir (fs : FS) (path : string) : result securefile_error unit :=
  match Stat fs path with
  | None => Err (EStating path)
  | Some n =>
      fail_if negb (bool_decide (n_kind n = Directory)) with ENotDirectory path;
      fail_if negb (Z.land (Perm n) 63 =? 0) with ETooOpen path (Perm n);
      validateOwner fs path n false
  end.

Definition ValidateTrustedDir (fs : FS) (path : string) : result securefile_error unit :=
  match Stat fs path with
  | None => Err (EStating path)
  | Some n =>
      fail_if negb (bool_decide (n_kind n = Directory)) with ENotDirectory path;
      fail_if negb (Z.land (Perm n) 18 =? 0) with EGroupOtherWritable path (Perm n);
      validateOwner fs path n true
  end.

Definition ValidateExecutable (fs : FS) (path : string) : result securefile_error unit :=
  n ← open_read fs path;
  _ ← validate fs path n 18 true;
  fail_if Z.land (Perm n) 73 =? 0 with ENotExecutable path;
  Ok tt.

(** [f.Write(p)] on a descriptor opened for appending. *)
Definition write_append (fs : FS) (path : string) (p : string) : FS :=
  mkFS (alter (fun n => mkNode (n_kind n) (n_mode n) (n_uid n) (n_data n +:+ p)) path (nodes fs))
    (euid fs) (umask fs) (io_error fs).

(** ** Specification *)

Definition owner_ok (fs : FS) (n : node) (allowRoot : bool) : Prop :=
  n_uid n = euid fs \/ allowRoot = true /\ n_uid n = 0.

(** A regular file, not a link, with none of the forbidden bits, owned by the
    process (or by root where that is allowed). *)
Definition trusted_file (fs : FS) (path : string) (forbidden : Z) (allowRoot : bool) (n : node) : Prop :=
  nodes fs !! path = Some n /\ n_kind n = Regular /\ io_error fs path = false
  /\ Z.land (Perm n) forbidden = 0 /\ owner_ok fs n allowRoot.

(** ** Lemmas *)

Lemma validateOwner_Ok fs path n r : validateOwner fs path n r = Ok tt <-> owner_ok fs n r.
Proof.
  unfold validateOwner, owner_ok.
  rewrite <- (Z.eqb_eq (n_uid n) (euid fs)), <- (Z.eqb_eq (n_uid n) 0).
  destruct (n_uid n =? euid fs), r, (n_uid n =? 0); simpl; naive_solver.
Qed.

Lemma validate_Ok fs path n forbidden r :
  validate fs path n forbidden r = Ok tt <->
  n_kind n = Regular /\ Z.land (Perm n) forbidden = 0 /\ owner_ok fs n r.
Proof.
  unfold validate. rewrite !fail_if_Ok, validateOwner_Ok, !negb_false_iff, Z.eqb_eq.
  by rewrite bool_decide_eq_true.
Qed.

Lemma open_read_Ok fs path n :
  open_read fs path = Ok n <->
  nodes fs !! path = Some n /\ io_error fs path = false /\ forall t, n_kind n <> Symlink t.
Proof.
  unfold open_read. destruct (nodes fs !! path) as [m|]; [|naive_solver].
  split.
  - destruct (n_kind m) eqn:E; intros H; inv_ok; repeat (case_match; [done|]); inv_ok;
      (split_and!; [done|done|congruence]).
  - intros ([= ->] & -> & Hn). destruct (n_kind n); try done. by destruct (Hn target).
Qed.

Lemma open_validate_Ok fs path forbidden r n :
  open_read fs path = Ok n /\ validate fs path n forbidden r = Ok tt
  <-> trusted_file fs path forbidden r n.
Proof.
  rewrite open_read_Ok, validate_Ok. unfold trusted_file.
  split; [naive_solver|]. intros (? & E & ?). rewrite E. naive_solver.
Qed.

Lemma Read_Ok fs path max forbidden r data : 0 <= max ->
  Read fs path max forbidden r = Ok data <->
  exists n, trusted_file fs path forbidden r n /\ data = n_data n /\ len (n_data n) <= max.
Proof.
  intros Hmax. setoid_rewrite <- open_validate_Ok. unfold Read. split.
  - intros H. inv_ok. boolP. unfold len in *. rewrite length_take in *.
    rewrite take_ge by lia. destruct x0. exists x. split_and!; try done; lia.
  - intros (n & [Ho Hv] & -> & Hl). rewrite Ho. unfold mbind, result_bind. rewrite Hv.
    rewrite take_ge by (unfold len in Hl; lia). by rewrite (proj2 (Z.ltb_ge _ _) Hl).
Qed.

Lemma open_append_inv fs path perm n fs' :
  open_append fs path perm = Ok (n, fs') ->
  nodes fs' !! path = Some n /\ (forall t, n_kind n <> Symlink t) /\ n_kind n <> Directory
  /\ io_error fs' path = false /\ euid fs' = euid fs /\ umask fs' = umask fs
  /\ (forall q, q <> path -> nodes fs' !! q = nodes fs !! q)
  /\ (nodes fs !! path = Some n \/ nodes fs !! path = None /\ n_data n = "").
Proof.
  unfold open_append. destruct (io_error fs path) eqn:Hio; [done|].
  destruct (nodes fs !! path) as [m|] eqn:E.
  - destruct (n_kind m) eqn:Ek; try done; intros [= <- <-];
      (split_and!; [done|congruence|congruence|done|done|done|done|by left]).
  - intros [= <- <-]. simpl. split_and!; try done; [by simplify_map_eq| |by right].
    intros q Hq. by rewrite lookup_insert_ne.
Qed.

Lemma OpenAppend_Ok fs path perm fs' :
  OpenAppend fs path perm = (Ok tt, fs') ->
  (exists n, trusted_file fs' path 63 false n
     /\ (nodes fs !! path = Some n \/ nodes fs !! path = None /\ n_data n = ""))
  /\ euid fs' = euid fs
  /\ (forall q, q <> path -> nodes fs' !! q = nodes fs !! q).
Proof.
  unfold OpenAppend. destruct (open_append fs path perm) as [[n fs1]|] eqn:E; [|done].
  apply open_append_inv in E as (Hn & Hs & Hd & Hio & He & _ & Hq & Hold).
  intros [= Hv <-]. split; [|done]. exists n. split; [|done].
  apply open_validate_Ok. by rewrite open_read_Ok.
Qed.

(** ** Properties *)

(** A sensitive file is read only when it is trusted, and then whole: for a
    non-negative limit [Read] returns [data] if and only if the path is a
    regular file and not a link, carries none of the forbidden permission
    bits, has an accepted owner, holds exactly [data] and is within the limit. *)
Theorem Read_trusted_exact fs path max forbidden r data : 0 <= max ->
  (Read fs path max forbidden r = Ok data <->
   exists n, trusted_file fs path forbidden r n /\ data = n_data n /\ len (n_data n) <= max).
Proof. apply Read_Ok. Qed.

(** A log opened for appending is private and intact: when [OpenAppend]
    succeeds the path is a regular file with no group or other permission,
    owned by the process, with the content it had (or none if it is new), and
    no other path has changed. *)
Theorem OpenAppend_private_append_only fs path perm fs' :
  OpenAppend fs path perm = (Ok tt, fs') ->
  (exists n, trusted_file fs' path 63 false n
     /\ (nodes fs !! path = Some n \/ nodes fs !! path = None /\ n_data n = ""))
  /\ (forall q, q <> path -> nodes fs' !! q = nodes fs !! q).
Proof. intros H%OpenAppend_Ok. tauto. Qed.

(** ** Witnesses *)

Definition example_fs : FS :=
  mkFS {[ "/c" := mkNode Regular 384 1000 "hello" ]} 1000 18 (fun _ => false).

Lemma Read_trusted_exact_witness :
  0 <= 5 /\ Read example_fs "/c" 5 63 false = Ok "hello".
Proof.
  split; [lia|]. apply (Read_trusted_exact example_fs "/c" 5 63 false "hello" ltac:(lia)).
  exists (mkNode Regular 384 1000 "hello"). split; [|split; [reflexivity|done]].
  split; [reflexivity|]. split; [reflexivity|]. split; [reflexivity|].
  split; [reflexivity|by left].
Defined.

Lemma OpenAppend_private_append_only_witness :
  nodes (snd (OpenAppend example_fs "/log" 384)) !! "/c" = nodes example_fs !! "/c".
Proof.
  apply (OpenAppend_private_append_only example_fs "/log" 384
           (snd (OpenAppend example_fs "/log" 384)) ltac:(vm_compute; reflexivity)).
  discriminate.
Defined.
