(* ===== verification/BoundedIO.v ===== *)
(** * BoundedIO: fixed-memory output capture (internal/boundedio) *)

From S2P Require Import Prelude GoStrings SecureFile.

#[local] Open Scope Z_scope.

Record Buffer := mkBuffer { buf : string; limit : Z; exceeded : bool }.

Definition NewBuffer (limit : Z) : Buffer := mkBuffer "" limit false.

(** [Write]: consumes all of [p], keeps what fits; the count is [len(p)] and
    the error nil on both paths. *)
Definition Write (b : Buffer) (p : string) : Z * Buffer :=
  let remaining := limit b - len (buf b) in
  if remaining <? len p then
    (len p,
     if 0 <? remaining
     then mkBuffer (buf b +:+ Strings.take (Z.to_nat remaining) p) (limit b) true
     else mkBuffer (buf b) (limit b) true)
  else (len p, mkBuffer (buf b +:+ p) (limit b) (exceeded b)).

Definition Bytes (b : Buffer) : string := buf b.
Definition Exceeded (b : Buffer) : bool := exceeded b.

(** A child process writes its output in pieces. *)
Definition WriteAll (b : Buffer) (ps : list string) : Buffer :=
  foldl (fun b p => snd (Write b p)) b ps.

Definition total (ps : list string) : string := concat_map id ps.

(** The state after [done] has been written in all. *)
Definition holds (b : Buffer) (done : string) : Prop :=
  0 <= limit b
  /\ buf b = Strings.take (Z.to_nat (limit b)) done
  /\ exceeded b = (limit b <? len done).

Lemma take_app n a b :
  Strings.take n (a +:+ b) = Strings.take n a +:+ Strings.take (n - String.length a) b.
Proof. revert n. induction a as [|c a IH]; intros [|n]; simpl; try done.
  - by rewrite IH.
Qed.

Lemma Write_holds b p d : holds b d -> holds (snd (Write b p)) (d +:+ p).
Proof.
  intros (H0 & Hb & He). unfold Write, holds.
  assert (Hlen : len (buf b) = Z.min (limit b) (len d)).
  { rewrite Hb. unfold len. rewrite length_take. lia. }
  rewrite len_append, take_app. unfold len in *.
  destruct (Z.ltb_spec (limit b - Z.of_nat (String.length (buf b))) (Z.of_nat (String.length p))).
  - destruct (Z.ltb_spec 0 (limit b - Z.of_nat (String.length (buf b)))); simpl;
      (split_and!; [done| |symmetry; apply Z.ltb_lt; lia]); rewrite Hb.
    + f_equal. f_equal. rewrite Hb in Hlen. lia.
    + replace (Z.to_nat (limit b) - String.length d)%nat with 0%nat by lia.
      by rewrite append_empty_r.
  - simpl. rewrite Hb, He, (take_ge _ p) by lia. split_and!; [done..|].
    destruct (Z.ltb_spec (limit b) (Z.of_nat (String.length d))); symmetry;
      [apply Z.ltb_lt|apply Z.ltb_ge]; lia.
Qed.

Lemma WriteAll_holds b ps d : holds b d -> holds (WriteAll b ps) (d +:+ total ps).
Proof.
  revert b d. induction ps as [|p ps IH]; intros b d H; simpl.
  { by rewrite append_empty_r. }
  rewrite <- append_assoc. apply IH, Write_holds, H.
Qed.

Lemma WriteAll_limit b ps : limit (WriteAll b ps) = limit b.
Proof.
  revert b. induction ps as [|q ps IH]; intros b; simpl; [done|]. rewrite IH.
  unfold Write. by repeat case_match.
Qed.

(** The state of a new buffer after [ps]. *)
Lemma WriteAll_new lim ps : 0 <= lim ->
  Bytes (WriteAll (NewBuffer lim) ps) = Strings.take (Z.to_nat lim) (total ps)
  /\ Exceeded (WriteAll (NewBuffer lim) ps) = (lim <? len (total ps)).
Proof.
  intros H. destruct (WriteAll_holds (NewBuffer lim) ps "") as (_ & Hb & He).
  { unfold holds; simpl. split_and!; [done|by destruct (Z.to_nat lim)|by symmetry; apply Z.ltb_ge]. }
  rewrite WriteAll_limit in Hb, He. done.
Qed.

(** A buffer that was not exceeded holds everything. *)
Lemma WriteAll_whole lim ps : 0 <= lim -> Exceeded (WriteAll (NewBuffer lim) ps) = false ->
  Bytes (WriteAll (NewBuffer lim) ps) = total ps /\ len (total ps) <= lim.
Proof.
  intros H. destruct (WriteAll_new lim ps H) as [-> ->]. intros Hl%Z.ltb_ge.
  split; [|done]. apply take_ge. unfold len in Hl. lia.
Qed.

(** However a child splits its output, the buffer keeps exactly the first
    [limit] bytes of it, reports an excess if and only if the output was
    longer than the limit, and every [Write] consumes its whole argument. *)
Theorem Buffer_bounded lim ps p : 0 <= lim ->
  let b := WriteAll (NewBuffer lim) ps in
  Bytes b = Strings.take (Z.to_nat lim) (total ps)
  /\ Exceeded b = (lim <? len (total ps))
  /\ len (Bytes b) <= lim
  /\ fst (Write b p) = len p.
Proof.
  intros H b. destruct (WriteAll_new lim ps H) as [Hb He]. fold b in Hb, He.
  split_and!; [done|done| |].
  - rewrite Hb. unfold len. rewrite length_take. lia.
  - unfold Write. by case_match.
Qed.

Lemma Buffer_bounded_witness :
  0 <= 5 /\
  Bytes (WriteAll (NewBuffer 5) ["abc"; "def"; ""]) = "abcde"
  /\ Exceeded (WriteAll (NewBuffer 5) ["abc"; "def"; ""]) = true.
Proof.
  split; [lia|].
  destruct (Buffer_bounded 5 ["abc"; "def"; ""] "x" ltac:(lia)) as (Hb & He & _).
  rewrite Hb, He. split; reflexivity.
Defined.
