(* ===== verification/AccessDiag.v ===== *)
(** * AccessDiag: the access diagnostic protocol (internal/accessdiag)

    The result a worker reports for each project and the aggregate outcome,
    checked again on the administrator's side. *)

From S2P Require Import Prelude GoStrings GoText.

#[local] Open Scope Z_scope.

Definition Version : Z := 1.

Definition StatusAccessible : string := "accessible".
Definition StatusInaccessible : string := "inaccessible".
Definition StatusAuthenticationError : string := "authentication_error".
Definition StatusNetworkError : string := "network_error".
Definition StatusAPIError : string := "api_error".
Definition StatusUnknownError : string := "unknown_error".

Definition OutcomeAllAccessible : string := "all_accessible".
Definition OutcomeInaccessible : string := "inaccessible".
Definition OutcomeAuthenticationError : string := "authentication_error".
Definition OutcomeNetworkError : string := "network_error".
Definition OutcomeAPIError : string := "api_error".
Definition OutcomeUnknownError : string := "unknown_error".

Record ProjectResult := mkProjectResult {
  pr_Alias : string;
  pr_BWSProjectID : string;
  pr_Status : string;
}.

Record Result := mkResult {
  r_Version : Z;
  r_Outcome : string;
  r_Projects : list ProjectResult;
}.

(** The loop of [Aggregate], with the early return on an authentication error. *)
Fixpoint aggregate_loop (worst : string) (ps : list ProjectResult) : string :=
  match ps with
  | [] => worst
  | p :: ps' =>
      let s := pr_Status p in
      if String.eqb s StatusAuthenticationError then OutcomeAuthenticationError
      else if String.eqb s StatusNetworkError then
        aggregate_loop
          (if negb (String.eqb worst OutcomeAuthenticationError) then OutcomeNetworkError else worst) ps'
      else if String.eqb s StatusAPIError then
        aggregate_loop
          (if negb (String.eqb worst OutcomeNetworkError) then OutcomeAPIError else worst) ps'
      else if String.eqb s StatusUnknownError then
        aggregate_loop
          (if negb (String.eqb worst OutcomeNetworkError) && negb (String.eqb worst OutcomeAPIError)
           then OutcomeUnknownError else worst) ps'
      else if String.eqb s StatusInaccessible then
        aggregate_loop
          (if String.eqb worst OutcomeAllAccessible then OutcomeInaccessible else worst) ps'
      else aggregate_loop worst ps'
  end.

Definition Aggregate (ps : list ProjectResult) : string :=
  aggregate_loop OutcomeAllAccessible ps.

Definition Valid (s : string) : bool :=
  String.eqb s StatusAccessible || String.eqb s StatusInaccessible
  || String.eqb s StatusAuthenticationError || String.eqb s StatusNetworkError
  || String.eqb s StatusAPIError || String.eqb s StatusUnknownError.

Inductive accessdiag_error : Type :=
| EUnsupportedVersion (v : Z)
| ENoProjects
| EInvalidIdentifier
| EDuplicateAlias (a : string)
| EInvalidStatus (s : string)
| EOutcomeMismatch (got want : string).

Section Validate.
(** [unicode.IsPrint] beyond ASCII. *)
Context (unicode_print : Z -> bool).

Definition safeIdentifier (value : string) : bool :=
  if String.eqb value "" then false
  else forallb (Strconv.IsPrint unicode_print) (Utf8.runes value).

Fixpoint validate_projects (seen : gset string) (ps : list ProjectResult)
    : result accessdiag_error unit :=
  match ps with
  | [] => Ok tt
  | p :: ps' =>
      fail_if negb (safeIdentifier (pr_Alias p)) || negb (safeIdentifier (pr_BWSProjectID p))
        with EInvalidIdentifier;
      fail_if bool_decide (pr_Alias p ∈ seen) with EDuplicateAlias (pr_Alias p);
      fail_if negb (Valid (pr_Status p)) with EInvalidStatus (pr_Status p);
      validate_projects ({[pr_Alias p]} ∪ seen) ps'
  end.

Definition Validate (r : Result) : result accessdiag_error unit :=
  fail_if negb (r_Version r =? Version) with EUnsupportedVersion (r_Version r);
  fail_if Nat.eqb (length (r_Projects r)) 0 with ENoProjects;
  _ ← validate_projects ∅ (r_Projects r);
  let want := Aggregate (r_Projects r) in
  fail_if negb (String.eqb (r_Outcome r) want) with EOutcomeMismatch (r_Outcome r) want;
  Ok tt.
End Validate.

(** ** Specification: a severity order *)

(** The severity of a status; a status the code does not name is harmless. *)
Definition severity (s : string) : nat :=
  if String.eqb s StatusAuthenticationError then 5
  else if String.eqb s StatusNetworkError then 4
  else if String.eqb s StatusAPIError then 3
  else if String.eqb s StatusUnknownError then 2
  else if String.eqb s StatusInaccessible then 1 else 0.

Definition outcome_at (n : nat) : string :=
  match n with
  | 0%nat => OutcomeAllAccessible
  | 1%nat => OutcomeInaccessible
  | 2%nat => OutcomeUnknownError
  | 3%nat => OutcomeAPIError
  | 4%nat => OutcomeNetworkError
  | _ => OutcomeAuthenticationError
  end.

Definition worst_severity (ps : list ProjectResult) : nat :=
  foldr (fun p acc => Nat.max (severity (pr_Status p)) acc) 0%nat ps.

Lemma severity_le s : (severity s <= 5)%nat.
Proof. unfold severity. repeat case_match; lia. Qed.

Lemma worst_severity_le ps : (worst_severity ps <= 5)%nat.
Proof. induction ps as [|p ps IH]; simpl; [lia|]. pose proof (severity_le (pr_Status p)). lia. Qed.

Lemma aggregate_loop_spec k ps : (k <= 4)%nat ->
  aggregate_loop (outcome_at k) ps = outcome_at (Nat.max k (worst_severity ps)).
Proof.
  revert k. induction ps as [|p ps IH]; intros k Hk; [by rewrite Nat.max_0_r|].
  pose proof (worst_severity_le ps). simpl. unfold severity.
  destruct (String.eqb _ StatusAuthenticationError).
  { replace (Nat.max k (Nat.max 5 (worst_severity ps))) with 5%nat by lia. done. }
  repeat case_match; simpl; rewrite <- ?IH by lia;
    do 5 (destruct k as [|k]; [simpl; first
      [ done
      | change OutcomeNetworkError with (outcome_at 4); rewrite IH by lia; f_equal; lia
      | change OutcomeAPIError with (outcome_at 3); rewrite IH by lia; f_equal; lia
      | change OutcomeUnknownError with (outcome_at 2); rewrite IH by lia; f_equal; lia
      | change OutcomeInaccessible with (outcome_at 1); rewrite IH by lia; f_equal; lia ]|]); lia.
Qed.

Lemma Aggregate_spec ps : Aggregate ps = outcome_at (worst_severity ps).
Proof. apply (aggregate_loop_spec 0). lia. Qed.

Lemma outcome_at_inj m n : (m <= 5)%nat -> (n <= 5)%nat -> outcome_at m = outcome_at n -> m = n.
Proof.
  intros. do 6 (destruct m as [|m]; [do 6 (destruct n as [|n]; [done|]); lia|]). lia.
Qed.

Lemma worst_severity_elem ps p :
  p ∈ ps -> (severity (pr_Status p) <= worst_severity ps)%nat.
Proof.
  induction ps as [|q ps IH]; simpl; [set_solver|].
  intros [->|H]%elem_of_cons; [lia|]. specialize (IH H). lia.
Qed.

Lemma severity_0 s : Valid s = true -> severity s = 0%nat -> s = StatusAccessible.
Proof.
  unfold Valid, severity. intros Hv Hs. repeat case_match; try done.
  by rewrite !orb_false_r in Hv; apply String.eqb_eq.
Qed.

(** What the administrator may rely on after [Validate]. *)
Record wf_result (up : Z -> bool) (r : Result) : Prop := {
  wfr_version : r_Version r = Version;
  wfr_some : r_Projects r <> [];
  wfr_safe : Forall (fun p => safeIdentifier up (pr_Alias p) = true
    /\ safeIdentifier up (pr_BWSProjectID p) = true /\ Valid (pr_Status p) = true) (r_Projects r);
  wfr_unique : NoDup (map pr_Alias (r_Projects r));
  wfr_outcome : r_Outcome r = outcome_at (worst_severity (r_Projects r));
}.

Lemma validate_results_spec up seen ps :
  validate_projects up seen ps = Ok tt <->
  Forall (fun p => safeIdentifier up (pr_Alias p) = true
    /\ safeIdentifier up (pr_BWSProjectID p) = true /\ Valid (pr_Status p) = true) ps
  /\ NoDup (map pr_Alias ps) /\ (forall p, p ∈ ps -> pr_Alias p ∉ seen).
Proof.
  revert seen. induction ps as [|p ps IH]; intros seen.
  { simpl. split; [|done]. intros _. split_and!; [constructor..|set_solver]. }
  cbn [validate_projects]. rewrite !fail_if_Ok, IH, orb_false_iff, !negb_false_iff,
    bool_decide_eq_false, Forall_cons. cbn [map]. rewrite NoDup_cons.
  assert (Hin : pr_Alias p ∈ map pr_Alias ps <-> exists q, q ∈ ps /\ pr_Alias q = pr_Alias p).
  { rewrite list_elem_of_fmap. naive_solver. }
  rewrite Hin. split.
  - intros ([? ?] & ? & ? & ? & ? & Hs). split_and!; try done.
    + intros (q & Hq & E). specialize (Hs q Hq). set_solver.
    + intros q [->|Hq]%elem_of_cons; [done|]. specialize (Hs q Hq). set_solver.
  - intros ([(? & ? & ?) ?] & [Hn ?] & Hs). split_and!; try done; [set_solver|].
    intros q Hq. assert (pr_Alias q <> pr_Alias p) by naive_solver.
    specialize (Hs q). set_solver.
Qed.

Lemma Validate_Ok up r : Validate up r = Ok tt <-> wf_result up r.
Proof.
  unfold Validate. rewrite !fail_if_Ok, bind_Ok, Aggregate_spec. split.
  - intros (Hv & Hp & [] & Hps & H). apply fail_if_Ok in H as [Ho _].
    apply validate_results_spec in Hps as (? & ? & _). boolP. split; try done.
    intros E. by rewrite E in Hp.
  - intros [Hv Hp ? ? Ho]. rewrite Hv, Ho. split; [done|]. split; [by destruct (r_Projects r)|].
    exists tt. rewrite String.eqb_refl. split; [|done].
    apply validate_results_spec. split_and!; [done|done|set_solver].
Qed.

(** ** Properties *)

(** The aggregate outcome is the worst status found, in the order
    authentication, network, API, unknown error, inaccessible, accessible; it
    does not depend on the order of the projects. *)
Theorem Aggregate_is_worst ps :
  Aggregate ps = outcome_at (worst_severity ps)
  /\ forall ps', ps ≡ₚ ps' -> Aggregate ps' = Aggregate ps.
Proof.
  split; [apply Aggregate_spec|]. intros ps' Hp. rewrite !Aggregate_spec. f_equal.
  unfold worst_severity. symmetry. apply (foldr_permutation eq _ _ ps ps'); [|done]. lia.
Qed.

(** The administrator accepts exactly the well-formed results, and an
    accepted result that claims full access is true of every project in it:
    a validated [all_accessible] outcome means every status is accessible. *)
Theorem Validate_sound up r :
  (Validate up r = Ok tt <-> wf_result up r)
  /\ (Validate up r = Ok tt -> r_Outcome r = OutcomeAllAccessible ->
      forall p, p ∈ r_Projects r -> pr_Status p = StatusAccessible).
Proof.
  split; [apply Validate_Ok|]. intros [_ _ Hs _ Ho]%Validate_Ok Hall p Hp.
  rewrite Ho in Hall. apply (outcome_at_inj _ 0) in Hall; [|apply worst_severity_le|lia].
  pose proof (worst_severity_elem _ _ Hp). rewrite Forall_forall in Hs.
  destruct (Hs p Hp) as (_ & _ & ?). apply severity_0; [done|lia].
Qed.
