(* ===== verification/ProjectList.v ===== *)
(** * ProjectList: the project discovery protocol (internal/projectlist)

    [json.Unmarshal] of the BWS output is the argument [items]: [None] is a
    decoding error or a JSON null. *)

From S2P Require Import Prelude GoStrings GoText.

#[local] Open Scope Z_scope.

Definition Version : Z := 1.
Definition MaxProjects : nat := 256.

Record Project := mkProject { ID : string; Name : string }.

(** [Projects] is [None] for a nil slice. *)
Record Result := mkResult { Version_ : Z; Projects : option (list Project) }.

(** One element of the BWS array.  [object] is the member as [json.Unmarshal]
    reads it: absent, a string, or any other JSON value. *)
Inductive object_member : Type :=
| NoObject
| ObjectString (s : string)
| ObjectOther.

Record item := mkItem { Object : object_member; item_ID : string; item_Name : string }.

Inductive projectlist_error : Type :=
| EInvalidList
| EEnvelope
| EIdentifier
| EDuplicateID.

Section ProjectList.
(** [unicode.IsPrint] beyond ASCII. *)
Context (unicode_print : Z -> bool).

Definition safeText (s : string) (limit : Z) : bool :=
  if String.eqb s "" || (limit <? len s) || negb (Utf8.ValidString s) then false
  else forallb (Strconv.IsPrint unicode_print) (Utf8.runes s).

Fixpoint validate_items (seen : gset string) (ps : list Project) : result projectlist_error unit :=
  match ps with
  | [] => Ok tt
  | p :: ps' =>
      fail_if negb (safeText (ID p) 128) || negb (safeText (Name p) 256) with EIdentifier;
      fail_if bool_decide (ID p ∈ seen) with EDuplicateID;
      validate_items ({[ID p]} ∪ seen) ps'
  end.

Definition Validate (r : Result) : result projectlist_error unit :=
  match Projects r with
  | None => Err EEnvelope
  | Some ps =>
      fail_if negb (Version_ r =? Version) || (MaxProjects <? length ps)%nat with EEnvelope;
      validate_items ∅ ps
  end.

(** The loop of [FromBWS]: an [object] member must be the string "project". *)
Definition object_ok (o : object_member) : bool :=
  match o with
  | NoObject => true
  | ObjectString s => String.eqb s "project"
  | ObjectOther => false
  end.

Definition project_of (i : item) : Project := mkProject (item_ID i) (item_Name i).

Fixpoint convert (items : list item) : result projectlist_error (list Project) :=
  match items with
  | [] => Ok []
  | i :: items' =>
      fail_if negb (object_ok (Object i)) with EInvalidList;
      rest ← convert items';
      Ok (project_of i :: rest)
  end.

Definition FromBWS (items : option (list item)) : result projectlist_error Result :=
  match items with
  | None => Err EInvalidList
  | Some source =>
      ps ← convert source;
      let r := mkResult Version (Some ps) in
      match Validate r with
      | Ok _ => Ok r
      | Err _ => Err EInvalidList
      end
  end.

(** ** Lemmas *)

Definition safe_project (p : Project) : Prop :=
  safeText (ID p) 128 = true /\ safeText (Name p) 256 = true.

Lemma safeText_len s limit : safeText s limit = true -> len s <= limit.
Proof.
  unfold safeText. destruct (String.eqb s ""); [done|]. destruct (Z.ltb_spec limit (len s)); [done|lia].
Qed.

Lemma validate_items_spec seen ps :
  validate_items seen ps = Ok tt <->
  Forall safe_project ps /\ NoDup (map ID ps) /\ (forall p, p ∈ ps -> ID p ∉ seen).
Proof.
  revert seen. induction ps as [|p ps IH]; intros seen.
  { simpl. split; [|done]. intros _. split_and!; [constructor..|set_solver]. }
  cbn [validate_items]. rewrite !fail_if_Ok, IH, orb_false_iff, !negb_false_iff,
    bool_decide_eq_false, Forall_cons. cbn [map]. rewrite NoDup_cons.
  assert (Hin : ID p ∈ map ID ps <-> exists q, q ∈ ps /\ ID q = ID p).
  { rewrite list_elem_of_fmap. naive_solver. }
  rewrite Hin. split.
  - intros ([? ?] & ? & ? & ? & Hs). split_and!; try done.
    + intros (q & Hq & E). specialize (Hs q Hq). set_solver.
    + intros q [->|Hq]%elem_of_cons; [done|]. specialize (Hs q Hq). set_solver.
  - intros ([[? ?] ?] & [Hn ?] & Hs). split_and!; try done; [set_solver|].
    intros q Hq. assert (ID q <> ID p) by naive_solver.
    specialize (Hs q). set_solver.
Qed.

Lemma convert_Ok items ps :
  convert items = Ok ps <->
  Forall (fun i => object_ok (Object i) = true) items
  /\ ps = map project_of items.
Proof.
  revert ps. induction items as [|i its IH]; intros ps; simpl.
  { split; [intros [= <-]; done|by intros [_ ->]]. }
  rewrite Forall_cons. split.
  - intros H. inv_ok. boolP. match goal with H : convert its = _ |- _ => apply IH in H as [? ->] end.
    done.
  - intros [[Ho Hf] ->]. rewrite Ho. simpl.
    by rewrite (proj2 (IH _) (conj Hf eq_refl)).
Qed.

Lemma Validate_some ps :
  Validate (mkResult Version (Some ps)) = Ok tt <->
  (length ps <= MaxProjects)%nat /\ Forall safe_project ps /\ NoDup (map ID ps).
Proof.
  unfold Validate. cbn [Projects Version_].
  rewrite fail_if_Ok, validate_items_spec, orb_false_iff, Nat.ltb_ge. simpl. set_solver.
Qed.

(** Discovery is all or nothing.  [FromBWS] returns a result if and only
    if the decoded list has at most 256 entries, each a project object with
    a printable ID and name within bounds, and no ID twice; the result then
    lists the same IDs and names in the same order, and validates. *)
Theorem FromBWS_exact items r :
  (FromBWS items = Ok r <->
   exists source, items = Some source
     /\ Forall (fun i => object_ok (Object i) = true) source
     /\ (length source <= MaxProjects)%nat
     /\ Forall safe_project (map project_of source)
     /\ NoDup (map item_ID source)
     /\ r = mkResult Version (Some (map project_of source)))
  /\ (FromBWS items = Ok r -> Validate r = Ok tt).
Proof.
  assert (HID : forall l, map ID (map project_of l) = map item_ID l) by (intros; by rewrite map_map).
  destruct items as [source|]; simpl; [|naive_solver]. split; [split|].
  - intros H. inv_ok. apply convert_Ok in H0 as [Ho ->].
    destruct (Validate _) as [[]|] eqn:Hv; [|done]. injection H as <-. exists source.
    apply Validate_some in Hv as (Hl & ? & Hn).
    rewrite length_map in Hl.  rewrite HID in Hn. done.
  - intros (? & [= <-] & Ho & Hl & ? & Hn & ->).
    rewrite (proj2 (convert_Ok source _) (conj Ho eq_refl)). simpl.
    rewrite (proj2 (Validate_some (map project_of source))); [done|].
    by rewrite length_map, HID.
  - intros H. inv_ok. destruct (Validate _) as [[]|] eqn:Hv; [|done]. by injection H as <-.
Qed.
End ProjectList.
