(* ===== verification/Exec.v ===== *)
(** * Exec: running commands (internal/execx)

    [execx.Runner] is the seam to os/exec.  Its two methods are the calls of
    the interface [exec_call]; a program that runs commands is a
    [prog exec_call].  [OSRunner] is the adapter over what [exec.Cmd.Run]
    reports. *)

From S2P Require Import Prelude GoStrings Effects.

#[local] Open Scope Z_scope.

(** [execx.Result] *)
Record Result := mkResult { Stdout : string; Stderr : string; ExitCode : Z }.

Inductive stream : Type := StdoutStream | StderrStream.
#[export] Instance stream_eq_dec : EqDecision stream. Proof. solve_decision. Defined.

(** What [RunPassthrough] does: the writes it makes to the two writers, in
    order, and the exit code or the start error. *)
Record passthrough := mkPassthrough {
  pt_writes : list (stream * string);
  pt_exit : result string Z;
}.

Definition written (st : stream) (w : list (stream * string)) : list string :=
  map snd (filter (fun x => x.1 = st) w).

Inductive exec_call : Type :=
| ExecRun (name : string) (args : list string) (env : option (list string))
| ExecRunPassthrough (name : string) (args : list string) (env : option (list string)) (dir : string).

#[export] Instance exec_interface : Interface exec_call := fun c =>
  match c with
  | ExecRun _ _ _ => result string Result
  | ExecRunPassthrough _ _ _ _ => passthrough
  end.

(** ** OSRunner, over the outcome of [cmd.Run()] *)

Inductive cmd_outcome : Type :=
| CmdOk                      (** nil *)
| CmdExitError (code : Z)    (** an [*exec.ExitError]; -1 when killed by a signal *)
| CmdError (msg : string).   (** any other error: the command did not run *)

(** [OSRunner.Run], given what the command wrote. *)
Definition OSRunner_Run (out err : string) (o : cmd_outcome) : result string Result :=
  match o with
  | CmdExitError code => Ok (mkResult out err code)
  | CmdError msg => Err msg
  | CmdOk => Ok (mkResult out err 0)
  end.

(** [OSRunner.RunPassthrough]: -1 is returned with the error. *)
Definition OSRunner_RunPassthrough (writes : list (stream * string)) (o : cmd_outcome) : passthrough :=
  mkPassthrough writes
    match o with
    | CmdExitError code => Ok code
    | CmdError msg => Err msg
    | CmdOk => Ok 0
    end.
