(* ===== verification/Token.v ===== *)
(** * Token: resolving the bootstrap token (internal/token) *)

From S2P Require Import Prelude GoStrings SecureFile Effects Exec.

#[local] Open Scope Z_scope.

(** [Token] wraps the value; [String] and [LogValue] are redacted. *)
Record Token := mkToken { value : string }.

Definition New (v : string) : Token := mkToken v.
Definition Value (t : Token) : string := value t.
Definition Empty (t : Token) : bool := String.eqb (value t) "".
Definition TokenString (t : Token) : string := "[REDACTED]".
Definition LogValue (t : Token) : string := "[REDACTED]".

Inductive token_error : Type :=
| EEnvNotSet (var : string)
| EEnvEmpty (var : string)
| EReadingTokenFile (path : string) (e : securefile_error)
| ETokenFileEmpty (path : string)
| ERunningSecretTool (msg : string)
| ESecretToolExit (code : Z) (entry : string)
| ESecretToolEmpty (entry : string).

(** [EnvResolver.Resolve]: [entry] is ignored. *)
Definition EnvResolver_Resolve (environ : gmap string string) (varName entry : string)
    : result token_error Token :=
  match environ !! varName with
  | None => Err (EEnvNotSet varName)
  | Some v =>
      fail_if String.eqb v "" with EEnvEmpty varName;
      Ok (New v)
  end.

Definition MaxFileBytes : Z := 65536.

(** [FileResolver.Resolve]: a private file of the process, trailing newlines
    dropped; [entry] is ignored. *)
Definition FileResolver_Resolve (fs : FS) (path entry : string) : result token_error Token :=
  data ← wrap_err (EReadingTokenFile path) (Read fs path MaxFileBytes 63 false);
  let v := Strings.TrimRight data LF in
  fail_if String.eqb v "" with ETokenFileEmpty path;
  Ok (New v).

Definition secretServiceAttr : string := "secrets-broker".

(** [SecretServiceResolver.Resolve]: one [secret-tool lookup]. *)
Definition SecretServiceResolver_Resolve (entry : string)
    : prog exec_call (result token_error Token) :=
  r ← call (ExecRun "secret-tool" ["lookup"; "service"; secretServiceAttr; "entry"; entry] None);
  mret match r with
  | Err msg => Err (ERunningSecretTool msg)
  | Ok res =>
      fail_if negb (ExitCode res =? 0) with ESecretToolExit (ExitCode res) entry;
      let v := Strings.TrimRight (Stdout res) LF in
      fail_if String.eqb v "" with ESecretToolEmpty entry;
      Ok (New v)
  end.

(** ** Properties *)

(** The file resolver returns a token only from a private file, and the
    token is the content without its trailing newlines: never empty, never
    ending in a newline, never truncated.  It returns one exactly when the
    file is trusted, within 64 KiB and holds more than newlines. *)
Theorem FileResolver_exact fs path entry t :
  FileResolver_Resolve fs path entry = Ok t <->
  exists n k, trusted_file fs path 63 false n
    /\ len (n_data n) <= MaxFileBytes
    /\ n_data n = Value t +:+ Strings.Repeat LF k
    /\ Value t <> "" /\ (forall p, Value t <> p +:+ str1 LF).
Proof.
  unfold FileResolver_Resolve. rewrite bind_Ok. setoid_rewrite wrap_err_Ok.
  setoid_rewrite fail_if_Ok. split.
  - intros (data & (n & Ht & -> & Hl)%Read_Ok & He & [= <-]); [|by unfold MaxFileBytes].
    destruct (Strings.TrimRight_spec (n_data n) LF) as [k Hk]. exists n, k. boolP.
    split_and!; try done. intros p. apply Strings.TrimRight_no_suffix.
  - intros (n & k & Ht & Hl & Hd & Hne & Hns). exists (n_data n).
    split; [apply Read_Ok; [by unfold MaxFileBytes|by exists n]|].
    assert (E : Strings.TrimRight (n_data n) LF = Value t) by (rewrite Hd; by apply Strings.TrimRight_app).
    rewrite E. split; [by apply String.eqb_neq|]. by destruct t.
Qed.
