(* ===== verification/Runner.v ===== *)
(** * Runner: executing an approved command through bws (internal/runner)

    [Run] builds the [bws run] command line and the environment.  bws joins
    its trailing arguments with spaces and hands the text to [sh -c]; the
    specification [sh_words] is the word splitting and quote removal of a
    POSIX shell on the quoting forms [shellQuote] uses, and the theorem says
    the shell sees the approved argv, element for element. *)

From S2P Require Import Prelude GoStrings Effects Exec Token.

#[local] Open Scope Z_scope.

Definition isolatedSudoBinary : string := "/usr/bin/sudo".
Definition isolatedRunnerUser : string := "secrets-broker-runner".

Record BWSRunner := mkBWSRunner {
  bwsBinary : string;
  commandPath : string;
  home : string;
}.

(** [RunSpec]; the three streams are those of the caller. *)
Record RunSpec := mkRunSpec {
  ProjectID : string;
  spec_Token : Token;
  spec_WorkingDir : string;
  spec_Argv : list string;
}.

Inductive runner_error : Type :=
| EEmptyCommand
| EEmptyProjectID
| EEmptyToken
| EBinaryNotAbsolute
| EEmptyWorkingDirectory
| ERunningBws (msg : string).

(** [shellQuote]: every single quote becomes quote, backslash, quote, quote. *)
Definition shellQuote (s : string) : string :=
  "'" +:+ Strings.ReplaceAll s squote "'\''" +:+ "'".

Definition buildEnv (tokenValue commandPath home : string) : list string :=
  ["PATH=" +:+ commandPath;
   "HOME=" +:+ home;
   "LANG=C.UTF-8";
   "BWS_ACCESS_TOKEN=" +:+ tokenValue].

(** The command the inner shell is to run. *)
Definition isolated_command (argv : list string) : list string :=
  [isolatedSudoBinary; "-n"; "-H"; "-u"; isolatedRunnerUser; "--"] ++ argv.

Definition bws_args (spec : RunSpec) : list string :=
  ["run"; "--project-id"; ProjectID spec; "--no-inherit-env"; "--"]
  ++ map shellQuote (isolated_command (spec_Argv spec)).

(** [BWSRunner.Run]: the guards, then one [RunPassthrough]. The answer also
    carries what the command wrote. *)
Definition Run (r : BWSRunner) (spec : RunSpec)
    : prog exec_call (result runner_error Z * list (stream * string)) :=
  if Nat.eqb (length (spec_Argv spec)) 0 then mret (Err EEmptyCommand, [])
  else if String.eqb (ProjectID spec) "" then mret (Err EEmptyProjectID, [])
  else if Empty (spec_Token spec) then mret (Err EEmptyToken, [])
  else if negb (Filepath.IsAbs (bwsBinary r)) then mret (Err EBinaryNotAbsolute, [])
  else if String.eqb (spec_WorkingDir spec) "" then mret (Err EEmptyWorkingDirectory, [])
  else
    let env := buildEnv (Value (spec_Token spec)) (commandPath r) (home r) in
    p ← call (ExecRunPassthrough (bwsBinary r) (bws_args spec) (Some env) (spec_WorkingDir spec));
    mret (wrap_err ERunningBws (pt_exit p), pt_writes p).

(** ** Specification: what a POSIX shell reads

    The states of the reader: between words, inside a word, inside single
    quotes, after a backslash.  Unquoted, a space ends a word, a quote opens a
    quotation, a backslash takes the next byte literally; letters, digits and
    a few signs stand for themselves, and any other unquoted byte is outside
    the fragment ([None]). *)
Inductive sh_state : Type :=
| Blank
| InWord (w : string)
| Quoted (w : string)
| Escaped (w : string).

Definition sh_plain (c : ascii) : bool :=
  let v := byte_val c in
  ((48 <=? v) && (v <=? 57)) || ((65 <=? v) && (v <=? 90)) || ((97 <=? v) && (v <=? 122))
  || Ascii.eqb c "/" || Ascii.eqb c "." || Ascii.eqb c "-" || Ascii.eqb c "_".

Definition snoc (w : string) (c : ascii) : string := w +:+ str1 c.

Definition word_of (st : sh_state) : string :=
  match st with Blank => "" | InWord w | Quoted w | Escaped w => w end.

Fixpoint sh_read (st : sh_state) (s : string) : option (list string) :=
  match s with
  | EmptyString =>
      match st with
      | Blank => Some []
      | InWord w => Some [w]
      | Quoted _ | Escaped _ => None
      end
  | String c s' =>
      match st with
      | Quoted w => if Ascii.eqb c squote then sh_read (InWord w) s' else sh_read (Quoted (snoc w c)) s'
      | Escaped w => sh_read (InWord (snoc w c)) s'
      | Blank | InWord _ =>
          if Ascii.eqb c " " then
            match st with
            | InWord w => match sh_read Blank s' with Some ws => Some (w :: ws) | None => None end
            | _ => sh_read Blank s'
            end
          else if Ascii.eqb c squote then sh_read (Quoted (word_of st)) s'
          else if Ascii.eqb c backslash then sh_read (Escaped (word_of st)) s'
          else if sh_plain c then sh_read (InWord (snoc (word_of st) c)) s'
          else None
      end
  end.

Definition sh_words (s : string) : option (list string) := sh_read Blank s.

(** ** Lemmas *)

Lemma snoc_app w c s : snoc w c +:+ s = w +:+ String c s.
Proof. unfold snoc. by rewrite append_assoc. Qed.

(** Inside the quotes the reader collects exactly [s], whatever it holds. *)
Lemma sh_read_quoted w s rest :
  sh_read (Quoted w) (Strings.ReplaceAll s squote "'\''" +:+ String squote rest)
  = sh_read (InWord (w +:+ s)) rest.
Proof.
  revert w. induction s as [|c s IH]; intros w; simpl.
  { by rewrite append_empty_r. }
  destruct (Ascii.eqb c squote) eqn:E.
  - apply Ascii.eqb_eq in E as ->. simpl. by rewrite IH, snoc_app.
  - simpl. rewrite E. by rewrite IH, snoc_app.
Qed.

Lemma sh_read_shellQuote s rest :
  sh_read Blank (shellQuote s +:+ rest) = sh_read (InWord s) rest.
Proof.
  unfold shellQuote. rewrite !append_assoc. simpl. by rewrite sh_read_quoted.
Qed.

Lemma sh_words_join argv :
  sh_words (Strings.Join (map shellQuote argv) " ") = Some argv.
Proof.
  unfold sh_words. induction argv as [|a argv IH]; [done|].
  destruct argv as [|b argv].
  - cbn [map Strings.Join]. rewrite <- (append_empty_r (shellQuote a)).
    by rewrite sh_read_shellQuote.
  - change (Strings.Join (map shellQuote (a :: b :: argv)) " ")
      with (shellQuote a +:+ " " +:+ Strings.Join (map shellQuote (b :: argv)) " ").
    revert IH. generalize (Strings.Join (map shellQuote (b :: argv)) " "). intros j IH.
    rewrite sh_read_shellQuote. simpl. by rewrite IH.
Qed.

(** ** Properties *)

(** C34: the argv boundaries survive the inner shell.  Whatever bytes the
    arguments hold (spaces, quotes, newlines, metacharacters, nothing at all),
    a POSIX shell that re-reads the quoted words joined by spaces recovers
    exactly the command: the fixed sudo hop to the runner account followed by
    the approved argv. *)
Theorem shellQuote_roundtrip argv :
  sh_words (Strings.Join (map shellQuote (isolated_command argv)) " ")
  = Some (isolated_command argv).
Proof. apply sh_words_join. Qed.

(** The runner starts at most one process, and only for a complete request.
    If the argv, project ID, token and working directory are non-empty and
    the bws path is absolute, [Run] makes exactly one call: the configured bws
    in the request's directory, with an environment that is the four variables
    of [buildEnv] and with arguments that do not depend on the token; its
    answer is the exit code or the start error.  Otherwise it makes no call
    and returns an error. *)
Theorem Run_one_process {S} (h : handler exec_call S) r spec s :
  let complete :=
    spec_Argv spec <> [] /\ ProjectID spec <> "" /\ Value (spec_Token spec) <> ""
    /\ Filepath.IsAbs (bwsBinary r) = true /\ spec_WorkingDir spec <> "" in
  let c := ExecRunPassthrough (bwsBinary r) (bws_args spec)
    (Some (buildEnv (Value (spec_Token spec)) (commandPath r) (home r))) (spec_WorkingDir spec) in
  (complete ->
     let p := (h c s).1 in
     run h (Run r spec) s =
       ((wrap_err ERunningBws (pt_exit p), pt_writes p), (h c s).2, [ev c p]))
  /\ (~ complete ->
     exists e, run h (Run r spec) s = ((Err e, []), s, []))
  /\ (forall t, bws_args (mkRunSpec (ProjectID spec) t (spec_WorkingDir spec) (spec_Argv spec))
                = bws_args spec).
Proof.
  intros complete c. unfold Run, complete, Empty, Value.
  destruct (spec_Argv spec) as [|a argv] eqn:Ea; simpl.
  { split_and!; [naive_solver|eauto|by unfold bws_args; rewrite Ea]. }
  split_and!; [| |unfold bws_args; by rewrite Ea].
  - intros (_ & H1%String.eqb_neq & H2%String.eqb_neq & H3 & H4%String.eqb_neq).
    rewrite H1, H2, H3, H4. simpl. unfold c.
    destruct (h _ s) as [p s'] eqn:E. reflexivity.
  - intros Hn. repeat (case_match; [eexists; reflexivity|]). destruct Hn. boolP. split_and!; done.
Qed.
