(* ===== verification/AuditLog.v ===== *)
(** * AuditLog: the append-only command log (internal/audit)

    The records, the interface [Logger], and [JSONLLogger] over the checked
    file system.  The clock, the random bytes and the outcome of the write and
    sync are inputs of each append. *)

From S2P Require Import Prelude GoStrings GoText GoJson SecureFile.

#[local] Open Scope Z_scope.

(** ** Records *)

Record StartRecord := mkStartRecord {
  sr_Project : string;
  sr_WorkingDir : string;
  sr_Argv : list string;
}.

Record FinishRecord := mkFinishRecord {
  fr_Outcome : string;
  fr_ExitCode : option Z;
}.

(** The on-disk record; [Timestamp] in nanoseconds. *)
Record record := mkRecord {
  RunID : string;
  Timestamp : Z;
  Event : string;
  rec_Project : string;
  rec_WorkingDir : string;
  rec_Argv : list string;
  Outcome : string;
  rec_ExitCode : option Z;
}.

(** ** The interface *)

(** [audit.Logger]: [Start] returns a run ID, [Finish] takes it. *)
Class Logger (E W : Type) := {
  Start : W -> StartRecord -> result E string * W;
  Finish : W -> string -> FinishRecord -> result E unit * W;
}.

(** ** JSONLLogger *)

Inductive audit_error : Type :=
| ERunID
| EOpeningLog (e : securefile_error)
| EMarshaling
| EWriting
| ESyncing.

(** [json.Marshal(rec)], with the [omitempty] members left out when empty. *)
Definition marshal_record (r : record) : option string :=
  match Time.MarshalJSON (Timestamp r) with
  | None => None
  | Some ts =>
      Some (Json.encode_object
        [Json.member "run_id" (Json.encode_string (RunID r));
         Json.member "timestamp" ts;
         Json.member "event" (Json.encode_string (Event r));
         Json.omitempty "project" (String.eqb (rec_Project r) "") (Json.encode_string (rec_Project r));
         Json.omitempty "working_dir" (String.eqb (rec_WorkingDir r) "")
           (Json.encode_string (rec_WorkingDir r));
         Json.omitempty "argv" (Nat.eqb (length (rec_Argv r)) 0) (Json.encode_strings (rec_Argv r));
         Json.omitempty "outcome" (String.eqb (Outcome r) "") (Json.encode_string (Outcome r));
         match rec_ExitCode r with
         | None => None
         | Some z => Json.member "exit_code" (Itoa.Itoa z)
         end])
  end.

(** What the environment supplies to one append. *)
Record io := mkIO {
  now : Z;                      (** [time.Now()] *)
  random : option string;       (** the 8 bytes of [rand.Read], or its error *)
  short_write : option nat;     (** a failing [Write] leaves this many bytes *)
  sync_fails : bool;
}.

(** Open and check, marshal, write one line, sync; [js] is the record as
    JSON, or the failure to make it. *)
Definition append_line (path : string) (i : io) (js : option string) (fs : FS)
    : result audit_error unit * FS :=
  match OpenAppend fs path 384 with
  | (Err e, fs1) => (Err (EOpeningLog e), fs1)
  | (Ok _, fs1) =>
      match js with
      | None => (Err EMarshaling, fs1)
      | Some js =>
          let line := js +:+ str1 LF in
          match short_write i with
          | Some n => (Err EWriting, write_append fs1 path (Strings.take n line))
          | None =>
              let fs2 := write_append fs1 path line in
              if sync_fails i then (Err ESyncing, fs2) else (Ok tt, fs2)
          end
      end
  end.

(** [append] *)
Definition append (path : string) (i : io) (r : record) (fs : FS) : result audit_error unit * FS :=
  append_line path i (marshal_record r) fs.

(** [newRunID]: 8 random bytes in hexadecimal. *)
Definition newRunID (i : io) : result audit_error string :=
  match random i with
  | None => Err ERunID
  | Some b => Ok (Hex.EncodeToString b)
  end.

Definition JSONLLogger_Start (path : string) (i : io) (r : StartRecord) (fs : FS)
    : result audit_error string * FS :=
  match newRunID i with
  | Err e => (Err e, fs)
  | Ok runID =>
      match append path i (mkRecord runID (now i) "start" (sr_Project r) (sr_WorkingDir r)
                             (sr_Argv r) "" None) fs with
      | (Err e, fs') => (Err e, fs')
      | (Ok _, fs') => (Ok runID, fs')
      end
  end.

Definition JSONLLogger_Finish (path : string) (i : io) (runID : string) (r : FinishRecord) (fs : FS)
    : result audit_error unit * FS :=
  append path i (mkRecord runID (now i) "finish" "" "" [] (fr_Outcome r) (fr_ExitCode r)) fs.

(** [NewJSONLLogger]: create the directory, check that it is private.
    [os.MkdirAll] is the environment's. *)
Definition NewJSONLLogger (MkdirAll : FS -> string -> Z -> result string FS) (fs : FS) (path : string)
    : result (string + securefile_error) string * FS :=
  match MkdirAll fs (Filepath.Dir path) 448 with
  | Err e => (Err (inl e), fs)
  | Ok fs' =>
      match ValidatePrivateDir fs' (Filepath.Dir path) with
      | Err e => (Err (inr e), fs')
      | Ok _ => (Ok path, fs')
      end
  end.

(** The logger as an implementation of the interface: its state is the file
    system and the inputs of the appends to come. *)
Record JSONLState := mkJSONLState {
  js_path : string;
  js_fs : FS;
  js_inputs : list io;
}.

Definition next_io (s : JSONLState) : io := default (mkIO 0 None None true) (head (js_inputs s)).

#[export] Instance JSONLLogger : Logger audit_error JSONLState := {
  Start s r :=
    let '(res, fs') := JSONLLogger_Start (js_path s) (next_io s) r (js_fs s) in
    (res, mkJSONLState (js_path s) fs' (tail (js_inputs s)));
  Finish s runID r :=
    let '(res, fs') := JSONLLogger_Finish (js_path s) (next_io s) runID r (js_fs s) in
    (res, mkJSONLState (js_path s) fs' (tail (js_inputs s)));
}.

(** ** Lemmas *)

Definition is_LF (c : ascii) : bool := Ascii.eqb c LF.

Lemma no_control_no_LF s : all_bytes Json.no_control s = true -> count_bytes is_LF s = 0%nat.
Proof.
  intros H. apply count_bytes_0. revert H. apply all_bytes_impl.
  intros c.
  pose proof (forall_ascii (fun c => implb (Json.no_control c) (negb (is_LF c)))
                ltac:(vm_compute; reflexivity) c) as Hc.
  simpl in Hc. intros Hn. by rewrite Hn in Hc.
Qed.

Lemma marshal_record_no_control r js :
  marshal_record r = Some js -> all_bytes Json.no_control js = true.
Proof.
  unfold marshal_record. destruct (Time.MarshalJSON (Timestamp r)) as [ts|] eqn:Ets; [|done].
  apply Time.MarshalJSON_clean in Ets. intros [= <-].
  apply Json.encode_object_no_control.
  repeat constructor; auto with json.
  destruct (rec_ExitCode r); [auto with json|done].
Qed.

Lemma write_append_lookup fs path p n :
  nodes fs !! path = Some n ->
  nodes (write_append fs path p) !! path
  = Some (mkNode (n_kind n) (n_mode n) (n_uid n) (n_data n +:+ p)).
Proof. intros H. unfold write_append. simpl. rewrite lookup_alter. case_decide; [|done]. by rewrite H. Qed.

Lemma write_append_other fs path p q :
  q <> path -> nodes (write_append fs path p) !! q = nodes fs !! q.
Proof. intros H. unfold write_append. simpl. by rewrite lookup_alter_ne. Qed.

(** The content of the log: empty while there is no file. *)
Definition log_data (fs : FS) (path : string) : string :=
  match nodes fs !! path with Some n => n_data n | None => "" end.

Lemma OpenAppend_log_data fs path perm r fs' :
  OpenAppend fs path perm = (r, fs') ->
  log_data fs' path = log_data fs path
  /\ (forall q, q <> path -> nodes fs' !! q = nodes fs !! q).
Proof.
  unfold OpenAppend, log_data. destruct (open_append fs path perm) as [[n fs1]|e] eqn:E.
  - intros [= _ <-]. apply open_append_inv in E as (Hn & _ & _ & _ & _ & _ & Hq & Hold).
    rewrite Hn. split; [|done]. by destruct Hold as [->|[-> ->]].
  - by intros [= _ <-].
Qed.

Lemma log_data_write fs path p n :
  nodes fs !! path = Some n -> log_data (write_append fs path p) path = log_data fs path +:+ p.
Proof. intros H. unfold log_data. by rewrite (write_append_lookup _ _ _ n), H. Qed.

Lemma append_line_result path i js0 fs res fs' :
  append_line path i js0 fs = (res, fs') ->
  (forall q, q <> path -> nodes fs' !! q = nodes fs !! q)
  /\ exists w, log_data fs' path = log_data fs path +:+ w
     /\ (res = Ok tt -> exists js, js0 = Some js /\ w = js +:+ str1 LF
          /\ short_write i = None /\ sync_fails i = false)
     /\ (w = "" \/ exists js n, js0 = Some js /\ w = Strings.take n (js +:+ str1 LF)).
Proof.
  unfold append_line. destruct (OpenAppend fs path 384) as [[[]|e] fs1] eqn:Eo.
  2:{ intros [= <- <-]. apply OpenAppend_log_data in Eo as [Hd Hq]. split; [done|].
      exists "". rewrite append_empty_r. naive_solver. }
  pose proof (OpenAppend_log_data _ _ _ _ _ Eo) as [Hd Hq].
  apply OpenAppend_Ok in Eo as ((n & (Hn & _) & _) & _ & _).
  destruct js0 as [js|] eqn:Em.
  2:{ intros [= <- <-]. split; [done|]. exists "". rewrite append_empty_r. naive_solver. }
  destruct (short_write i) as [k|] eqn:Es; [|destruct (sync_fails i) eqn:Ef]; intros [= <- <-];
    (split; [intros q Hne; rewrite write_append_other by done; auto|]);
    eexists; (split; [by rewrite (log_data_write _ _ _ n), Hd|]); split;
    try done; try (right; exists js; by eexists).
  - right. exists js, (String.length (js +:+ str1 LF)). by rewrite take_ge.
  - intros _. by exists js.
  - right. exists js, (String.length (js +:+ str1 LF)). by rewrite take_ge.
Qed.

(** ** A logging session *)

Inductive log_op : Type :=
| LogStart (r : StartRecord)
| LogFinish (runID : string) (r : FinishRecord).

(** Perform the calls in order; the results, a run ID for each start. *)
Fixpoint session {E W} `{Logger E W} (ops : list log_op) (w : W) : list (result E string) * W :=
  match ops with
  | [] => ([], w)
  | LogStart r :: ops =>
      let '(res, w1) := Start w r in
      let '(rs, w2) := session ops w1 in (res :: rs, w2)
  | LogFinish id r :: ops =>
      let '(res, w1) := Finish w id r in
      let '(rs, w2) := session ops w1 in (((fun _ => id) <$> res) :: rs, w2)
  end.

(** The record one call writes. *)
Definition op_record (o : log_op) (id : string) (t : Z) : record :=
  match o with
  | LogStart r => mkRecord id t "start" (sr_Project r) (sr_WorkingDir r) (sr_Argv r) "" None
  | LogFinish _ r => mkRecord id t "finish" "" "" [] (fr_Outcome r) (fr_ExitCode r)
  end.

(** What a call that returned run ID [id] at time [t] writes: one line, whose
    only newline is its last byte; a fresh ID has the 8 random bytes in hex. *)
Definition line_of (o : log_op) (i : io) (id line : string) : Prop :=
  exists js, line = js +:+ str1 LF /\ count_bytes is_LF js = 0%nat
    /\ marshal_record (op_record o id (now i)) = Some js
    /\ match o with
       | LogStart _ => exists b, random i = Some b /\ id = Hex.EncodeToString b
       | LogFinish id' _ => id = id'
       end.

Lemma append_Ok_line path i r fs fs' :
  append path i r fs = (Ok tt, fs') ->
  exists js, marshal_record r = Some js /\ count_bytes is_LF js = 0%nat
    /\ log_data fs' path = log_data fs path +:+ js +:+ str1 LF.
Proof.
  intros H. apply append_line_result in H as (_ & w & Hd & Hok & _).
  destruct (Hok eq_refl) as (js & Hm & -> & _). exists js. split_and!; [done| |done].
  eapply no_control_no_LF, marshal_record_no_control; done.
Qed.

(** One call: it goes through [append] or fails before it. *)
Lemma session_cons o ops (s : JSONLState) :
  exists res s1, session (o :: ops) s = (res :: (session ops s1).1, (session ops s1).2)
    /\ js_path s1 = js_path s /\ js_inputs s1 = tail (js_inputs s)
    /\ ((is_ok res = false /\ js_fs s1 = js_fs s)
        \/ exists id a, append (js_path s) (next_io s) (op_record o id (now (next_io s))) (js_fs s)
                       = (a, js_fs s1) /\ res = (fun _ => id) <$> a
             /\ match o with
                | LogStart _ => exists b, random (next_io s) = Some b /\ id = Hex.EncodeToString b
                | LogFinish id' _ => id = id'
                end).
Proof.
  destruct o as [r|id r].
  - cbn [session Start JSONLLogger]. unfold JSONLLogger_Start, newRunID.
    destruct (random (next_io s)) as [b|] eqn:Eb.
    2:{ eexists _, (mkJSONLState (js_path s) (js_fs s) (tail (js_inputs s))).
        split; [by destruct (session ops _)|]. split_and!; [done..|by left]. }
    destruct (append _ _ _ _) as [[[]|e] fs'] eqn:Ea;
      (eexists _, (mkJSONLState (js_path s) fs' (tail (js_inputs s)));
       split; [by destruct (session ops _)|];
       split_and!; [done..|right]; eexists _, _; split_and!; [exact Ea|done|by eexists]).
  - cbn [session Finish JSONLLogger]. unfold JSONLLogger_Finish.
    destruct (append _ _ _ _) as [a fs'] eqn:Ea.
    eexists _, (mkJSONLState (js_path s) fs' (tail (js_inputs s))).
    split; [by destruct (session ops _)|].
    split_and!; [done..|right]. by eexists _, _.
Qed.

(** The log only grows: whatever calls are made, whichever of them fail and
    wherever a write is cut short, the log's earlier content is a prefix of its
    content afterwards and no other file is changed. *)
Theorem JSONLLogger_append_only ops (s : JSONLState) :
  let s' := (session ops s).2 in
  (exists w, log_data (js_fs s') (js_path s) = log_data (js_fs s) (js_path s) +:+ w)
  /\ forall q, q <> js_path s -> nodes (js_fs s') !! q = nodes (js_fs s) !! q.
Proof.
  revert s. induction ops as [|o ops IH]; intros s.
  { split; [exists ""; by rewrite append_empty_r|done]. }
  destruct (session_cons o ops s) as (res & s1 & -> & Hp & _ & Hs). cbv zeta. simpl.
  destruct (IH s1) as [[w Hw] Hq]. rewrite Hp in Hw, Hq.
  destruct Hs as [[_ <-]|(id & a & Ha & _)]; [by split; [exists w|]|].
  apply append_line_result in Ha as [Hq1 (w1 & Hw1 & _)]. split.
  - exists (w1 +:+ w). by rewrite Hw, Hw1, append_assoc.
  - intros q Hne. by rewrite Hq, Hq1.
Qed.

(** C17: the log cannot be forged from its inputs: calls that all succeed append
    exactly one line each, in order, every line holding the call's own record
    and ending at its only newline, whatever bytes the project, the working
    directory and the arguments hold; a start and the finish given its result
    carry the same run ID, the hexadecimal form of the random bytes. *)
Theorem JSONLLogger_one_line_each ops (s : JSONLState) ids s' :
  session ops s = (map Ok ids, s') ->
  exists lines,
    log_data (js_fs s') (js_path s) = log_data (js_fs s) (js_path s) +:+ concat_map id lines
    /\ length lines = length ops
    /\ (forall n o, ops !! n = Some o -> exists rid line,
          ids !! n = Some rid /\ lines !! n = Some line
          /\ line_of o (default (mkIO 0 None None true) (js_inputs s !! n)) rid line).
Proof.
  revert s ids s'. induction ops as [|o ops IH]; intros s ids s'.
  { intros [= _ <-]. exists []. split_and!; [by rewrite append_empty_r|done|done]. }
  destruct (session_cons o ops s) as (res & s1 & -> & Hp & Hi & Hs).
  destruct ids as [|rid ids]; [done|]. intros [= -> Hrs <-].
  destruct Hs as [[? _]|(id' & a & Ha & Hres & Hid)]; [done|].
  destruct a as [[]|]; [|done]. injection Hres as <-.
  apply append_Ok_line in Ha as (js & Hm & Hlf & Hd).
  edestruct (IH s1 ids) as (lines & Hl & Hlen & Hall).
  { rewrite <- Hrs. apply surjective_pairing. }
  rewrite Hp in Hl. exists ((js +:+ str1 LF) :: lines). split_and!.
  - rewrite Hl, Hd. unfold concat_map; simpl. by rewrite !append_assoc.
  - simpl. by rewrite Hlen.
  - intros [|n] o'; simpl.
    + intros [= <-]. eexists _, _. split_and!; [done..|]. exists js.
      unfold next_io in Hm, Hid. destruct (js_inputs s); split_and!; try done; by destruct o'.
    + intros Ho. destruct (Hall n o' Ho) as (rid' & line & ? & ? & Hline).
      eexists _, _. split_and!; [done..|]. rewrite Hi in Hline.
      by destruct (js_inputs s).
Qed.

Definition example_log : JSONLState :=
  mkJSONLState "/log" (mkFS ∅ 1000 18 (fun _ => false))
    [mkIO 0 (Some "abcdefgh") None false; mkIO 1000000000 None None false].

Definition example_ops : list log_op :=
  [LogStart (mkStartRecord ("p" +:+ str1 LF) "/w" ["bws"]);
   LogFinish "6162636465666768" (mkFinishRecord "approved" (Some 0))].

Lemma JSONLLogger_one_line_each_witness :
  exists s', session example_ops example_log
             = (map Ok ["6162636465666768"; "6162636465666768"], s')
    /\ exists lines, length lines = 2%nat
         /\ log_data (js_fs s') "/log" = "" +:+ concat_map id lines.
Proof.
  exists (snd (session example_ops example_log)).
  assert (E : session example_ops example_log
              = (map Ok ["6162636465666768"; "6162636465666768"],
                 snd (session example_ops example_log))) by (vm_compute; reflexivity).
  split; [exact E|].
  destruct (JSONLLogger_one_line_each example_ops example_log _ _ E) as (lines & Hl & Hn & _).
  exists lines. split; [exact Hn|exact Hl].
Defined.
