(* ===== verification/Relay.v ===== *)
(** * Relay: the store of pending approval requests (internal/relay/store.go)

    Every method of the store holds its mutex from beginning to end, so a
    concurrent execution is a sequence of whole operations; each reads the
    clock once, and [now] is that reading.  Module [Store] has the operations,
    [History] the sequences of operations and what they establish. *)

From stdpp Require Import sorting.
From S2P Require Import Prelude GoStrings GoText GoJson GoSort.

#[local] Open Scope Z_scope.

Inductive Status : Type :=
| StatusPending
| StatusApproved
| StatusDenied
| StatusExpired.

#[export] Instance Status_eq_dec : EqDecision Status. Proof. solve_decision. Defined.

Definition status_string (st : Status) : string :=
  match st with
  | StatusPending => "pending"
  | StatusApproved => "approved"
  | StatusDenied => "denied"
  | StatusExpired => "expired"
  end.

Record Request := mkRequest {
  ID : string;
  Prompt : string;
  rq_Status : Status;
  CreatedAt : Z;
  Deadline : Z;
}.

#[export] Instance Request_eq_dec : EqDecision Request. Proof. solve_decision. Defined.

(** [out.Status = st] on a copy, [req.Status = st] on the stored record. *)
Definition set_status (st : Status) (r : Request) : Request :=
  mkRequest (ID r) (Prompt r) st (CreatedAt r) (Deadline r).

Inductive store_error : Type :=
| ErrNotFound
| EAlreadyExists (id : string)
| EStoreFull
| EHasExpired (id : string)
| EAlreadyDecided (id : string) (st : Status).

#[export] Instance store_error_eq_dec : EqDecision store_error. Proof. solve_decision. Defined.

Module Store.

Record Store := mkStore {
  requests : gmap string Request;
  limit : Z;
}.

Definition NewStoreWithLimit (lim : Z) : Store := mkStore ∅ lim.
Definition NewStore : Store := NewStoreWithLimit 1024.

Definition Create (s : Store) (now : Z) (id prompt : string) (ttl : Z)
    : result store_error unit * Store :=
  if bool_decide (is_Some (requests s !! id)) then (Err (EAlreadyExists id), s)
  else if limit s <=? Z.of_nat (size (requests s)) then (Err EStoreFull, s)
  else (Ok tt, mkStore (<[id := mkRequest id prompt StatusPending now (Time.Add now ttl)]>
                          (requests s)) (limit s)).

(** A pending request past its deadline, as [Get] reports it. *)
Definition view (now : Z) (r : Request) : Request :=
  if bool_decide (rq_Status r = StatusPending) && Time.After now (Deadline r)
  then set_status StatusExpired r else r.

Definition Get (s : Store) (now : Z) (id : string) : result store_error Request :=
  match requests s !! id with
  | None => Err ErrNotFound
  | Some r => Ok (view now r)
  end.

Definition live (now : Z) (r : Request) : bool :=
  bool_decide (rq_Status r = StatusPending) && negb (Time.After now (Deadline r)).

(** The comparison given to [sort.Slice]. *)
Definition less : Request -> Request -> bool := KeyOrder.less Deadline ID.

Definition Pending (s : Store) (now : Z) : list Request :=
  Slice less (filter (fun r => live now r = true) (map_to_list (requests s)).*2).

Definition Decide (s : Store) (now : Z) (id : string) (approve : bool)
    : result store_error unit * Store :=
  match requests s !! id with
  | None => (Err ErrNotFound, s)
  | Some r =>
      if Time.After now (Deadline r) then (Err (EHasExpired id), s)
      else if negb (bool_decide (rq_Status r = StatusPending))
      then (Err (EAlreadyDecided id (rq_Status r)), s)
      else (Ok tt, mkStore (<[id := set_status (if approve then StatusApproved else StatusDenied) r]>
                              (requests s)) (limit s))
  end.

(** The body of the loop of [Sweep]. *)
Definition sweep_step (cutoff : Z) (acc : Z * Store) (kr : string * Request) : Z * Store :=
  let '(removed, s) := acc in
  let '(id, req) := kr in
  if Time.Before (Deadline req) cutoff
  then (removed + 1, mkStore (delete id (requests s)) (limit s))
  else (removed, s).

(** The ranged-over map is deleted from during the iteration, which visits
    every entry present at its start once. *)
Definition Sweep (s : Store) (now olderThan : Z) : Z * Store :=
  let cutoff := Time.Add now (- olderThan) in
  foldl (sweep_step cutoff) (0, s) (map_to_list (requests s)).

(** ** The invariant *)

(** Each request sits under its own ID, the expired status is never stored,
    and the table is within its limit. *)
Definition wf (s : Store) : Prop :=
  map_Forall (fun k r => ID r = k /\ rq_Status r <> StatusExpired) (requests s)
  /\ Z.of_nat (size (requests s)) <= Z.max 0 (limit s).

Lemma wf_new lim : wf (NewStoreWithLimit lim).
Proof. split; [apply map_Forall_empty|]. simpl. rewrite map_size_empty. lia. Qed.

Lemma wf_Create s now id prompt ttl : wf s -> wf (Create s now id prompt ttl).2.
Proof.
  intros [Hw Hl]. unfold Create. case_bool_decide as Hid; [done|].
  destruct (Z.leb_spec (limit s) (Z.of_nat (size (requests s)))); [done|].
  apply eq_None_not_Some in Hid. split; simpl.
  - by apply map_Forall_insert_2.
  - rewrite map_size_insert_None by done. lia.
Qed.

Lemma wf_Decide s now id a : wf s -> wf (Decide s now id a).2.
Proof.
  intros [Hw Hl]. unfold Decide. destruct (requests s !! id) as [r|] eqn:E; [|done].
  destruct (Time.After now (Deadline r)); [done|].
  destruct (negb _); [done|]. split; simpl.
  - apply map_Forall_insert_2; [|done]. specialize (Hw _ _ E). simpl in *. by destruct a, Hw.
  - rewrite map_size_insert_Some; [done|by eexists].
Qed.

Definition stale (cutoff : Z) (r : Request) : bool := Time.Before (Deadline r) cutoff.

Lemma Sweep_fold cutoff (l : list (string * Request)) c (s : Store) :
  let acc := foldl (sweep_step cutoff) (c, s) l in
  acc.1 = c + Z.of_nat (length (filter (fun kr => stale cutoff kr.2 = true) l))
  /\ limit acc.2 = limit s
  /\ forall id, requests acc.2 !! id =
       if bool_decide (Exists (fun kr => kr.1 = id /\ stale cutoff kr.2 = true) l)
       then None else requests s !! id.
Proof.
  revert c s. induction l as [|[k r] l IH]; intros c s; cbv zeta; cbn [foldl].
  { split_and!; [simpl; lia|done|]. intros id. by rewrite bool_decide_eq_false_2 by (rewrite Exists_nil; tauto). }
  assert (Hex : forall id, Exists (fun kr => kr.1 = id /\ stale cutoff kr.2 = true) ((k, r) :: l)
    <-> (k = id /\ stale cutoff r = true)
        \/ Exists (fun kr => kr.1 = id /\ stale cutoff kr.2 = true) l) by (intros; apply Exists_cons).
  rewrite filter_cons. cbn [sweep_step snd]. fold (stale cutoff r).
  destruct (decide (stale cutoff r = true)) as [Eb|Eb].
  - rewrite Eb. destruct (IH (c + 1) (mkStore (delete k (requests s)) (limit s))) as (H1 & H2 & H3).
    split_and!; [rewrite H1; simpl; lia|done|]. intros id. rewrite H3. cbn [requests].
    rewrite (bool_decide_ext _ _ (Hex id)).
    destruct (decide (k = id)) as [->|Hk]; [rewrite lookup_delete_eq|rewrite lookup_delete_ne by done];
      repeat case_bool_decide; naive_solver.
  - rewrite (not_true_is_false _ Eb). destruct (IH c s) as (H1 & H2 & H3).
    split_and!; [done|done|]. intros id. rewrite H3.
    rewrite (bool_decide_ext _ _ (Hex id)).
    repeat case_bool_decide; naive_solver.
Qed.

Lemma Sweep_lookup s now olderThan id :
  requests (Sweep s now olderThan).2 !! id =
    match requests s !! id with
    | Some r => if stale (now - olderThan) r then None else Some r
    | None => None
    end.
Proof.
  unfold Sweep. destruct (Sweep_fold (Time.Add now (- olderThan)) (map_to_list (requests s)) 0 s)
    as (_ & _ & ->). unfold Time.Add. rewrite Z.add_opp_r.
  destruct (requests s !! id) as [r|] eqn:E; [|by case_bool_decide].
  destruct (stale (now - olderThan) r) eqn:Es.
  - rewrite bool_decide_eq_true_2; [done|]. apply Exists_exists. exists (id, r).
    by rewrite elem_of_map_to_list.
  - rewrite bool_decide_eq_false_2; [done|]. rewrite Exists_exists.
    intros ([k r'] & Hi & Hk & Hs). simpl in *. subst k.
    apply elem_of_map_to_list in Hi. congruence.
Qed.

Lemma Sweep_limit s now olderThan : limit (Sweep s now olderThan).2 = limit s.
Proof. apply Sweep_fold. Qed.

Lemma Sweep_requests s now olderThan :
  requests (Sweep s now olderThan).2
  = filter (fun kr => stale (now - olderThan) kr.2 = false) (requests s).
Proof.
  apply map_eq. intros id. apply option_eq. intros r.
  rewrite Sweep_lookup, map_lookup_filter_Some. simpl.
  destruct (requests s !! id) as [r'|]; [|split; [done|by intros [? _]]].
  destruct (stale (now - olderThan) r') eqn:E.
  - split; [done|intros [[= ->] ?]; congruence].
  - split; [by intros [= ->]|by intros [[= ->] _]].
Qed.

Lemma wf_Sweep s now olderThan : wf s -> wf (Sweep s now olderThan).2.
Proof.
  intros [Hw Hl]. unfold wf. rewrite Sweep_limit, Sweep_requests. split.
  - intros k r [Hk _]%map_lookup_filter_Some. by apply Hw.
  - pose proof (map_subseteq_size _ _ (map_filter_subseteq
      (fun kr => stale (now - olderThan) kr.2 = false) (requests s))). lia.
Qed.

End Store.

Module History.
Import Store.

(** ** Operations, replies and executions *)

Inductive op : Type :=
| OCreate (id prompt : string) (ttl : Z)
| OGet (id : string)
| OPending
| ODecide (id : string) (approve : bool)
| OSweep (olderThan : Z).

Inductive reply : Type :=
| RUnit (r : result store_error unit)
| RRequest (r : result store_error Request)
| RList (l : list Request)
| RCount (n : Z).

(** One operation at one reading of the clock. *)
Definition apply (s : Store) (now : Z) (o : op) : reply * Store :=
  match o with
  | OCreate id prompt ttl => let '(r, s') := Create s now id prompt ttl in (RUnit r, s')
  | OGet id => (RRequest (Get s now id), s)
  | OPending => (RList (Pending s now), s)
  | ODecide id approve => let '(r, s') := Decide s now id approve in (RUnit r, s')
  | OSweep olderThan => let '(n, s') := Sweep s now olderThan in (RCount n, s')
  end.

Definition entry : Type := Z * op * reply.

(** [steps s h s']: the operations of [h] lead from [s] to [s'], in any
    interleaving of any number of clients. *)
Inductive steps (s : Store) : list entry -> Store -> Prop :=
| steps_nil : steps s [] s
| steps_snoc h s1 now o r s2 :
    steps s h s1 -> apply s1 now o = (r, s2) -> steps s (h ++ [(now, o, r)]) s2.

(** Execute a list of operations. *)
Fixpoint exec (s : Store) (l : list (Z * op)) : list entry * Store :=
  match l with
  | [] => ([], s)
  | (now, o) :: l =>
      let '(r, s1) := apply s now o in
      let '(h, s2) := exec s1 l in ((now, o, r) :: h, s2)
  end.

Lemma exec_steps s h s1 l : steps s h s1 -> steps s (h ++ (exec s1 l).1) (exec s1 l).2.
Proof.
  revert h s1. induction l as [|[now o] l IH]; intros h s1 H; simpl.
  { by rewrite app_nil_r. }
  destruct (apply s1 now o) as [r s2] eqn:E. specialize (IH _ _ (steps_snoc _ _ _ _ _ _ _ H E)).
  destruct (exec s2 l) as [h' s3]. by rewrite <- app_assoc in IH.
Qed.

Definition created (id : string) (e : entry) : Prop :=
  exists t p ttl, e = (t, OCreate id p ttl, RUnit (Ok tt)).

Definition decided (id : string) (e : entry) : Prop :=
  exists t b, e = (t, ODecide id b, RUnit (Ok tt)).

(** [h] accounts for the request [r] under [id]: its creation is the last
    one for [id], and its status is that of the one decision accepted since,
    if there was one, made no later than the deadline. *)
Definition explains (h : list entry) (id : string) (r : Request) : Prop :=
  exists pre ttl post,
    h = pre ++ (CreatedAt r, OCreate id (Prompt r) ttl, RUnit (Ok tt)) :: post
    /\ Deadline r = CreatedAt r + ttl
    /\ Forall (fun e => ~ created id e) post
    /\ match rq_Status r with
       | StatusPending => Forall (fun e => ~ decided id e) post
       | StatusApproved | StatusDenied =>
           exists mid t post',
             post = mid ++ (t, ODecide id (bool_decide (rq_Status r = StatusApproved)),
                            RUnit (Ok tt)) :: post'
             /\ t <= Deadline r
             /\ Forall (fun e => ~ decided id e) mid /\ Forall (fun e => ~ decided id e) post'
       | StatusExpired => False
       end.

(** ** Lemmas *)

Lemma wf_apply s now o : wf s -> wf (apply s now o).2.
Proof.
  intros H. destruct o; simpl; try done.
  - pose proof (wf_Create s now id prompt ttl H). by destruct (Create _ _ _ _ _).
  - pose proof (wf_Decide s now id approve H). by destruct (Decide _ _ _ _).
  - pose proof (wf_Sweep s now olderThan H). by destruct (Sweep _ _ _).
Qed.

Lemma steps_wf s h s' : wf s -> steps s h s' -> wf s'.
Proof.
  intros H. induction 1 as [|h s1 now o r s2 _ IH E]; [done|].
  pose proof (wf_apply s1 now o IH) as Hw. by rewrite E in Hw.
Qed.

Lemma limit_apply s now o : limit (apply s now o).2 = limit s.
Proof.
  destruct o; simpl; unfold Create, Decide; repeat case_match; simplify_eq/=; try done.
  match goal with H : Sweep _ _ _ = _ |- _ => apply (f_equal snd) in H; simpl in H; subst end.
  apply Sweep_limit.
Qed.

Lemma steps_limit s h s' : steps s h s' -> limit s' = limit s.
Proof.
  induction 1 as [|h s1 now o r s2 _ IH E]; [done|].
  pose proof (limit_apply s1 now o) as Hl. rewrite E in Hl. simpl in Hl. congruence.
Qed.

(** What one operation does to the entry of [id]. *)
Inductive effect (id : string) (now : Z) : op -> reply -> option Request -> option Request -> Prop :=
| effect_create p ttl :
    effect id now (OCreate id p ttl) (RUnit (Ok tt)) None
      (Some (mkRequest id p StatusPending now (now + ttl)))
| effect_decide r b :
    rq_Status r = StatusPending -> now <= Deadline r ->
    effect id now (ODecide id b) (RUnit (Ok tt)) (Some r)
      (Some (set_status (if b then StatusApproved else StatusDenied) r))
| effect_sweep d n r :
    Deadline r < now - d -> effect id now (OSweep d) (RCount n) (Some r) None
| effect_none o re m :
    ~ created id (now, o, re) -> ~ decided id (now, o, re) ->
    (forall d r, o = OSweep d -> m = Some r -> now - d <= Deadline r) ->
    effect id now o re m m.

Lemma apply_effect s now o re s' id :
  apply s now o = (re, s') -> effect id now o re (requests s !! id) (requests s' !! id).
Proof.
  destruct o as [i p ttl|i| |i b|d]; simpl.
  - unfold Create. case_bool_decide as Hi; [|destruct (Z.leb_spec (limit s) (Z.of_nat (size (requests s))))].
    1-2: intros [= <- <-]; constructor; [by intros (?&?&?&?)|by intros (?&?&?)|done].
    intros [= <- <-]. apply eq_None_not_Some in Hi. simpl.
    destruct (decide (i = id)) as [->|Hne].
    + rewrite Hi, lookup_insert_eq. constructor.
    + rewrite lookup_insert_ne by done. constructor; [|by intros (?&?&?)|done].
      intros (?&?&?&?). congruence.
  - intros [= <- <-]. constructor; [by intros (?&?&?&?)|by intros (?&?&?)|done].
  - intros [= <- <-]. constructor; [by intros (?&?&?&?)|by intros (?&?&?)|done].
  - unfold Decide, Time.After. destruct (requests s !! i) as [r|] eqn:Er; [|].
    2:{ intros [= <- <-]. constructor; [by intros (?&?&?&?)|by intros (?&?&?)|done]. }
    destruct (Z.ltb_spec (Deadline r) now); [|destruct (negb _) eqn:En].
    1-2: intros [= <- <-]; constructor; [by intros (?&?&?&?)|by intros (?&?&?)|done].
    intros [= <- <-]. boolP. simpl. destruct (decide (i = id)) as [->|Hne].
    + rewrite Er, lookup_insert_eq. by constructor.
    + rewrite lookup_insert_ne by done. constructor; [by intros (?&?&?&?)| |done].
      intros (?&?&?). congruence.
  - destruct (Sweep s now d) as [n s1] eqn:E. intros [= <- <-].
    pose proof (Sweep_lookup s now d id) as Hl. rewrite E in Hl. simpl in Hl. rewrite Hl.
    destruct (requests s !! id) as [r|] eqn:Er; [unfold stale, Time.Before;
      destruct (Z.ltb_spec (Deadline r) (now - d))|].
    + by constructor.
    + constructor; [by intros (?&?&?&?)|by intros (?&?&?)|].
      intros ? ? [= <-] [= <-]. done.
    + constructor; [by intros (?&?&?&?)|by intros (?&?&?)|done].
Qed.

Lemma explains_other h id r now o re :
  ~ created id (now, o, re) -> ~ decided id (now, o, re) ->
  explains h id r -> explains (h ++ [(now, o, re)]) id r.
Proof.
  intros Hc Hd (pre & ttl & post & -> & Hdl & Hcs & Hst).
  exists pre, ttl, (post ++ [(now, o, re)]). rewrite <- app_assoc. split_and!; [done|done| |].
  - apply Forall_app; auto.
  - destruct (rq_Status r); [by apply Forall_app; auto| | |done];
      destruct Hst as (mid & t & post' & -> & Ht & Hm & Hp);
      exists mid, t, (post' ++ [(now, o, re)]); rewrite <- app_assoc;
      (split_and!; [done|done|done|by apply Forall_app; auto]).
Qed.

Lemma steps_explains lim h s id r :
  steps (NewStoreWithLimit lim) h s -> requests s !! id = Some r -> explains h id r.
Proof.
  intros Hs. revert r. induction Hs as [|h s1 now o re s2 _ IH E]; intros r; [done|].
  apply (apply_effect _ _ _ _ _ id) in E.
  destruct E as [p ttl|r1 b Hp Hle|d n r1|o re m Hc Hd]; try done.
  - intros [= <-]. exists h, ttl, []. split_and!; [done|done|by constructor|by constructor].
  - intros [= <-]. destruct (IH r1 eq_refl) as (pre & ttl & post & -> & Hdl & Hcs & Hst).
    rewrite Hp in Hst. exists pre, ttl, (post ++ [(now, ODecide id b, RUnit (Ok tt))]).
    rewrite <- app_assoc. split_and!; [done|done| |].
    + apply Forall_app; split; [done|]. constructor; [by intros (?&?&?&?)|done].
    + destruct b; simpl; exists post, now, []; by split_and!.
  - intros ->. apply explains_other; [done|done|]. by apply IH.
Qed.

Lemma steps_keep s h s' id r :
  steps s h s' -> requests s !! id = Some r -> rq_Status r <> StatusPending ->
  (forall t d re, (t, OSweep d, re) ∈ h -> t - d <= Deadline r) ->
  requests s' !! id = Some r.
Proof.
  intros Hs Hr Hp. induction Hs as [|h s1 now o re s2 _ IH E]; [done|]. intros Hsw.
  assert (H1 : requests s1 !! id = Some r) by (apply IH; set_solver).
  apply (apply_effect _ _ _ _ _ id) in E. rewrite H1 in E.
  inversion E as [|r1 b| |]; subst; [done| |done].
  assert (now - d <= Deadline r) by (apply (Hsw now d (RCount n)); set_solver). lia.
Qed.

(** A request stays at least until a sweep runs later than its retention
    past the deadline, pending unless a decision was accepted. *)
Lemma steps_created_stays s0 h s id p ttl t0 :
  steps s0 h s -> (t0, OCreate id p ttl, RUnit (Ok tt)) ∈ h ->
  (forall t d re, (t, OSweep d, re) ∈ h -> t - d <= t0 + ttl) ->
  exists r, requests s !! id = Some r /\ Prompt r = p /\ CreatedAt r = t0 /\ Deadline r = t0 + ttl
    /\ (rq_Status r = StatusPending
        \/ exists t b, (t, ODecide id b, RUnit (Ok tt)) ∈ h
             /\ t <= Deadline r /\ rq_Status r = if b then StatusApproved else StatusDenied).
Proof.
  induction 1 as [|h s1 now o re s2 Hs IH E]; [by inversion 1|]. intros Hin Hsw.
  apply (apply_effect _ _ _ _ _ id) in E. apply elem_of_app in Hin as [Hin|Hin%list_elem_of_singleton].
  - destruct IH as (r & Hr & Hp & Hc & Hd & Hst); [done|set_solver|].
    rewrite Hr in E. inversion E as [|r1 b Hpend Hle|d n r1 Hlt|o' re' m Hnc Hnd]; subst.
    + eexists. split; [done|]. cbn. split_and!; [done..|]. right. exists now, b. split_and!; [set_solver|done|done].
    + assert (now - d <= CreatedAt r + ttl) by (apply (Hsw now d (RCount n)); set_solver). lia.
    + exists r. split_and!; [done..|]. destruct Hst as [?|(t & b & ? & ? & ?)]; [by left|].
      right. exists t, b. split_and!; [set_solver|done|done].
  - injection Hin as <- <- <-. inversion E as [p' ttl' | | |o' re' m Hnc Hnd]; subst.
    + eexists. split; [done|]. by split_and!; try left.
    + destruct Hnc. by exists t0, p, ttl.
Qed.

Definition decision_status (b : bool) : Status := if b then StatusApproved else StatusDenied.

Lemma Get_decided_history lim h s now id r b :
  steps (NewStoreWithLimit lim) h s ->
  Get s now id = Ok r -> rq_Status r = decision_status b ->
  exists pre ttl mid t post,
    h = pre ++ (CreatedAt r, OCreate id (Prompt r) ttl, RUnit (Ok tt))
          :: mid ++ (t, ODecide id b, RUnit (Ok tt)) :: post
    /\ t <= Deadline r /\ Deadline r = CreatedAt r + ttl
    /\ Forall (fun e => ~ created id e /\ ~ decided id e) (mid ++ post).
Proof.
  intros Hs Hg Ha. unfold Get in Hg. destruct (requests s !! id) as [r'|] eqn:E; [|done].
  injection Hg as Hg. unfold view in Hg.
  assert (r' = r) as ->.
  { destruct (bool_decide _ && _); [|done]. rewrite <- Hg in Ha. by destruct b. }
  destruct (steps_explains lim h s id r Hs E) as (pre & ttl & post & -> & Hd & Hc & Hst).
  rewrite Ha in Hst. assert (Hst' : exists mid t post', post = mid ++ (t, ODecide id b, RUnit (Ok tt)) :: post'
    /\ t <= Deadline r /\ Forall (fun e => ~ decided id e) mid /\ Forall (fun e => ~ decided id e) post')
    by (by destruct b).
  destruct Hst' as (mid & t & post' & -> & Ht & Hm & Hp).
  exists pre, ttl, mid, t, post'.
  split_and!; [done|done|done|]. apply Forall_app in Hc as [Hc1 Hc2]. inversion_clear Hc2.
  apply Forall_app; split; apply Forall_and; by split.
Qed.

Lemma Get_approved_history lim h s now id r :
  steps (NewStoreWithLimit lim) h s ->
  Get s now id = Ok r -> rq_Status r = StatusApproved ->
  exists pre ttl mid t post,
    h = pre ++ (CreatedAt r, OCreate id (Prompt r) ttl, RUnit (Ok tt))
          :: mid ++ (t, ODecide id true, RUnit (Ok tt)) :: post
    /\ t <= Deadline r /\ Deadline r = CreatedAt r + ttl
    /\ Forall (fun e => ~ created id e /\ ~ decided id e) (mid ++ post).
Proof. apply (Get_decided_history lim h s now id r true). Qed.

End History.

(** ** Properties *)

Section Properties.
Import Store History.

(** C5: an approval comes only from a human decision: whatever clients do and
    however their operations interleave, if [Get] reports a request approved
    then it was created with that prompt, and the first accepted decision
    after that creation, made no later than the deadline, approved it; since
    then no other decision was accepted and the ID was not created again. *)
Theorem approved_only_by_first_timely_decision lim h s now id r :
  steps (NewStoreWithLimit lim) h s ->
  Get s now id = Ok r -> rq_Status r = StatusApproved ->
  exists pre ttl mid t post,
    h = pre ++ (CreatedAt r, OCreate id (Prompt r) ttl, RUnit (Ok tt))
          :: mid ++ (t, ODecide id true, RUnit (Ok tt)) :: post
    /\ t <= Deadline r /\ Deadline r = CreatedAt r + ttl
    /\ Forall (fun e => ~ created id e /\ ~ decided id e) (mid ++ post).
Proof. apply Get_approved_history. Qed.

(** C16: a decision is final: once one is accepted, no later operation changes
    the request, every further decision is refused, the ID cannot be created
    again, and [Get] reports the decided status at every time, as long as no
    [Sweep] runs later than its retention past the deadline. *)
Theorem first_decision_is_final s now id b s1 h s2 :
  Decide s now id b = (Ok tt, s1) ->
  steps s1 h s2 ->
  (forall r t d re, requests s !! id = Some r -> (t, OSweep d, re) ∈ h -> t - d <= Deadline r) ->
  exists r, requests s !! id = Some r
    /\ now <= Deadline r
    /\ (forall t, Get s2 t id = Ok (set_status (if b then StatusApproved else StatusDenied) r))
    /\ (forall t b', is_ok (Decide s2 t id b').1 = false /\ (Decide s2 t id b').2 = s2)
    /\ (forall t p ttl, Create s2 t id p ttl = (Err (EAlreadyExists id), s2)).
Proof.
  intros Hd Hs Hsw. unfold Decide, Time.After in Hd.
  destruct (requests s !! id) as [r|]; [|done]. specialize (fun t d re => Hsw r t d re eq_refl).
  destruct (Z.ltb_spec (Deadline r) now); [done|]. destruct (negb _); [done|].
  injection Hd as <-. exists r. split; [done|]. split; [done|].
  set (r' := set_status _ r) in *.
  assert (Hne : rq_Status r' <> StatusPending) by (by destruct b).
  assert (E : requests s2 !! id = Some r').
  { apply (steps_keep _ h s2 id r' Hs); [apply lookup_insert_eq|done|done]. }
  split_and!.
  - intros t. unfold Get, view. rewrite E. by rewrite bool_decide_eq_false_2.
  - intros t b'. unfold Decide. rewrite E. rewrite bool_decide_eq_false_2 by done.
    by destruct (Time.After _ _).
  - intros. unfold Create. by rewrite E, bool_decide_eq_true_2 by (by eexists).
Qed.

(** The table is bounded and well formed: after any operations on a new
    store every request sits under its own ID, its stored status is never
    expired, and the number of requests does not exceed the limit; [Create]
    succeeds exactly for an unused ID below the limit. *)
Theorem store_bounded lim h s :
  steps (NewStoreWithLimit lim) h s ->
  map_Forall (fun k r => ID r = k /\ rq_Status r <> StatusExpired) (requests s)
  /\ Z.of_nat (size (requests s)) <= Z.max 0 lim
  /\ (forall now id p ttl, is_ok (Create s now id p ttl).1 = true <->
        requests s !! id = None /\ Z.of_nat (size (requests s)) < lim).
Proof.
  intros Hs. pose proof (steps_wf _ _ _ (wf_new lim) Hs) as [Hw Hn].
  pose proof (steps_limit _ _ _ Hs) as Hl. simpl in Hl. rewrite Hl in Hn.
  split_and!; [done|done|]. intros. unfold Create. rewrite Hl.
  rewrite eq_None_not_Some. case_bool_decide; [naive_solver|].
  destruct (Z.leb_spec lim (Z.of_nat (size (requests s)))); simpl; split; try done; lia.
Qed.

(** One deadline: at any instant [Decide] accepts a decision on an ID
    exactly when [Get] reports that request pending, exactly when the pending
    list shows it; an accepted decision changes that request's status only. *)
Theorem Get_Decide_Pending_agree lim h s now id approve :
  steps (NewStoreWithLimit lim) h s ->
  let accepted := is_ok (Decide s now id approve).1 = true in
  (accepted <-> exists r, Get s now id = Ok r /\ rq_Status r = StatusPending)
  /\ (accepted <-> exists r, r ∈ Pending s now /\ ID r = id)
  /\ (accepted -> (Decide s now id approve).2
        = mkStore (alter (set_status (if approve then StatusApproved else StatusDenied)) id
                     (requests s)) lim).
Proof.
  intros Hs. pose proof (steps_wf _ _ _ (wf_new lim) Hs) as [Hw _].
  pose proof (steps_limit _ _ _ Hs) as Hl. simpl in Hl.
  assert (Hp : forall r, r ∈ Pending s now <->
            requests s !! ID r = Some r /\ live now r = true).
  { intros r. unfold Pending. rewrite Slice_Permutation, list_elem_of_filter.
    rewrite list_elem_of_fmap. split.
    - intros [Hlive ([k r'] & -> & Hk%elem_of_map_to_list)]. simpl in *.
      destruct (Hw _ _ Hk) as [-> _]. done.
    - intros [Hr Hlive]. split; [done|]. exists (ID r, r). by rewrite elem_of_map_to_list. }
  cbv zeta. setoid_rewrite Hp. unfold Decide, Get, view, live.
  destruct (requests s !! id) as [r|] eqn:E.
  2:{ simpl. split_and!; try done; split; try done; [naive_solver|].
      intros (r & [H _] & <-). congruence. }
  pose proof (Hw _ _ E) as [Hid Hne]. simpl in Hid, Hne.
  destruct (Time.After now (Deadline r)) eqn:Ea; [|case_bool_decide as Hst].
  - simpl. split_and!; [|split; [done|]|done].
    + split; [done|]. intros (r' & [= <-] & H). case_bool_decide; simpl in H; done.
    + intros (r' & [H1 H2] & <-). rewrite E in H1. injection H1 as ->.
      rewrite Ea, andb_false_r in H2. done.
  - simpl. split_and!.
    + split; [|done]. intros _. by exists r.
    + split; [|done]. intros _. exists r. rewrite Hid, Ea. split_and!; [done| |done].
      by rewrite bool_decide_eq_true_2.
    + intros _. f_equal; [|done]. apply map_eq. intros k. destruct (decide (k = id)) as [->|Hk].
      * by rewrite lookup_insert_eq, lookup_alter_eq, E.
      * by rewrite lookup_insert_ne, lookup_alter_ne.
  - simpl. split_and!; [|split; [done|]|done].
    + split; [done|]. intros (r' & [= <-] & H). done.
    + intros (r' & [H1 H2] & <-). rewrite E in H1. injection H1 as ->.
      apply andb_true_iff in H2 as [H2%bool_decide_eq_true _]. done.
Qed.

(** The pending list is a function of the store and the clock although the
    map is ranged over in any order: it holds each live request once, by
    deadline and then by ID, and is the only such list. *)
Theorem Pending_sorted_unique lim h s now l :
  steps (NewStoreWithLimit lim) h s ->
  NoDup (Pending s now)
  /\ (l ≡ₚ filter (fun r => live now r = true) (map_to_list (requests s)).*2
      /\ StronglySorted (fun a b => Deadline a < Deadline b
                           \/ Deadline a = Deadline b /\ String.le (ID a) (ID b)) l
      <-> l = Pending s now).
Proof.
  intros Hs. pose proof (steps_wf _ _ _ (wf_new lim) Hs) as [Hw _].
  assert (Hin : forall r, r ∈ Pending s now -> requests s !! ID r = Some r).
  { intros r. unfold Pending. rewrite Slice_Permutation, list_elem_of_filter, list_elem_of_fmap.
    intros [_ ([k r'] & -> & Hk%elem_of_map_to_list)]. simpl. by destruct (Hw _ _ Hk) as [-> _]. }
  split.
  - unfold Pending. rewrite Slice_Permutation. apply NoDup_filter, (NoDup_fmap_1 ID).
    rewrite <- list_fmap_compose. rewrite (list_fmap_ext _ fst); [apply NoDup_fst_map_to_list|].
    intros i [k r] Hi%list_elem_of_lookup_2%elem_of_map_to_list. apply (Hw _ _ Hi).
  - apply (KeyOrder.Slice_unique Deadline ID). intros a b Ha Hb E.
    unfold Pending in Hin. setoid_rewrite Slice_Permutation in Hin. apply Hin in Ha, Hb. congruence.
Qed.

(** [Sweep] removes exactly the requests whose deadline passed more than
    [olderThan] ago and counts them; with a non-negative [olderThan] it never
    removes a request that can still be decided. *)
Theorem Sweep_exact s now olderThan :
  let '(n, s') := Sweep s now olderThan in
  requests s' = filter (fun kr => ~ Deadline kr.2 < now - olderThan) (requests s)
  /\ n = Z.of_nat (size (requests s)) - Z.of_nat (size (requests s'))
  /\ limit s' = limit s
  /\ (0 <= olderThan -> forall id r, requests s !! id = Some r -> live now r = true ->
        requests s' !! id = Some r).
Proof.
  pose proof (Sweep_requests s now olderThan) as Hr.
  pose proof (Sweep_limit s now olderThan) as Hl.
  pose proof (proj1 (Sweep_fold (Time.Add now (- olderThan)) (map_to_list (requests s)) 0 s)) as Hn.
  change (foldl _ _ _) with (Sweep s now olderThan) in Hn.
  destruct (Sweep s now olderThan) as [n s']. simpl in *.
  assert (Hst : forall r, stale (now - olderThan) r = false <-> ~ Deadline r < now - olderThan).
  { intros r. unfold stale, Time.Before. rewrite Z.ltb_ge. lia. }
  split_and!; [|..|done|].
  - rewrite Hr. apply map_filter_ext. intros k r _. apply Hst.
  - rewrite Hn, Hr, map_filter_alt. unfold Time.Add. rewrite Z.add_opp_r.
    rewrite <- !length_map_to_list, map_to_list_to_map.
    2:{ eapply sublist_NoDup; [apply (NoDup_fst_map_to_list (requests s))|].
        apply fmap_sublist, sublist_filter. }
    generalize (map_to_list (requests s)). intros l.
    induction l as [|[k r] l IH]; [done|]. rewrite !filter_cons. cbn [snd].
    destruct (stale (now - olderThan) r); simpl in *; lia.
  - intros Ho id r Hid. unfold live, Time.After.
    intros [_ H%negb_true_iff%Z.ltb_ge]%andb_true_iff.
    rewrite Hr. apply map_lookup_filter_Some. split; [done|]. apply Hst. simpl. lia.
Qed.

(** A store of one second requests, decided, polled and swept. *)
Definition example_steps : list entry :=
  let s := Time.Second in
  let r := mkRequest "a" "run?" StatusPending 0 s in
  [(0, OCreate "a" "run?" s, RUnit (Ok tt));
   (1, OGet "a", RRequest (Ok r));
   (2, ODecide "a" true, RUnit (Ok tt));
   (3, ODecide "a" false, RUnit (Err (EAlreadyDecided "a" StatusApproved)))].

Definition example_store : Store :=
  mkStore {[ "a" := mkRequest "a" "run?" StatusApproved 0 Time.Second ]} 2.

Lemma example_reached : steps (NewStoreWithLimit 2) example_steps example_store.
Proof.
  pose proof (exec_steps _ [] _
    [(0, OCreate "a" "run?" Time.Second); (1, OGet "a"); (2, ODecide "a" true); (3, ODecide "a" false)]
    (steps_nil (NewStoreWithLimit 2))) as H.
  by vm_compute in H |- *.
Qed.

Lemma approved_only_by_first_timely_decision_witness :
  exists pre ttl mid t post,
    example_steps = pre ++ (0, OCreate "a" "run?" ttl, RUnit (Ok tt))
          :: mid ++ (t, ODecide "a" true, RUnit (Ok tt)) :: post /\ t <= Time.Second.
Proof.
  destruct (approved_only_by_first_timely_decision 2 example_steps example_store (2 * Time.Second)
              "a" (mkRequest "a" "run?" StatusApproved 0 Time.Second) example_reached
              ltac:(vm_compute; reflexivity) eq_refl)
    as (pre & ttl & mid & t & post & H & Ht & _).
  exists pre, ttl, mid, t, post. split; [exact H|exact Ht].
Defined.

Lemma first_decision_is_final_witness :
  let s := mkStore {[ "a" := mkRequest "a" "run?" StatusPending 0 Time.Second ]} 2 in
  Decide s 5 "a" true = (Ok tt, example_store)
  /\ Get example_store (2 * Time.Second) "a"
     = Ok (mkRequest "a" "run?" StatusApproved 0 Time.Second).
Proof.
  cbv zeta. assert (E : Decide (mkStore {[ "a" := mkRequest "a" "run?" StatusPending 0 Time.Second ]} 2)
    5 "a" true = (Ok tt, example_store)) by (vm_compute; reflexivity).
  split; [exact E|].
  destruct (first_decision_is_final _ 5 "a" true example_store [] example_store E
              (steps_nil _) ltac:(intros ? ? ? ? _ H; inversion H)) as (r & Hr & _ & Hg & _).
  rewrite Hg. vm_compute in Hr. injection Hr as <-. reflexivity.
Defined.

Lemma store_bounded_witness : Z.of_nat (size (requests example_store)) <= Z.max 0 2.
Proof. apply (store_bounded 2 example_steps example_store example_reached). Defined.

Lemma Get_Decide_Pending_agree_witness :
  ~ (is_ok (Decide example_store 5 "a" true).1 = true).
Proof.
  intros H. destruct (Get_Decide_Pending_agree 2 example_steps example_store 5 "a" true
                        example_reached) as [[Hf _] _].
  destruct (Hf H) as (r & Hr & Hp). vm_compute in Hr. injection Hr as <-. discriminate.
Defined.

Lemma Pending_sorted_unique_witness : [] = Pending example_store 5.
Proof.
  apply (Pending_sorted_unique 2 example_steps example_store 5 [] example_reached).
  split; [vm_compute; constructor|constructor].
Defined.

End Properties.
