(* ===== verification/Http.v ===== *)
(** * Http: what the servers use of net/http

    Requests as a handler sees them and the responses it writes.  A request
    path is its list of segments, after the multiplexer's cleaning. *)

From S2P Require Import Prelude GoStrings.

#[local] Open Scope Z_scope.

Definition Header := list (string * string).

Record Request := mkRequest {
  Method : string;
  Path : list string;          (** [r.URL.Path], split at the slashes *)
  RHost : string;              (** [r.Host] *)
  TLS : bool;                  (** [r.TLS != nil] *)
  RHeader : Header;            (** names in canonical form *)
  RBody : string;
}.

(** [Header.Get]: the first value, or the empty string. *)
Fixpoint Header_Get (h : Header) (name : string) : string :=
  match h with
  | [] => ""
  | (k, v) :: h => if String.eqb k name then v else Header_Get h name
  end.

(** [Header.Values] *)
Definition Values (h : Header) (name : string) : list string :=
  (filter (fun kv => kv.1 = name) h).*2.

(** [Header.Set] *)
Definition Set_ (h : Header) (name v : string) : Header :=
  filter (fun kv => kv.1 <> name) h ++ [(name, v)].

Record Response := mkResponse {
  Code : Z;
  WHeader : Header;
  WBody : string;
}.

Definition StatusOK : Z := 200.
Definition StatusCreated : Z := 201.
Definition StatusBadRequest : Z := 400.
Definition StatusForbidden : Z := 403.
Definition StatusNotFound : Z := 404.
Definition StatusMethodNotAllowed : Z := 405.
Definition StatusConflict : Z := 409.
Definition StatusUnsupportedMediaType : Z := 415.
Definition StatusInternalServerError : Z := 500.
Definition StatusServiceUnavailable : Z := 503.

(** [http.Error] *)
Definition Error (h : Header) (msg : string) (code : Z) : Response :=
  mkResponse code (Set_ (Set_ h "Content-Type" "text/plain; charset=utf-8")
                     "X-Content-Type-Options" "nosniff") (msg +:+ str1 LF).

(** What a body reader yields: its bytes, then an error or the end. *)
Record Reader := mkReader { rd_data : string; rd_fails : bool }.

(** [http.MaxBytesReader] *)
Definition MaxBytesReader (body : string) (n : Z) : Reader :=
  mkReader (Strings.take (Z.to_nat n) body) (n <? len body).

(** The multiplexer's answer where no pattern matches the path, and where
    one does for another method. *)
Definition NotFound : Response := Error [] "404 page not found" StatusNotFound.
Definition MethodNotAllowed : Response := Error [] "Method Not Allowed" StatusMethodNotAllowed.

(** A pattern with method GET also accepts HEAD. *)
Definition is_GET (r : Request) : bool :=
  String.eqb (Method r) "GET" || String.eqb (Method r) "HEAD".
Definition is_POST (r : Request) : bool := String.eqb (Method r) "POST".
