(* ===== verification/RelayServer.v ===== *)
(** * RelayServer: the relay's two HTTP handlers (internal/relay/server.go)

    A handler is a program over the store's operations ([History.op]): each
    call is one atomic operation, and other clients' operations may come
    between two calls of one handler.  The JSON decoder, [Request.ParseForm]
    and [url.Parse] are arguments. *)

From S2P Require Import Prelude GoStrings GoText GoJson Effects Config Relay Http.

#[local] Open Scope Z_scope.

Import Store History.

(** ** The store as an interface *)

#[export] Instance store_interface : Interface op := fun o =>
  match o with
  | OCreate _ _ _ | ODecide _ _ => result store_error unit
  | OGet _ => result store_error Relay.Request
  | OPending => list Relay.Request
  | OSweep _ => Z
  end.

(** ** Pages *)

Definition setHTMLHeaders : Header :=
  [("Content-Type", "text/html; charset=utf-8");
   ("Cache-Control", "no-store");
   ("Content-Security-Policy", "default-src 'none'; style-src 'unsafe-inline'; form-action 'self'; frame-ancestors 'none'; base-uri 'none'");
   ("Referrer-Policy", "same-origin");
   ("X-Content-Type-Options", "nosniff");
   ("X-Frame-Options", "DENY")].

Definition approval_buttons (id prompt : string) : string :=
  dq "
			<p>secrets-broker is asking to run:</p>
			<pre>" +:+ Html.EscapeString prompt
  +:+ dq "</pre>
			<form method=`POST` action=`/requests/" +:+ Html.EscapeString id
  +:+ dq "/decide` style=`display:inline`>
				<input type=`hidden` name=`decision` value=`approve`>
				<button type=`submit` style=`font-size:1.5em;padding:0.5em 1em;`>Approve</button>
			</form>
			<form method=`POST` action=`/requests/" +:+ Html.EscapeString id
  +:+ dq "/decide` style=`display:inline`>
				<input type=`hidden` name=`decision` value=`deny`>
				<button type=`submit` style=`font-size:1.5em;padding:0.5em 1em;`>Deny</button>
			</form>".

(** [writeApprovalPage] *)
Definition writeApprovalPage (id prompt status : string) (showButtons : bool) : Response :=
  let body :=
    if showButtons then approval_buttons id prompt
    else if String.eqb status "approve" then "<p>Approved.</p>"
    else if String.eqb status "deny" then "<p>Denied.</p>"
    else "<p>This request is no longer pending (status: " +:+ Html.EscapeString status +:+ ").</p>" in
  mkResponse StatusOK setHTMLHeaders
    (dq "<!DOCTYPE html><html><head><meta name=`viewport` content=`width=device-width, initial-scale=1`><title>secrets-broker</title></head><body style=`font-family:sans-serif;max-width:32em;margin:2em auto;padding:0 1em;`>" +:+ body +:+ dq "</body></html>").

(** The section of one request on the dashboard. *)
Definition pending_section (req : Relay.Request) : string :=
  let id := Html.EscapeString (ID req) in
  dq "<section style=`border:1px solid #999;padding:1em;margin:1em 0;`>
				<pre style=`white-space:pre-wrap;overflow-wrap:anywhere;`>" +:+ Html.EscapeString (Prompt req)
  +:+ dq "</pre>
				<form method=`POST` action=`/requests/" +:+ id
  +:+ dq "/decide` style=`display:inline`>
					<input type=`hidden` name=`decision` value=`approve`>
					<button type=`submit` style=`font-size:1.25em;padding:0.5em 1em;`>Approve</button>
				</form>
				<form method=`POST` action=`/requests/" +:+ id
  +:+ dq "/decide` style=`display:inline`>
					<input type=`hidden` name=`decision` value=`deny`>
					<button type=`submit` style=`font-size:1.25em;padding:0.5em 1em;`>Deny</button>
				</form>
			</section>".

(** [writePendingPage] *)
Definition writePendingPage (pending : list Relay.Request) : Response :=
  let body :=
    "<h1>Pending approvals</h1>"
    +:+ (if Nat.eqb (length pending) 0 then "<p>No pending approval requests.</p>"
         else concat_map pending_section pending)
    +:+ "<p>This page refreshes every two seconds.</p>" in
  mkResponse StatusOK setHTMLHeaders
    (dq "<!DOCTYPE html><html><head><meta name=`viewport` content=`width=device-width, initial-scale=1`><meta http-equiv=`refresh` content=`2`><title>secrets-broker approvals</title></head><body style=`font-family:sans-serif;max-width:40em;margin:2em auto;padding:0 1em;`>" +:+ body +:+ dq "</body></html>").

(** ** Requests *)

(** [validID] *)
Definition id_char (c : ascii) : bool :=
  let r := byte_val c in
  ((97 <=? r) && (r <=? 122)) || ((65 <=? r) && (r <=? 90)) || ((48 <=? r) && (r <=? 57))
  || Ascii.eqb c "-" || Ascii.eqb c "_".

Definition validID (id : string) : bool :=
  if String.eqb id "" || (64 <? len id) then false else all_bytes id_char id.

Record requestView := mkView { v_ID : string; v_Status : string; v_Deadline : string }.

Definition viewOf (req : Relay.Request) : requestView :=
  mkView (ID req) (status_string (rq_Status req)) (Time.FormatRFC3339 (Deadline req)).

(** [viewOf] of the zero [Request]; its deadline is the zero time. *)
Definition zero_view : requestView :=
  mkView "" "" (Time.FormatRFC3339 (-62135596800 * Time.Second)).

Definition encode_view (v : requestView) : string :=
  Json.encode_object
    [Json.member "id" (Json.encode_string (v_ID v));
     Json.member "status" (Json.encode_string (v_Status v));
     Json.member "deadline" (Json.encode_string (v_Deadline v))].

(** [writeJSON] *)
Definition writeJSON (status : Z) (v : requestView) : Response :=
  mkResponse status [("Content-Type", "application/json")] (encode_view v +:+ str1 LF).

Definition isBrowserForm (r : Request) : bool :=
  Strings.HasPrefix (Header_Get (RHeader r) "Content-Type") "application/x-www-form-urlencoded".

Section Handlers.
Context (unicode_print : Z -> bool).
Context (url_Parse : string -> option URL).
(** The first JSON value of the body as [{"prompt": string}], with the empty
    string where the member is missing; [None] is an error. *)
Context (decode_prompt : Reader -> option string).
Context (decode_decision : Reader -> option string).
(** [r.ParseForm] on the body: the fields of [r.PostForm] in order. *)
Context (ParseForm : Request -> Reader -> option (list (string * string))).

(** [err.Error()] of a store error. *)
Definition error_string (e : store_error) : string :=
  match e with
  | ErrNotFound => "request not found"
  | EAlreadyExists id => "request " +:+ Strconv.Quote unicode_print id +:+ " already exists"
  | EStoreFull => "request store is full"
  | EHasExpired id => "request " +:+ Strconv.Quote unicode_print id +:+ " has expired"
  | EAlreadyDecided id st =>
      "request " +:+ Strconv.Quote unicode_print id +:+ " was already decided ("
      +:+ status_string st +:+ ")"
  end.

Definition invalid_id : Response := Error [] "invalid request id" StatusBadRequest.

(** [POST /requests/{id}] of the control handler. *)
Definition control_create (ttl : Z) (id : string) (r : Request) : prog op Response :=
  if negb (validID id) then mret invalid_id else
  let bad := Error [] "invalid request body: prompt is required" StatusBadRequest in
  match decode_prompt (MaxBytesReader (RBody r) 16384) with
  | None => mret bad
  | Some prompt =>
      if String.eqb prompt "" || (8192 <? len prompt) then mret bad else
      res ← call (OCreate id prompt ttl);
      match res : result store_error unit with
      | Err e => mret (Error [] (error_string e) StatusConflict)
      | Ok _ =>
          req ← call (OGet id);
          mret (writeJSON StatusCreated
                  match req : result store_error Relay.Request with
                  | Ok q => viewOf q
                  | Err _ => zero_view
                  end)
      end
  end.

(** [GET /requests/{id}] of the control handler. *)
Definition control_get (id : string) : prog op Response :=
  if negb (validID id) then mret invalid_id else
  req ← call (OGet id);
  mret match req : result store_error Relay.Request with
       | Err e => Error [] (error_string e) StatusNotFound
       | Ok q => writeJSON StatusOK (viewOf q)
       end.

(** [NewControlHandler]: a wildcard matches one non-empty segment. *)
Definition NewControlHandler (ttl : Z) (r : Request) : prog op Response :=
  match Path r with
  | [seg; id] =>
      if negb (String.eqb seg "requests") || String.eqb id "" then mret NotFound
      else if is_POST r then control_create ttl id r
      else if is_GET r then control_get id
      else mret MethodNotAllowed
  | _ => mret NotFound
  end.

Definition sameOrigin (r : Request) : bool :=
  let origin := Header_Get (RHeader r) "Origin" in
  let origin := if String.eqb origin "" then Header_Get (RHeader r) "Referer" else origin in
  if String.eqb origin "" then true
  else match url_Parse origin with
       | None => false
       | Some u =>
           let expectedScheme := if TLS r then "https" else "http" in
           String.eqb (Scheme u) expectedScheme && String.eqb (Host u) (RHost r)
       end.

(** [PostFormValue]: the first value of the field, or the empty string. *)
Definition readDecision (r : Request) (body : Reader) : result string string :=
  if isBrowserForm r then
    match ParseForm r body with
    | None => Err "invalid form body"
    | Some form => Ok (Header_Get form "decision")
    end
  else
    match decode_decision body with
    | None => Err "invalid request body"
    | Some d => Ok d
    end.

(** [POST /requests/{id}/decide] of the decision handler. *)
Definition decision_decide (id : string) (r : Request) : prog op Response :=
  if negb (sameOrigin r) then mret (Error [] "cross-origin request rejected" StatusForbidden) else
  if negb (validID id) then mret invalid_id else
  match readDecision r (MaxBytesReader (RBody r) 4096) with
  | Err msg => mret (Error [] msg StatusBadRequest)
  | Ok decision =>
      let decide_as approve :=
        res ← call (ODecide id approve);
        mret match res : result store_error unit with
             | Err e =>
                 if bool_decide (e = ErrNotFound)
                 then Error [] (error_string e) StatusNotFound
                 else Error [] (error_string e) StatusConflict
             | Ok _ =>
                 if isBrowserForm r then writeApprovalPage id "" decision false
                 else mkResponse StatusOK [] ""
             end in
      if String.eqb decision "approve" then decide_as true
      else if String.eqb decision "deny" then decide_as false
      else mret (Error [] (dq "decision must be `approve` or `deny`") StatusBadRequest)
  end.

(** [GET /requests/{id}] of the decision handler. *)
Definition decision_get (id : string) : prog op Response :=
  if negb (validID id) then mret invalid_id else
  req ← call (OGet id);
  mret match req : result store_error Relay.Request with
       | Err e => Error [] (error_string e) StatusNotFound
       | Ok q =>
           if negb (bool_decide (rq_Status q = StatusPending))
           then writeApprovalPage id "" (status_string (rq_Status q)) false
           else writeApprovalPage id (Prompt q) "" true
       end.

(** [NewDecisionHandler] *)
Definition NewDecisionHandler (r : Request) : prog op Response :=
  match Path r with
  | [] =>
      if is_GET r then (pending ← call OPending; mret (writePendingPage pending))
      else mret MethodNotAllowed
  | [seg; id] =>
      if negb (String.eqb seg "requests") || String.eqb id "" then mret NotFound
      else if is_GET r then decision_get id else mret MethodNotAllowed
  | [seg; id; seg'] =>
      if negb (String.eqb seg "requests") || String.eqb id "" || negb (String.eqb seg' "decide")
      then mret NotFound
      else if is_POST r then decision_decide id r else mret MethodNotAllowed
  | _ => mret NotFound
  end.

End Handlers.

(** ** What a request must look like for its handler to make a call *)

Definition valid_request_id (id : string) : Prop :=
  0 < len id <= 64 /\ all_bytes id_char id = true.

Lemma validID_spec id : validID id = true <-> valid_request_id id.
Proof.
  unfold validID, valid_request_id. destruct (String.eqb_spec id "") as [->|Hne]; simpl.
  { split; [done|]. unfold len. simpl. lia. }
  assert (0 < len id) by (destruct id; unfold len; simpl; [done|lia]).
  destruct (Z.ltb_spec 64 (len id)); split; try done; [lia|].
  by intros [_ ?].
Qed.

Lemma is_GET_spec r : is_GET r = true <-> Method r = "GET" \/ Method r = "HEAD".
Proof. unfold is_GET. by rewrite orb_true_iff, !String.eqb_eq. Qed.

Lemma is_POST_spec r : is_POST r = true <-> Method r = "POST".
Proof. apply String.eqb_eq. Qed.

Section ControlCalls.
Context (unicode_print : Z -> bool) (decode_prompt : Reader -> option string) (ttl : Z).

Notation control_handler := (NewControlHandler unicode_print decode_prompt ttl).

Definition asks_to_create (r : Request) (id prompt : string) : Prop :=
  Method r = "POST" /\ Path r = ["requests"; id] /\ valid_request_id id
  /\ decode_prompt (MaxBytesReader (RBody r) 16384) = Some prompt
  /\ prompt <> "" /\ len prompt <= 8192.

Definition asks_to_get (r : Request) (id : string) : Prop :=
  (Method r = "GET" \/ Method r = "HEAD") /\ Path r = ["requests"; id] /\ valid_request_id id.

Lemma control_create_issues id r o :
  issues (control_create unicode_print decode_prompt ttl id r) o <->
  validID id = true /\ exists prompt,
    decode_prompt (MaxBytesReader (RBody r) 16384) = Some prompt
    /\ prompt <> "" /\ len prompt <= 8192
    /\ (o = OCreate id prompt ttl \/ o = OGet id).
Proof.
  unfold control_create. destruct (validID id); cbn [negb]; [|split; [done|by intros []]].
  destruct (decode_prompt _) as [prompt|]; [|split; [done|by intros [_ (? & ? & _)]]].
  destruct (String.eqb_spec prompt ""); simpl; [split; [done|naive_solver]|].
  destruct (Z.ltb_spec 8192 (len prompt)); simpl.
  { split; [done|]. intros [_ (? & [= <-] & _ & ? & _)]. lia. }
  split.
  - intros H1. split; [done|]. exists prompt. split_and!; [done|done|done|].
    destruct H1 as [->|[[[]|e] H1]]; [by left| |done]. simpl in H1.
    destruct H1 as [->|[? []]]. by right.
  - intros [_ (? & [= <-] & _ & _ & [-> | ->])]; [by left|]. right. exists (Ok tt). by left.
Qed.

Lemma control_issues r o :
  issues (control_handler r) o <->
  exists id, (exists prompt, asks_to_create r id prompt
                /\ (o = OCreate id prompt ttl \/ o = OGet id))
          \/ (asks_to_get r id /\ o = OGet id).
Proof.
  unfold NewControlHandler, asks_to_create, asks_to_get. setoid_rewrite <- is_GET_spec.
  setoid_rewrite <- is_POST_spec. setoid_rewrite <- validID_spec.
  destruct (Path r) as [|seg [|id [|x l]]]; try (split; [intros []|naive_solver]).
  destruct (String.eqb_spec seg "requests") as [->|Ha]; cbn [negb orb];
    [|split; [intros []|naive_solver]].
  destruct (String.eqb_spec id "") as [->|Hid].
  { split; [intros []|]. intros (id' & [(p & (_ & [= <-] & Hv & _) & _)|[(_ & [= <-] & Hv) _]]); done. }
  destruct (is_POST r) eqn:Ep; [|destruct (is_GET r) eqn:Eg].
  - rewrite control_create_issues. split; [naive_solver|].
    intros (id' & [(p & (_ & [= ->] & ?) & ?)|[[Hg _] _]]); [naive_solver|].
    unfold is_GET, is_POST in *. apply String.eqb_eq in Ep. by rewrite Ep in Hg.
  - unfold control_get. destruct (validID id) eqn:Ev; simpl.
    + split; [intros [->|[? []]]; naive_solver|].
      intros (id' & [(p & (? & _) & _)|[(_ & [= ->] & _) ->]]); [done|by left].
    + split; [done|]. intros (id' & [(p & (? & _) & _)|[(_ & [= <-] & ?) _]]); congruence.
  - split; [intros []|]. naive_solver.
Qed.

End ControlCalls.

Section DecisionCalls.
Context (unicode_print : Z -> bool) (url_Parse : string -> option URL).
Context (decode_decision : Reader -> option string).
Context (ParseForm : Request -> Reader -> option (list (string * string))).

Notation decision_handler := (NewDecisionHandler unicode_print url_Parse decode_decision ParseForm).
Notation read_decision := (readDecision decode_decision ParseForm).

Definition asks_to_decide (r : Request) (id : string) (approve : bool) : Prop :=
  Method r = "POST" /\ Path r = ["requests"; id; "decide"] /\ valid_request_id id
  /\ sameOrigin url_Parse r = true
  /\ read_decision r (MaxBytesReader (RBody r) 4096) = Ok (if approve then "approve" else "deny").

Lemma decision_decide_issues id r o :
  issues (decision_decide unicode_print url_Parse decode_decision ParseForm id r) o <->
  sameOrigin url_Parse r = true /\ validID id = true /\ exists b : bool,
    read_decision r (MaxBytesReader (RBody r) 4096) = Ok (if b then "approve" else "deny")
    /\ o = ODecide id b.
Proof.
  unfold decision_decide. destruct (sameOrigin url_Parse r); cbn [negb]; [|split; [intros []|naive_solver]].
  destruct (validID id); cbn [negb]; [|split; [intros []|naive_solver]].
  destruct (read_decision _ _) as [d|]; [|split; [intros []|naive_solver]].
  destruct (String.eqb_spec d "approve") as [->|Ha]; [|destruct (String.eqb_spec d "deny") as [->|Hd]].
  - split; [intros [->|[? []]]; split_and!; [done..|by exists true]|].
    intros (_ & _ & [] & [=] & ->). by left.
  - split; [intros [->|[? []]]; split_and!; [done..|by exists false]|].
    intros (_ & _ & [] & [=] & ->). by left.
  - split; [intros []|]. intros (_ & _ & [] & [=] & _); done.
Qed.

Lemma decision_issues r o :
  issues (decision_handler r) o <->
  (exists id b, asks_to_decide r id b /\ o = ODecide id b)
  \/ (exists id, asks_to_get r id /\ o = OGet id)
  \/ (Path r = [] /\ (Method r = "GET" \/ Method r = "HEAD") /\ o = OPending).
Proof.
  unfold NewDecisionHandler, asks_to_decide, asks_to_get. setoid_rewrite <- is_GET_spec.
  setoid_rewrite <- is_POST_spec. setoid_rewrite <- validID_spec.
  destruct (Path r) as [|seg [|id [|seg' [|x l]]]]; try (split; [intros []|naive_solver]).
  - destruct (is_GET r); [|split; [intros []|naive_solver]].
    split; [intros [->|[? []]]; by right; right|].
    intros [(? & ? & (_ & ? & _) & _)|[(? & (_ & ? & _) & _)|(_ & _ & ->)]]; [done|done|by left].
  - destruct (String.eqb_spec seg "requests") as [->|Ha]; cbn [negb orb];
      [|split; [intros []|naive_solver]].
    destruct (String.eqb_spec id "") as [->|Hid].
    { split; [intros []|]. intros [(? & ? & (_ & ? & _) & _)|[(id' & (_ & [= <-] & Hv) & _)|[? _]]]; done. }
    destruct (is_GET r) eqn:Eg; [|split; [intros []|naive_solver]].
    unfold decision_get. destruct (validID id) eqn:Ev; cbn [negb].
    + split; [intros [->|[? []]]; right; left; by exists id|].
      intros [(? & ? & (_ & ? & _) & _)|[(? & (_ & [= <-] & _) & ->)|[? _]]]; [done|by left|done].
    + split; [intros []|].
      intros [(? & ? & (_ & ? & _) & _)|[(? & (_ & [= <-] & ?) & _)|[? _]]]; [done|congruence|done].
  - destruct (String.eqb_spec seg "requests") as [->|Ha]; cbn [negb orb];
      [|split; [intros []|naive_solver]].
    destruct (String.eqb_spec id "") as [->|Hid].
    { split; [intros []|]. intros [(? & ? & (_ & [= <-] & Hv & _) & _)|[(id' & (_ & ? & _) & _)|[? _]]]; done. }
    destruct (String.eqb_spec seg' "decide") as [->|Hd]; cbn [negb orb];
      [|split; [intros []|naive_solver]].
    destruct (is_POST r) eqn:Ep; [|split; [intros []|naive_solver]].
    rewrite decision_decide_issues. split.
    + intros (? & ? & b & ? & ->). left. by exists id, b.
    + intros [(? & b & (_ & [= <-] & ? & ? & ?) & ->)|[(? & (_ & ? & _) & _)|[? _]]]; [|done|done].
      split_and!; [done|done|by exists b].
Qed.

(** The store answering one operation at clock reading [now]. *)
Definition store_handler (now : Z) : handler op Store := fun o s =>
  match o return answer o * Store with
  | OCreate id prompt ttl => Create s now id prompt ttl
  | OGet id => (Store.Get s now id, s)
  | OPending => (Pending s now, s)
  | ODecide id approve => Decide s now id approve
  | OSweep d => Sweep s now d
  end.

(** The decide endpoint reports what happened: it answers 200 exactly when
    the checked request's decision was accepted by the store, the store then
    holds that decision, and any other answer leaves the store as it was. *)
Theorem decide_endpoint_exact now r id s :
  Path r = ["requests"; id; "decide"] ->
  let '(resp, s', _) := run (store_handler now) (decision_handler r) s in
  (Code resp = StatusOK <->
     exists b, asks_to_decide r id b
       /\ Decide s now id b = (Ok tt, s'))
  /\ (Code resp <> StatusOK -> s' = s).
Proof.
  intros Hp. unfold NewDecisionHandler. rewrite Hp. cbn [negb orb String.eqb].
  assert (Hask : forall b, asks_to_decide r id b <->
    is_POST r = true /\ validID id = true /\ sameOrigin url_Parse r = true
    /\ read_decision r (MaxBytesReader (RBody r) 4096) = Ok (if b then "approve" else "deny")).
  { intros b. unfold asks_to_decide. rewrite Hp, is_POST_spec, validID_spec. tauto. }
  destruct (String.eqb_spec id "") as [->|Hid]; cbn [negb orb Ascii.eqb Bool.eqb].
  { simpl. split; [|done]. split; [done|]. by intros (b & (_ & ? & _)%Hask & _). }
  destruct (is_POST r) eqn:Ep; simpl.
  2:{ split; [|done]. split; [done|]. by intros (b & (? & _)%Hask & _). }
  unfold decision_decide. destruct (sameOrigin url_Parse r) eqn:Eo; simpl.
  2:{ split; [|done]. split; [done|]. by intros (b & (_ & _ & ? & _)%Hask & _). }
  destruct (validID id) eqn:Ev; simpl.
  2:{ split; [|done]. split; [done|]. by intros (b & (_ & ? & _)%Hask & _). }
  destruct (read_decision _ _) as [d|] eqn:Ed; simpl.
  2:{ split; [|done]. split; [done|]. by intros (b & (_ & _ & _ & ?)%Hask & _). }
  assert (Hend : forall b,
    d = (if b : bool then "approve" else "deny") ->
    let '(resp, s', _) := run (store_handler now)
      (res ← call (ODecide id b);
       mret match res : result store_error unit with
            | Err e => if bool_decide (e = ErrNotFound)
                       then Error [] (error_string unicode_print e) StatusNotFound
                       else Error [] (error_string unicode_print e) StatusConflict
            | Ok _ => if isBrowserForm r then writeApprovalPage id "" d false
                      else mkResponse StatusOK [] ""
            end) s in
    (Code resp = StatusOK <-> Decide s now id b = (Ok tt, s')) /\ (Code resp <> StatusOK -> s' = s)).
  { intros b _. simpl. destruct (Decide s now id b) as [[[]|e] s'] eqn:Edc; simpl.
    - by destruct (isBrowserForm r).
    - assert (s' = s) as -> by (unfold Decide in Edc; repeat case_match; congruence).
      split; [|done]. split; [|done]. by case_bool_decide. }
  destruct (String.eqb_spec d "approve") as [->|Ha]; [|destruct (String.eqb_spec d "deny") as [->|Hd]].
  - specialize (Hend true eq_refl). destruct (run _ _ _) as [[resp s'] ?].
    destruct Hend as [-> Hs]. split; [|done]. split; [exists true; by rewrite Hask|].
    intros ([] & (_ & _ & _ & [=])%Hask & ?). done.
  - specialize (Hend false eq_refl). destruct (run _ _ _) as [[resp s'] ?].
    destruct Hend as [-> Hs]. split; [|done]. split; [exists false; by rewrite Hask|].
    intros ([] & (_ & _ & _ & [=])%Hask & ?). done.
  - simpl. split; [|done]. split; [done|].
    intros ([] & (_ & _ & _ & [=])%Hask & _); done.
Qed.

End DecisionCalls.

(** ** The relay as a system

    Two listeners and a sweeper share one store.  Any operation that some
    request's handler can make may happen next, at any clock reading; this
    includes every interleaving of every set of concurrent requests. *)

Inductive port : Type :=
| Control (r : Request)
| Decision (r : Request)
| Sweeper (sweepAfter : Z).

Section System.
Context (unicode_print : Z -> bool) (url_Parse : string -> option URL).
Context (decode_prompt decode_decision : Reader -> option string).
Context (ParseForm : Request -> Reader -> option (list (string * string))).
Context (ttl : Z).

Notation control_handler := (NewControlHandler unicode_print decode_prompt ttl).
Notation decision_handler := (NewDecisionHandler unicode_print url_Parse decode_decision ParseForm).
Notation read_decision := (readDecision decode_decision ParseForm).

Definition may_issue (p : port) (o : op) : Prop :=
  match p with
  | Control r => issues (control_handler r) o
  | Decision r => issues (decision_handler r) o
  | Sweeper d => o = OSweep d
  end.

Inductive served (s : Store) : list (port * entry) -> Store -> Prop :=
| served_nil : served s [] s
| served_snoc h s1 p now o r s2 :
    served s h s1 -> may_issue p o -> apply s1 now o = (r, s2) ->
    served s (h ++ [(p, (now, o, r))]) s2.

Lemma served_steps s h s' : served s h s' -> steps s h.*2 s'.
Proof.
  induction 1 as [|h s1 p now o r s2 _ IH _ E]; [constructor|].
  rewrite fmap_app. by eapply steps_snoc.
Qed.

Lemma served_issued s h s' p e : served s h s' -> (p, e) ∈ h -> may_issue p e.1.2.
Proof.
  induction 1 as [|h s1 p' now o r s2 _ IH Hi E]; [by inversion 1|].
  intros [H|H]%elem_of_app; [auto|]. apply list_elem_of_singleton in H. by simplify_eq.
Qed.

(** The store at an operation of the history. *)
Lemma served_split s h s' p now o r :
  served s h s' -> (p, (now, o, r)) ∈ h ->
  exists h1 s1 h2, h = h1 ++ (p, (now, o, r)) :: h2 /\ served s h1 s1 /\ (apply s1 now o).1 = r.
Proof.
  induction 1 as [|h s1 p' now' o' r' s2 Hs IH Hi E]; [by inversion 1|].
  intros [H|H%list_elem_of_singleton]%elem_of_app.
  - destruct (IH H) as (h1 & s3 & h2 & -> & ? & ?). exists h1, s3, (h2 ++ [(p', (now', o', r'))]).
    by rewrite <- app_assoc.
  - injection H as -> -> -> ->. exists h, s1, []. by rewrite E.
Qed.

Lemma in_split_port {h : list (port * entry)} {a e b} :
  h.*2 = a ++ e :: b -> exists ha p hb, h = ha ++ (p, e) :: hb /\ a = ha.*2 /\ b = hb.*2.
Proof.
  intros H. apply fmap_app_inv in H as (ha & hb & Ha & Hb & ->).
  destruct hb as [|[p e'] hb]; simplify_eq/=. by exists ha, p, hb.
Qed.

(** A decision that the store reports was registered by the control listener
    and made by the decision listener. *)
Lemma decision_from_listener lim h s now id q b :
  served (NewStoreWithLimit lim) h s ->
  Store.Get s now id = Ok q -> rq_Status q = decision_status b ->
  exists pre r0 mid r1 t post,
    h = pre ++ (Control r0, (CreatedAt q, OCreate id (Prompt q) ttl, RUnit (Ok tt)))
          :: mid ++ (Decision r1, (t, ODecide id b, RUnit (Ok tt))) :: post
    /\ t <= CreatedAt q + ttl
    /\ asks_to_create decode_prompt r0 id (Prompt q)
    /\ asks_to_decide url_Parse decode_decision ParseForm r1 id b.
Proof.
  intros Hs Hg Ha.
  destruct (Get_decided_history lim h.*2 s now id q b (served_steps _ _ _ Hs) Hg Ha)
    as (pre & ttl' & mid & t & post & Hh & Ht & Hd & _).
  apply in_split_port in Hh as (hp & p0 & hr & -> & _ & Hr).
  symmetry in Hr. apply in_split_port in Hr as (hm & p1 & hq & -> & _ & _).
  assert (H0 : may_issue p0 (OCreate id (Prompt q) ttl'))
    by (apply (served_issued _ _ _ p0 (CreatedAt q, OCreate id (Prompt q) ttl', RUnit (Ok tt)) Hs); set_solver).
  assert (H1 : may_issue p1 (ODecide id b))
    by (apply (served_issued _ _ _ p1 (t, ODecide id b, RUnit (Ok tt)) Hs); set_solver).
  destruct p0 as [r0|r0|]; [| |done]; simpl in H0.
  2:{ apply decision_issues in H0 as [(? & ? & _ & ?)|[(? & _ & ?)|(_ & _ & ?)]]; done. }
  destruct p1 as [r1|r1|]; [| |done]; simpl in H1.
  { apply control_issues in H1 as (? & [(? & _ & [?|?])|[_ ?]]); done. }
  apply control_issues in H0 as (id' & [(p' & Hc & [[= <- <- ->]|?])|[_ ?]]); [|done..].
  apply decision_issues in H1 as [(id' & b' & Hb & [= <- <-])|[(? & _ & ?)|(_ & _ & ?)]]; [|done..].
  exists hp, r0, hm, r1, t, hq. split_and!; [done|lia|done|done].
Qed.

(** End to end, an approval that the broker can read comes from the
    decision listener: for any requests to the two listeners in any
    interleaving, if the store reports a request approved then it was
    registered with that prompt by a well-formed POST to the control
    listener, and later, before its deadline, a same-origin POST to the
    decision listener's decide endpoint for that ID said "approve". *)
Theorem approval_comes_from_decision_listener lim h s now id q :
  served (NewStoreWithLimit lim) h s ->
  Store.Get s now id = Ok q -> rq_Status q = StatusApproved ->
  exists pre r0 mid r1 t post,
    h = pre ++ (Control r0, (CreatedAt q, OCreate id (Prompt q) ttl, RUnit (Ok tt)))
          :: mid ++ (Decision r1, (t, ODecide id true, RUnit (Ok tt))) :: post
    /\ t <= CreatedAt q + ttl
    /\ asks_to_create decode_prompt r0 id (Prompt q)
    /\ asks_to_decide url_Parse decode_decision ParseForm r1 id true.
Proof. apply (decision_from_listener lim h s now id q true). Qed.

(** The listeners are separated: whatever its input and whatever the store
    answers, the control handler can only create the request it validated or
    read one, and the decision handler can only list, read, or pass on a
    decision the checked request states; neither can do the other's part. *)
Theorem listeners_separated r o :
  (issues (control_handler r) o <->
     (exists id, (exists prompt, asks_to_create decode_prompt r id prompt
                    /\ (o = OCreate id prompt ttl \/ o = OGet id))
              \/ (asks_to_get r id /\ o = OGet id)))
  /\ (issues (decision_handler r) o <->
     (exists id b, asks_to_decide url_Parse decode_decision ParseForm r id b /\ o = ODecide id b)
     \/ (exists id, asks_to_get r id /\ o = OGet id)
     \/ (Path r = [] /\ (Method r = "GET" \/ Method r = "HEAD") /\ o = OPending)).
Proof. split; [apply control_issues|apply decision_issues]. Qed.

End System.

(** ** What a page can contain *)

(** The bytes of a page that delimit tags and attribute values. *)
Definition skeleton (s : string) : string := filter_bytes Html.is_markup s.

Lemma skeleton_escape s : skeleton (Html.EscapeString s) = "".
Proof. apply filter_bytes_none, Html.EscapeString_no_markup. Qed.

Lemma skeleton_app a b : skeleton (a +:+ b) = skeleton a +:+ skeleton b.
Proof. apply filter_bytes_app. Qed.

(** A request with nothing in its text. *)
Definition blank (r : Relay.Request) : Relay.Request :=
  Relay.mkRequest "" "" (rq_Status r) (CreatedAt r) (Deadline r).

Lemma skeleton_section r : skeleton (pending_section r) = skeleton (pending_section (blank r)).
Proof. unfold pending_section. by rewrite !skeleton_app, !skeleton_escape. Qed.

(** No prompt, ID or status can add to a page: the tag and quote bytes of
    the dashboard and of the approval page are those of the template, whatever
    the text of the requests shown. *)
Theorem pages_not_injectable l id prompt status :
  skeleton (WBody (writePendingPage l)) = skeleton (WBody (writePendingPage (map blank l)))
  /\ skeleton (WBody (writeApprovalPage id prompt status true))
     = skeleton (WBody (writeApprovalPage "" "" "" true))
  /\ skeleton (WBody (writeApprovalPage id prompt status false))
     = skeleton (WBody (writeApprovalPage "" "" "" false)).
Proof.
  split_and!.
  - assert (Hl : skeleton (concat_map pending_section l)
                 = skeleton (concat_map pending_section (map blank l))).
    { unfold concat_map. induction l as [|r l IH]; [done|]. cbn [map foldr].
      by rewrite !skeleton_app, IH, (skeleton_section r). }
    unfold writePendingPage. cbn [WBody]. rewrite length_map, !skeleton_app.
    destruct (Nat.eqb (length l) 0); [done|]. by rewrite Hl.
  - unfold writeApprovalPage, approval_buttons. cbn [WBody].
    rewrite !skeleton_app, !skeleton_escape. reflexivity.
  - unfold writeApprovalPage. cbn [WBody]. rewrite !skeleton_app. do 2 f_equal.
    destruct (String.eqb status "approve"); [|destruct (String.eqb status "deny")];
      [..|rewrite !skeleton_app, !skeleton_escape]; vm_compute; reflexivity.
Qed.

(** ** Witnesses *)

(** A decoder of bodies that hold the value itself. *)
Definition raw_body (rd : Reader) : option string := Some (rd_data rd).

Definition create_request : Request :=
  mkRequest "POST" ["requests"; "a"] "relay:8443" false [] "run?".
Definition approve_request : Request :=
  mkRequest "POST" ["requests"; "a"; "decide"] "relay:8444" false [] "approve".

Definition approved_store : Store :=
  mkStore {[ "a" := Relay.mkRequest "a" "run?" StatusApproved 0 60 ]} 2.

Lemma create_request_issues :
  may_issue (fun _ => false) (fun _ => None) raw_body raw_body (fun _ _ => None) 60
    (Control create_request) (OCreate "a" "run?" 60).
Proof.
  apply control_issues. exists "a". left. exists "run?". split; [|by left].
  unfold asks_to_create, valid_request_id. by vm_compute.
Qed.

Lemma approve_request_issues :
  may_issue (fun _ => false) (fun _ => None) raw_body raw_body (fun _ _ => None) 60
    (Decision approve_request) (ODecide "a" true).
Proof.
  apply decision_issues. left. exists "a", true. split; [|done].
  unfold asks_to_decide, valid_request_id. by vm_compute.
Qed.

Lemma approval_comes_from_decision_listener_witness :
  let h := [(Control create_request, (0, OCreate "a" "run?" 60, RUnit (Ok tt)));
            (Decision approve_request, (5, ODecide "a" true, RUnit (Ok tt)))] in
  served (fun _ => false) (fun _ => None) raw_body raw_body (fun _ _ => None) 60
    (NewStoreWithLimit 2) h approved_store
  /\ exists pre r0 mid r1 t post,
      h = pre ++ (Control r0, (0, OCreate "a" "run?" 60, RUnit (Ok tt)))
            :: mid ++ (Decision r1, (t, ODecide "a" true, RUnit (Ok tt))) :: post /\ t <= 0 + 60.
Proof.
  cbv zeta.
  assert (Hs : served (fun _ => false) (fun _ => None) raw_body raw_body (fun _ _ => None) 60
    (NewStoreWithLimit 2)
    (([] ++ [(Control create_request, (0, OCreate "a" "run?" 60, RUnit (Ok tt)))])
      ++ [(Decision approve_request, (5, ODecide "a" true, RUnit (Ok tt)))]) approved_store).
  { refine (served_snoc _ _ _ _ _ _ _ _
              (mkStore {[ "a" := Relay.mkRequest "a" "run?" StatusPending 0 60 ]} 2) _ _ _ _ _ _ _ _).
    - refine (served_snoc _ _ _ _ _ _ _ _ (NewStoreWithLimit 2) _ _ _ _ _ (served_nil _ _ _ _ _ _ _) _ _).
      + apply create_request_issues.
      + vm_compute. reflexivity.
    - apply approve_request_issues.
    - vm_compute. reflexivity. }
  split; [exact Hs|].
  destruct (approval_comes_from_decision_listener _ _ _ _ _ _ _ _ _ 10 "a"
              (Relay.mkRequest "a" "run?" StatusApproved 0 60) Hs
              ltac:(vm_compute; reflexivity) ltac:(reflexivity))
    as (pre & r0 & mid & r1 & t & post & H & Ht & _).
  exists pre, r0, mid, r1, t, post. split; [exact H|exact Ht].
Defined.

Lemma decide_endpoint_exact_witness :
  let s := mkStore {[ "a" := Relay.mkRequest "a" "run?" StatusPending 0 60 ]} 2 in
  exists resp s' t, run (store_handler 5)
    (NewDecisionHandler (fun _ => false) (fun _ => None) raw_body (fun _ _ => None) approve_request) s
    = (resp, s', t) /\ exists b, Decide s 5 "a" b = (Ok tt, s').
Proof.
  cbv zeta.
  pose proof (decide_endpoint_exact (fun _ => false) (fun _ => None) raw_body (fun _ _ => None) 5
    approve_request "a" (mkStore {[ "a" := Relay.mkRequest "a" "run?" StatusPending 0 60 ]} 2)
    ltac:(reflexivity)) as H.
  destruct (run _ _ _) as [[resp s'] t] eqn:E. exists resp, s', t. split; [reflexivity|].
  destruct H as [[H _] _]. destruct H as (b & _ & Hd).
  { vm_compute in E. injection E as <- _ _. reflexivity. }
  exists b. exact Hd.
Defined.
