(* ===== verification/Approval.v ===== *)
(** * Approval: asking a human (internal/approval)

    [KDialog], [Tailscale] and [HTTPRelayClient] are programs over the calls
    they make.  The polling loop of [Tailscale] has no bound of its own: it
    runs until its context is done, so it takes a fuel, one unit for each
    [select], and returns [None] when the fuel runs out. *)

From S2P Require Import Prelude GoStrings GoText GoJson Effects Exec Relay Http.

#[local] Open Scope Z_scope.

(** The zero value is [Denied]. *)
Inductive Decision : Type :=
| Denied
| Approved.

Inductive Cause : Type :=
| CauseNone            (** the zero value, [""] *)
| CauseRejected
| CauseExpired
| CauseUnreachable
| CauseUnavailable.

#[export] Instance Decision_eq_dec : EqDecision Decision. Proof. solve_decision. Defined.
#[export] Instance Cause_eq_dec : EqDecision Cause. Proof. solve_decision. Defined.

Definition cause_string (c : Cause) : string :=
  match c with
  | CauseNone => ""
  | CauseRejected => "rejected"
  | CauseExpired => "expired"
  | CauseUnreachable => "unreachable"
  | CauseUnavailable => "unavailable"
  end.

(** What [Approve] leaves behind: its decision and error, and the approver's
    [cause] field. *)
Record Outcome (E : Type) := mkOutcome {
  decision : result E Decision;
  cause : Cause;
}.
Arguments mkOutcome {E} decision cause.
Arguments decision {E} o.
Arguments cause {E} o.

(** ** KDialogApprover *)
Module KDialog.

Definition ApproveCause (cause : Cause) : Cause :=
  if bool_decide (cause = CauseNone) then CauseUnavailable else cause.

Definition Approve (prompt : string) : prog exec_call (Outcome string) :=
  r ← call (ExecRun "kdialog" ["--yesno"; prompt] None);
  mret match r with
  | Err e => mkOutcome (Err e) CauseUnavailable
  | Ok res =>
      if ExitCode res =? 0 then mkOutcome (Ok Approved) CauseUnavailable
      else if ExitCode res =? 1 then mkOutcome (Ok Denied) CauseRejected
      else mkOutcome (Ok Denied) CauseUnavailable
  end.

End KDialog.

(** ** TailscaleApprover *)
Module Tailscale.

Inductive Ready : Type := Done | Tick.

Inductive approve_error : Type :=
| EGeneratingID
| ERegistering.

(** What [Approve] asks of its environment: [rand.Read] of 16 bytes, the
    relay client, the [select], and [ctx.Err() != nil]. *)
Inductive approve_call : Type :=
| Rand
| Register (id prompt : string)
| Select
| Poll (id : string)
| CtxErr.

#[export] Instance approve_interface : Interface approve_call := fun c =>
  match c with
  | Rand => option string
  | Register _ _ => result unit unit
  | Select => Ready
  | Poll _ => result unit string
  | CtxErr => bool
  end.

Definition newRequestID : prog approve_call (option string) :=
  b ← call Rand;
  mret (match (b : option string) with None => None | Some b => Some (Hex.EncodeToString b) end).

Definition ApproveCause (cause : Cause) : Cause :=
  if bool_decide (cause = CauseNone) then CauseExpired else cause.

(** The [for] loop; [pollFailures] and [pollSucceeded] are its variables. *)
Fixpoint poll_loop (fuel : nat) (id : string) (pollFailures : Z) (pollSucceeded : bool)
    : prog approve_call (option (Outcome approve_error)) :=
  match fuel with
  | O => mret None
  | S fuel =>
      ready ← call Select;
      match (ready : Ready) with
      | Done =>
          mret (Some (mkOutcome (Ok Denied)
            (if (0 <? pollFailures) && negb pollSucceeded then CauseUnreachable
             else CauseExpired)))
      | Tick =>
          status ← call (Poll id);
          match (status : result unit string) with
          | Err _ =>
              ctx_err ← call CtxErr;
              poll_loop fuel id (if (ctx_err : bool) then pollFailures else pollFailures + 1)
                pollSucceeded
          | Ok status =>
              if String.eqb status "approved" then mret (Some (mkOutcome (Ok Approved) CauseExpired))
              else if String.eqb status "denied" then mret (Some (mkOutcome (Ok Denied) CauseRejected))
              else if String.eqb status "expired" then mret (Some (mkOutcome (Ok Denied) CauseExpired))
              else poll_loop fuel id pollFailures true
          end
      end
  end.

Definition Approve (fuel : nat) (prompt : string)
    : prog approve_call (option (Outcome approve_error)) :=
  id ← newRequestID;
  match id with
  | None => mret (Some (mkOutcome (Err EGeneratingID) CauseExpired))
  | Some id =>
      r ← call (Register id prompt);
      match (r : result unit unit) with
      | Err _ => mret (Some (mkOutcome (Err ERegistering) CauseUnreachable))
      | Ok _ => poll_loop fuel id 0 false
      end
  end.

End Tailscale.

(** ** HTTPRelayClient *)
Module HTTPRelayClient.

(** [httpClient.Do]: the status code and the body of the response. *)
Inductive http_call : Type :=
| Do (method url : string) (header : Header) (body : string).

#[export] Instance http_interface : Interface http_call := fun _ => result string (Z * string).

Inductive client_error : Type :=
| EBuildingRequest
| ETransport (e : string)
| ERelayReturned (code : Z)
| EDecodingResponse.

Section Client.
(** [http.NewRequestWithContext] accepts this URL. *)
Context (url_ok : string -> bool).
(** The first JSON value of the body as [{"status": string}]. *)
Context (decode_status : Reader -> option string).

(** [json.Marshal(map[string]string{"prompt": prompt})] *)
Definition register_body (prompt : string) : string :=
  Json.encode_object [Json.member "prompt" (Json.encode_string prompt)].

Definition Register (baseURL id prompt : string) : prog http_call (result client_error unit) :=
  let url := baseURL +:+ "/requests/" +:+ id in
  if negb (url_ok url) then mret (Err EBuildingRequest) else
  resp ← call (Do "POST" url [("Content-Type", "application/json")] (register_body prompt));
  mret match resp with
  | Err e => Err (ETransport e)
  | Ok (code, _) => fail_if negb (code =? StatusCreated) with ERelayReturned code; Ok tt
  end.

(** [io.LimitReader] ends the body early without an error. *)
Definition LimitReader (body : string) (n : Z) : Reader :=
  mkReader (Strings.take (Z.to_nat n) body) false.

Definition Poll (baseURL id : string) : prog http_call (result client_error string) :=
  let url := baseURL +:+ "/requests/" +:+ id in
  if negb (url_ok url) then mret (Err EBuildingRequest) else
  resp ← call (Do "GET" url [] "");
  mret match resp with
  | Err e => Err (ETransport e)
  | Ok (code, body) =>
      fail_if negb (code =? StatusOK) with ERelayReturned code;
      match decode_status (LimitReader body 65536) with
      | None => Err EDecodingResponse
      | Some st => Ok st
      end
  end.
End Client.

End HTTPRelayClient.

(** ** What happened, event by event *)

Module Trace.
Import Tailscale.

Inductive seen : Type :=
| SRand (b : option string)
| SRegister (id prompt : string) (ok : bool)
| SSelect (r : Ready)
| SPoll (id : string) (status : option string)
| SCtxErr (done : bool).

Definition seen_of (e : event approve_call) : seen :=
  match e with
  | existT c r =>
      match c return answer c -> seen with
      | Rand => SRand
      | Tailscale.Register id prompt => fun r => SRegister id prompt (is_ok r)
      | Select => SSelect
      | Tailscale.Poll id => fun r => SPoll id (match r with Ok st => Some st | Err _ => None end)
      | CtxErr => SCtxErr
      end r
  end.

Definition decisive (st : string) : bool :=
  String.eqb st "approved" || String.eqb st "denied" || String.eqb st "expired".

(** How a run of the loop for [id] ended.  [failed]: a poll has failed while
    the context was live; [succeeded]: a poll has been answered. *)
Definition ended (id : string) (failed succeeded : Prop) (e : seen) (o : Outcome approve_error) : Prop :=
  match e with
  | SSelect Done =>
      decision o = Ok Denied
      /\ (cause o = CauseUnreachable <-> failed /\ ~ succeeded)
      /\ (cause o = CauseUnreachable \/ cause o = CauseExpired)
  | SPoll i (Some st) =>
      i = id /\ decisive st = true
      /\ (st = "approved" -> decision o = Ok Approved)
      /\ (st = "denied" -> decision o = Ok Denied /\ cause o = CauseRejected)
      /\ (st = "expired" -> decision o = Ok Denied /\ cause o = CauseExpired)
  | _ => False
  end.

(** An event before the last one of the loop. *)
Definition continues (id : string) (e : seen) : Prop :=
  match e with
  | SSelect Tick | SCtxErr _ => True
  | SPoll i st => i = id /\ (forall st', st = Some st' -> decisive st' = false)
  | _ => False
  end.

Definition answered (e : seen) : Prop := exists i st, e = SPoll i (Some st).

Lemma ended_iff id (F F' S S' : Prop) e o :
  (F <-> F') -> (S <-> S') -> ended id F S e o -> ended id F' S' e o.
Proof. intros HF HS. destruct e as [| |[]|i [st|]|]; simpl; tauto. Qed.

Lemma poll_loop_ended {S} (h : handler approve_call S) fuel id pf ps s o s' t :
  run h (poll_loop fuel id pf ps) s = (Some o, s', t) -> 0 <= pf ->
  exists t0 e, map seen_of t = t0 ++ [e]
    /\ Forall (continues id) t0
    /\ ended id (0 < pf \/ SCtxErr false ∈ t0) (ps = true \/ Exists answered t0) e o.
Proof.
  revert pf ps s t. induction fuel as [|fuel IH]; intros pf ps s t; [done|].
  cbn [poll_loop]. simpl. destruct (h Select s) as [[|] s1].
  { intros [= <- <- <-] Hpf. exists [], (SSelect Done). split_and!; [done|constructor|]. simpl.
    rewrite Exists_nil, elem_of_nil.
    destruct (Z.ltb_spec 0 pf), ps; simpl; (split; [done|split; [|by auto]]);
      split; intros; by intuition (try lia). }
  simpl. destruct (h (Tailscale.Poll id) s1) as [[st|e] s2].
  - destruct (decisive st) eqn:Hd.
    + intros H Hpf. exists [SSelect Tick], (SPoll id (Some st)).
      unfold decisive in Hd.
      destruct (String.eqb_spec st "approved") as [->|]; [|destruct (String.eqb_spec st "denied") as [->|];
        [|destruct (String.eqb_spec st "expired") as [->|]; [|done]]];
        simpl in H; injection H as <- <- <-; (split; [done|split; [by repeat constructor|]]);
        simpl; by split_and!.
    + assert (Hd' := Hd). unfold decisive in Hd'. boolP.
      rewrite (proj2 (String.eqb_neq _ _)), (proj2 (String.eqb_neq _ _)), (proj2 (String.eqb_neq _ _)) by done.
      destruct (run h (poll_loop fuel id pf true) s2) as [[r s3] t'] eqn:E.
      intros [= -> -> <-] Hpf. destruct (IH _ _ _ _ E Hpf) as (t0 & e & Ht & Hc & He).
      exists (SSelect Tick :: SPoll id (Some st) :: t0), e. split; [simpl; by rewrite Ht|].
      split; [constructor; [done|]; constructor; [|done]; by split; [|intros ? [= <-]]|].
      eapply ended_iff; [| |exact He].
      * rewrite !elem_of_cons. naive_solver.
      * rewrite !Exists_cons. split; [|naive_solver]. intros _. right. right. left. by exists id, st.
  - simpl. destruct (h CtxErr s2) as [b s3].
    destruct (run h (poll_loop fuel id _ ps) s3) as [[r s4] t'] eqn:E.
    intros [= -> -> <-] Hpf. destruct (IH _ _ _ _ E ltac:(destruct b; lia)) as (t0 & e' & Ht & Hc & He).
    exists (SSelect Tick :: SPoll id None :: SCtxErr b :: t0), e'.
    split; [simpl; by rewrite Ht|]. split.
    { constructor; [done|]. constructor; [by split; [|intros ? [=]]|]. by constructor. }
    eapply ended_iff; [| |exact He].
    + rewrite !elem_of_cons. destruct b.
      { split; [tauto|]. intros [?|[?|[?|[?|?]]]]; first [done|tauto]. }
      split; [intros _; right; by repeat (first [left; done|right])|].
      intros _. left. lia.
    + rewrite !Exists_cons. split; [tauto|].
      intros [?|[(?&?&?)|[(?&?&?)|[(?&?&?)|?]]]]; first [done|tauto].
Qed.

End Trace.

(** ** An approver and the relay's store

    The world the approver runs in: the store with the history of its
    operations, and for every call to come the operations other clients make
    first, the clock, and what the network does to the call. *)

Module World.
Import Tailscale Store History.

Inductive Net : Type := Delivered | RequestLost | ResponseLost.

Record turn := mkTurn {
  others : list (Z * op);
  at_time : Z;
  net : Net;
}.

Record world := mkWorld {
  store : Store;
  hist : list entry;
  turns : list turn;
  randomness : option string;
  relay_ttl : Z;
}.

(** Some operations take effect. *)
Definition perform (l : list (Z * op)) (w : world) : world :=
  let '(h, s) := exec (store w) l in
  mkWorld s (hist w ++ h) (turns w) (randomness w) (relay_ttl w).

Definition next_turn (w : world) : turn := default (mkTurn [] 0 RequestLost) (head (turns w)).

Definition drop_turn (w : world) : world :=
  mkWorld (store w) (hist w) (tail (turns w)) (randomness w) (relay_ttl w).

(** One operation of the approver, answered by [f] if it and its response
    arrive. *)
Definition remote {A} (o : op) (f : world -> result unit A) (w : world) : result unit A * world :=
  let tn := next_turn w in
  let w1 := perform (others tn) (drop_turn w) in
  match net tn with
  | RequestLost => (Err tt, w1)
  | ResponseLost => (Err tt, perform [(at_time tn, o)] w1)
  | Delivered => (f w1, perform [(at_time tn, o)] w1)
  end.

(** The context is done when the turns are used up. *)
Definition world_handler : handler approve_call world := fun c w =>
  match c return answer c * world with
  | Rand => (randomness w, w)
  | Tailscale.Register id prompt =>
      remote (OCreate id prompt (relay_ttl w))
        (fun w1 => match (Create (store w1) (at_time (next_turn w)) id prompt (relay_ttl w)).1 with
                   | Ok _ => Ok tt
                   | Err _ => Err tt
                   end) w
  | Select => (match turns w with [] => Done | _ => Tick end, w)
  | Tailscale.Poll id =>
      remote (OGet id)
        (fun w1 => match Get (store w1) (at_time (next_turn w)) id with
                   | Ok r => Ok (status_string (rq_Status r))
                   | Err _ => Err tt
                   end) w
  | CtxErr => (match turns w with [] => true | _ => false end, w)
  end.

(** The prompt of the last creation of [id]. *)
Definition note_prompt (id : string) (acc : option string) (e : entry) : option string :=
  match e with
  | (_, OCreate i p _, RUnit (Ok _)) => if String.eqb i id then Some p else acc
  | _ => acc
  end.

Definition last_prompt (id : string) (h : list entry) : option string :=
  foldl (note_prompt id) None h.

Lemma note_prompt_other id acc e : ~ created id e -> note_prompt id acc e = acc.
Proof.
  destruct e as [[t o] r]. intros H. destruct o; try done. simpl. destruct r as [[[]|]| | |]; try done.
  destruct (String.eqb_spec id0 id) as [->|]; [|done]. exfalso. apply H. by eexists _, _, _.
Qed.

Lemma notes_none id acc h : Forall (fun e => ~ created id e) h -> foldl (note_prompt id) acc h = acc.
Proof.
  intros H. revert acc. induction H as [|e h He _ IH]; intros acc; [done|].
  simpl. by rewrite (note_prompt_other _ _ _ He), IH.
Qed.

(** Nobody else creates [id] during the run. *)
Definition fresh (id : string) (w : world) : Prop :=
  Forall (fun tn => Forall (fun x => forall p ttl, x.2 <> OCreate id p ttl) (others tn)) (turns w).

Definition ok (lim : Z) (w : world) : Prop := steps (NewStoreWithLimit lim) (hist w) (store w).

Lemma exec_not_created id s l :
  Forall (fun x => forall p ttl, x.2 <> OCreate id p ttl) l ->
  Forall (fun e => ~ created id e) (exec s l).1.
Proof.
  intros H. revert s. induction H as [|[now o] l Ho _ IH]; intros s; [constructor|]. simpl in *.
  destruct (apply s now o) as [r s1]. specialize (IH s1). destruct (exec s1 l).
  constructor; [|done]. intros (?&p&ttl&[=]). by apply (Ho p ttl).
Qed.

Lemma perform_ok lim l w : ok lim w -> ok lim (perform l w).
Proof.
  intros H. unfold ok, perform in *. pose proof (exec_steps _ _ _ l H) as Hs.
  by destruct (exec (store w) l).
Qed.

Lemma perform_prompt id l w :
  Forall (fun x => forall p ttl, x.2 <> OCreate id p ttl) l ->
  last_prompt id (hist (perform l w)) = last_prompt id (hist w).
Proof.
  intros H. unfold perform. pose proof (exec_not_created id (store w) l H).
  destruct (exec (store w) l). unfold last_prompt in *. cbn [hist].
  by rewrite foldl_app, notes_none.
Qed.

Lemma perform_fields l w :
  turns (perform l w) = turns w /\ relay_ttl (perform l w) = relay_ttl w
  /\ randomness (perform l w) = randomness w.
Proof. unfold perform. by destruct (exec (store w) l). Qed.

Lemma fresh_next id w :
  fresh id w -> fresh id (drop_turn w)
    /\ Forall (fun x => forall p ttl, x.2 <> OCreate id p ttl) (others (next_turn w)).
Proof.
  unfold fresh, drop_turn, next_turn. destruct (turns w); simpl; [by split; constructor|].
  by intros [? ?]%Forall_cons.
Qed.

Lemma remote_spec lim id {A} o (f : world -> result unit A) w r w' :
  remote o f w = (r, w') -> fresh id w -> ok lim w ->
  ok lim w' /\ fresh id w'
  /\ exists w1, ok lim w1 /\ last_prompt id (hist w1) = last_prompt id (hist w)
      /\ (w' = w1 /\ r = Err tt
          \/ w' = perform [(at_time (next_turn w), o)] w1 /\ (r = f w1 \/ r = Err tt)).
Proof.
  intros H Hf Hok. destruct (fresh_next id w Hf) as [Hd Ho]. unfold remote in H.
  set (w1 := perform (others (next_turn w)) (drop_turn w)) in *.
  assert (Hok1 : ok lim w1) by by apply perform_ok.
  assert (Hf1 : fresh id w1).
  { unfold fresh. unfold w1. by rewrite (proj1 (perform_fields _ _)). }
  assert (Hp1 : last_prompt id (hist w1) = last_prompt id (hist w))
    by (unfold w1; by rewrite perform_prompt).
  assert (Hf2 : fresh id (perform [(at_time (next_turn w), o)] w1)).
  { unfold fresh. by rewrite (proj1 (perform_fields _ _)). }
  assert (Hok2 : ok lim (perform [(at_time (next_turn w), o)] w1)) by by apply perform_ok.
  destruct (net (next_turn w)); injection H as <- <-; (split; [done|split; [done|]]);
    exists w1; (split; [done|split; [done|]]); auto.
Qed.

Lemma loop_approved lim fuel id pf ps w o w' t :
  run world_handler (poll_loop fuel id pf ps) w = (Some o, w', t) ->
  decision o = Ok Approved -> fresh id w -> ok lim w ->
  ok lim w' /\ last_prompt id (hist w') = last_prompt id (hist w)
  /\ exists now r, Get (store w') now id = Ok r /\ rq_Status r = StatusApproved.
Proof.
  revert pf ps w t. induction fuel as [|fuel IH]; intros pf ps w t; [done|].
  cbn [poll_loop run mbind prog_bind prog_bind_def call world_handler].
  destruct (turns w) eqn:Et; [by intros [= <- _ _]|].
  cbn [run mbind prog_bind prog_bind_def call]. cbn [world_handler].
  destruct (remote _ _ w) as [st w2] eqn:Er. intros H Ha Hf Hok.
  destruct (remote_spec lim id _ _ _ _ _ Er Hf Hok) as (Hok2 & Hf2 & w1 & Hok1 & Hp1 & Hcase).
  assert (Hp2 : last_prompt id (hist w2) = last_prompt id (hist w)).
  { destruct Hcase as [[-> _]|[-> _]]; [done|]. rewrite perform_prompt; [done|]. by repeat constructor. }
  destruct st as [st|[]].
  2:{ cbn [run mbind prog_bind prog_bind_def call world_handler] in H.
      destruct (run world_handler (poll_loop _ _ _ _) w2) as [[r3 w3] t3] eqn:E.
      injection H as -> -> _. destruct (IH _ _ _ _ E Ha Hf2 Hok2) as (? & Hp & ?). by rewrite Hp, Hp2. }
  destruct Hcase as [[_ [=]]|[-> [Hg|[=]]]].
  assert (Hs : store (perform [(at_time (next_turn w), OGet id)] w1) = store w1) by done.
  destruct (Get (store w1) (at_time (next_turn w)) id) as [r|] eqn:Eg; [|done].
  injection Hg as ->.
  destruct (String.eqb_spec (status_string (rq_Status r)) "approved") as [Hst|_].
  { simpl in H. injection H as _ <- _. split; [done|split; [done|]]. rewrite Hs.
    eexists _, r. split; [exact Eg|]. by destruct (rq_Status r). }
  destruct (String.eqb _ "denied"); [injection H as <- _ _; done|].
  destruct (String.eqb _ "expired"); [injection H as <- _ _; done|].
  destruct (run world_handler (poll_loop _ _ _ _) _) as [[r3 w3] t3] eqn:E.
  injection H as -> -> _. destruct (IH _ _ _ _ E Ha Hf2 Hok2) as (? & Hp & ?). by rewrite Hp, Hp2.
Qed.

Lemma last_prompt_split id pre t0 p ttl rest :
  Forall (fun e => ~ created id e) rest ->
  last_prompt id (pre ++ (t0, OCreate id p ttl, RUnit (Ok tt)) :: rest) = Some p.
Proof.
  intros H. unfold last_prompt. rewrite foldl_app. simpl. rewrite notes_none by done.
  by rewrite String.eqb_refl.
Qed.

End World.

(** ** Properties *)

Section Properties.
Import Tailscale Trace.

(** A run of [Approve], call by call. *)
Lemma run_Approve {S} (h : handler approve_call S) fuel prompt s :
  run h (Approve fuel prompt) s =
    let '(r, s1) := h Rand s in
    match (r : option string) with
    | None => (Some (mkOutcome (Err EGeneratingID) CauseExpired), s1, [ev Rand None])
    | Some b =>
        let id := Hex.EncodeToString b in
        let '(r, s2) := h (Tailscale.Register id prompt) s1 in
        match (r : result unit unit) with
        | Err e => (Some (mkOutcome (Err ERegistering) CauseUnreachable), s2,
                    [ev Rand (Some b); ev (Tailscale.Register id prompt) (Err e)])
        | Ok u =>
            let '(o, s3, t) := run h (poll_loop fuel id 0 false) s2 in
            (o, s3, ev Rand (Some b) :: ev (Tailscale.Register id prompt) (Ok u) :: t)
        end
    end.
Proof.
  unfold Approve, newRequestID. simpl. destruct (h Rand s) as [[b|] s1]; simpl; [|done].
  destruct (h (Tailscale.Register _ prompt) s1) as [[u|e] s2]; simpl; [|done].
  by destruct (run h (poll_loop fuel _ 0 false) s2) as [[? ?] ?].
Qed.

(** How a whole run of [Approve] ended. *)
Lemma Approve_ended {S} (h : handler approve_call S) fuel prompt s o s' t :
  run h (Approve fuel prompt) s = (Some o, s', t) ->
  (map seen_of t = [SRand None] /\ o = mkOutcome (Err EGeneratingID) CauseExpired)
  \/ exists b, let id := Hex.EncodeToString b in
       (map seen_of t = [SRand (Some b); SRegister id prompt false]
        /\ o = mkOutcome (Err ERegistering) CauseUnreachable)
       \/ exists t0 e, map seen_of t = SRand (Some b) :: SRegister id prompt true :: t0 ++ [e]
            /\ Forall (continues id) t0
            /\ ended id (SCtxErr false ∈ t0) (Exists answered t0) e o.
Proof.
  unfold Approve, newRequestID. simpl. destruct (h Rand s) as [[b|] s1]; simpl.
  2:{ intros [= <- _ <-]. by left. }
  destruct (h (Tailscale.Register _ prompt) s1) as [[[]|[]] s2] eqn:Er.
  2:{ intros [= <- _ <-]. right. exists b. by left. }
  destruct (run h (poll_loop fuel _ 0 false) s2) as [[r s3] t'] eqn:E.
  intros [= -> -> <-]. right. exists b. right.
  destruct (poll_loop_ended h _ _ _ _ _ _ _ _ E ltac:(lia)) as (t0 & e & Ht & Hc & He).
  exists t0, e. simpl. rewrite Ht. split; [done|split; [done|]].
  eapply ended_iff; [| |exact He]; split; try tauto; intros [H|?]; by try lia.
Qed.

Lemma ended_Approved id F S e o :
  ended id F S e o -> decision o = Ok Approved -> e = SPoll id (Some "approved").
Proof.
  destruct e as [| |[]|i [st|]|]; simpl; try done; [intros [? _]; congruence|].
  intros (-> & Hd & _ & H1 & H2) Ha. unfold decisive in Hd.
  destruct (String.eqb_spec st "approved") as [->|]; [done|].
  destruct (String.eqb_spec st "denied") as [->|]; [destruct H1; congruence|].
  destruct (String.eqb_spec st "expired") as [->|]; [destruct H2; congruence|done].
Qed.

(** C20: the remote approver fails closed: it approves exactly when, after
    drawing the ID and registering the prompt under it, the relay answers a
    poll for that ID with "approved", no earlier poll having been answered
    with a decision; every other run, with whatever failures, is a denial or
    an error. *)
Theorem Tailscale_approves_exactly {S} (h : handler approve_call S) fuel prompt s o s' t :
  run h (Approve fuel prompt) s = (Some o, s', t) ->
  (decision o = Ok Approved <->
   exists b t0, let id := Hex.EncodeToString b in
     map seen_of t = SRand (Some b) :: SRegister id prompt true
                       :: t0 ++ [SPoll id (Some "approved")]
     /\ Forall (continues id) t0).
Proof.
  intros [[Ht ->]|(b & [[Ht ->]|(t0 & e & Ht & Hc & He)])]%Approve_ended; rewrite Ht.
  - split; [done|]. by intros (? & ? & ? & _).
  - split; [done|]. by intros (? & ? & ? & _).
  - split.
    + intros Ha. apply (ended_Approved _ _ _ _ _ He) in Ha as ->. by exists b, t0.
    + intros (b' & t1 & Heq & _). injection Heq as -> _ Heq.
      apply app_inj_tail in Heq as [_ ->]. simpl in He. by apply He.
Qed.

(** Rejected and unreachable, by what was seen; and nothing but these two and
    expired. *)
Lemma rejected_or_unreachable {S} (h : handler approve_call S) fuel prompt s o s' t :
  run h (Approve fuel prompt) s = (Some o, s', t) -> decision o <> Ok Approved ->
  let seen := map seen_of t in
  (ApproveCause (cause o) = CauseRejected <-> exists id, last seen = Some (SPoll id (Some "denied")))
  /\ (ApproveCause (cause o) = CauseUnreachable <->
       (exists id, last seen = Some (SRegister id prompt false))
       \/ (last seen = Some (SSelect Done) /\ SCtxErr false ∈ seen /\ ~ Exists answered seen))
  /\ (ApproveCause (cause o) = CauseRejected \/ ApproveCause (cause o) = CauseUnreachable
      \/ ApproveCause (cause o) = CauseExpired).
Proof.
  intros [[Ht ->]|(b & [[Ht ->]|(t0 & e & Ht & Hc & He)])]%Approve_ended Hd; cbv zeta; rewrite Ht.
  - simpl. split_and!; [split; [done|]| |by right; right]; [by intros [? ?]|].
    split; [done|]. by intros [[? ?]|[? _]].
  - simpl. split_and!; [split; [done|]| |by right; left]; [by intros [? ?]|].
    split; [intros _; left; by eexists|done].
  - rewrite !app_comm_cons, last_snoc.
    assert (Hin : SCtxErr false ∈ (SRand (Some b) :: SRegister (Hex.EncodeToString b) prompt true :: t0) ++ [e]
                  <-> SCtxErr false ∈ t0 \/ e = SCtxErr false).
    { rewrite elem_of_app, !elem_of_cons, elem_of_nil. split; [|by intuition].
      intros [[?|[?|?]]|[?|[]]]; try done; by auto. }
    assert (Hex : Exists answered ((SRand (Some b) :: SRegister (Hex.EncodeToString b) prompt true :: t0) ++ [e])
                  <-> Exists answered t0 \/ answered e).
    { rewrite Exists_app, !Exists_cons, Exists_nil. split; [|by intuition].
      intros [[(?&?&?)|[(?&?&?)|?]]|[?|[]]]; try done; by auto. }
    rewrite Hin, Hex. clear Hin Hex.
    destruct e as [| |[]|i [st|]|]; simpl in He; try done.
    + destruct He as (_ & Hu & Hx).
      assert (Hna : ~ answered (SSelect Done)) by (by intros (? & ? & ?)).
      destruct Hx as [Hx|Hx]; rewrite Hx in *; simpl;
        (split_and!; [split; [done|by intros [? ?]]| |by auto]).
      * split; [intros _; right|done]. split; [done|]. destruct (proj1 Hu eq_refl). tauto.
      * split; [done|]. intros [[? ?]|(_ & Hf & Hs)]; [done|]. apply Hu. intuition done.
    + destruct He as (-> & Hst & Ha & Hdn & Hex). unfold decisive in Hst.
      destruct (String.eqb_spec st "approved") as [->|]; [by destruct Hd; apply Ha|].
      destruct (String.eqb_spec st "denied") as [->|].
      { destruct Hdn as [_ ->]; [done|]. simpl. split_and!; [|split; [done|]|by auto].
        - split; [intros _; by eexists|done].
        - by intros [[? ?]|[? _]]. }
      destruct (String.eqb_spec st "expired") as [->|]; [|done].
      destruct Hex as [_ ->]; [done|]. simpl. split_and!; [split; [done|]|split; [done|]|by auto].
      * by intros [? ?].
      * by intros [[? ?]|[? _]].
Qed.

(** Time ran out, and not with polls failing that were never answered. *)
Definition timed_out (seen : list seen) : Prop :=
  last seen = Some (SSelect Done) /\ ~ (SCtxErr false ∈ seen /\ ~ Exists answered seen).

Lemma expired_seen {S} (h : handler approve_call S) fuel prompt s o s' t :
  run h (Approve fuel prompt) s = (Some o, s', t) -> ApproveCause (cause o) = CauseExpired ->
  decision o <> Ok Approved ->
  let seen := map seen_of t in
  seen = [SRand None] \/ (exists id, last seen = Some (SPoll id (Some "expired"))) \/ timed_out seen.
Proof.
  intros E Ho Hd. destruct (rejected_or_unreachable h fuel prompt s o s' t E Hd) as (Hr & Hu & _). cbv zeta.
  rewrite Ho in Hr, Hu. apply Approve_ended in E as [[Ht _]|(b & [[Ht ->]|(t0 & e & Ht & _ & He)])].
  - by left.
  - done.
  - right. assert (Hl : last (map seen_of t) = Some e) by (by rewrite Ht, !app_comm_cons, last_snoc).
    destruct e as [| |[]|i [st|]|]; try done.
    + right. split; [done|]. intros Hf. discriminate (proj2 Hu (or_intror (conj Hl Hf))).
    + left. destruct He as (-> & Hst & Ha & Hdn & _). eexists. rewrite Hl. unfold decisive in Hst.
      destruct (String.eqb_spec st "approved") as [->|]; [by destruct Hd; apply Ha|].
      destruct (String.eqb_spec st "denied") as [->|]; [discriminate (proj2 Hr (ex_intro _ _ Hl))|].
      by destruct (String.eqb_spec st "expired") as [->|].
Qed.

(** C39: each denial is reported with the cause the calls call for, and what
    the code calls "expired" is settled: a denial is "rejected" exactly when
    the relay's last answer was "denied"; it is "unreachable" exactly when
    registering failed, or time ran out after a poll had failed in time and
    none had been answered; it is "expired" exactly when the relay's last
    answer was "expired", or time ran out otherwise, or no request ID could be
    drawn.  In that last case no request was ever made, and approver.go has
    the cause "unavailable" for a failure of this kind; the code does not use
    it here. *)
Theorem Tailscale_cause_exact {S} (h : handler approve_call S) fuel prompt s o s' t :
  run h (Approve fuel prompt) s = (Some o, s', t) -> decision o <> Ok Approved ->
  let seen := map seen_of t in
  (ApproveCause (cause o) = CauseRejected <-> exists id, last seen = Some (SPoll id (Some "denied")))
  /\ (ApproveCause (cause o) = CauseUnreachable <->
       (exists id, last seen = Some (SRegister id prompt false))
       \/ (last seen = Some (SSelect Done) /\ SCtxErr false ∈ seen /\ ~ Exists answered seen))
  /\ (ApproveCause (cause o) = CauseExpired <->
       (exists id, last seen = Some (SPoll id (Some "expired"))) \/ timed_out seen \/ seen = [SRand None]).
Proof.
  intros E Hd. cbv zeta. destruct (rejected_or_unreachable h fuel prompt s o s' t E Hd) as (Hr & Hu & Hc).
  split; [exact Hr|]. split; [exact Hu|]. split.
  - intros Ho. destruct (expired_seen h fuel prompt s o s' t E Ho Hd) as [|[|]]; auto.
  - intros He. destruct Hc as [Hc|[Hc|Hc]]; [| |exact Hc]; exfalso.
    + destruct (proj1 Hr Hc) as [i Hi]. destruct He as [[j Hj]|[[Hj _]|Hj]];
        [congruence|congruence|by rewrite Hj in Hi].
    + destruct (proj1 Hu Hc) as [[i Hi]|[Hi Hf]]; destruct He as [[j Hj]|[[Hj Hn]|Hj]]; try congruence;
        try (by rewrite Hj in Hi); by apply Hn.
Qed.

Definition is_tick (e : seen) : bool := match e with SSelect Tick => true | _ => false end.

(** How often the ticker won the [select]. *)
Definition ticks (t : list (event approve_call)) : nat :=
  length (filter (fun e => is_tick e = true) (map seen_of t)).

Lemma poll_loop_None {S} (h : handler approve_call S) fuel id pf ps s s' t :
  run h (poll_loop fuel id pf ps) s = (None, s', t) -> ticks t = fuel.
Proof.
  revert pf ps s t. induction fuel as [|fuel IH]; intros pf ps s t; [by intros [= _ <-]|].
  cbn [poll_loop]. simpl. destruct (h Select s) as [[|] s1]; [done|]. simpl.
  destruct (h (Tailscale.Poll id) s1) as [[st|[]] s2].
  - destruct (String.eqb st "approved"); [done|]. destruct (String.eqb st "denied"); [done|].
    destruct (String.eqb st "expired"); [done|]. run_case E.
    intros [= -> -> <-]. apply IH in E. unfold ticks in *. simpl. by f_equal.
  - simpl. destruct (h CtxErr s2) as [b s3].
    run_case E.
    intros [= -> -> <-]. apply IH in E. unfold ticks in *. simpl. by f_equal.
Qed.

Lemma poll_loop_more {S} (h : handler approve_call S) fuel k id pf ps s o s' t :
  run h (poll_loop fuel id pf ps) s = (Some o, s', t) ->
  run h (poll_loop (fuel + k) id pf ps) s = (Some o, s', t).
Proof.
  revert pf ps s t. induction fuel as [|fuel IH]; intros pf ps s t; [done|].
  cbn [poll_loop Nat.add]. simpl. destruct (h Select s) as [[|] s1]; [done|]. simpl.
  destruct (h (Tailscale.Poll id) s1) as [[st|[]] s2].
  - destruct (String.eqb st "approved"); [done|]. destruct (String.eqb st "denied"); [done|].
    destruct (String.eqb st "expired"); [done|]. run_case E.
    intros [= -> -> <-]. by rewrite (IH _ _ _ _ E).
  - simpl. destruct (h CtxErr s2) as [b s3].
    run_case E.
    intros [= -> -> <-]. by rewrite (IH _ _ _ _ E).
Qed.

(** C38: [Approve] returns: in any environment where the ticker can win the
    [select] at most [N] times before the timeout does, every fuel above [N]
    gives an outcome, and the outcome, the calls made and the state reached
    do not depend on which. *)
Theorem Tailscale_returns {S} (h : handler approve_call S) prompt s N :
  (forall fuel, (ticks (trace_of h (Approve fuel prompt) s) <= N)%nat) ->
  exists o s' t, forall fuel, (N < fuel)%nat -> run h (Approve fuel prompt) s = (Some o, s', t).
Proof.
  intros HN. unfold trace_of, Approve, newRequestID in *. simpl in *.
  destruct (h Rand s) as [[b|] s1]; simpl in *; [|by eexists _, _, _].
  destruct (h (Tailscale.Register _ prompt) s1) as [[[]|[]] s2]; simpl in *; [|by eexists _, _, _].
  destruct (run h (poll_loop (Datatypes.S N) (Hex.EncodeToString b) 0 false) s2) as [[[o|] s3] t] eqn:E.
  - eexists o, s3, _. intros fuel Hf. replace fuel with (Datatypes.S N + (fuel - Datatypes.S N))%nat by lia.
    by rewrite (poll_loop_more _ _ _ _ _ _ _ _ _ _ E).
  - exfalso. specialize (HN (Datatypes.S N)). rewrite E in HN. apply poll_loop_None in E.
    unfold ticks in *. simpl in *. rewrite !filter_cons_False in HN by done. lia.
Qed.

(** The desktop prompt fails closed: exactly one command is run, [kdialog
    --yesno] with the prompt as one argument, and the answer is an approval
    if and only if it ran and exited with 0; exit code 1 and only that is
    reported as a human refusal. *)
Theorem KDialog_approves_exactly {S} (h : handler exec_call S) prompt s :
  let c := ExecRun "kdialog" ["--yesno"; prompt] None in
  let r := fst (h c s) in
  let '(o, _, t) := run h (KDialog.Approve prompt) s in
  t = [ev c r]
  /\ (decision o = Ok Approved <-> exists res, r = Ok res /\ ExitCode res = 0)
  /\ (decision o <> Ok Approved ->
        (KDialog.ApproveCause (cause o) = CauseRejected <-> exists res, r = Ok res /\ ExitCode res = 1)
        /\ (KDialog.ApproveCause (cause o) <> CauseRejected ->
            KDialog.ApproveCause (cause o) = CauseUnavailable)).
Proof.
  cbv zeta. unfold KDialog.Approve. simpl. destruct (h _ s) as [[res|e] s']; simpl.
  2:{ split; [done|]. split; [split; [done|]; by intros (? & ? & _)|].
      intros _. split; [|done]. split; [done|]. by intros (? & ? & _). }
  split; [done|]. destruct (Z.eqb_spec (ExitCode res) 0) as [H0|H0];
    [|destruct (Z.eqb_spec (ExitCode res) 1) as [H1|H1]]; simpl.
  - split; [|done]. split; [by exists res|done].
  - split; [split; [done|]; intros (? & [= <-] & ?); lia|].
    intros _. split; [|done]. split; [by exists res|done].
  - split; [split; [done|]; intros (? & [= <-] & ?); lia|].
    intros _. split; [|done]. split; [done|]. intros (? & [= <-] & ?); lia.
Qed.

(** What an outcome rests on, in any environment: an approval and a refusal
    are the relay's answer to a poll for the ID. *)
Definition answered_with (o : Outcome approve_error) (st : string) : Prop :=
  (decision o = Ok Approved -> st = "approved") /\ (cause o = CauseRejected -> st = "denied").

Lemma poll_loop_polled fuel id pf ps t o :
  behaves (poll_loop fuel id pf ps) t (Some o) -> decision o = Ok Approved \/ cause o = CauseRejected ->
  exists st, ev (Tailscale.Poll id) (Ok st) ∈ t /\ answered_with o st.
Proof.
  revert pf ps t. induction fuel as [|fuel IH]; intros pf ps t; [by intros [_ [=]]|].
  cbn [poll_loop]. intros (ready & t1 & -> & H) Hd. destruct ready.
  { destruct H as [_ [= ->]]. cbn in Hd. destruct (_ && _), Hd; done. }
  destruct H as (r & t2 & -> & H).
  assert (Hrec : forall pf ps t, behaves (poll_loop fuel id pf ps) t (Some o) -> forall t0,
    exists st, ev (Tailscale.Poll id) (Ok st) ∈ t0 ++ t /\ answered_with o st).
  { intros ? ? ? Hb t0. destruct (IH _ _ _ Hb Hd) as (st & Hin & Hst). exists st. split; [|done].
    apply elem_of_app. by right. }
  destruct r as [st|e].
  - revert H. cbn [prog_bind prog_bind_def]. destruct (String.eqb_spec st "approved") as [->|_].
    { intros [-> [= ->]]. exists "approved". split; [set_solver|done]. }
    destruct (String.eqb_spec st "denied") as [->|_].
    { intros [-> [= ->]]. exists "denied". split; [set_solver|done]. }
    destruct (String.eqb st "expired"); [intros [-> [= ->]]; by destruct Hd|].
    intros H. exact (Hrec _ _ _ H [_; _]).
  - destruct H as (b & t3 & -> & H). exact (Hrec _ _ _ H [_; _; _]).
Qed.

Lemma Approve_polled fuel prompt t o :
  behaves (Approve fuel prompt) t (Some o) -> decision o = Ok Approved \/ cause o = CauseRejected ->
  exists b st, let id := Hex.EncodeToString b in
    ev (Tailscale.Register id prompt) (Ok tt) ∈ t /\ ev (Tailscale.Poll id) (Ok st) ∈ t /\ answered_with o st.
Proof.
  unfold Approve, newRequestID. intros (r & t1 & -> & H) Hd. destruct r as [b|].
  2:{ destruct H as [-> [= ->]]. by destruct Hd. }
  destruct H as (x & t2 & -> & H). destruct x as [[]|e].
  2:{ destruct H as [-> [= ->]]. by destruct Hd. }
  destruct (poll_loop_polled _ _ _ _ _ _ H Hd) as (st & Hin & Hst). exists b, st. split_and!; [|set_solver|done].
  apply list_elem_of_further. by left.
Qed.

Import Store History World.

(** The approver against the relay's store, other clients acting at will
    and the network losing what it likes: if nobody else creates the drawn
    ID, then an approval means the store accepted, for a request created
    with exactly this prompt and no later than its deadline, a decision to
    approve. *)
Theorem approver_relay_end_to_end lim fuel prompt w o w' t :
  run world_handler (Approve fuel prompt) w = (Some o, w', t) ->
  decision o = Ok Approved ->
  steps (NewStoreWithLimit lim) (hist w) (store w) ->
  (forall b, randomness w = Some b -> fresh (Hex.EncodeToString b) w) ->
  exists b pre t0 ttl mid t1 post, let id := Hex.EncodeToString b in
    randomness w = Some b
    /\ hist w' = pre ++ (t0, OCreate id prompt ttl, RUnit (Ok tt))
                   :: mid ++ (t1, ODecide id true, RUnit (Ok tt)) :: post
    /\ t1 <= t0 + ttl.
Proof.
  rewrite run_Approve. intros H Ha Hok Hf. cbn [world_handler] in H.
  destruct (randomness w) as [b|] eqn:Eb; [|by injection H as <- _ _].
  specialize (Hf b eq_refl). cbv zeta in H. set (id := Hex.EncodeToString b) in *.
  cbn [world_handler] in H.
  destruct (remote _ _ w) as [r w2] eqn:Er. destruct (remote_spec lim id _ _ _ _ _ Er Hf Hok)
    as (Hok2 & Hf2 & w1 & Hok1 & _ & Hcase).
  destruct r as [[]|[]]; [|by injection H as <- _ _].
  destruct (run world_handler (poll_loop fuel id 0 false) w2) as [[r3 w3] t3] eqn:E.
  injection H as -> -> _.
  destruct (loop_approved lim _ _ _ _ _ _ _ _ E Ha Hf2 Hok2) as (Hok3 & Hp3 & now & q & Hg & Hq).
  destruct (Get_approved_history lim _ _ now id q Hok3 Hg Hq)
    as (pre & ttl & mid & t1 & post & Hh & Ht & Hd & Hnone).
  exists b, pre, (CreatedAt q), ttl, mid, t1, post. split; [done|].
  assert (Hprompt : Some (Prompt q) = Some prompt); [|injection Hprompt as <-; by rewrite <- Hd].
  assert (Hrest : Forall (fun e => ~ created id e) (mid ++ (t1, ODecide id true, RUnit (Ok tt)) :: post)).
  { apply Forall_app in Hnone as [Hm Hpo]. apply Forall_app. split; [|constructor];
      [by eapply Forall_impl; [exact Hm|intros ? []]|by intros (?&?&?&?)|
       by eapply Forall_impl; [exact Hpo|intros ? []]]. }
  rewrite <- (last_prompt_split id pre (CreatedAt q) (Prompt q) ttl _ Hrest), <- Hh, Hp3.
  destruct Hcase as [[_ [=]]|[-> [Hc|[=]]]].
  destruct (Create (store w1) _ id prompt _) as [[[]|e] s2] eqn:Ec; [|done].
  unfold perform, last_prompt. cbn [exec apply]. rewrite Ec. cbn [hist]. rewrite foldl_app. simpl.
  by rewrite String.eqb_refl.
Qed.

End Properties.

(** ** Witnesses *)

Section Witnesses.
Import Tailscale Trace Store History World.

Definition example_id : string := "61626364".

(** The request is registered, a human approves, the poll sees it. *)
Definition example_world : world :=
  mkWorld (NewStoreWithLimit 2) []
    [mkTurn [] 0 Delivered; mkTurn [(5, ODecide example_id true)] 6 Delivered; mkTurn [] 9 RequestLost]
    (Some "abcd") 60.

(** The network is down until the turns are used up. *)
Definition dead_world : world :=
  mkWorld (NewStoreWithLimit 2) []
    [mkTurn [] 0 Delivered; mkTurn [] 6 RequestLost; mkTurn [] 9 RequestLost] (Some "abcd") 60.

(** An environment that never ticks. *)
Definition impatient : handler approve_call unit := fun c s =>
  match c return answer c * unit with
  | Rand => (Some "abcd", s)
  | Tailscale.Register _ _ => (Ok tt, s)
  | Select => (Done, s)
  | Tailscale.Poll _ => (Err tt, s)
  | CtxErr => (true, s)
  end.

Lemma example_run : exists w' t,
  run world_handler (Approve 3 "run?") example_world
  = (Some (mkOutcome (Ok Approved) CauseExpired), w', t).
Proof. eexists _, _. vm_compute. reflexivity. Qed.

Lemma Tailscale_approves_exactly_witness :
  exists b t0 t, run world_handler (Approve 3 "run?") example_world
    = (Some (mkOutcome (Ok Approved) CauseExpired),
       state_of world_handler (Approve 3 "run?") example_world, t)
    /\ map seen_of t = SRand (Some b) :: SRegister (Hex.EncodeToString b) "run?" true
                       :: t0 ++ [SPoll (Hex.EncodeToString b) (Some "approved")].
Proof.
  destruct example_run as (w' & t & E).
  destruct (proj1 (Tailscale_approves_exactly world_handler 3 "run?" example_world _ w' t E) eq_refl)
    as (b & t0 & H & _).
  exists b, t0, t. split; [|exact H]. unfold state_of. rewrite E. reflexivity.
Defined.

Lemma Tailscale_cause_exact_witness :
  exists w' t, run world_handler (Approve 5 "run?") dead_world
               = (Some (mkOutcome (Ok Denied) CauseUnreachable), w', t)
    /\ last (map seen_of t) = Some (SSelect Done).
Proof.
  assert (E : exists w' t, run world_handler (Approve 5 "run?") dead_world
               = (Some (mkOutcome (Ok Denied) CauseUnreachable), w', t))
    by (eexists _, _; vm_compute; reflexivity).
  destruct E as (w' & t & E). exists w', t. split; [exact E|].
  destruct (Tailscale_cause_exact world_handler 5 "run?" dead_world _ w' t E ltac:(discriminate))
    as (_ & [H _] & _).
  destruct (H eq_refl) as [[id Hl]|[Hl _]]; [|exact Hl].
  vm_compute in E. injection E as _ <-. discriminate Hl.
Defined.

Lemma Tailscale_returns_witness :
  exists o s' t, forall fuel, (0 < fuel)%nat -> run impatient (Approve fuel "run?") tt = (Some o, s', t).
Proof.
  apply (Tailscale_returns impatient "run?" tt 0). intros [|fuel]; vm_compute; repeat constructor.
Defined.

Lemma approver_relay_end_to_end_witness :
  exists w' pre t0 ttl mid t1 post,
    hist w' = pre ++ (t0, OCreate example_id "run?" ttl, RUnit (Ok tt))
                   :: mid ++ (t1, ODecide example_id true, RUnit (Ok tt)) :: post
    /\ t1 <= t0 + ttl.
Proof.
  destruct example_run as (w' & t & E). exists w'.
  destruct (approver_relay_end_to_end 2 3 "run?" example_world _ w' t E eq_refl (steps_nil _))
    as (b & pre & t0 & ttl & mid & t1 & post & Hb & H).
  - intros b [= <-]. unfold fresh. simpl. repeat (constructor; [repeat constructor; discriminate|]). constructor.
  - injection Hb as <-. exists pre, t0, ttl, mid, t1, post. exact H.
Defined.
End Witnesses.
