(* ===== verification/Broker.v ===== *)
(** * Broker: the deny-by-default decision matrix (internal/broker)

    [Run] and [DryRun] are programs over the broker's five collaborators: the
    audit logger, the file system's symbolic links, the approver, the token
    resolver and the command runner.  The theorems hold for every handler,
    that is, whatever the collaborators do. *)

From S2P Require Import Prelude GoStrings GoText Effects Policy Config AuditLog Exec Token Runner Approval.

#[local] Open Scope Z_scope.

(** ** The collaborators *)

Inductive broker_call : Type :=
| LoggerStart (r : StartRecord)
| LoggerFinish (runID : string) (r : FinishRecord)
| EvalSymlinks (path : string)
| Approve (prompt : string)
| ApproveCause
| Resolve (entry : string)
| RunnerRun (spec : RunSpec).

#[export] Instance broker_interface : Interface broker_call := fun c =>
  match c with
  | LoggerStart _ => result unit string
  | LoggerFinish _ _ => result unit unit
  | EvalSymlinks _ => option string
  | Approve _ => result unit Approval.Decision
  | ApproveCause => string
  | Resolve _ => result unit Token
  | RunnerRun _ => result unit Z
  end.

(** ** Data *)

Definition ReasonUnknownProject : string := "unknown_project".
Definition ReasonNotAllowlisted : string := "not_allowlisted".
Definition ReasonApprovalRejected : string := "approval_rejected".
Definition ReasonTokenResolutionFailed : string := "token_resolution_failed".
Definition ReasonRunnerStartFailed : string := "runner_start_failed".
Definition ReasonAuditUnavailable : string := "audit_unavailable".
Definition ReasonWorkingDirectoryNotAllowed : string := "working_directory_not_allowed".

Inductive Verdict : Type :=
| VerdictDeny
| VerdictAllow
| VerdictPrompt.

#[export] Instance Verdict_eq_dec : EqDecision Verdict. Proof. solve_decision. Defined.

(** [RunRequest]; the three streams go to the runner untouched. *)
Record RunRequest := mkRunRequest {
  rr_Project : string;
  rr_WorkingDir : string;
  rr_Argv : list string;
}.

Record RunOutcome := mkRunOutcome {
  ro_Denied : bool;
  Reason : string;
  ApprovalCause : string;
  ro_ExitCode : Z;
  AuditIncomplete : bool;
}.

Record DryRunResult := mkDryRunResult {
  dr_Verdict : Verdict;
  dr_Reason : string;
}.

(** ** Operations *)

(** [decide]: the pure policy core. *)
Definition decide (p : Config.Project) (argv : list string) : Verdict :=
  if String.eqb (Approval p) ApprovalAlways then VerdictPrompt else
  let allowlisted := Match (AllowArgv p) argv in
  if allowlisted && String.eqb (Approval p) ApprovalAllowlistedPrompt then VerdictPrompt
  else if allowlisted then VerdictAllow
  else if String.eqb (Approval p) ApprovalPrompt then VerdictPrompt
  else VerdictDeny.

(** [sameWorkingDir] *)
Definition sameWorkingDir (allowed requested : string) : prog broker_call bool :=
  if String.eqb requested "" then mret false else
  a ← call (EvalSymlinks allowed);
  match (a : option string) with
  | None => mret false
  | Some allowedPath =>
      r ← call (EvalSymlinks requested);
      match (r : option string) with
      | None => mret false
      | Some requestedPath =>
          mret (String.eqb (Filepath.Clean allowedPath) (Filepath.Clean requestedPath))
      end
  end.

Section Broker.
Context (unicode_print : Z -> bool).
Context (cfg : Config.Config).
(** The approver implements [CauseProvider]. *)
Context (cause_provider : bool).

(** The lines [  argv[i] = "..."], from [i] on. *)
Fixpoint prompt_lines (i : Z) (argv : list string) : list string :=
  match argv with
  | [] => []
  | arg :: argv' =>
      ("  argv[" +:+ Itoa.Itoa i +:+ "] = " +:+ Strconv.QuoteToASCII arg)
      :: prompt_lines (i + 1) argv'
  end.

Definition formatPrompt (project workingDir : string) (argv : list string) : string :=
  "secrets-broker: allow project " +:+ Strconv.Quote unicode_print project +:+ " to run:"
  +:+ str1 LF +:+ str1 LF
  +:+ "working directory: " +:+ Strconv.QuoteToASCII workingDir +:+ str1 LF
  +:+ Strings.Join (prompt_lines 0 argv) (str1 LF).

(** The closure [deny] of [Run]. *)
Definition deny (runID reason : string) : prog broker_call RunOutcome :=
  f ← call (LoggerFinish runID (mkFinishRecord ("denied:" +:+ reason) None));
  mret (mkRunOutcome true reason "" 0 (negb (is_ok (f : result unit unit)))).

(** The denial of an approval, with its cause where the approver gives one. *)
Definition deny_approval (runID : string) : prog broker_call RunOutcome :=
  outcome ← deny runID ReasonApprovalRejected;
  if cause_provider then
    c1 ← call ApproveCause;
    if negb (String.eqb (c1 : string) "") then
      c2 ← call ApproveCause;
      mret (mkRunOutcome (ro_Denied outcome) (Reason outcome) (c2 : string)
              (ro_ExitCode outcome) (AuditIncomplete outcome))
    else mret outcome
  else mret outcome.

(** From token resolution on. *)
Definition execute (runID : string) (p : Config.Project) (req : RunRequest)
    : prog broker_call RunOutcome :=
  tok ← call (Resolve (TokenEntry p));
  match (tok : result unit Token) with
  | Err _ => deny runID ReasonTokenResolutionFailed
  | Ok tok =>
      res ← call (RunnerRun (mkRunSpec (BWSProjectID p) tok (rr_WorkingDir req) (rr_Argv req)));
      match (res : result unit Z) with
      | Err _ => deny runID ReasonRunnerStartFailed
      | Ok exitCode =>
          f ← call (LoggerFinish runID (mkFinishRecord "executed" (Some exitCode)));
          mret (mkRunOutcome false "" "" exitCode (negb (is_ok (f : result unit unit))))
      end
  end.

(** The working directory check of [Run] and [DryRun]. *)
Definition working_dir_ok (p : Config.Project) (workingDir : string) : prog broker_call bool :=
  if negb (String.eqb (WorkingDir p) "") then sameWorkingDir (WorkingDir p) workingDir
  else mret true.

(** The [switch] on the verdict, and what follows it. *)
Definition switch_verdict (runID : string) (p : Config.Project) (req : RunRequest)
    : prog broker_call RunOutcome :=
  match decide p (rr_Argv req) with
  | VerdictDeny => deny runID ReasonNotAllowlisted
  | VerdictPrompt =>
      d ← call (Approve (formatPrompt (rr_Project req) (rr_WorkingDir req) (rr_Argv req)));
      if bool_decide ((d : result unit Approval.Decision) = Ok Approved)
      then execute runID p req else deny_approval runID
  | VerdictAllow => execute runID p req
  end.

Definition Run (req : RunRequest) : prog broker_call RunOutcome :=
  start ← call (LoggerStart (mkStartRecord (rr_Project req) (rr_WorkingDir req) (rr_Argv req)));
  match (start : result unit string) with
  | Err _ => mret (mkRunOutcome true ReasonAuditUnavailable "" 0 false)
  | Ok runID =>
      match lookup_project cfg (rr_Project req) with
      | None => deny runID ReasonUnknownProject
      | Some p =>
          wd ← working_dir_ok p (rr_WorkingDir req);
          if negb wd then deny runID ReasonWorkingDirectoryNotAllowed
          else switch_verdict runID p req
      end
  end.

Definition DryRun (project workingDir : string) (argv : list string)
    : prog broker_call DryRunResult :=
  match lookup_project cfg project with
  | None => mret (mkDryRunResult VerdictDeny "unknown project")
  | Some p =>
      wd ← working_dir_ok p workingDir;
      if negb wd then mret (mkDryRunResult VerdictDeny "working directory not allowed") else
      mret match decide p argv with
           | VerdictAllow => mkDryRunResult VerdictAllow "allowlisted"
           | VerdictPrompt =>
               mkDryRunResult VerdictPrompt
                 ("would prompt for approval (project approval="
                  +:+ Strconv.Quote unicode_print (Approval p) +:+ ")")
           | VerdictDeny =>
               mkDryRunResult VerdictDeny
                 ("not allowlisted and project approval="
                  +:+ Strconv.Quote unicode_print (Approval p))
           end
  end.

(** ** Specification: every possible run *)

Notation trace := (list (event broker_call)).

(** The working directory is the project's, symbolic links resolved. *)
Definition wd_accepted (p : Config.Project) (wd : string) (t : trace) : Prop :=
  (WorkingDir p = "" /\ t = [])
  \/ (WorkingDir p <> "" /\ wd <> "" /\ exists a r,
        t = [ev (EvalSymlinks (WorkingDir p)) (Some a); ev (EvalSymlinks wd) (Some r)]
        /\ Filepath.Clean a = Filepath.Clean r).

Definition only_symlinks (t : trace) : Prop :=
  Forall (fun c => exists path, c = EvalSymlinks path) (calls t).

Definition wd_refused (p : Config.Project) (wd : string) (t : trace) : Prop :=
  WorkingDir p <> "" /\ only_symlinks t
  /\ (wd = "" \/ (exists q, ev (EvalSymlinks q) None ∈ t)
      \/ exists a r, t = [ev (EvalSymlinks (WorkingDir p)) (Some a); ev (EvalSymlinks wd) (Some r)]
                     /\ Filepath.Clean a <> Filepath.Clean r).

Definition prompt_for (req : RunRequest) : string :=
  formatPrompt (rr_Project req) (rr_WorkingDir req) (rr_Argv req).

(** The calls [t] authorize [req] for project [p]. *)
Definition authorized (req : RunRequest) (p : Config.Project) (t : trace) : Prop :=
  lookup_project cfg (rr_Project req) = Some p
  /\ exists tw ta, t = tw ++ ta /\ wd_accepted p (rr_WorkingDir req) tw
     /\ ((decide p (rr_Argv req) = VerdictAllow /\ ta = [])
         \/ (decide p (rr_Argv req) = VerdictPrompt /\ ta = [ev (Approve (prompt_for req)) (Ok Approved)])).

Definition spec_for (req : RunRequest) (p : Config.Project) (tok : Token) : RunSpec :=
  mkRunSpec (BWSProjectID p) tok (rr_WorkingDir req) (rr_Argv req).

(** A denial's reason, with the calls that lead to it. *)
Inductive denial (req : RunRequest) : string -> trace -> Prop :=
| denial_unknown_project :
    lookup_project cfg (rr_Project req) = None ->
    denial req ReasonUnknownProject []
| denial_working_dir p t :
    lookup_project cfg (rr_Project req) = Some p ->
    wd_refused p (rr_WorkingDir req) t ->
    denial req ReasonWorkingDirectoryNotAllowed t
| denial_not_allowlisted p t :
    lookup_project cfg (rr_Project req) = Some p ->
    wd_accepted p (rr_WorkingDir req) t ->
    decide p (rr_Argv req) = VerdictDeny ->
    denial req ReasonNotAllowlisted t
| denial_rejected p t (a : result unit Approval.Decision) :
    lookup_project cfg (rr_Project req) = Some p ->
    wd_accepted p (rr_WorkingDir req) t ->
    decide p (rr_Argv req) = VerdictPrompt ->
    a <> Ok Approved ->
    denial req ReasonApprovalRejected (t ++ [ev (Approve (prompt_for req)) a])
| denial_token p t :
    authorized req p t ->
    denial req ReasonTokenResolutionFailed (t ++ [ev (Resolve (TokenEntry p)) (Err tt)])
| denial_runner p t tok :
    authorized req p t ->
    denial req ReasonRunnerStartFailed
      (t ++ [ev (Resolve (TokenEntry p)) (Ok tok); ev (RunnerRun (spec_for req p tok)) (Err tt)]).

Definition start_of (req : RunRequest) : broker_call :=
  LoggerStart (mkStartRecord (rr_Project req) (rr_WorkingDir req) (rr_Argv req)).

Definition only_causes (t : trace) : Prop := Forall (fun c => c = ApproveCause) (calls t).

(** Every run: audited first, finished once. *)
Inductive run_spec (req : RunRequest) : RunOutcome -> trace -> Prop :=
| run_unaudited :
    run_spec req (mkRunOutcome true ReasonAuditUnavailable "" 0 false) [ev (start_of req) (Err tt)]
| run_denied runID reason t (f : result unit unit) tail cause :
    denial req reason t ->
    only_causes tail ->
    (reason <> ReasonApprovalRejected -> tail = [] /\ cause = "") ->
    (cause <> "" -> @ev broker_call broker_interface ApproveCause cause ∈ tail) ->
    run_spec req (mkRunOutcome true reason cause 0 (negb (is_ok f)))
      (ev (start_of req) (Ok runID) :: t
       ++ ev (LoggerFinish runID (mkFinishRecord ("denied:" +:+ reason) None)) f :: tail)
| run_executed runID p t tok code (f : result unit unit) :
    authorized req p t ->
    run_spec req (mkRunOutcome false "" "" code (negb (is_ok f)))
      (ev (start_of req) (Ok runID) :: t
       ++ [ev (Resolve (TokenEntry p)) (Ok tok); ev (RunnerRun (spec_for req p tok)) (Ok code);
           ev (LoggerFinish runID (mkFinishRecord "executed" (Some code))) f]).

(** ** Lemmas *)

Lemma working_dir_run {S} (h : handler broker_call S) p wd s b s' t :
  run h (working_dir_ok p wd) s = (b, s', t) ->
  if b then wd_accepted p wd t else wd_refused p wd t.
Proof.
  unfold working_dir_ok, sameWorkingDir, wd_accepted, wd_refused, only_symlinks.
  destruct (String.eqb_spec (WorkingDir p) "") as [He|He]; cbn [negb].
  { intros [= <- _ <-]. by left. }
  destruct (String.eqb_spec wd "") as [->|Hw].
  { intros [= <- _ <-]. split_and!; [done|constructor|by left]. }
  simpl. destruct (h (EvalSymlinks (WorkingDir p)) s) as [[a|] s1]; simpl.
  2:{ intros [= <- _ <-]. split_and!; [done|by repeat econstructor|].
      right. left. eexists. apply list_elem_of_here. }
  destruct (h (EvalSymlinks wd) s1) as [[r|] s2]; simpl.
  2:{ intros [= <- _ <-]. split_and!; [done|by repeat econstructor|].
      right. left. eexists. apply list_elem_of_further, list_elem_of_here. }
  intros [= <- _ <-]. destruct (String.eqb_spec (Filepath.Clean a) (Filepath.Clean r)).
  - right. split_and!; [done|done|by exists a, r].
  - split_and!; [done|by repeat econstructor|]. right. right. by exists a, r.
Qed.

(** A plain denial, its calls in front of the [Finish]. *)
Lemma denied_after req runID reason t t' f t'' :
  denial req reason t -> reason <> ReasonApprovalRejected ->
  t'' = t ++ [ev (LoggerFinish runID (mkFinishRecord ("denied:" +:+ reason) None)) f] ->
  t' = ev (start_of req) (Ok runID) :: t'' ->
  run_spec req (mkRunOutcome true reason "" 0 (negb (is_ok f))) t'.
Proof. intros Hd Hr -> ->. by apply run_denied; [|constructor|..]. Qed.

(** What follows an authorization [t0], prefixed with it. *)
Lemma execute_run {S} (h : handler broker_call S) runID p req s o s' t t0 :
  run h (execute runID p req) s = (o, s', t) -> authorized req p t0 ->
  run_spec req o (ev (start_of req) (Ok runID) :: t0 ++ t).
Proof.
  unfold execute. simpl. destruct (h (Resolve (TokenEntry p)) s) as [[tok|[]] s1]; simpl.
  2:{ destruct (h (LoggerFinish _ _) s1) as [f s2]. intros [= <- _ <-] Ha.
      eapply denied_after; [by apply denial_token|done| |done]. by rewrite <- app_assoc. }
  destruct (h (RunnerRun _) s1) as [[code|[]] s2]; simpl;
    destruct (h (LoggerFinish _ _) s2) as [f s3]; intros [= <- _ <-] Ha.
  - by apply run_executed.
  - eapply denied_after; [by apply denial_runner|done| |done]. by rewrite <- app_assoc.
Qed.

(** A refused approval, its cause asked for after the record is finished. *)
Lemma deny_approval_run {S} (h : handler broker_call S) runID p req s o s' t tw a :
  run h (deny_approval runID) s = (o, s', t) ->
  lookup_project cfg (rr_Project req) = Some p ->
  wd_accepted p (rr_WorkingDir req) tw ->
  decide p (rr_Argv req) = VerdictPrompt -> a <> Ok Approved ->
  run_spec req o (ev (start_of req) (Ok runID) :: tw ++ ev (Approve (prompt_for req)) a :: t).
Proof.
  intros H Hp Hw Hd Ha. pose proof (denial_rejected req p tw a Hp Hw Hd Ha) as Hden.
  rewrite cons_middle, app_assoc. unfold deny_approval in H. simpl in H.
  destruct (h (LoggerFinish _ _) s) as [f s1]. destruct cause_provider; simpl in H.
  2:{ injection H as <- _ <-. by apply run_denied; [|constructor|..]. }
  destruct (h ApproveCause s1) as [c1 s2]. destruct (String.eqb_spec c1 ""); simpl in H.
  { injection H as <- _ <-. apply run_denied; [done|by repeat constructor|done..]. }
  destruct (h ApproveCause s2) as [c2 s3]. injection H as <- _ <-.
  apply run_denied; [done|by repeat constructor|done|]. intros _. right. by left.
Qed.

Lemma switch_run {S} (h : handler broker_call S) runID p req s o s' t tw :
  run h (switch_verdict runID p req) s = (o, s', t) ->
  lookup_project cfg (rr_Project req) = Some p ->
  wd_accepted p (rr_WorkingDir req) tw ->
  run_spec req o (ev (start_of req) (Ok runID) :: tw ++ t).
Proof.
  intros H Hp Hw. unfold switch_verdict in H. destruct (decide p (rr_Argv req)) eqn:Ed.
  - simpl in H. destruct (h (LoggerFinish _ _) s) as [f s1]. injection H as <- _ <-.
    eapply denied_after; [by eapply denial_not_allowlisted|done|done|done].
  - rewrite <- (app_nil_r tw). eapply execute_run; [done|]. split; [done|].
    exists tw, []. split; [done|]. split; [done|]. by left.
  - simpl in H. fold (prompt_for req) in H. destruct (h (Approve (prompt_for req)) s) as [a s1].
    case_bool_decide as Ha.
    + destruct (run h (execute runID p req) s1) as [[o1 s2] t1] eqn:E. injection H as -> _ <-.
      rewrite cons_middle, app_assoc. eapply execute_run; [done|]. split; [done|].
      eexists tw, _. split; [done|]. split; [done|]. right. by rewrite Ha.
    + destruct (run h (deny_approval runID) s1) as [[o1 s2] t1] eqn:E. injection H as -> _ <-.
      by eapply deny_approval_run.
Qed.

Lemma Run_run_spec {S} (h : handler broker_call S) req s o s' t :
  run h (Run req) s = (o, s', t) -> run_spec req o t.
Proof.
  unfold Run. simpl. fold (start_of req). destruct (h (start_of req) s) as [[runID|[]] s1]; simpl.
  2:{ intros [= <- _ <-]. constructor. }
  destruct (lookup_project cfg (rr_Project req)) as [p|] eqn:Ep.
  2:{ simpl. destruct (h (LoggerFinish _ _) s1) as [f s2]. intros [= <- _ <-].
      eapply (denied_after req runID _ []); [by constructor|done|done|done]. }
  change (prog_bind_def ?f ?p) with (p ≫= f). rewrite run_bind.
  destruct (run h (working_dir_ok p (rr_WorkingDir req)) s1) as [[b s2] tw] eqn:Ewd.
  apply working_dir_run in Ewd. destruct b; cbn [negb].
  - destruct (run h (switch_verdict runID p req) s2) as [[o1 s3] t3] eqn:E.
    intros [= -> _ <-]. by eapply switch_run.
  - simpl. destruct (h (LoggerFinish _ _) s2) as [f s3]. intros [= <- _ <-].
    eapply denied_after; [by eapply denial_working_dir|done|done|done].
Qed.

(** Which collaborator a call goes to. *)
Definition is_logger (c : broker_call) : bool :=
  match c with LoggerStart _ | LoggerFinish _ _ => true | _ => false end.
Definition is_runner (c : broker_call) : bool :=
  match c with RunnerRun _ => true | _ => false end.
Definition is_approve (c : broker_call) : bool :=
  match c with Approve _ => true | _ => false end.
Definition is_resolve (c : broker_call) : bool :=
  match c with Resolve _ => true | _ => false end.

(** No call of the trace satisfies [P]. *)
Definition none (P : broker_call -> bool) (t : trace) : Prop :=
  Forall (fun c => P c = false) (calls t).

Lemma none_app P t1 t2 : none P (t1 ++ t2) <-> none P t1 /\ none P t2.
Proof. unfold none, calls. by rewrite fmap_app, Forall_app. Qed.

Lemma none_cons P e t : none P (e :: t) <-> P (projT1 e) = false /\ none P t.
Proof. unfold none, calls. by rewrite fmap_cons, Forall_cons. Qed.

Lemma none_nil P : none P [].
Proof. constructor. Qed.

Lemma none_not_in P c t : none P t -> P c = true -> c ∉ calls t.
Proof. intros H Hc Hin. unfold none in H. rewrite Forall_forall in H. specialize (H c Hin). congruence. Qed.

Lemma none_symlinks P t : only_symlinks t -> (forall q, P (EvalSymlinks q) = false) -> none P t.
Proof. intros H HP. eapply Forall_impl; [exact H|]. by intros c [q ->]. Qed.

Lemma none_causes P t : only_causes t -> P ApproveCause = false -> none P t.
Proof. intros H HP. eapply Forall_impl; [exact H|]. by intros c ->. Qed.

Lemma wd_accepted_symlinks p wd t : wd_accepted p wd t -> only_symlinks t.
Proof.
  intros [[_ ->]|(_ & _ & a & r & -> & _)]; [constructor|]. by repeat econstructor.
Qed.

Lemma authorized_none P req p t :
  authorized req p t -> (forall q, P (EvalSymlinks q) = false) ->
  P (Approve (prompt_for req)) = false -> none P t.
Proof.
  intros (_ & tw & ta & -> & Hw & Ha) HP HA. apply none_app. split.
  - by eapply none_symlinks, HP; eapply wd_accepted_symlinks.
  - destruct Ha as [[_ ->]|[_ ->]]; [constructor|]. apply none_cons. split; [done|constructor].
Qed.

(** The calls before a denial's record are not logged ones. *)
Lemma denial_none_logger req reason t : denial req reason t -> none is_logger t.
Proof.
  destruct 1; rewrite ?none_app, ?none_cons;
    repeat match goal with |- _ /\ _ => split end; try done; try apply none_nil.
  - eapply none_symlinks; [|done]. match goal with H : wd_refused _ _ _ |- _ => apply H end.
  - eapply none_symlinks; [by eapply wd_accepted_symlinks|done].
  - eapply none_symlinks; [by eapply wd_accepted_symlinks|done].
  - by eapply authorized_none.
  - by eapply authorized_none.
Qed.

(** The runner is called in a denied run only after an authorization. *)
Lemma denial_runner_calls req reason t spec :
  denial req reason t -> RunnerRun spec ∈ calls t ->
  exists p t0 tok, authorized req p t0 /\ spec = spec_for req p tok
    /\ t = t0 ++ [ev (Resolve (TokenEntry p)) (Ok tok); ev (RunnerRun spec) (Err tt)]
    /\ reason = ReasonRunnerStartFailed.
Proof.
  assert (Hno : forall t', none is_runner t' -> RunnerRun spec ∈ calls t' -> False).
  { intros t' H Hin. by apply (none_not_in is_runner (RunnerRun spec) t'). }
  intros Hd Hin. destruct Hd as [|p t Hp Hw|p t Hp Hw _|p t a Hp Hw _ _|p t Ha|p t tok Ha].
  - by apply elem_of_nil in Hin.
  - exfalso. apply (Hno t); [|done]. eapply none_symlinks; [apply Hw|done].
  - exfalso. apply (Hno t); [|done]. eapply none_symlinks; [by eapply wd_accepted_symlinks|done].
  - exfalso. eapply Hno; [|exact Hin]. rewrite none_app, none_cons. split_and!; [|done|apply none_nil].
    eapply none_symlinks; [by eapply wd_accepted_symlinks|done].
  - exfalso. eapply Hno; [|exact Hin]. rewrite none_app, none_cons. split_and!; [|done|apply none_nil].
    by eapply authorized_none.
  - exists p, t, tok. split; [done|]. unfold calls in Hin. rewrite fmap_app in Hin.
    apply elem_of_app in Hin as [Hin|Hin].
    + exfalso. eapply (Hno t); [by eapply authorized_none|done].
    + simpl in Hin. rewrite !elem_of_cons, elem_of_nil in Hin.
      destruct Hin as [[=]|[[= ->]|[]]]. done.
Qed.

(** The cause that is reported is the one the approver gave, and the approver
    was asked about this request only. *)
Lemma cause_reported {S} (h : handler broker_call S) req s :
  let o := result_of h (Run req) s in
  let t := trace_of h (Run req) s in
  ApprovalCause o <> "" ->
  ro_Denied o = true /\ @ev broker_call broker_interface ApproveCause (ApprovalCause o) ∈ t
  /\ forall q, Approve q ∈ calls t -> q = prompt_for req.
Proof.
  cbv zeta. unfold result_of, trace_of. destruct (run h (Run req) s) as [[o s'] t] eqn:E. cbn [fst snd].
  apply Run_run_spec in E. destruct E as [|runID reason t f tail cause Hd Ht Hp Hc|]; cbn [ro_Denied ApprovalCause]; [done| |done].
  intros Hne. destruct (String.eqb_spec reason ReasonApprovalRejected) as [->|Hr]; [|by destruct (Hp Hr)].
  split_and!; [done|specialize (Hc Hne); set_solver|]. intros q Hq.
  assert (Hd' : exists t0 a, t = t0 ++ [ev (Approve (prompt_for req)) a] /\ none is_approve t0).
  { inversion Hd as [| | |p t1 a _ Hw| |]; subst. exists t1, a. split; [done|].
    eapply none_symlinks; [by eapply wd_accepted_symlinks|done]. }
  destruct Hd' as (t0 & a & -> & Hn). rewrite calls_cons, calls_app, calls_app, !calls_cons in Hq.
  rewrite !elem_of_cons, !elem_of_app, !elem_of_cons in Hq.
  destruct Hq as [[=]|[[Hq|[Hq|Hq]]|[[=]|Hq]]].
  - by destruct (none_not_in is_approve (Approve q) t0 Hn Logic.eq_refl).
  - by injection Hq.
  - by inversion Hq.
  - by destruct (none_not_in is_approve (Approve q) tail (none_causes _ _ Ht Logic.eq_refl) Logic.eq_refl).
Qed.

Lemma runner_called_authorized {S} (h : handler broker_call S) req s spec :
  RunnerRun spec ∈ calls (trace_of h (Run req) s) ->
  exists runID p t0 tok res rest,
    trace_of h (Run req) s
      = ev (start_of req) (Ok runID) :: t0
        ++ ev (Resolve (TokenEntry p)) (Ok tok) :: ev (RunnerRun spec) res :: rest
    /\ authorized req p t0
    /\ spec = spec_for req p tok
    /\ none is_runner rest.
Proof.
  intros Hin. unfold trace_of in *. destruct (run h (Run req) s) as [[o s'] t] eqn:E. simpl in *.
  apply Run_run_spec in E. destruct E as [|runID reason t f tail cause Hd Ht _ _|runID p t tok code f Ha].
  - simpl in Hin. rewrite elem_of_cons, elem_of_nil in Hin. by destruct Hin as [[=]|[]].
  - unfold calls in Hin. rewrite fmap_cons, fmap_app, fmap_cons, elem_of_cons, elem_of_app, elem_of_cons in Hin.
    destruct Hin as [[=]|[Hin|[[=]|Hin]]].
    + apply (denial_runner_calls req reason t spec Hd) in Hin as (p & t0 & tok & Ha & Hs & -> & _).
      exists runID, p, t0, tok, (Err tt). eexists. rewrite <- app_assoc.
      split_and!; [done|done|done|]. apply none_cons. split; [done|]. by apply none_causes.
    + exfalso. by eapply (none_not_in is_runner), Hin; [apply none_causes|].
  - unfold calls in Hin. rewrite fmap_cons, fmap_app, elem_of_cons, elem_of_app in Hin. simpl in Hin.
    rewrite !elem_of_cons, elem_of_nil in Hin.
    destruct Hin as [[=]|[Hin|[[=]|[[= ->]|[[=]|[]]]]]].
    + exfalso. eapply (none_not_in is_runner _ t), Hin; [|done]. by eapply authorized_none.
    + exists runID, p, t, tok, (Ok code). eexists. split_and!; [done|done|done|].
      apply none_cons. split; [done|constructor].
Qed.

(** A denial that reached the runner is the runner's failure to start. *)
(** Where the runner is called it is called once, for the request, and its
    answer decides the outcome. *)
Lemma runner_decides {S} (h : handler broker_call S) req s spec :
  let o := result_of h (Run req) s in
  RunnerRun spec ∈ calls (trace_of h (Run req) s) ->
  exists pre y post p tok, trace_of h (Run req) s = pre ++ ev (RunnerRun spec) y :: post
    /\ none is_runner pre /\ none is_runner post /\ spec = spec_for req p tok
    /\ (if ro_Denied o then y = Err tt /\ Reason o = ReasonRunnerStartFailed /\ ApprovalCause o = ""
        else y = Ok (ro_ExitCode o)).
Proof.
  cbv zeta. unfold result_of, trace_of. destruct (run h (Run req) s) as [[o s'] t] eqn:E. cbn [fst snd].
  apply Run_run_spec in E. destruct E as [|runID reason t f tail cause Hd Ht Hcause _|runID p t tok code f Ha];
    cbn [ro_Denied Reason ro_ExitCode ApprovalCause].
  - intros Hin. apply elem_of_cons in Hin as [[=]|Hin]. by inversion Hin.
  - rewrite calls_cons, calls_app, calls_cons, elem_of_cons, elem_of_app, elem_of_cons.
    intros [[=]|[Hin|[[=]|Hin]]].
    + apply (denial_runner_calls req reason t spec Hd) in Hin as (p & t0 & tok & Ha & Hs & -> & ->).
      eexists (_ :: t0 ++ [_]), (Err tt), _, p, tok. split_and!; [|..|done|done|done|by apply Hcause].
      * cbn [app]. by rewrite <- !app_assoc.
      * apply none_cons. split; [done|]. apply none_app. split; [by eapply authorized_none|by repeat constructor].
      * apply none_cons. split; [done|]. by apply none_causes.
    + exfalso. by eapply (none_not_in is_runner), Hin; [apply none_causes|].
  - rewrite calls_cons, calls_app, elem_of_cons, elem_of_app. intros [[=]|[Hin|Hin]].
    { exfalso. by eapply (none_not_in is_runner), Hin; [eapply authorized_none|]. }
    cbn in Hin. rewrite !elem_of_cons, elem_of_nil in Hin. destruct Hin as [[=]|[[= ->]|[[=]|[]]]].
    eexists (_ :: t ++ [_]), (Ok code), _, p, tok. split_and!; [|..|done|done].
    + cbn [app]. by rewrite <- !app_assoc.
    + apply none_cons. split; [done|]. apply none_app. split; [by eapply authorized_none|by repeat constructor].
    + by repeat constructor.
Qed.

Lemma executed_runner {S} (h : handler broker_call S) req s :
  ro_Denied (result_of h (Run req) s) = false ->
  exists spec, RunnerRun spec ∈ calls (trace_of h (Run req) s).
Proof.
  unfold result_of, trace_of. destruct (run h (Run req) s) as [[o s'] t] eqn:E. cbn [fst snd].
  apply Run_run_spec in E. destruct E as [| |runID p t tok code f Ha]; try done. intros _.
  exists (spec_for req p tok). rewrite calls_cons, calls_app. apply elem_of_cons. right.
  apply elem_of_app. right. apply list_elem_of_further, list_elem_of_here.
Qed.

(** ** Properties *)

(** C7: [Run] refines the decision matrix: whatever its collaborators do, every
    run is one of the specification: unaudited and refused, denied for one of
    the six other reasons after exactly the calls that reason allows, or
    executed after an authorization. *)
Theorem Run_refines_matrix {S} (h : handler broker_call S) req s :
  run_spec req (result_of h (Run req) s) (trace_of h (Run req) s).
Proof.
  unfold result_of, trace_of. destruct (run h (Run req) s) as [[o s'] t] eqn:E.
  by eapply Run_run_spec.
Qed.

(** Nothing is executed without authorization: if the runner is called at
    all then the start record was written first, the project exists, the
    working directory is the project's, the command is allowlisted for
    automatic use or a human approved exactly this prompt, and the token was
    resolved for the project's entry; the runner is given the requested argv
    and directory with the project's ID, and is called once. *)
Theorem no_execution_without_authorization {S} (h : handler broker_call S) req s spec :
  RunnerRun spec ∈ calls (trace_of h (Run req) s) ->
  exists runID p t0 tok res rest,
    trace_of h (Run req) s
      = ev (start_of req) (Ok runID) :: t0
        ++ ev (Resolve (TokenEntry p)) (Ok tok) :: ev (RunnerRun spec) res :: rest
    /\ authorized req p t0
    /\ spec = spec_for req p tok
    /\ none is_runner rest.
Proof. apply runner_called_authorized. Qed.

(** C13: the audit log brackets every run: the start record comes before any
    other call; if it cannot be written nothing else happens and the run is
    refused; otherwise exactly one finish record follows under the same run
    ID, stating the outcome the caller gets, with only the approver's cause
    asked for after it; and the caller is told when it could not be
    written. *)
Theorem audit_brackets_every_run {S} (h : handler broker_call S) req s :
  let o := result_of h (Run req) s in
  exists start rest,
    trace_of h (Run req) s = ev (start_of req) start :: rest
    /\ (start = Err tt -> rest = [] /\ o = mkRunOutcome true ReasonAuditUnavailable "" 0 false)
    /\ (forall runID, start = Ok runID -> exists t f tail,
          rest = t ++ ev (LoggerFinish runID
                           (if ro_Denied o then mkFinishRecord ("denied:" +:+ Reason o) None
                            else mkFinishRecord "executed" (Some (ro_ExitCode o)))) f :: tail
          /\ none is_logger t /\ only_causes tail
          /\ AuditIncomplete o = negb (is_ok f)).
Proof.
  cbv zeta. unfold result_of, trace_of. destruct (run h (Run req) s) as [[o s'] t] eqn:E. simpl.
  apply Run_run_spec in E. destruct E as [|runID reason t f tail cause Hd Ht _ _|runID p t tok code f Ha].
  - eexists _, _. split_and!; [done|done|]. done.
  - eexists _, _. split_and!; [done|done|]. intros ? [= <-]. exists t, f, tail. split_and!; try done.
    by eapply denial_none_logger.
  - eexists _, _. split_and!; [done|done|]. intros ? [= <-]. simpl.
    exists (t ++ [ev (Resolve (TokenEntry p)) (Ok tok); ev (RunnerRun (spec_for req p tok)) (Ok code)]), f, [].
    split_and!; [by rewrite <- app_assoc| |constructor|done].
    rewrite none_app, !none_cons. split_and!; [|done|done|constructor]. by eapply authorized_none.
Qed.

(** *** DryRun *)

(** The check, for symbolic links that resolve as [E] says. *)
Definition wd_pure (E : string -> option string) (p : Config.Project) (wd : string) : bool :=
  if String.eqb (WorkingDir p) "" then true
  else if String.eqb wd "" then false
  else match E (WorkingDir p), E wd with
       | Some a, Some r => String.eqb (Filepath.Clean a) (Filepath.Clean r)
       | _, _ => false
       end.

Definition links_stable {S} (h : handler broker_call S) (E : string -> option string) : Prop :=
  forall q s, fst (h (EvalSymlinks q) s) = E q.

Lemma working_dir_pure {S} (h : handler broker_call S) E p wd s :
  links_stable h E ->
  result_of h (working_dir_ok p wd) s = wd_pure E p wd
  /\ only_symlinks (trace_of h (working_dir_ok p wd) s).
Proof.
  intros HE. unfold result_of, trace_of, wd_pure.
  destruct (run h (working_dir_ok p wd) s) as [[b s'] t] eqn:Er. simpl. split.
  2:{ apply working_dir_run in Er. destruct b; [by eapply wd_accepted_symlinks|apply Er]. }
  unfold working_dir_ok, sameWorkingDir in Er.
  destruct (String.eqb (WorkingDir p) ""); cbn [negb] in Er; [by injection Er|].
  destruct (String.eqb wd ""); [by injection Er|]. simpl in Er.
  pose proof (HE (WorkingDir p) s) as H1. destruct (h (EvalSymlinks (WorkingDir p)) s) as [oa s1].
  simpl in H1. subst oa. destruct (E (WorkingDir p)) as [a|]; [|by injection Er]. simpl in Er.
  pose proof (HE wd s1) as H2. destruct (h (EvalSymlinks wd) s1) as [or s2]. simpl in H2. subst or.
  destruct (E wd) as [r|]; by injection Er.
Qed.

(** The verdict both [Run] and [DryRun] reach. *)
Definition verdict_pure (E : string -> option string) (req : RunRequest) : Verdict :=
  match lookup_project cfg (rr_Project req) with
  | None => VerdictDeny
  | Some p => if wd_pure E p (rr_WorkingDir req) then decide p (rr_Argv req) else VerdictDeny
  end.

Lemma DryRun_pure {S} (h : handler broker_call S) E req s :
  links_stable h E ->
  let d := DryRun (rr_Project req) (rr_WorkingDir req) (rr_Argv req) in
  dr_Verdict (result_of h d s) = verdict_pure E req /\ only_symlinks (trace_of h d s).
Proof.
  intros HE. unfold DryRun, verdict_pure, result_of, trace_of. cbv zeta.
  destruct (lookup_project cfg (rr_Project req)) as [p|]; [|by split; [|constructor]].
  destruct (working_dir_pure h E p (rr_WorkingDir req) s HE) as [Hr Ht].
  unfold result_of, trace_of in Hr, Ht. rewrite run_bind.
  destruct (run h (working_dir_ok p (rr_WorkingDir req)) s) as [[b s'] t]. simpl in Hr, Ht. subst b.
  destruct (wd_pure E p (rr_WorkingDir req)); simpl; rewrite ?app_nil_r; [|done].
  by destruct (decide p (rr_Argv req)).
Qed.

Lemma execute_resolves {S} (h : handler broker_call S) runID p req s :
  Resolve (TokenEntry p) ∈ calls (trace_of h (execute runID p req) s)
  /\ none is_approve (trace_of h (execute runID p req) s).
Proof.
  unfold trace_of, execute. simpl. destruct (h (Resolve _) s) as [[tok|[]] s1]; simpl.
  2:{ destruct (h (LoggerFinish _ _) s1). split; [by left|]. by repeat constructor. }
  destruct (h (RunnerRun _) s1) as [[code|[]] s2]; simpl; destruct (h (LoggerFinish _ _) s2);
    (split; [by left|]); by repeat constructor.
Qed.

Lemma deny_approval_calls {S} (h : handler broker_call S) runID s :
  none is_resolve (trace_of h (deny_approval runID) s)
  /\ none is_runner (trace_of h (deny_approval runID) s).
Proof.
  unfold trace_of, deny_approval. simpl. destruct (h (LoggerFinish _ _) s) as [f s1].
  destruct cause_provider; simpl; [|by split; repeat constructor].
  destruct (h ApproveCause s1) as [c s2]. destruct (negb (String.eqb c "")); simpl; [|by split; repeat constructor].
  destruct (h ApproveCause s2). by split; repeat constructor.
Qed.

(** C40: a dry run predicts the run: where symbolic links resolve the same way,
    [DryRun] only resolves links, and its verdict is what [Run] acts on once
    its start record is written: on deny nobody is asked and no token is
    resolved, on allow the token is resolved without asking, and on prompt
    the human is asked and the token is resolved only after an approval. *)
Theorem DryRun_predicts_Run {S} (h : handler broker_call S) E req s runID :
  links_stable h E -> fst (h (start_of req) s) = Ok runID ->
  let d := DryRun (rr_Project req) (rr_WorkingDir req) (rr_Argv req) in
  let t := trace_of h (Run req) s in
  only_symlinks (trace_of h d s)
  /\ match dr_Verdict (result_of h d s) with
     | VerdictDeny =>
         none is_approve t /\ none is_resolve t /\ none is_runner t
         /\ ro_Denied (result_of h (Run req) s) = true
     | VerdictAllow =>
         none is_approve t /\ exists p, Resolve (TokenEntry p) ∈ calls t
     | VerdictPrompt =>
         exists a, ev (Approve (prompt_for req)) a ∈ t
           /\ (a = Ok Approved -> exists p, Resolve (TokenEntry p) ∈ calls t)
           /\ (a <> Ok Approved -> none is_resolve t /\ none is_runner t)
     end.
Proof.
  intros HE Hs. destruct (DryRun_pure h E req s HE) as [Hv Ht]. cbv zeta in *. split; [done|].
  rewrite Hv. clear Hv Ht. unfold verdict_pure, result_of, trace_of, Run. simpl. fold (start_of req).
  destruct (h (start_of req) s) as [a s1]. simpl in Hs. subst a. simpl.
  destruct (lookup_project cfg (rr_Project req)) as [p|].
  2:{ simpl. destruct (h (LoggerFinish _ _) s1). simpl. split_and!; by repeat constructor. }
  destruct (working_dir_pure h E p (rr_WorkingDir req) s1 HE) as [Hr Ht].
  unfold result_of, trace_of in Hr, Ht.
  change (prog_bind_def ?f ?p) with (p ≫= f). rewrite run_bind.
  destruct (run h (working_dir_ok p (rr_WorkingDir req)) s1) as [[b s2] tw]. simpl in Hr, Ht. subst b.
  assert (Hn : forall P, (forall q, P (EvalSymlinks q) = false) -> none P tw)
    by (intros; by apply none_symlinks).
  destruct (wd_pure E p (rr_WorkingDir req)); cbn [negb].
  2:{ simpl. destruct (h (LoggerFinish _ _) s2). simpl. rewrite !none_cons, !none_app.
      split_and!; try done; try (by apply Hn); by repeat constructor. }
  unfold switch_verdict. destruct (decide p (rr_Argv req)).
  - simpl. destruct (h (LoggerFinish _ _) s2). simpl. rewrite !none_cons, !none_app.
    split_and!; try done; try (by apply Hn); by repeat constructor.
  - destruct (execute_resolves h runID p req s2) as [Hx1 Hx2]. unfold trace_of in Hx1, Hx2.
    destruct (run h (execute runID p req) s2) as [[o s3] t3]. simpl in *.
    rewrite none_cons, none_app. split; [split; [done|split; [by apply Hn|done]]|].
    exists p. unfold calls in *. rewrite fmap_app. set_solver.
  - simpl. fold (prompt_for req). destruct (h (Approve (prompt_for req)) s2) as [a s3].
    exists a. case_bool_decide as Ha.
    + destruct (execute_resolves h runID p req s3) as [Hx1 Hx2]. unfold trace_of in Hx1, Hx2.
      destruct (run h (execute runID p req) s3) as [[o s4] t3]. simpl in *.
      split; [set_solver|]. split; [|done]. intros _. exists p. unfold calls in *.
      rewrite fmap_app. set_solver.
    + destruct (deny_approval_calls h runID s3) as [Hx1 Hx2]. unfold trace_of in Hx1, Hx2.
      destruct (run h (deny_approval runID) s3) as [[o s4] t3]. simpl in *.
      split; [set_solver|]. split; [done|]. intros _. rewrite !none_cons, !none_app, !none_cons.
      split_and!; try done; by apply Hn.
Qed.

End Broker.

(** The decision matrix is the documented one: [always] asks for any argv;
    an argv on the allowlist is asked about in mode [allowlisted-prompt] and
    allowed in every other mode; an argv not on it is asked about in mode
    [prompt] and denied in every other mode, unknown modes included. *)
Theorem decide_matrix (p : Config.Project) argv :
  let listed := argv ∈ map Argv (Allow p) in
  (decide p argv = VerdictPrompt <->
     Approval p = "always" \/ (listed /\ Approval p = "allowlisted-prompt")
     \/ (~ listed /\ Approval p = "prompt"))
  /\ (decide p argv = VerdictAllow <->
        listed /\ Approval p <> "always" /\ Approval p <> "allowlisted-prompt")
  /\ (decide p argv = VerdictDeny <->
        ~ listed /\ Approval p <> "always" /\ Approval p <> "prompt").
Proof.
  cbv zeta. unfold decide, ApprovalAlways, ApprovalAllowlistedPrompt, ApprovalPrompt, AllowArgv.
  destruct (String.eqb_spec (Approval p) "always") as [->|Ha].
  { split_and!; split; try done; try tauto; naive_solver. }
  destruct (Match (map Argv (Allow p)) argv) eqn:Em; [apply Match_iff in Em|apply Match_false in Em]; simpl.
  - destruct (String.eqb_spec (Approval p) "allowlisted-prompt"); split_and!; split; try done; tauto.
  - destruct (String.eqb_spec (Approval p) "prompt"); split_and!; split; try done; tauto.
Qed.

(** ** The prompt *)

Lemma prompt_lines_inj i argv argv' :
  Strings.Join (prompt_lines i argv) (str1 LF) = Strings.Join (prompt_lines i argv') (str1 LF) ->
  argv = argv'.
Proof.
  assert (Hj : forall i a l, Strings.Join (prompt_lines i (a :: l)) (str1 LF)
    = "  argv[" +:+ Itoa.Itoa i +:+ "] = " +:+ Strconv.QuoteToASCII a
      +:+ match l with [] => "" | _ => str1 LF +:+ Strings.Join (prompt_lines (i + 1) l) (str1 LF) end).
  { intros j a [|b l]; cbn [prompt_lines Strings.Join].
    - by rewrite append_empty_r.
    - by rewrite !append_assoc. }
  revert i argv'. induction argv as [|a argv IH]; intros i [|b argv']; [done| | |];
    rewrite ?Hj; [by intros|by intros|].
  intros H. do 3 apply (inj (String.append _)) in H.
  apply Strconv.quote_with_inj in H as [-> H]. f_equal.
  destruct argv as [|a' argv], argv' as [|b' argv']; [done|done|done|].
  apply (inj (String.append _)) in H. by apply (IH (i + 1)).
Qed.

Lemma prompt_lines_printable i argv :
  Forall (fun l => all_bytes Strconv.printable_ascii l = true) (prompt_lines i argv).
Proof.
  revert i. induction argv as [|a argv IH]; intros i; cbn [prompt_lines]; constructor; [|apply IH].
  rewrite !all_bytes_app, Strconv.QuoteToASCII_printable, Itoa.Itoa_all; [done|].
  intros c. pose proof (forall_ascii (fun c => implb (Itoa.itoa_char c) (Strconv.printable_ascii c))
                          ltac:(vm_compute; reflexivity) c) as Hc.
  simpl in Hc. intros Hi. by rewrite Hi in Hc.
Qed.

(** The prompt survives a trip through JSON: it is valid UTF-8. *)
Lemma formatPrompt_valid up project workingDir argv :
  Utf8.ValidString (formatPrompt up project workingDir argv) = true.
Proof.
  unfold formatPrompt.
  assert (Hl : Utf8.ValidString (Strings.Join (prompt_lines 0 argv) (str1 LF)) = true).
  { apply Utf8.ValidString_ascii, Strings.all_bytes_Join; [|done]. intros w Hw.
    pose proof (prompt_lines_printable 0 argv) as H. rewrite Forall_forall in H.
    specialize (H w Hw). revert H. apply all_bytes_impl. intros c.
    unfold Strconv.printable_ascii, Utf8.is_ascii. rewrite andb_true_iff, !Z.leb_le, Z.ltb_lt. lia. }
  pose proof (Strconv.Quote_valid up project) as Hp.
  pose proof (Strconv.printable_is_ascii _ (Strconv.QuoteToASCII_printable workingDir)) as Hw.
  repeat (apply Utf8.ValidString_app; [done|]). exact Hl.
Qed.

(** C33: the human sees what will run: the prompt determines the project, the
    working directory and every argument, so no two different requests show
    the same prompt, and each argument stands on a line of its own of
    printable ASCII only, whatever bytes it holds. *)
Theorem formatPrompt_faithful up project workingDir argv :
  (forall project' workingDir' argv',
     formatPrompt up project workingDir argv = formatPrompt up project' workingDir' argv' ->
     project = project' /\ workingDir = workingDir' /\ argv = argv')
  /\ length (prompt_lines 0 argv) = length argv
  /\ Forall (fun l => all_bytes Strconv.printable_ascii l = true) (prompt_lines 0 argv).
Proof.
  split_and!.
  - intros project' workingDir' argv' H. unfold formatPrompt in H.
    apply (inj (String.append _)) in H. apply Strconv.quote_with_inj in H as [-> H].
    do 4 apply (inj (String.append _)) in H. apply Strconv.quote_with_inj in H as [-> H].
    apply (inj (String.append _)) in H. by apply prompt_lines_inj in H.
  - generalize 0. induction argv as [|a argv IH]; intros i; simpl; [done|]. by rewrite IH.
  - apply prompt_lines_printable.
Qed.

(** ** The token *)

Definition blank_token (spec : RunSpec) : RunSpec :=
  mkRunSpec (ProjectID spec) (mkToken "") (spec_WorkingDir spec) (spec_Argv spec).

(** An event with the token's value removed. *)
Definition erase (e : event broker_call) : event broker_call :=
  let 'existT c r := e in
  match c return answer c -> event broker_call with
  | Resolve entry => fun r => ev (Resolve entry) ((fun _ => mkToken "") <$> (r : result unit Token))
  | RunnerRun spec => fun r => ev (RunnerRun (blank_token spec)) r
  | c => fun r => ev c r
  end r.

(** Two environments that differ at most in the value of the token, and in
    what the runner makes of it. *)
Record same_but_token {S} (h1 h2 : handler broker_call S) : Prop := {
  same_calls : forall c s, is_resolve c = false -> is_runner c = false -> h1 c s = h2 c s;
  same_resolve : forall entry s,
    snd (h1 (Resolve entry) s) = snd (h2 (Resolve entry) s)
    /\ is_ok (fst (h1 (Resolve entry) s) : result unit Token)
       = is_ok (fst (h2 (Resolve entry) s) : result unit Token);
}.

(** What a run ends with after the runner's answer [x], where [f] is the
    answer to its finish record. *)
Definition runner_record (x : result unit Z) : FinishRecord :=
  match x with
  | Ok code => mkFinishRecord "executed" (Some code)
  | Err _ => mkFinishRecord "denied:runner_start_failed" None
  end.

Definition runner_outcome (x : result unit Z) (f : result unit unit) : RunOutcome :=
  match x with
  | Ok code => mkRunOutcome false "" "" code (negb (is_ok f))
  | Err _ => mkRunOutcome true "runner_start_failed" "" 0 (negb (is_ok f))
  end.

Section Token.
#[local] Set Default Proof Using "Type*".
Context {S : Type} (h1 h2 : handler broker_call S) (Hh : same_but_token h1 h2).

Notation execution := (fun A => A * S * list (event broker_call))%type.

(** Two executions, in [h1] and in [h2], that agree but for the token's value:
    to their end, the runner being called in neither; or up to the runner,
    which is called from one state with requests that differ in the token
    only, and whose answer settles the rest. *)
Inductive token_apart : execution RunOutcome -> execution RunOutcome -> Prop :=
| SameRun o s t1 t2 :
    none is_runner t1 -> none is_runner t2 -> map erase t1 = map erase t2 ->
    token_apart (o, s, t1) (o, s, t2)
| RunnerDecides runID pre1 pre2 spec1 spec2 s x1 x2 s1 s2 f1 f2 s1' s2' :
    none is_runner pre1 -> none is_runner pre2 -> map erase pre1 = map erase pre2 ->
    blank_token spec1 = blank_token spec2 ->
    h1 (RunnerRun spec1) s = (x1, s1) -> h2 (RunnerRun spec2) s = (x2, s2) ->
    h1 (LoggerFinish runID (runner_record x1)) s1 = (f1, s1') ->
    h2 (LoggerFinish runID (runner_record x2)) s2 = (f2, s2') ->
    token_apart
      (runner_outcome x1 f1, s1',
       pre1 ++ [ev (RunnerRun spec1) x1; ev (LoggerFinish runID (runner_record x1)) f1])
      (runner_outcome x2 f2, s2',
       pre2 ++ [ev (RunnerRun spec2) x2; ev (LoggerFinish runID (runner_record x2)) f2]).

(** The two environments cannot be told apart by [p] from [s]. *)
Definition alike {A} (p : prog broker_call A) (s : S) : Prop :=
  exists a s' t1 t2, run h1 p s = (a, s', t1) /\ run h2 p s = (a, s', t2)
    /\ none is_runner t1 /\ none is_runner t2 /\ map erase t1 = map erase t2.

Definition apart (p : prog broker_call RunOutcome) (s : S) : Prop := token_apart (run h1 p s) (run h2 p s).

Lemma alike_Ret {A} (a : A) s : alike (Ret a) s.
Proof. exists a, s, [], []. by split_and!; try apply none_nil. Qed.

Lemma alike_Call {A} c (k : answer c -> prog broker_call A) s :
  is_resolve c = false -> is_runner c = false -> (forall r s', alike (k r) s') -> alike (Call c k) s.
Proof.
  intros H1 H2 Hk. unfold alike. simpl. rewrite (same_calls _ _ Hh c s H1 H2).
  destruct (h2 c s) as [r s1]. destruct (Hk r s1) as (a & s' & t1 & t2 & -> & -> & Hn1 & Hn2 & Ht).
  exists a, s', (ev c r :: t1), (ev c r :: t2). split_and!; [done|done|by apply none_cons..|]. simpl. by rewrite Ht.
Qed.

Lemma alike_bind {A B} (p : prog broker_call A) (f : A -> prog broker_call B) s :
  alike p s -> (forall a s', alike (f a) s') -> alike (p ≫= f) s.
Proof.
  unfold alike. intros (a & s1 & t1 & t2 & E1 & E2 & Hn1 & Hn2 & Ht) Hf. setoid_rewrite run_bind. rewrite E1, E2.
  destruct (Hf a s1) as (b & s2 & u1 & u2 & -> & -> & Hm1 & Hm2 & Hu).
  exists b, s2, (t1 ++ u1), (t2 ++ u2). rewrite !map_app, Ht, Hu, !none_app. done.
Qed.

Lemma alike_apart p s : alike p s -> apart p s.
Proof. intros (a & s' & t1 & t2 & E1 & E2 & ? & ? & ?). unfold apart. rewrite E1, E2. by apply SameRun. Qed.

(** More calls in front. *)
Lemma token_apart_app t1 t2 x1 x2 :
  none is_runner t1 -> none is_runner t2 -> map erase t1 = map erase t2 -> token_apart x1 x2 ->
  token_apart (x1.1, t1 ++ x1.2) (x2.1, t2 ++ x2.2).
Proof.
  intros Hn1 Hn2 Ht H. destruct H as [o s u1 u2 ? ? Hu|runID pre1 pre2 spec1 spec2 s y1 y2 s1 s2 f1 f2 s1' s2' ? ? Hu];
    cbn [fst snd].
  - apply SameRun; rewrite ?none_app; try done. by rewrite !map_app, Ht, Hu.
  - rewrite !app_assoc. eapply RunnerDecides; rewrite ?none_app; try done. by rewrite !map_app, Ht, Hu.
Qed.

Lemma apart_bind {A} (p : prog broker_call A) f s :
  alike p s -> (forall a s', apart (f a) s') -> apart (p ≫= f) s.
Proof.
  intros (a & s1 & t1 & t2 & E1 & E2 & Hn1 & Hn2 & Ht) Hf. unfold apart. rewrite !run_bind, E1, E2.
  specialize (Hf a s1). unfold apart in Hf. pose proof (token_apart_app t1 t2 _ _ Hn1 Hn2 Ht Hf) as H.
  by destruct (run h1 (f a) s1) as [[? ?] ?], (run h2 (f a) s1) as [[? ?] ?].
Qed.

Lemma apart_Call c (k : answer c -> prog broker_call RunOutcome) s :
  is_resolve c = false -> is_runner c = false -> (forall r s', apart (k r) s') -> apart (Call c k) s.
Proof.
  intros H1 H2 Hk. apply (apart_bind (call c) k); [|done].
  apply alike_Call; [done|done|]. intros. apply alike_Ret.
Qed.

Lemma alike_deny runID reason s : alike (deny runID reason) s.
Proof. apply alike_Call; [done|done|]. intros. apply alike_Ret. Qed.

Lemma apart_execute runID p req s : apart (execute runID p req) s.
Proof.
  unfold execute. destruct (same_resolve _ _ Hh (TokenEntry p) s) as [H1 H2].
  unfold apart. rewrite !run_bind. unfold call. cbn [run].
  destruct (h1 (Resolve (TokenEntry p)) s) as [[tok1|[]] s1],
    (h2 (Resolve (TokenEntry p)) s) as [[tok2|[]] s2]; simpl in H1, H2; try done; subst s2.
  - destruct (h1 (RunnerRun (spec_for req p tok1)) s1) as [x1 u1] eqn:E1,
      (h2 (RunnerRun (spec_for req p tok2)) s1) as [x2 u2] eqn:E2.
    destruct (h1 (LoggerFinish runID (runner_record x1)) u1) as [f1 v1] eqn:F1,
      (h2 (LoggerFinish runID (runner_record x2)) u2) as [f2 v2] eqn:F2.
    assert (Hr : token_apart
      (runner_outcome x1 f1, v1, [ev (Resolve (TokenEntry p)) (Ok tok1)]
         ++ [ev (RunnerRun (spec_for req p tok1)) x1; ev (LoggerFinish runID (runner_record x1)) f1])
      (runner_outcome x2 f2, v2, [ev (Resolve (TokenEntry p)) (Ok tok2)]
         ++ [ev (RunnerRun (spec_for req p tok2)) x2; ev (LoggerFinish runID (runner_record x2)) f2]))
      by (eapply RunnerDecides; try done; by repeat constructor).
    unfold spec_for in *. cbn. rewrite E1, E2.
    destruct x1 as [code1|[]], x2 as [code2|[]]; unfold deny, ReasonRunnerStartFailed in *; cbn in *; rewrite F1, F2; exact Hr.
  - cbn. rewrite (same_calls _ _ Hh (LoggerFinish _ _)) by done.
    destruct (h2 (LoggerFinish _ _) s1) as [f s3]. cbn. apply SameRun; by repeat constructor.
Qed.

Lemma alike_deny_approval cp runID s : alike (deny_approval cp runID) s.
Proof.
  apply alike_bind; [apply alike_deny|]. intros o s'. destruct cp; [|apply alike_Ret].
  apply alike_Call; [done|done|]. intros c s2. case_match; [|apply alike_Ret].
  apply alike_Call; [done|done|]. intros. apply alike_Ret.
Qed.

Lemma alike_working_dir p wd s : alike (working_dir_ok p wd) s.
Proof.
  unfold working_dir_ok, sameWorkingDir. repeat (case_match; [|apply alike_Ret]).
  case_match; [apply alike_Ret|]. apply alike_Call; [done|done|].
  intros [a|] s1; [|apply alike_Ret]. apply alike_Call; [done|done|].
  intros [r|] s2; apply alike_Ret.
Qed.

(** C35: the token's value reaches nothing but the runner.  Take any two
    environments that differ only in the token that is resolved and in what
    the runner answers, which may depend on it.  Either the runner is called
    in neither run, and both make the same calls, in the log and the prompt
    too, reach the same state and return the same outcome; or the two runs
    are the same up to the runner, which is called in the same state with
    requests that differ in the token only, and each then makes one more
    call, a finish record that is a function of the runner's answer, and
    returns an outcome that is a function of that answer and the log's.  Calls
    are compared up to the token in the resolver's answer. *)
Theorem Run_token_confined up cfg cp req s :
  token_apart (run h1 (Run up cfg cp req) s) (run h2 (Run up cfg cp req) s).
Proof.
  apply apart_Call; [done|done|]. intros [runID|e] s1; [|apply alike_apart, alike_Ret].
  destruct (lookup_project cfg (rr_Project req)) as [p|]; [|apply alike_apart, alike_deny].
  apply apart_bind; [apply alike_working_dir|].
  intros [|] s2; cbn [negb]; [|apply alike_apart, alike_deny].
  unfold switch_verdict. destruct (decide p (rr_Argv req));
    [apply alike_apart, alike_deny|apply apart_execute|].
  apply apart_Call; [done|done|]. intros a s3.
  case_bool_decide; [apply apart_execute|apply alike_apart, alike_deny_approval].
Qed.

End Token.

(** ** Witnesses *)

Definition example_project : Config.Project :=
  mkProject "p" "id" "entry" "" "never" [mkAllowEntry ["git"; "push"]].

Definition example_cfg : Config.Config :=
  mkConfig (mkRuntime "/bin/bws" "/bin" "/") (mkTokenSource "file" (mkEnvSource "") (mkFileSource "/t"))
    (mkApprovalSource "tailscale-relay" (mkTailscaleRelaySource "http://r" 2 300)) [example_project].

Definition example_request : RunRequest := mkRunRequest "p" "/w" ["git"; "push"].

(** Collaborators that all succeed; the token's value is an argument. *)
Definition willing (token : string) : handler broker_call unit := fun c s =>
  match c return answer c * unit with
  | LoggerStart _ => (Ok "run", s)
  | LoggerFinish _ _ => (Ok tt, s)
  | EvalSymlinks q => (Some q, s)
  | Approve _ => (Ok Approved, s)
  | ApproveCause => ("", s)
  | Resolve _ => (Ok (mkToken token), s)
  | RunnerRun _ => (Ok 0, s)
  end.

Lemma no_execution_without_authorization_witness :
  exists runID p t0 tok res rest,
    trace_of (willing "t") (Run (fun _ => false) example_cfg false example_request) tt
      = ev (start_of example_request) (Ok runID) :: t0
        ++ ev (Resolve (TokenEntry p)) (Ok tok)
        :: ev (RunnerRun (spec_for example_request example_project (mkToken "t"))) res :: rest.
Proof.
  destruct (no_execution_without_authorization (fun _ => false) example_cfg false (willing "t")
              example_request tt (spec_for example_request example_project (mkToken "t")))
    as (runID & p & t0 & tok & res & rest & H & _).
  - vm_compute. right. right. left.
  - exists runID, p, t0, tok, res, rest. exact H.
Defined.

Lemma DryRun_predicts_Run_witness :
  exists p, Resolve (TokenEntry p) ∈ calls
    (trace_of (willing "t") (Run (fun _ => false) example_cfg false example_request) tt).
Proof.
  destruct (DryRun_predicts_Run (fun _ => false) example_cfg false (willing "t") Some
              example_request tt "run" ltac:(intros q s; reflexivity) ltac:(reflexivity)) as [_ H].
  vm_compute in H. destruct H as [_ [p Hp]]. exists p. exact Hp.
Defined.

(** The token's value is an argument, and the runner refuses an empty one. *)
Definition picky (token : string) : handler broker_call unit := fun c s =>
  match c as c' return answer c' * unit -> answer c' * unit with
  | RunnerRun spec => fun _ => (if Token.Empty (spec_Token spec) then Err tt else Ok 0, s)
  | _ => id
  end (willing token c s).

Lemma picky_same : same_but_token (picky "t") (picky "").
Proof. constructor; [by intros []|by intros]. Qed.

(** The runner tells the two apart, and nothing before it does. *)
Lemma Run_token_confined_witness :
  token_apart (picky "t") (picky "") (run (picky "t") (Run (fun _ => false) example_cfg false example_request) tt)
    (run (picky "") (Run (fun _ => false) example_cfg false example_request) tt)
  /\ result_of (picky "t") (Run (fun _ => false) example_cfg false example_request) tt
     <> result_of (picky "") (Run (fun _ => false) example_cfg false example_request) tt.
Proof.
  split; [|vm_compute; discriminate].
  apply (Run_token_confined (picky "t") (picky "") picky_same).
Defined.
