(* ===== verification/Protocol.v ===== *)
(** * Protocol: requests, frames and the client (internal/worker)

    protocol.go and client.go: what a request must be, the frames a worker
    answers with, and the client's loop over them.  Encoding and decoding a
    value are encoding/json's: the server's stream is its list of frames, and
    [json_request] is the decoder of a request. *)

From S2P Require Import Prelude GoStrings GoText Effects Exec Http.

#[local] Open Scope Z_scope.

Definition maxRequestBytes : Z := 65536.

Definition frameStdout : string := "stdout".
Definition frameStderr : string := "stderr".
Definition frameResult : string := "result".
Definition frameError : string := "error".

Record Request := mkRequest {
  Project : string;
  WorkingDir : string;
  Argv : list string;
  is_DryRun : bool;
}.

Record Result := mkResult {
  res_Denied : bool;
  res_Reason : string;
  res_Cause : string;
  res_ExitCode : Z;
}.

Record frame := mkFrame {
  Type_ : string;
  Data : string;
  frame_Result : option Result;
  Message : string;
}.

#[export] Instance Request_eq_dec : EqDecision Request. Proof. solve_decision. Defined.
#[export] Instance Result_eq_dec : EqDecision Result. Proof. solve_decision. Defined.

Inductive protocol_error : Type :=
| EReadingRequest
| ERequestExceeds
| EDecodingRequest
| ENotOneObject
| EProjectRequired
| EWorkingDirRequired
| EArgvRequired.

Section Decode.
(** The first value of the data as a request without unknown members, and
    whether nothing but white space follows it. *)
Context (json_request : string -> option (Request * bool)).

(** [decodeRequest], given the bytes of the reader and whether reading them
    fails within the limit. *)
Definition decodeRequest (input : string) (read_fails : bool) : result protocol_error Request :=
  let data := Strings.take (Z.to_nat (maxRequestBytes + 1)) input in
  fail_if read_fails with EReadingRequest;
  fail_if maxRequestBytes <? len data with ERequestExceeds;
  match json_request data with
  | None => Err EDecodingRequest
  | Some (req, alone) =>
      fail_if negb alone with ENotOneObject;
      fail_if String.eqb (Project req) "" with EProjectRequired;
      fail_if String.eqb (WorkingDir req) "" with EWorkingDirRequired;
      fail_if Nat.eqb (length (Argv req)) 0 with EArgvRequired;
      Ok req
  end.
End Decode.

(** ** The client *)

Definition DefaultSudoBinary : string := "/usr/bin/sudo".
Definition DefaultWorkerBinary : string := "/usr/local/libexec/secrets-broker-worker".
Definition DefaultWorkerUser : string := "secrets-broker".

Record Client := mkClient {
  sudoBinary : string;
  workerBinary : string;
  workerUser : string;
}.

Definition NewClient : Client := mkClient DefaultSudoBinary DefaultWorkerBinary DefaultWorkerUser.

(** What the client asks of its environment.  [Receive] is one [Decode] of the
    worker's output. *)
Inductive received : Type :=
| Frame (f : frame)
| EndOfFile
| BadFrame.

Inductive client_call : Type :=
| StdinPipe
| StdoutPipe
| StartCommand (name : string) (args : list string) (env : list string)
| Send (req : Request)
| CloseStdin
| Receive
| WriteTo (st : stream) (data : string)
| Wait.

#[export] Instance client_interface : Interface client_call := fun c =>
  match c with
  | Receive => received
  | _ => result string unit
  end.

Inductive client_error : Type :=
| EOpeningStdin
| EOpeningStdout
| EStartingWorker
| ESendingRequest
| EClosingRequest
| EDecodingResponse
| EWritingStdout
| EWritingStderr
| EWorker (msg : string)
| EUnknownFrame (ty : string)
| ENoResult
| ENoResultExit (e : string)
| EExitAfterResult (e : string).

Definition client_args (c : Client) : list string := ["-n"; "-u"; workerUser c; "--"; workerBinary c].
Definition client_env : list string := ["PATH=/usr/sbin:/usr/bin:/sbin:/bin"; "LANG=C.UTF-8"].

(** [_ = cmd.Wait()], then the error. *)
Definition wait_err {A} (e : client_error) : prog client_call (result client_error A) :=
  _ ← call Wait; mret (Err e).

(** After the loop. *)
Definition finish (res : option Result) : prog client_call (result client_error Result) :=
  w ← call Wait;
  mret match res, (w : result string unit) with
       | None, Err e => Err (ENoResultExit e)
       | None, Ok _ => Err ENoResult
       | Some _, Err e => Err (EExitAfterResult e)
       | Some r, Ok _ => Ok r
       end.

(** The [for] loop, one unit of fuel for each [Decode]; [None] when the fuel
    runs out. *)
Fixpoint receive_loop (fuel : nat) (res : option Result)
    : prog client_call (option (result client_error Result)) :=
  match fuel with
  | O => mret None
  | S fuel =>
      m ← call Receive;
      match (m : received) with
      | EndOfFile => r ← finish res; mret (Some r)
      | BadFrame => r ← wait_err EDecodingResponse; mret (Some r)
      | Frame f =>
          if String.eqb (Type_ f) frameStdout then
            w ← call (WriteTo StdoutStream (Data f));
            match (w : result string unit) with
            | Err _ => r ← wait_err EWritingStdout; mret (Some r)
            | Ok _ => receive_loop fuel res
            end
          else if String.eqb (Type_ f) frameStderr then
            w ← call (WriteTo StderrStream (Data f));
            match (w : result string unit) with
            | Err _ => r ← wait_err EWritingStderr; mret (Some r)
            | Ok _ => receive_loop fuel res
            end
          else if String.eqb (Type_ f) frameResult then receive_loop fuel (frame_Result f)
          else if String.eqb (Type_ f) frameError then
            r ← wait_err (EWorker (Message f)); mret (Some r)
          else r ← wait_err (EUnknownFrame (Type_ f)); mret (Some r)
      end
  end.

(** [Client.Run] *)
Definition ClientRun (fuel : nat) (c : Client) (req : Request)
    : prog client_call (option (result client_error Result)) :=
  a ← call StdinPipe;
  match (a : result string unit) with Err _ => mret (Some (Err EOpeningStdin)) | Ok _ =>
  b ← call StdoutPipe;
  match (b : result string unit) with Err _ => mret (Some (Err EOpeningStdout)) | Ok _ =>
  s ← call (StartCommand (sudoBinary c) (client_args c) client_env);
  match (s : result string unit) with Err _ => mret (Some (Err EStartingWorker)) | Ok _ =>
  d ← call (Send req);
  match (d : result string unit) with
  | Err _ => _ ← call CloseStdin; r ← wait_err ESendingRequest; mret (Some r)
  | Ok _ =>
      e ← call CloseStdin;
      match (e : result string unit) with
      | Err _ => r ← wait_err EClosingRequest; mret (Some r)
      | Ok _ => receive_loop fuel None
      end
  end end end end.

(** ** A worker's whole output *)

(** A child whose output is [frames], then the end or garbage; everything else
    it is asked succeeds, but for [Wait]. *)
Record child := mkChild {
  frames : list frame;
  garbled : bool;
  exit_err : option string;
}.

Definition child_handler : handler client_call child := fun c s =>
  match c return answer c * child with
  | Receive =>
      match frames s with
      | f :: fs => (Frame f, mkChild fs (garbled s) (exit_err s))
      | [] => (if garbled s then BadFrame else EndOfFile, s)
      end
  | Wait => (match exit_err s with None => Ok tt | Some e => Err e end, s)
  | _ => (Ok tt, s)
  end.

Definition is_output (f : frame) : Prop := Type_ f = frameStdout \/ Type_ f = frameStderr.

Definition out_stream (f : frame) : stream :=
  if String.eqb (Type_ f) frameStdout then StdoutStream else StderrStream.

(** What the client writes for a list of frames. *)
Definition write_of (f : frame) : event client_call :=
  ev (WriteTo (out_stream f) (Data f)) (Ok tt).

(** ** Lemmas *)

(** The result after the frames, as the loop's variable holds it. *)
Definition note_result (acc : option Result) (f : frame) : option Result :=
  if String.eqb (Type_ f) frameResult then frame_Result f else acc.

Definition last_result (res : option Result) (fs : list frame) : option Result :=
  foldl note_result res fs.

Definition is_result (f : frame) : Prop := Type_ f = frameResult.

(** The events of receiving a frame that does not end the loop. *)
Definition delivered (f : frame) : list (event client_call) :=
  ev Receive (Frame f) :: (if String.eqb (Type_ f) frameResult then [] else [write_of f]).

Lemma loop_prefix fs tail g x res fuel :
  Forall (fun f => is_output f \/ is_result f) fs ->
  run child_handler (receive_loop (length fs + fuel) res) (mkChild (fs ++ tail) g x)
  = (let '(r, s, t) := run child_handler (receive_loop fuel (last_result res fs)) (mkChild tail g x) in
     (r, s, concat (map delivered fs) ++ t)).
Proof.
  intros H. revert res. induction H as [|f fs Hf _ IH]; intros res.
  { cbn [length Nat.add app last_result foldl]. by destruct (run _ _ _) as [[? ?] ?]. }
  cbn [length Nat.add app receive_loop]. simpl run. unfold delivered, write_of, out_stream, note_result.
  destruct Hf as [[Hf|Hf]|Hf]; rewrite Hf; cbn [String.eqb Ascii.eqb Bool.eqb frameStdout frameStderr frameResult];
    simpl; rewrite IH; unfold note_result; rewrite Hf; simpl; by destruct (run _ _ _) as [[? ?] ?].
Qed.

(** The frames before the first that ends the loop. *)
Lemma frames_split fs :
  Forall (fun f => is_output f \/ is_result f) fs
  \/ exists l f r, fs = l ++ f :: r /\ Forall (fun f => is_output f \/ is_result f) l
       /\ ~ (is_output f \/ is_result f).
Proof.
  induction fs as [|f fs IH]; [by left|].
  assert (Hd : {is_output f \/ is_result f} + {~ (is_output f \/ is_result f)}).
  { unfold is_output, is_result. destruct (decide (Type_ f = frameStdout)); [left; tauto|].
    destruct (decide (Type_ f = frameStderr)); [left; tauto|].
    destruct (decide (Type_ f = frameResult)); [left; tauto|right; tauto]. }
  destruct Hd as [Hf|Hf].
  - destruct IH as [IH|(l & g & r & -> & Hl & Hg)]; [left; by constructor|].
    right. exists (f :: l), g, r. split; [done|]. split; [by constructor|done].
  - right. by exists [], f, fs.
Qed.

Lemma run_ClientRun fuel c req ch :
  run child_handler (ClientRun fuel c req) ch
  = let '(r, s, t) := run child_handler (receive_loop fuel None) ch in
    (r, s, ev StdinPipe (Ok tt) :: ev StdoutPipe (Ok tt)
           :: ev (StartCommand (sudoBinary c) (client_args c) client_env) (Ok tt)
           :: ev (Send req) (Ok tt) :: ev CloseStdin (Ok tt) :: t).
Proof. unfold ClientRun. simpl. by destruct (run _ (receive_loop _ _) _) as [[? ?] ?]. Qed.

Definition ends_loop (f : frame) : result client_error Result :=
  if String.eqb (Type_ f) frameError then Err (EWorker (Message f)) else Err (EUnknownFrame (Type_ f)).

Lemma loop_stop fuel f fs g x res :
  ~ (is_output f \/ is_result f) ->
  exists t, run child_handler (receive_loop (S fuel) res) (mkChild (f :: fs) g x)
            = (Some (ends_loop f), mkChild fs g x, ev Receive (Frame f) :: t)
    /\ Forall (fun e => projT1 e = Wait) t.
Proof.
  intros H. unfold is_output, is_result in H. unfold ends_loop. cbn [receive_loop]. simpl run.
  destruct (String.eqb_spec (Type_ f) frameStdout); [tauto|].
  destruct (String.eqb_spec (Type_ f) frameStderr); [tauto|].
  destruct (String.eqb_spec (Type_ f) frameResult); [tauto|].
  destruct (String.eqb (Type_ f) frameError); simpl; eexists; (split; [done|]); by repeat constructor.
Qed.

(** What the client writes and returns for a whole answer. *)
Lemma ClientRun_trace c req outs f fuel :
  Forall is_output outs -> is_result f \/ Type_ f = frameError -> (length outs + 1 < fuel)%nat ->
  exists t0 t, trace_of child_handler (ClientRun fuel c req) (mkChild (outs ++ [f]) false None)
    = t0 ++ concat (map (fun o => [ev Receive (Frame o); write_of o]) outs) ++ t
  /\ Forall (fun e => forall st d, projT1 e <> WriteTo st d) (t0 ++ t)
  /\ result_of child_handler (ClientRun fuel c req) (mkChild (outs ++ [f]) false None)
     = Some (if String.eqb (Type_ f) frameError then Err (EWorker (Message f))
             else match frame_Result f with Some r => Ok r | None => Err ENoResult end).
Proof.
  intros Ho Hf Hfuel. unfold trace_of, result_of. rewrite run_ClientRun.
  assert (Hd : map delivered outs = map (fun o => [ev Receive (Frame o); write_of o]) outs).
  { clear -Ho. induction Ho as [|o outs Hx _ IH]; simpl; [done|]. rewrite IH. f_equal.
    unfold delivered. by destruct Hx as [-> | ->]. }
  assert (Hl : last_result None outs = None).
  { clear -Ho. induction Ho as [|o outs Hx _ IH]; [done|]. unfold last_result in *. simpl.
    unfold note_result at 2. by destruct Hx as [-> | ->]. }
  replace fuel with (length outs + S (S (fuel - length outs - 2)))%nat by lia.
  rewrite loop_prefix by (eapply Forall_impl; [done|]; tauto). rewrite Hd, Hl.
  destruct Hf as [Hf|Hf].
  - cbn [receive_loop]. simpl. rewrite Hf. simpl.
    destruct (frame_Result f); simpl; eexists [_; _; _; _; _], _;
      (split; [done|split; [|done]]); by repeat constructor.
  - cbn [receive_loop]. simpl. rewrite Hf. simpl. eexists [_; _; _; _; _], _.
    split; [done|split; [|done]]; by repeat constructor.
Qed.

Lemma ClientRun_delivers c req outs f fuel :
  Forall is_output outs -> is_result f \/ Type_ f = frameError -> (length outs + 1 < fuel)%nat ->
  result_of child_handler (ClientRun fuel c req) (mkChild (outs ++ [f]) false None)
  = Some (if String.eqb (Type_ f) frameError then Err (EWorker (Message f))
          else match frame_Result f with Some r => Ok r | None => Err ENoResult end).
Proof. intros H1 H2 H3. by destruct (ClientRun_trace c req outs f fuel H1 H2 H3) as (? & ? & _ & _ & ?). Qed.

(** ** Properties *)

(** The client reports success only for a complete answer: given a worker's
    whole output it returns a result if and only if every frame is an output or
    a result frame, the output ends cleanly after them, the worker exits with
    success, and the last result frame carries that result; and it always
    returns. *)
Theorem Client_accepts_exactly c req ch fuel : (length (frames ch) < fuel)%nat ->
  exists r, result_of child_handler (ClientRun fuel c req) ch = Some r
  /\ forall v, r = Ok v <->
       garbled ch = false /\ exit_err ch = None
       /\ Forall (fun f => is_output f \/ is_result f) (frames ch)
       /\ last_result None (frames ch) = Some v.
Proof.
  intros Hf. unfold result_of. rewrite run_ClientRun. destruct ch as [fs g x]. cbn [frames garbled exit_err] in *.
  destruct (frames_split fs) as [Hall|(l & f & r & -> & Hl & Hn)].
  - replace fuel with (length fs + S (fuel - length fs - 1))%nat by lia.
    pose proof (loop_prefix fs [] g x None (S (fuel - length fs - 1)) Hall) as Hp.
    rewrite app_nil_r in Hp. rewrite Hp. clear Hp. cbn [receive_loop]. simpl.
    destruct g; simpl; [eexists; split; [done|]; intros v; split; [done|naive_solver]|].
    destruct x as [e|], (last_result None fs) as [v0|]; simpl; (eexists; split; [done|]);
      intros v; split; try done; try naive_solver.
  - rewrite length_app in Hf. simpl in Hf.
    replace fuel with (length l + S (fuel - length l - 1))%nat by lia.
    rewrite loop_prefix by done.
    destruct (loop_stop (fuel - length l - 1) f r g x (last_result None l) Hn) as (t & -> & _).
    eexists. split; [done|]. intros v. unfold ends_loop. split; [by destruct (String.eqb _ _)|].
    intros (_ & _ & [_ Hc]%Forall_app & _). inversion_clear Hc. tauto.
Qed.

(** Output passes through unchanged: for a worker that sends output frames
    and then one last frame, the client writes the data of each frame to the
    stream it names, in order and nothing else, and then returns the result of
    a result frame or the message of an error frame. *)
Theorem Client_delivers c req outs f fuel :
  Forall is_output outs -> is_result f \/ Type_ f = frameError -> (length outs + 1 < fuel)%nat ->
  exists t0 t, trace_of child_handler (ClientRun fuel c req) (mkChild (outs ++ [f]) false None)
    = t0 ++ concat (map (fun o => [ev Receive (Frame o); write_of o]) outs) ++ t
  /\ Forall (fun e => forall st d, projT1 e <> WriteTo st d) (t0 ++ t)
  /\ result_of child_handler (ClientRun fuel c req) (mkChild (outs ++ [f]) false None)
     = Some (if String.eqb (Type_ f) frameError then Err (EWorker (Message f))
             else match frame_Result f with Some r => Ok r | None => Err ENoResult end).
Proof. apply ClientRun_trace. Qed.

Lemma Client_accepts_exactly_witness :
  result_of child_handler (ClientRun 3 NewClient (mkRequest "p" "/w" ["ls"] false))
    (mkChild [mkFrame "stdout" "hi" None ""; mkFrame "result" "" (Some (mkResult false "" "" 0)) ""]
       false None)
  = Some (Ok (mkResult false "" "" 0)).
Proof.
  destruct (Client_accepts_exactly NewClient (mkRequest "p" "/w" ["ls"] false)
    (mkChild [mkFrame "stdout" "hi" None ""; mkFrame "result" "" (Some (mkResult false "" "" 0)) ""]
       false None) 3 ltac:(simpl; lia)) as (r & -> & Hr).
  f_equal. apply Hr. split; [reflexivity|]. split; [reflexivity|]. split; [|reflexivity].
  constructor; [left; left; reflexivity|constructor; [right; reflexivity|constructor]].
Defined.

Lemma Client_delivers_witness :
  result_of child_handler (ClientRun 3 NewClient (mkRequest "p" "/w" ["ls"] false))
    (mkChild ([mkFrame "stdout" "hi" None ""] ++ [mkFrame "error" "" None "no"]) false None)
  = Some (Err (EWorker "no")).
Proof.
  destruct (Client_delivers NewClient (mkRequest "p" "/w" ["ls"] false)
    [mkFrame "stdout" "hi" None ""] (mkFrame "error" "" None "no") 3
    ltac:(constructor; [left; reflexivity|constructor]) ltac:(right; reflexivity) ltac:(simpl; lia)) as (t0 & t & _ & _ & H).
  exact H.
Defined.
