(* ===== verification/Worker.v ===== *)
(** * Worker: policy, runtime and diagnostics (internal/worker)

    config.LoadWorker and check.go, access.go and projects.go: what the worker
    checks before it acts, and the two diagnostic commands, which run [bws]
    under the worker's account.  The files are read from one snapshot [fs]. *)

From S2P Require Import Prelude GoStrings GoText Effects Exec Config SecureFile Token BoundedIO.
From S2P Require AccessDiag ProjectList.

#[local] Open Scope Z_scope.

(** [Server]; the exec runner is the environment, and [newTokenResolver] is
    nil outside the tests. *)
Record Server := mkServer {
  ConfigPath : string;
  AuditLogPath : string;
  accessTimeout : Z;
}.

Definition NewServer : Server :=
  mkServer "/etc/secrets-broker/policy.toml" "/var/log/secrets-broker/audit.jsonl" 30000000000.

Inductive worker_error : Type :=
| EReadingPolicy (e : securefile_error)
| EPolicy (e : config_error)
| EInvalidWorkerConfig (e : config_error)
| EValidatingBWS (e : securefile_error)
| EValidatingHome (e : securefile_error)
| EValidatingCommandPath (e : securefile_error)
| EValidatingTokenFile (e : securefile_error)
| ETokenFileIsEmpty (path : string)
| EResolvingWorkingDir (alias : string)
| EStatingWorkingDir (alias : string)
| EWorkingDirNotDirectory (alias path : string)
| EUnknownAlias
| EResolvingToken (e : token_error)
| EDiagnosticExceeded
| EStartingDiagnostic
| EListFailed
| EListInvalid.

(** The calls of a diagnostic: the command, and whether its deadline has
    passed when it is back. *)
Inductive diag_call : Type :=
| DiagExec (c : exec_call)
| DeadlineExceeded.

#[export] Instance diag_interface : Interface diag_call := fun c =>
  match c with DiagExec c => answer c | DeadlineExceeded => bool end.

Section Worker.
Context (url_Parse : string -> option URL).
Context (toml_Unmarshal : string -> option Config).
Context (unicode_print : Z -> bool) (unicode_lower : Z -> Z).
Context (EvalSymlinks : string -> option string).

(** [config.Load]: an ordinary read. *)
Definition Load (ReadFile : string -> option string) (path : string) : result config_error Config :=
  match ReadFile path with
  | None => Err EReadingConfig
  | Some data => Parse url_Parse toml_Unmarshal data
  end.

(** [config.LoadWorker] *)
Definition LoadWorker (fs : FS) (path : string) : result worker_error Config :=
  data ← wrap_err EReadingPolicy (Read fs path 1048576 18 true);
  wrap_err EPolicy (Parse url_Parse toml_Unmarshal data).

Fixpoint validate_dirs (fs : FS) (dirs : list string) : result worker_error unit :=
  match dirs with
  | [] => Ok tt
  | d :: ds =>
      _ ← wrap_err EValidatingCommandPath (ValidateTrustedDir fs d);
      validate_dirs fs ds
  end.

(** [validateRuntime] *)
Definition validateRuntime (fs : FS) (r : Runtime) : result worker_error unit :=
  _ ← wrap_err EValidatingBWS (ValidateExecutable fs (BWSBinary r));
  _ ← wrap_err EValidatingHome (ValidatePrivateDir fs (Home r));
  validate_dirs fs (Strings.Split (CommandPath r) Filepath.ListSeparator).

(** The opening of every worker command: load, validate, validate the
    runtime. *)
Definition prepare (fs : FS) (s : Server) : result worker_error Config :=
  cfg ← LoadWorker fs (ConfigPath s);
  _ ← wrap_err EInvalidWorkerConfig (ValidateWorker cfg);
  _ ← validateRuntime fs (cfg_Runtime cfg);
  Ok cfg.

(** ** Check *)

Record CheckResult := mkCheckResult { cr_Projects : Z; cr_TokenBytes : Z }.

Fixpoint check_dirs (fs : FS) (ps : list Project) : result worker_error unit :=
  match ps with
  | [] => Ok tt
  | p :: ps =>
      match EvalSymlinks (WorkingDir p) with
      | None => Err (EResolvingWorkingDir (Alias p))
      | Some resolved =>
          match Stat fs resolved with
          | None => Err (EStatingWorkingDir (Alias p))
          | Some n =>
              fail_if negb (bool_decide (n_kind n = Directory))
                with EWorkingDirNotDirectory (Alias p) (WorkingDir p);
              check_dirs fs ps
          end
      end
  end.

Definition Check_ (fs : FS) (s : Server) : result worker_error CheckResult :=
  cfg ← prepare fs s;
  let path := Path (ts_File (cfg_TokenSource cfg)) in
  tokenBytes ← wrap_err EValidatingTokenFile (ValidatePrivateFile fs path MaxFileBytes);
  fail_if tokenBytes =? 0 with ETokenFileIsEmpty path;
  _ ← check_dirs fs (cfg_Projects cfg);
  Ok (mkCheckResult (Z.of_nat (length (cfg_Projects cfg))) tokenBytes).

(** ** CheckAccess *)

Definition accessStderrLimit : Z := 65536.

Definition selectAccessProjects (ps : list Project) (alias : string) : result worker_error (list Project) :=
  if String.eqb alias "" then Ok ps
  else match find_alias alias ps with
       | Some p => Ok [p]
       | None => Err EUnknownAlias
       end.

(** [\[(4[0-9]{2}|5[0-9]{2}) [^\]]+\]] at the start of [s]. *)
Definition is_digit (c : ascii) : bool := (48 <=? byte_val c) && (byte_val c <=? 57).

Definition status_here (s : string) : bool :=
  match s with
  | String b (String h (String t (String u (String sp (String x rest))))) =>
      Ascii.eqb b "[" && (Ascii.eqb h "4" || Ascii.eqb h "5") && is_digit t && is_digit u
      && Ascii.eqb sp " " && negb (Ascii.eqb x "]") && Strings.Contains rest "]"
  | _ => false
  end.

(** [httpStatusPattern.MatchString] *)
Fixpoint httpStatus_MatchString (s : string) : bool :=
  status_here s || match s with EmptyString => false | String _ s' => httpStatus_MatchString s' end.

Definition network_patterns : list string :=
  ["dns error"; "failed to lookup address"; "name or service not known";
   "temporary failure in name resolution"; "connection refused"; "connection reset";
   "connection timed out"; "request timed out"; "operation timed out"; "deadline has elapsed";
   "error sending request"; "tcp connect error"; "connect error"; "tls error";
   "certificate verify failed"; "invalid peer certificate"; "transport error"].

Definition hasNetworkError (message : string) : bool :=
  existsb (Strings.Contains message) network_patterns.

Definition classifyAccess (exitCode : Z) (stderr : string) : string :=
  if exitCode =? 0 then AccessDiag.StatusAccessible else
  let lower := Lower.ToLower unicode_lower stderr in
  if Strings.Contains lower "[401 unauthorized]" || Strings.Contains lower "[403 forbidden]"
  then AccessDiag.StatusAuthenticationError
  else if Strings.Contains lower "[404 not found]" then AccessDiag.StatusInaccessible
  else if httpStatus_MatchString stderr then AccessDiag.StatusAPIError
  else if Strings.Contains lower "authentication failed"
          || Strings.Contains lower "invalid access token"
          || Strings.Contains lower "missing access token"
  then AccessDiag.StatusAuthenticationError
  else if hasNetworkError lower then AccessDiag.StatusNetworkError
  else AccessDiag.StatusUnknownError.

(** The environment of both diagnostic commands. *)
Definition diag_env (r : Runtime) (tok : Token) : list string :=
  ["PATH=" +:+ CommandPath r; "HOME=" +:+ Home r; "LANG=C.UTF-8";
   "BWS_ACCESS_TOKEN=" +:+ Value tok].

Definition probe_call (r : Runtime) (tok : Token) (projectID : string) : exec_call :=
  ExecRunPassthrough (BWSBinary r)
    ["project"; "get"; projectID; "--output"; "none"; "--color"; "no"] (Some (diag_env r tok)) (Home r).

Definition probeAccess (r : Runtime) (tok : Token) (projectID : string)
    : prog diag_call (result worker_error string) :=
  p ← call (DiagExec (probe_call r tok projectID));
  let stderr := WriteAll (NewBuffer accessStderrLimit)
                  (written StderrStream (pt_writes (p : passthrough))) in
  if Exceeded stderr then mret (Err EDiagnosticExceeded) else
  late ← call DeadlineExceeded;
  if (late : bool) then mret (Ok AccessDiag.StatusNetworkError) else
  mret match pt_exit (p : passthrough) with
       | Err _ => Err EStartingDiagnostic
       | Ok exitCode => Ok (classifyAccess exitCode (Bytes stderr))
       end.

Fixpoint probe_all (r : Runtime) (tok : Token) (ps : list Project)
    : prog diag_call (result worker_error (list AccessDiag.ProjectResult)) :=
  match ps with
  | [] => mret (Ok [])
  | p :: ps =>
      st ← probeAccess r tok (BWSProjectID p);
      match st with
      | Err e => mret (Err e)
      | Ok st =>
          rest ← probe_all r tok ps;
          mret ((fun l => AccessDiag.mkProjectResult (Alias p) (BWSProjectID p) st :: l) <$> rest)
      end
  end.

(** What precedes the probes: the projects, the runtime and the token. *)
Definition access_setup (fs : FS) (s : Server) (alias : string)
    : result worker_error (list Project * Runtime * Token) :=
  cfg ← prepare fs s;
  ps ← selectAccessProjects (cfg_Projects cfg) alias;
  tok ← wrap_err EResolvingToken
          (FileResolver_Resolve fs (Path (ts_File (cfg_TokenSource cfg))) "");
  Ok (ps, cfg_Runtime cfg, tok).

Definition access_result (results : result worker_error (list AccessDiag.ProjectResult))
    : result worker_error AccessDiag.Result :=
  rs ← results;
  Ok (AccessDiag.mkResult AccessDiag.Version (AccessDiag.Aggregate rs) rs).

Definition CheckAccess (fs : FS) (s : Server) (alias : string)
    : prog diag_call (result worker_error AccessDiag.Result) :=
  match access_setup fs s alias with
  | Err e => mret (Err e)
  | Ok (ps, r, tok) =>
      results ← probe_all r tok ps;
      mret (access_result results)
  end.

(** ** ListProjects *)

Definition projectListOutputLimit : Z := 2097152.

Definition list_call (r : Runtime) (tok : Token) : exec_call :=
  ExecRunPassthrough (BWSBinary r) ["project"; "list"; "--output"; "json"; "--color"; "no"]
    (Some (diag_env r tok)) (Home r).

(** [json.Unmarshal] of the output into the list of items. *)
Context (json_items : string -> option (list ProjectList.item)).

Definition ListProjects (fs : FS) (s : Server)
    : prog diag_call (result worker_error ProjectList.Result) :=
  match cfg ← prepare fs s;
        tok ← wrap_err EResolvingToken
                (FileResolver_Resolve fs (Path (ts_File (cfg_TokenSource cfg))) "");
        Ok (cfg_Runtime cfg, tok) with
  | Err e => mret (Err e)
  | Ok (r, tok) =>
      p ← call (DiagExec (list_call r tok));
      let writes := pt_writes (p : passthrough) in
      let stdout := WriteAll (NewBuffer projectListOutputLimit) (written StdoutStream writes) in
      let stderr := WriteAll (NewBuffer accessStderrLimit) (written StderrStream writes) in
      let failed := match pt_exit (p : passthrough) with Err _ => true | Ok code => negb (code =? 0) end in
      if failed || Exceeded stdout || Exceeded stderr || negb (len (Bytes stderr) =? 0)
      then mret (Err EListFailed)
      else mret match ProjectList.FromBWS unicode_print (json_items (Bytes stdout)) with
                | Err _ => Err EListInvalid
                | Ok r => Ok r
                end
  end.

End Worker.

(** ** Specification *)

Definition trusted_executable (fs : FS) (path : string) : Prop :=
  exists n, trusted_file fs path 18 true n /\ Z.land (Perm n) 73 <> 0.

(** A directory, links followed, without the forbidden bits and with an
    accepted owner. *)
Definition checked_dir (fs : FS) (path : string) (forbidden : Z) (allowRoot : bool) : Prop :=
  exists n, Stat fs path = Some n /\ n_kind n = Directory /\ Z.land (Perm n) forbidden = 0
    /\ owner_ok fs n allowRoot.

(** The runtime the worker may use: a [bws] nobody else can replace, a home
    nobody else can read, and a command path nobody else can write to. *)
Definition runtime_trusted (fs : FS) (r : Runtime) : Prop :=
  trusted_executable fs (BWSBinary r)
  /\ checked_dir fs (Home r) 63 false
  /\ Forall (fun d => checked_dir fs d 18 true) (Strings.Split (CommandPath r) Filepath.ListSeparator).

(** ** Lemmas *)

Lemma ValidateExecutable_Ok fs path :
  ValidateExecutable fs path = Ok tt <-> trusted_executable fs path.
Proof.
  unfold ValidateExecutable, trusted_executable. setoid_rewrite <- open_validate_Ok. split.
  - intros H. inv_ok. boolP. destruct x0. by exists x.
  - intros (n & [Ho Hv] & Hx). rewrite Ho. unfold mbind, result_bind. rewrite Hv.
    by rewrite (proj2 (Z.eqb_neq _ _) Hx).
Qed.

Lemma ValidatePrivateDir_Ok fs path :
  ValidatePrivateDir fs path = Ok tt <-> checked_dir fs path 63 false.
Proof.
  unfold ValidatePrivateDir, checked_dir. destruct (Stat fs path) as [n|]; [|naive_solver].
  rewrite !fail_if_Ok, validateOwner_Ok, !negb_false_iff, Z.eqb_eq, bool_decide_eq_true.
  split; [by exists n|]. by intros (? & [= <-] & ?).
Qed.

Lemma ValidateTrustedDir_Ok fs path :
  ValidateTrustedDir fs path = Ok tt <-> checked_dir fs path 18 true.
Proof.
  unfold ValidateTrustedDir, checked_dir. destruct (Stat fs path) as [n|]; [|naive_solver].
  rewrite !fail_if_Ok, validateOwner_Ok, !negb_false_iff, Z.eqb_eq, bool_decide_eq_true.
  split; [by exists n|]. by intros (? & [= <-] & ?).
Qed.

Lemma validate_dirs_Ok fs dirs :
  validate_dirs fs dirs = Ok tt <-> Forall (fun d => checked_dir fs d 18 true) dirs.
Proof.
  induction dirs as [|d dirs IH]; cbn [validate_dirs]; [by split; [constructor|]|].
  rewrite Forall_cons, <- IH, <- ValidateTrustedDir_Ok. split.
  - intros H. inv_ok. by destruct x.
  - by intros [-> ->].
Qed.

Lemma validateRuntime_Ok fs r : validateRuntime fs r = Ok tt <-> runtime_trusted fs r.
Proof.
  unfold validateRuntime, runtime_trusted.
  rewrite <- ValidateExecutable_Ok, <- ValidatePrivateDir_Ok, <- validate_dirs_Ok.
  split.
  - intros H. inv_ok. by repeat match goal with x : unit |- _ => destruct x end.
  - intros (-> & -> & ->). done.
Qed.

Lemma ValidatePrivateFile_Ok fs path max k :
  ValidatePrivateFile fs path max = Ok k <->
  exists n, trusted_file fs path 63 false n /\ k = len (n_data n) /\ k <= max.
Proof.
  unfold ValidatePrivateFile. setoid_rewrite <- open_validate_Ok. split.
  - intros H. inv_ok. boolP. destruct x0. exists x. split_and!; try done; lia.
  - intros (n & [Ho Hv] & -> & Hl). rewrite Ho. unfold mbind, result_bind. rewrite Hv.
    by rewrite (proj2 (Z.ltb_ge _ _) Hl).
Qed.

Lemma check_dirs_Ok E fs ps :
  check_dirs E fs ps = Ok tt <->
  Forall (fun p => exists d n, E (WorkingDir p) = Some d /\ Stat fs d = Some n /\ n_kind n = Directory) ps.
Proof.
  induction ps as [|p ps IH]; cbn [check_dirs]; [by split; [constructor|]|].
  rewrite Forall_cons, <- IH. destruct (E (WorkingDir p)) as [d|]; [|naive_solver].
  destruct (Stat fs d) as [n|] eqn:En; [|naive_solver].
  rewrite fail_if_Ok, negb_false_iff, bool_decide_eq_true. split.
  - intros [Hk Hr]. split; [by exists d, n|done].
  - intros [(d' & n' & [= <-] & Hn & Hk) Hr]. split; [congruence|done].
Qed.

Section Spec.
Context (url_Parse : string -> option URL) (toml_Unmarshal : string -> option Config).

(** The worker may act under [cfg]. *)
Definition worker_prepared (fs : FS) (s : Server) (cfg : Config) : Prop :=
  exists n, trusted_file fs (ConfigPath s) 18 true n
    /\ len (n_data n) <= 1048576
    /\ Parse url_Parse toml_Unmarshal (n_data n) = Ok cfg
    /\ worker_ready cfg
    /\ runtime_trusted fs (cfg_Runtime cfg).

Lemma prepare_Ok fs s cfg :
  prepare url_Parse toml_Unmarshal fs s = Ok cfg <-> worker_prepared fs s cfg.
Proof.
  unfold prepare, LoadWorker, worker_prepared. setoid_rewrite <- validateRuntime_Ok.
  setoid_rewrite <- ValidateWorker_spec. split.
  - intros H. inv_ok. match goal with H : Read _ _ _ _ _ = _ |- _ =>
      apply Read_Ok in H as (n & Ht & -> & Hl); [|lia] end.
    exists n. repeat match goal with x : unit |- _ => destruct x end. done.
  - intros (n & Ht & Hl & Hp & Hw & Hr).
    rewrite (proj2 (Read_Ok fs (ConfigPath s) 1048576 18 true (n_data n) ltac:(lia)))
      by (by exists n).
    cbn [wrap_err mbind result_bind]. rewrite Hp. cbn [wrap_err mbind result_bind].
    rewrite Hw. cbn [wrap_err mbind result_bind]. by rewrite Hr.
Qed.

(** ** Properties *)

(** [Check] passes exactly the deployments the worker can serve: a policy
    file others cannot write that parses and meets the worker's rules, a
    trusted runtime, a private, non-empty token file within its limit, and a
    directory behind every project's working directory; it reports their
    number and the token file's size. *)
Theorem Check_exact E fs s r :
  Check_ url_Parse toml_Unmarshal E fs s = Ok r <->
  exists cfg n, worker_prepared fs s cfg
    /\ trusted_file fs (Path (ts_File (cfg_TokenSource cfg))) 63 false n
    /\ 0 < len (n_data n) <= MaxFileBytes
    /\ Forall (fun p => exists d k, E (WorkingDir p) = Some d /\ Stat fs d = Some k
                 /\ n_kind k = Directory) (cfg_Projects cfg)
    /\ r = mkCheckResult (Z.of_nat (length (cfg_Projects cfg))) (len (n_data n)).
Proof.
  setoid_rewrite <- prepare_Ok. setoid_rewrite <- check_dirs_Ok. unfold Check_. split.
  - intros H. inv_ok. boolP. destruct x1. match goal with H : ValidatePrivateFile _ _ _ = _ |- _ =>
      apply ValidatePrivateFile_Ok in H as (n & Ht & -> & Hl) end.
    exists x, n. split_and!; try done. unfold len in *. lia.
  - intros (cfg & n & Hp & Ht & [H0 Hl] & Hd & ->). rewrite Hp. cbn [mbind result_bind].
    rewrite (proj2 (ValidatePrivateFile_Ok fs _ MaxFileBytes (len (n_data n)))) by (by exists n).
    cbn [wrap_err mbind result_bind]. rewrite (proj2 (Z.eqb_neq _ _)) by lia. by rewrite Hd.
Qed.
End Spec.

(** ** Diagnostics *)

(** The HTTP status pattern, as a language: a bracket, 4xx or 5xx, a space, a
    non-empty text without a closing bracket, a closing bracket. *)
Definition status_word (w : string) : Prop :=
  exists h t u text, w = String "[" (String h (String t (String u (String " " (text +:+ "]")))))
    /\ (h = "4"%char \/ h = "5"%char) /\ is_digit t = true /\ is_digit u = true
    /\ text <> "" /\ all_bytes (fun c => negb (Ascii.eqb c "]")) text = true.

Lemma HasPrefix_bracket s : Strings.HasPrefix s "]" = true <-> exists r, s = String "]" r.
Proof.
  rewrite Strings.HasPrefix_spec. simpl. done.
Qed.

(** The first closing bracket of a text that has one. *)
Lemma Contains_bracket s :
  Strings.Contains s "]" = true <->
  exists a b, s = a +:+ "]" +:+ b /\ all_bytes (fun c => negb (Ascii.eqb c "]")) a = true.
Proof.
  induction s as [|c s IH].
  { simpl. split; [done|]. by intros ([|] & ? & ? & _). }
  cbn [Strings.Contains]. rewrite orb_true_iff, HasPrefix_bracket. split.
  - intros [(r & [= -> ->])|H]; [by exists "", r|].
    destruct (Ascii.eqb_spec c "]") as [->|Hc]; [by exists "", s|].
    apply IH in H as (a & b & -> & Ha). exists (String c a), b. simpl. rewrite Ha, andb_true_r.
    split; [done|]. by apply negb_true_iff, Ascii.eqb_neq.
  - intros ([|c' a] & b & H & Ha); simpl in H; injection H as -> ->; [left; by eexists|].
    right. apply IH. exists a, b. simpl in Ha. by apply andb_true_iff in Ha as [_ ?].
Qed.

Lemma status_here_spec s : status_here s = true <-> exists w r, s = w +:+ r /\ status_word w.
Proof.
  split.
  - destruct s as [|b [|h [|t [|u [|sp [|x rest]]]]]]; try done. cbn [status_here].
    intros H. boolP. subst. match goal with H : Strings.Contains _ _ = true |- _ =>
      apply Contains_bracket in H as (a & r & -> & Ha) end.
    exists (String "[" (String h (String t (String u (String " " (String x (a +:+ "]"))))))), r.
    split; [simpl; by rewrite append_assoc|]. exists h, t, u, (String x a). split; [done|].
    match goal with H : _ || _ = true |- _ => apply orb_true_iff in H as [H|H];
      apply Ascii.eqb_eq in H as -> end;
    (split_and!; [by auto|done|done|done|]; simpl; rewrite Ha, andb_true_r;
     by apply negb_true_iff, Ascii.eqb_neq).
  - intros (w & r & -> & (h & t & u & [|x text] & -> & Hh & Ht & Hu & Hne & Hx)); [done|].
    simpl in Hx. apply andb_true_iff in Hx as [Hx Htext]. cbn [String.append status_here].
    rewrite Ht, Hu, Hx. assert (Hc : Strings.Contains ((text +:+ "]") +:+ r) "]" = true).
    { apply Contains_bracket. exists text, r. by rewrite append_assoc. }
    rewrite Hc. by destruct Hh as [-> | ->].
Qed.

(** The diagnosis is well defined: the status is one the protocol names, it
    is "accessible" exactly for exit code 0, and the HTTP status pattern is
    recognised exactly where the text holds an occurrence of it. *)
Theorem classifyAccess_exact lower code stderr :
  AccessDiag.Valid (classifyAccess lower code stderr) = true
  /\ (classifyAccess lower code stderr = AccessDiag.StatusAccessible <-> code = 0)
  /\ (httpStatus_MatchString stderr = true <->
      exists pre w post, stderr = pre +:+ w +:+ post /\ status_word w).
Proof.
  split_and!.
  - unfold classifyAccess. by repeat case_match.
  - unfold classifyAccess. destruct (Z.eqb_spec code 0); [done|]. by repeat case_match.
  - induction stderr as [|c s IH]; cbn [httpStatus_MatchString];
      rewrite orb_true_iff, status_here_spec.
    + split; [|intros ([|] & w & post & H & Hw); [|done]; left; by exists w, post].
      intros [(w & r & H & Hw)|]; [|done]. by exists "", w, r.
    + rewrite IH. split.
      * intros [(w & r & H & Hw)|(pre & w & post & -> & Hw)]; [by exists "", w, r|].
        by exists (String c pre), w, post.
      * intros ([|c' pre] & w & post & H & Hw); [left; by exists w, post|].
        injection H as -> ->. right. by exists pre, w, post.
Qed.

Section Access.
Context (url_Parse : string -> option URL) (toml_Unmarshal : string -> option Config).
Context (unicode_print : Z -> bool) (unicode_lower : Z -> Z).
Context (json_items : string -> option (list ProjectList.item)).

Notation access := (CheckAccess url_Parse toml_Unmarshal unicode_lower).
Notation list_projects := (ListProjects url_Parse toml_Unmarshal unicode_print json_items).

(** The commands a diagnostic runs, in order. *)
Definition commands (t : list (event diag_call)) : list exec_call :=
  omap (fun c => match c with DiagExec c => Some c | DeadlineExceeded => None end) (calls t).

Lemma probeAccess_run {S} (h : handler diag_call S) r tok id s :
  let '(st, _, t) := run h (probeAccess unicode_lower r tok id) s in
  commands t = [probe_call r tok id] /\ (forall v, st = Ok v -> AccessDiag.Valid v = true).
Proof.
  unfold probeAccess. simpl. destruct (h (DiagExec _) s) as [p s1].
  destruct (Exceeded _); simpl; [by split|]. destruct (h DeadlineExceeded s1) as [late s2].
  destruct late; simpl; (split; [done|]); [by intros ? [= <-]|].
  destruct (pt_exit (p : passthrough)); [|done]. intros v [= <-].
  unfold classifyAccess. by repeat case_match.
Qed.

Lemma probe_all_run {S} (h : handler diag_call S) r tok ps s :
  let '(rs, _, t) := run h (probe_all unicode_lower r tok ps) s in
  forall l, rs = Ok l ->
    commands t = map (fun p => probe_call r tok (BWSProjectID p)) ps
    /\ map (fun x => (AccessDiag.pr_Alias x, AccessDiag.pr_BWSProjectID x)) l
       = map (fun p => (Alias p, BWSProjectID p)) ps
    /\ Forall (fun x => AccessDiag.Valid (AccessDiag.pr_Status x) = true) l.
Proof.
  revert s. induction ps as [|p ps IH]; intros s; cbn [probe_all].
  { simpl. intros l [= <-]. split_and!; [done|done|constructor]. }
  rewrite run_bind. pose proof (probeAccess_run h r tok (BWSProjectID p) s) as Hp.
  destruct (run h (probeAccess _ _ _ _) s) as [[st s1] t1]. destruct Hp as [Ht Hv].
  destruct st as [st|e]; [|done]. rewrite run_bind. specialize (IH s1).
  destruct (run h (probe_all _ _ _ _) s1) as [[rs s2] t2]. simpl.
  destruct rs as [l'|e]; [|done]. intros l [= <-]. destruct (IH l' eq_refl) as (Hc & Hm & Hf).
  rewrite app_nil_r. unfold commands, calls in *. rewrite fmap_app, omap_app, Ht, Hc. simpl.
  split_and!; [done|by rewrite Hm|]. constructor; [by apply Hv|done].
Qed.

(** The access check reports on the projects asked for and touches nothing
    else: a result comes only from a prepared worker with a resolved token;
    it ran exactly one [bws project get] per selected project, in order, and
    lists those projects with a valid status each and their aggregate
    outcome; the administrator's validation accepts it whenever the policy's
    aliases and IDs are printable. *)
Theorem CheckAccess_sound {S} (h : handler diag_call S) fs srv alias s r :
  result_of h (access fs srv alias) s = Ok r ->
  exists cfg ps tok,
    worker_prepared url_Parse toml_Unmarshal fs srv cfg
    /\ (alias = "" /\ ps = cfg_Projects cfg \/ exists p, lookup_project cfg alias = Some p /\ ps = [p])
    /\ FileResolver_Resolve fs (Path (ts_File (cfg_TokenSource cfg))) "" = Ok tok
    /\ commands (trace_of h (access fs srv alias) s)
       = map (fun p => probe_call (cfg_Runtime cfg) tok (BWSProjectID p)) ps
    /\ map (fun x => (AccessDiag.pr_Alias x, AccessDiag.pr_BWSProjectID x)) (AccessDiag.r_Projects r)
       = map (fun p => (Alias p, BWSProjectID p)) ps
    /\ (Forall (fun p => AccessDiag.safeIdentifier unicode_print (Alias p) = true
                 /\ AccessDiag.safeIdentifier unicode_print (BWSProjectID p) = true) ps ->
        AccessDiag.Validate unicode_print r = Ok tt).
Proof.
  unfold result_of, trace_of, CheckAccess. destruct (access_setup _ _ fs srv alias) as [[[ps rt] tok]|e] eqn:Es;
    [|done].
  rewrite run_bind. pose proof (probe_all_run h rt tok ps s) as Hp.
  destruct (run h (probe_all _ _ _ _) s) as [[rs s1] t1]. simpl. intros Hr.
  unfold access_result in Hr. inv_ok. destruct (Hp _ eq_refl) as (Hc & Hm & Hf).
  unfold access_setup in Es. inv_ok.
  match goal with H : prepare _ _ _ _ = Ok ?c |- _ => apply prepare_Ok in H; rename c into cfg end.
  exists cfg, ps, tok. simplify_eq.
  assert (Hsel : alias = "" /\ ps = cfg_Projects cfg
                 \/ exists p, lookup_project cfg alias = Some p /\ ps = [p]).
  { match goal with H : selectAccessProjects _ _ = _ |- _ => unfold selectAccessProjects in H;
      destruct (String.eqb_spec alias ""); [left; by simplify_eq|right] end.
    unfold lookup_project. destruct (find_alias alias (cfg_Projects cfg)) as [p|]; simplify_eq. by exists p. }
  split_and!; [done|done|done|by rewrite app_nil_r|done|]. intros Hsafe.
  match goal with H : worker_prepared _ _ _ _ _ |- _ =>
    destruct H as (n & _ & _ & (raw & _ & _ & Hwf)%Parse_Ok & _) end.
  apply AccessDiag.Validate_Ok. simpl.
  assert (Hal : map AccessDiag.pr_Alias x = map Alias ps).
  { apply (f_equal (map fst)) in Hm. by rewrite !map_map in Hm. }
  split; simpl.
  - done.
  - intros ->. destruct Hsel as [[_ ->]|(p & _ & ->)]; [|done].
    apply (wfc_some_project _ _ Hwf). by destruct (cfg_Projects cfg).
  - clear -Hm Hsafe Hf. revert ps Hm Hsafe. induction Hf as [|y l Hy _ IH]; intros [|p ps] Hm Hsafe; try done.
    injection Hm as Ha Hb Hm. apply Forall_cons in Hsafe as [[H1 H2] Hsafe].
    constructor; [by rewrite Ha, Hb|by eapply IH].
  - rewrite Hal. destruct Hsel as [[_ ->]|(p & _ & ->)]; [apply (wfc_unique _ _ Hwf)|].
    apply NoDup_singleton.
  - apply AccessDiag.Aggregate_spec.
Qed.

(** Project discovery is all or nothing: a list comes only from one [bws
    project list] that exits with 0, writes nothing to stderr and stays
    within the limit, and it is the conversion of the whole output. *)
Theorem ListProjects_sound {S} (h : handler diag_call S) fs srv s r :
  result_of h (list_projects fs srv) s = Ok r ->
  exists cfg tok p,
    worker_prepared url_Parse toml_Unmarshal fs srv cfg
    /\ FileResolver_Resolve fs (Path (ts_File (cfg_TokenSource cfg))) "" = Ok tok
    /\ trace_of h (list_projects fs srv) s = [ev (DiagExec (list_call (cfg_Runtime cfg) tok)) p]
    /\ pt_exit p = Ok 0
    /\ total (written StderrStream (pt_writes p)) = ""
    /\ len (total (written StdoutStream (pt_writes p))) <= projectListOutputLimit
    /\ ProjectList.FromBWS unicode_print (json_items (total (written StdoutStream (pt_writes p)))) = Ok r.
Proof.
  unfold result_of, trace_of, ListProjects.
  destruct (prepare _ _ fs srv) as [cfg|e] eqn:Ep; [|done]. cbn [mbind result_bind].
  destruct (FileResolver_Resolve _ _ _) as [tok|e] eqn:Et; [|done]. cbn [wrap_err mbind result_bind].
  apply prepare_Ok in Ep. simpl. destruct (h (DiagExec _) s) as [p s1].
  destruct (_ || negb (len _ =? 0)) eqn:Ef; [done|]. simpl.
  apply orb_false_iff in Ef as [Ef Hlen]. apply orb_false_iff in Ef as [Ef Hse].
  apply orb_false_iff in Ef as [Hexit Hso].
  apply (WriteAll_whole projectListOutputLimit) in Hso as [-> Hso]; [|by unfold projectListOutputLimit].
  apply (WriteAll_whole accessStderrLimit) in Hse as [Hse _]; [|by unfold accessStderrLimit].
  rewrite Hse in Hlen. boolP. intros Hr.
  exists cfg, tok, p. split_and!; try done.
  - by destruct (pt_exit p) as [code|]; [boolP; subst|].
  - destruct (total (written StderrStream _)); [done|]. unfold len in Hlen. simpl in Hlen. lia.
  - by destruct (ProjectList.FromBWS _ _); simplify_eq.
Qed.
End Access.

(** ** Witnesses *)

Definition demo_config : Config :=
  mkConfig (mkRuntime "/b/bws" "/b" "/h") (mkTokenSource "file" (mkEnvSource "") (mkFileSource "/t"))
    (mkApprovalSource "tailscale-relay" (mkTailscaleRelaySource "http://r" 2 300))
    [mkProject "p" "id" "entry" "/w" "never" [mkAllowEntry ["ls"]]].

Definition demo_url (s : string) : option URL := Some (mkURL "http" "r" false "" "" "").
Definition demo_toml (s : string) : option Config := Some demo_config.

(** A worker's files: uid 7 runs it, root owns what it runs. *)
Definition demo_fs : FS :=
  mkFS (list_to_map
    [("/etc/secrets-broker/policy.toml", mkNode Regular 420 0 "");
     ("/b/bws", mkNode Regular 493 0 ""); ("/b", mkNode Directory 493 0 "");
     ("/h", mkNode Directory 448 7 ""); ("/t", mkNode Regular 384 7 ("tok" +:+ str1 LF));
     ("/w", mkNode Directory 493 1000 "")]) 7 18 (fun _ => false).

Definition demo_handler : handler diag_call unit := fun c s =>
  match c return answer c * unit with
  | DiagExec (ExecRun _ _ _) => (Err "", s)
  | DiagExec (ExecRunPassthrough _ _ _ _) => (mkPassthrough [(StdoutStream, "[]")] (Ok 0), s)
  | DeadlineExceeded => (false, s)
  end.

Lemma CheckAccess_sound_witness :
  exists r, result_of demo_handler (CheckAccess demo_url demo_toml (fun r => r) demo_fs NewServer "") tt = Ok r
    /\ AccessDiag.Validate (fun _ => false) r = Ok tt.
Proof.
  assert (E : result_of demo_handler (CheckAccess demo_url demo_toml (fun r => r) demo_fs NewServer "") tt
    = Ok (AccessDiag.mkResult 1 "all_accessible" [AccessDiag.mkProjectResult "p" "id" "accessible"]))
    by (vm_compute; reflexivity).
  eexists. split; [exact E|].
  destruct (CheckAccess_sound demo_url demo_toml (fun _ => false) (fun r => r) demo_handler demo_fs
              NewServer "" tt _ E) as (cfg & ps & tok & _ & _ & _ & _ & Hm & Hv).
  apply Hv. destruct ps as [|p [|q ps]]; try discriminate Hm.
  cbn [map AccessDiag.r_Projects AccessDiag.pr_Alias AccessDiag.pr_BWSProjectID] in Hm.
  injection Hm as H1 H2. constructor; [|constructor]. rewrite <- H1, <- H2. split; reflexivity.
Defined.

Lemma ListProjects_sound_witness :
  exists r, result_of demo_handler
      (ListProjects demo_url demo_toml (fun _ => false) (fun _ => Some []) demo_fs NewServer) tt = Ok r
    /\ ProjectList.FromBWS (fun _ => false) (Some []) = Ok r.
Proof.
  assert (E : result_of demo_handler
      (ListProjects demo_url demo_toml (fun _ => false) (fun _ => Some []) demo_fs NewServer) tt
    = Ok (ProjectList.mkResult 1 (Some []))) by (vm_compute; reflexivity).
  eexists. split; [exact E|].
  destruct (ListProjects_sound demo_url demo_toml (fun _ => false) (fun _ => Some []) demo_handler
              demo_fs NewServer tt _ E) as (cfg & tok & p & _ & _ & _ & _ & _ & _ & H).
  exact H.
Defined.
