(* ===== verification/Serve.v ===== *)
(** * Serve: one request, from the caller's pipe to the result frame
    (internal/worker/server.go)

    [Serve] decodes the request, prepares the worker, builds the broker from
    the policy and runs it.  Its environment is the interface [serve_call];
    the broker's calls are interpreted in it by [collaborator]: the token is
    read from the policy's file, and the command is run by the bws runner with
    every piece of its output encoded as a frame. *)

From S2P Require Import Prelude GoStrings GoText Effects Exec Config SecureFile Token Runner AuditLog.
From S2P Require Import Approval Broker Protocol Worker.

#[local] Open Scope Z_scope.

(** ** The environment *)

Inductive serve_call : Type :=
| NewLogger (path : string)              (** [audit.NewJSONLLogger] *)
| ReadInput                              (** the bytes of the pipe; whether reading fails *)
| Encode (f : frame)
| Files                                  (** the files, as the next checks find them *)
| Collaborator (c : broker_call)         (** the logger, the links, the approver *)
| RunCommand (c : exec_call).

#[export] Instance serve_interface : Interface serve_call := fun c =>
  match c with
  | NewLogger _ => result string unit
  | ReadInput => (string * bool)%type
  | Encode _ => result string unit
  | Files => FS
  | Collaborator c => answer c
  | RunCommand c => answer c
  end.

(** Everything that makes [Serve] answer with an error frame. *)
Inductive serve_error : Type :=
| ELogger (e : string)
| ERequest (e : protocol_error)
| EWorkerSetup (e : worker_error).

Definition exitDenied : Z := 125.
Definition exitRunnerStartFailed : Z := 126.

Section Serve.
Context (url_Parse : string -> option URL) (toml_Unmarshal : string -> option Config).
Context (json_request : string -> option (Protocol.Request * bool)).
Context (unicode_print : Z -> bool).
(** The text of an error, and of one with an audit failure appended. *)
Context (error_text : serve_error -> option unit -> string).
Context (srv : Server).

(** [frameWriter.Write], [writeWorkerError] *)
Definition write_frame (stream data : string) : prog serve_call (result string unit) :=
  call (Encode (mkFrame stream data None "")).

Definition writeWorkerError (msg : string) : prog serve_call (result string unit) :=
  call (Encode (mkFrame frameError "" None msg)).

Definition stream_name (st : stream) : string :=
  match st with StdoutStream => frameStdout | StderrStream => frameStderr end.

(** The pieces of output a command writes, as frames.  [io.Copy] stops at the
    first frame that cannot be encoded; here the rest is still offered to the
    pipe that fails. *)
Fixpoint forward (ws : list (stream * string)) : prog serve_call unit :=
  match ws with
  | [] => mret tt
  | (st, data) :: ws => _ ← write_frame (stream_name st) data; forward ws
  end.

(** The broker's collaborators, for this policy. *)
Definition collaborator (cfg : Config) (c : broker_call) : prog serve_call (answer c) :=
  match c return prog serve_call (answer c) with
  | Resolve entry =>
      fs ← call Files;
      mret (wrap_err (fun _ => tt)
              (FileResolver_Resolve (fs : FS) (Path (ts_File (cfg_TokenSource cfg))) entry))
  | RunnerRun spec =>
      let r := cfg_Runtime cfg in
      x ← interp (fun e : exec_call => call (RunCommand e) : prog serve_call (answer e))
            (Runner.Run (mkBWSRunner (BWSBinary r) (CommandPath r) (Home r)) spec);
      _ ← forward (snd (x : result runner_error Z * list (stream * string)));
      mret (wrap_err (fun _ => tt) (fst x))
  | c => call (Collaborator c)
  end.

(** [auditDenied] *)
Definition auditDenied (req : Protocol.Request) (outcome : string) : prog serve_call (result unit unit) :=
  s ← call (Collaborator (LoggerStart
        (mkStartRecord (Protocol.Project req) (Protocol.WorkingDir req) (Protocol.Argv req))));
  match (s : result unit string) with
  | Err e => mret (Err e)
  | Ok runID => call (Collaborator (LoggerFinish runID (mkFinishRecord ("denied:" +:+ outcome) None)))
  end.

(** [writeAuditedWorkerError] *)
Definition writeAuditedWorkerError (req : Protocol.Request) (outcome : string) (e : serve_error)
    : prog serve_call (result string unit) :=
  a ← auditDenied req outcome;
  writeWorkerError (error_text e (match a : result unit unit with Ok _ => None | Err x => Some x end)).

Definition empty_request : Protocol.Request := Protocol.mkRequest "" "" [] false.

(** The result of a dry run and of a run. *)
Definition dry_result (d : DryRunResult) : Protocol.Result :=
  match dr_Verdict d with
  | VerdictAllow | VerdictPrompt => mkResult false (dr_Reason d) "" 0
  | VerdictDeny => mkResult true (dr_Reason d) "" exitDenied
  end.

Definition run_result (o : RunOutcome) : Protocol.Result :=
  mkResult (ro_Denied o) (Reason o) (ApprovalCause o)
    (if ro_Denied o
     then (if String.eqb (Reason o) ReasonRunnerStartFailed then exitRunnerStartFailed else exitDenied)
     else ro_ExitCode o).

Definition audit_warning : string :=
  "secrets-broker: warning: audit finish record could not be written" +:+ str1 LF.

Definition result_frame (r : Protocol.Result) : frame := mkFrame frameResult "" (Some r) "".

Definition send_result (r : Protocol.Result) : prog serve_call (result string unit) :=
  call (Encode (result_frame r)).

Definition run_request (req : Protocol.Request) : RunRequest :=
  mkRunRequest (Protocol.Project req) (Protocol.WorkingDir req) (Protocol.Argv req).

(** The broker of a prepared worker; its approver explains its denials. *)
Definition broker_run (cfg : Config) (req : Protocol.Request) : prog serve_call RunOutcome :=
  interp (collaborator cfg) (Broker.Run unicode_print cfg true (run_request req)).

Definition broker_dry_run (cfg : Config) (req : Protocol.Request) : prog serve_call DryRunResult :=
  interp (collaborator cfg)
    (DryRun unicode_print cfg (Protocol.Project req) (Protocol.WorkingDir req) (Protocol.Argv req)).

(** From the prepared worker on. *)
Definition answer_request (cfg : Config) (req : Protocol.Request) : prog serve_call (result string unit) :=
  if is_DryRun req then
    dry ← broker_dry_run cfg req;
    send_result (dry_result dry)
  else
    outcome ← broker_run cfg req;
    _ ← (if AuditIncomplete outcome then write_frame frameStderr audit_warning else mret (Ok tt));
    send_result (run_result outcome).

(** [Serve] *)
Definition Serve : prog serve_call (result string unit) :=
  lg ← call (NewLogger (AuditLogPath srv));
  match (lg : result string unit) with
  | Err e => writeWorkerError (error_text (ELogger e) None)
  | Ok _ =>
      input ← call ReadInput;
      match decodeRequest json_request (fst (input : string * bool)) (snd input) with
      | Err e => writeAuditedWorkerError empty_request "invalid_request" (ERequest e)
      | Ok req =>
          fs ← call Files;
          match prepare url_Parse toml_Unmarshal (fs : FS) srv with
          | Err e => writeAuditedWorkerError req "config_unavailable" (EWorkerSetup e)
          | Ok cfg => answer_request cfg req
          end
      end
  end.

(** ** What a trace sends and runs *)

Notation trace := (list (event serve_call)).

(** The frames encoded, in order. *)
Definition sent (t : trace) : list frame :=
  omap (fun c => match c with Encode f => Some f | _ => None end) (calls t).

Lemma sent_app t1 t2 : sent (t1 ++ t2) = sent t1 ++ sent t2.
Proof. unfold sent, calls. by rewrite fmap_app, omap_app. Qed.

Lemma sent_none t : Forall (fun c => forall f, c <> Encode f) (calls t) -> sent t = [].
Proof.
  unfold sent. induction 1 as [|c cs Hc _ IH]; [done|]. simpl. destruct c; try done. by destruct (Hc f).
Qed.

Definition output_frame (w : stream * string) : frame := mkFrame (stream_name w.1) w.2 None "".

Lemma output_frame_output w : is_output (output_frame w).
Proof. destruct w as [[] d]; [by left|by right]. Qed.

(** The command line of an approved request. *)
Definition runner_command (cfg : Config) (spec : RunSpec) : exec_call :=
  ExecRunPassthrough (BWSBinary (cfg_Runtime cfg)) (bws_args spec)
    (Some (buildEnv (Value (spec_Token spec)) (CommandPath (cfg_Runtime cfg)) (Home (cfg_Runtime cfg))))
    (spec_WorkingDir spec).

Lemma write_frame_calls {S} (h : handler serve_call S) name d s :
  calls (trace_of h (write_frame name d) s) = [Encode (mkFrame name d None "")].
Proof. unfold trace_of, write_frame. simpl. by destruct (h _ s). Qed.

Lemma forward_trace {S} (h : handler serve_call S) ws s :
  calls (trace_of h (forward ws) s) = map (fun w => Encode (output_frame w)) ws.
Proof.
  revert s. induction ws as [|[st d] ws IH]; intros s; [done|].
  cbn [forward]. autorewrite with effects. by rewrite IH, write_frame_calls.
Qed.

(** The runner as a collaborator: nothing, or one command and its output. *)
Lemma runner_trace {S} (h : handler serve_call S) cfg spec s :
  let p := collaborator cfg (RunnerRun spec) in
  (trace_of h p s = [] /\ result_of h p s = Err tt)
  \/ exists x t, trace_of h p s = ev (RunCommand (runner_command cfg spec)) x :: t
       /\ calls t = map (fun w => Encode (output_frame w)) (pt_writes x)
       /\ result_of h p s = wrap_err (fun _ => tt) (pt_exit x).
Proof.
  cbv zeta. cbn [collaborator]. rewrite trace_of_bind, result_of_bind.
  unfold Runner.Run. cbn [bwsBinary commandPath home].
  destruct (Nat.eqb _ 0); [by left|]. destruct (String.eqb (ProjectID spec) ""); [by left|].
  destruct (Empty (spec_Token spec)); [by left|]. destruct (negb _); [by left|].
  destruct (String.eqb (spec_WorkingDir spec) ""); [by left|]. right.
  fold (runner_command cfg spec). exists (fst (h (RunCommand (runner_command cfg spec)) s)).
  unfold result_of, state_of, trace_of. simpl.
  destruct (h (RunCommand (runner_command cfg spec)) s) as [x s1]. simpl.
  change (prog_bind_def ?f ?p) with (p ≫= f). rewrite run_bind.
  pose proof (forward_trace h (pt_writes (x : passthrough)) s1) as Hf. unfold trace_of in Hf.
  destruct (run h (forward (pt_writes (x : passthrough))) s1) as [[u s2] t2] eqn:E. simpl in *.
  exists t2. split; [|split; [done|]].
  - by rewrite app_nil_r.
  - by destruct (pt_exit (x : passthrough)).
Qed.

(** Which calls of a collaborator are neither frames nor commands. *)
Definition quiet (c : serve_call) : Prop :=
  (forall f, c <> Encode f) /\ (forall e, c <> RunCommand e).

Lemma collaborator_quiet {S} (h : handler serve_call S) cfg c s :
  is_runner c = false -> Forall quiet (calls (trace_of h (collaborator cfg c) s)).
Proof.
  destruct c; intros Hc; try done; unfold trace_of; simpl; destruct (h _ s);
    by repeat constructor.
Qed.

Lemma quiet_sent t : Forall quiet (calls t) -> sent t = [].
Proof. intros H. apply sent_none. eapply Forall_impl; [exact H|]. by intros c []. Qed.

Definition outputs_only (c : serve_call) : Prop := forall f, c = Encode f -> is_output f.

Lemma collaborator_outputs {S} (h : handler serve_call S) cfg c s :
  Forall outputs_only (calls (trace_of h (collaborator cfg c) s)).
Proof.
  destruct (is_runner c) eqn:Er.
  - destruct c; try done. destruct (runner_trace h cfg spec s) as [[-> _]|(x & t & -> & Hc & _)]; [constructor|].
    rewrite calls_cons, Hc. constructor; [done|]. apply Forall_forall.
    intros d (w & -> & _)%list_elem_of_fmap f [= <-]. apply output_frame_output.
  - eapply Forall_impl; [by apply collaborator_quiet|]. intros d [H _] f ->. by destruct (H f).
Qed.

Lemma sent_outputs t : Forall outputs_only (calls t) -> Forall is_output (sent t).
Proof.
  unfold sent. induction 1 as [|c cs Hc _ IH]; [constructor|].
  simpl. destruct c; try done. constructor; [by apply Hc|done].
Qed.

Lemma broker_run_outputs {S} (h : handler serve_call S) cfg req s :
  Forall is_output (sent (trace_of h (broker_run cfg req) s)).
Proof. apply sent_outputs, interp_Forall. intros. apply collaborator_outputs. Qed.

(** A dry run's broker makes quiet calls only. *)
Lemma dry_run_quiet {S} (h : handler serve_call S) cfg req s :
  Forall quiet (calls (trace_of h (broker_dry_run cfg req) s)).
Proof.
  apply interp_Forall. intros c s0 Hc. apply collaborator_quiet.
  assert (Hl : only_symlinks (trace_of (handler_of (collaborator cfg) h)
    (DryRun unicode_print cfg (Protocol.Project req) (Protocol.WorkingDir req) (Protocol.Argv req)) s)).
  { clear Hc. unfold trace_of, DryRun. destruct (lookup_project _ _) as [p|]; [|constructor].
    rewrite run_bind.
    destruct (run _ (working_dir_ok p (Protocol.WorkingDir req)) s) as [[b s1] t1] eqn:E.
    apply working_dir_run in E. assert (only_symlinks t1)
      by (destruct b; [by eapply wd_accepted_symlinks|apply E]).
    destruct b; simpl; by rewrite app_nil_r. }
  unfold only_symlinks in Hl. rewrite Forall_forall in Hl. by destruct (Hl c Hc) as [q ->].
Qed.

(** ** The phases of [Serve] *)

Definition error_frame (msg : string) : frame := mkFrame frameError "" None msg.

(** [Serve] got as far as answering [req] with policy [cfg]. *)
Definition admitted (t : trace) (req : Protocol.Request) (cfg : Config) : Prop :=
  exists input fs, ev ReadInput input ∈ t /\ ev Files fs ∈ t
    /\ decodeRequest json_request input.1 input.2 = Ok req
    /\ worker_prepared url_Parse toml_Unmarshal fs srv cfg.

Lemma audited_error_trace {S} (h : handler serve_call S) req outcome e s :
  exists t msg x, trace_of h (writeAuditedWorkerError req outcome e) s
                  = t ++ [ev (Encode (error_frame msg)) x]
    /\ Forall quiet (calls t).
Proof.
  unfold writeAuditedWorkerError, auditDenied, writeWorkerError, trace_of. simpl.
  destruct (h (Collaborator (LoggerStart _)) s) as [[id|u] s1]; simpl.
  - destruct (h (Collaborator (LoggerFinish _ _)) s1) as [f s2]. simpl.
    destruct (h (Encode _) s2) as [x s3]. eexists [_; _], _, _. split; [done|]. by repeat constructor.
  - destruct (h (Encode _) s1) as [x s3]. eexists [_], _, _. split; [done|]. by repeat constructor.
Qed.

Lemma Serve_phases {S} (h : handler serve_call S) s :
  (exists t msg x, trace_of h (Serve) s = t ++ [ev (Encode (error_frame msg)) x] /\ Forall quiet (calls t))
  \/ (exists t0 req cfg s1, trace_of h (Serve) s = t0 ++ trace_of h (answer_request cfg req) s1
        /\ Forall quiet (calls t0) /\ admitted t0 req cfg
        /\ calls t0 = [NewLogger (AuditLogPath srv); ReadInput; Files]).
Proof.
  unfold trace_of, Serve. simpl. destruct (h (NewLogger _) s) as [[[]|e] s1]; simpl.
  2:{ left. destruct (h (Encode _) s1) as [x s2]. eexists [_], _, x. split; [done|]. by repeat constructor. }
  destruct (h ReadInput s1) as [input s2]. simpl.
  destruct (decodeRequest json_request input.1 input.2) as [req|e] eqn:Ed.
  2:{ left. destruct (audited_error_trace h empty_request "invalid_request" (ERequest e) s2)
        as (t & msg & x & Ht & Hq). unfold trace_of in Ht.
      destruct (run h (writeAuditedWorkerError _ _ _) s2) as [[r s3] t3]. simpl in *.
      exists (ev (NewLogger (AuditLogPath srv)) (Ok tt) :: ev ReadInput input :: t), msg, x.
      rewrite Ht. split; [done|]. rewrite !calls_cons. by do 2 (constructor; [by split|]). }
  simpl. destruct (h Files s2) as [fs s3]. simpl.
  destruct (prepare url_Parse toml_Unmarshal fs srv) as [cfg|e] eqn:Ep.
  - right. exists [ev (NewLogger (AuditLogPath srv)) (Ok tt); ev ReadInput input; ev Files fs], req, cfg, s3.
    destruct (run h (answer_request cfg req) s3) as [[r s4] t4]. simpl. split; [done|].
    split; [by repeat constructor|]. split; [|done]. exists input, fs. apply prepare_Ok in Ep.
    split_and!; [|..|done|done]; [apply list_elem_of_further, list_elem_of_here|
      apply list_elem_of_further, list_elem_of_further, list_elem_of_here].
  - left. destruct (audited_error_trace h req "config_unavailable" (EWorkerSetup e) s3)
      as (t & msg & x & Ht & Hq). unfold trace_of in Ht.
    destruct (run h (writeAuditedWorkerError _ _ _) s3) as [[r s4] t4]. simpl in *.
    exists (ev (NewLogger (AuditLogPath srv)) (Ok tt) :: ev ReadInput input :: ev Files fs :: t), msg, x.
    rewrite Ht. split; [done|]. rewrite !calls_cons. by do 3 (constructor; [by split|]).
Qed.

(** The environment the broker sees. *)
Definition broker_view {S} (cfg : Config) (h : handler serve_call S) : handler broker_call S :=
  handler_of (collaborator cfg) h.

Definition broker_prog (cfg : Config) (req : Protocol.Request) : prog broker_call RunOutcome :=
  Broker.Run unicode_print cfg true (run_request req).

Definition warning (o : RunOutcome) : list frame :=
  if AuditIncomplete o then [mkFrame frameStderr audit_warning None ""] else [].

(** The end of an answer: the warning if there is one, the result frame. *)
Lemma answer_run {S} (h : handler serve_call S) cfg req s :
  is_DryRun req = false ->
  let o := result_of (broker_view cfg h) (broker_prog cfg req) s in
  exists t, trace_of h (answer_request cfg req) s = trace_of h (broker_run cfg req) s ++ t
    /\ calls t = map Encode (warning o ++ [result_frame (run_result o)]).
Proof.
  intros Hd. cbv zeta. unfold answer_request. rewrite Hd, trace_of_bind.
  assert (Ho : result_of h (broker_run cfg req) s
               = result_of (broker_view cfg h) (broker_prog cfg req) s) by apply interp_result.
  rewrite Ho. generalize (result_of (broker_view cfg h) (broker_prog cfg req) s). intros o.
  generalize (state_of h (broker_run cfg req) s). intros s1.
  eexists. split; [done|]. unfold warning, trace_of, write_frame, send_result.
  destruct (AuditIncomplete o); simpl.
  - destruct (h (Encode _) s1) as [x s2]. simpl. by destruct (h (Encode _) s2).
  - by destruct (h (Encode _) s1).
Qed.

Lemma answer_dry {S} (h : handler serve_call S) cfg req s :
  is_DryRun req = true ->
  exists t d x, trace_of h (answer_request cfg req) s = t ++ [ev (Encode (result_frame (dry_result d))) x]
    /\ Forall quiet (calls t).
Proof.
  intros Hd. unfold answer_request. rewrite Hd, trace_of_bind.
  exists (trace_of h (broker_dry_run cfg req) s), (result_of h (broker_dry_run cfg req) s),
    (fst (h (Encode (result_frame (dry_result (result_of h (broker_dry_run cfg req) s))))
            (state_of h (broker_dry_run cfg req) s))).
  split; [|apply dry_run_quiet]. f_equal.
  generalize (result_of h (broker_dry_run cfg req) s), (state_of h (broker_dry_run cfg req) s).
  intros d s1. unfold trace_of, send_result. simpl. by destruct (h _ s1).
Qed.

Lemma sent_cons e t : sent (e :: t) = match projT1 e with Encode f => f :: sent t | _ => sent t end.
Proof. unfold sent. rewrite calls_cons. by destruct (projT1 e). Qed.

Lemma sent_encodes t fs : calls t = map Encode fs -> sent t = fs.
Proof. unfold sent. intros ->. induction fs as [|f fs IH]; [done|]. cbn. by f_equal. Qed.

Lemma warning_outputs o : Forall is_output (warning o).
Proof. unfold warning. destruct (AuditIncomplete o); [|constructor]. constructor; [by right|constructor]. Qed.

(** A program whose last call is an [Encode], and which returns its answer. *)
Definition ends_encoding (p : prog serve_call (result string unit)) : Prop :=
  forall S (h : handler serve_call S) s, exists t f,
    trace_of h p s = t ++ [ev (Encode f) (result_of h p s)].

Lemma encode_ends f : ends_encoding (call (Encode f)).
Proof. intros S h s. exists [], f. unfold trace_of, result_of. simpl. by destruct (h (Encode f) s). Qed.

Lemma bind_ends {A} (p : prog serve_call A) k : (forall a, ends_encoding (k a)) -> ends_encoding (p ≫= k).
Proof.
  intros H S h s. destruct (H (result_of h p s) S h (state_of h p s)) as (t & f & Ht).
  exists (trace_of h p s ++ t), f. by rewrite trace_of_bind, result_of_bind, Ht, app_assoc.
Qed.

Lemma Serve_ends : ends_encoding Serve.
Proof.
  assert (Ha : forall req o e, ends_encoding (writeAuditedWorkerError req o e))
    by (intros; apply bind_ends; intros; apply encode_ends).
  unfold Serve. apply bind_ends. intros [u|e]; [|apply encode_ends]. apply bind_ends. intros input.
  destruct (decodeRequest _ _ _) as [req|e]; [|apply Ha]. apply bind_ends. intros fs.
  destruct (prepare _ _ _ _) as [cfg|e]; [|apply Ha]. unfold answer_request.
  destruct (is_DryRun req); [apply bind_ends; intros; apply encode_ends|].
  apply bind_ends. intros o. apply bind_ends. intros _. apply encode_ends.
Qed.

(** A frame that ends an answer. *)
Definition is_final (f : frame) : Prop :=
  (exists r, f = result_frame r) \/ (exists msg, f = error_frame msg).

Lemma Serve_sent {S} (h : handler serve_call S) s :
  exists outs f, sent (trace_of h (Serve) s) = outs ++ [f] /\ Forall is_output outs /\ is_final f.
Proof.
  destruct (Serve_phases h s) as [(t & msg & x & -> & Hq)|(t0 & req & cfg & s1 & -> & Hq & _)].
  { exists [], (error_frame msg). rewrite sent_app, quiet_sent by done.
    split_and!; [done|constructor|right; by eexists]. }
  rewrite sent_app, (quiet_sent t0 Hq). simpl. destruct (is_DryRun req) eqn:Ed.
  - destruct (answer_dry h cfg req s1 Ed) as (t & d & x & -> & Ht).
    exists [], (result_frame (dry_result d)). rewrite sent_app, (quiet_sent t Ht).
    split_and!; [done|constructor|left; by eexists].
  - destruct (answer_run h cfg req s1 Ed) as (t & -> & Ht).
    rewrite sent_app, (sent_encodes t _ Ht), app_assoc. eexists _, _. split; [done|].
    split; [|left; by eexists]. apply Forall_app. split; [apply broker_run_outputs|apply warning_outputs].
Qed.

(** ** Properties *)

(** The worker keeps the protocol: whatever happens, what it sends is any
    number of output frames and then exactly one last frame, a result or an
    error; so the client that reads it returns that result or that error,
    and never finds the answer incomplete. *)
Theorem Serve_client_protocol {S} (h : handler serve_call S) s c req fuel :
  (length (sent (trace_of h (Serve) s)) < fuel)%nat ->
  exists outs f, sent (trace_of h (Serve) s) = outs ++ [f]
    /\ Forall is_output outs /\ is_final f
    /\ result_of child_handler (ClientRun fuel c req) (mkChild (sent (trace_of h (Serve) s)) false None)
       = Some match frame_Result f with Some r => Ok r | None => Err (EWorker (Message f)) end.
Proof.
  intros Hfuel. destruct (Serve_sent h s) as (outs & f & Hs & Ho & Hf). rewrite Hs in *.
  exists outs, f. split; [done|split; [done|split; [done|]]].
  rewrite length_app in Hfuel. simpl in Hfuel.
  rewrite (ClientRun_delivers c req outs f fuel); [|done| |lia].
  - by destruct Hf as [[r ->]|[msg ->]].
  - destruct Hf as [[r ->]|[msg ->]]; [by left|by right].
Qed.

(** *** Commands *)

Lemma calls_in {C} `{Interface C} (t : list (event C)) c :
  c ∈ calls t <-> exists e, e ∈ t /\ projT1 e = c.
Proof. unfold calls. rewrite list_elem_of_fmap. split; intros (e & ? & ?); by exists e. Qed.

Lemma quiet_no_command t c : Forall quiet (calls t) -> RunCommand c ∉ calls t.
Proof. intros H Hin. rewrite Forall_forall in H. destruct (H _ Hin) as [_ Hq]. by destruct (Hq c). Qed.

(** A collaborator's answer, in the trace of the whole. *)
Lemma collaborator_event {S} (h : handler serve_call S) cfg req s e :
  e ∈ trace_of (broker_view cfg h) (broker_prog cfg req) s ->
  is_runner (projT1 e) = false -> is_resolve (projT1 e) = false ->
  ev (Collaborator (projT1 e)) (projT2 e) ∈ trace_of h (broker_run cfg req) s.
Proof.
  intros He H1 H2. destruct (interp_event (collaborator cfg) h _ _ _ He) as (s0 & Hr & Hd).
  apply Hd. clear Hd He. destruct e as [c r]. simpl in *. subst r.
  destruct c; try done; unfold result_of, trace_of; simpl; destruct (h _ s0); by left.
Qed.

Lemma resolver_event {S} (h : handler serve_call S) cfg req s entry tok :
  ev (Resolve entry) (Ok tok) ∈ trace_of (broker_view cfg h) (broker_prog cfg req) s ->
  exists fs, ev Files fs ∈ trace_of h (broker_run cfg req) s
    /\ FileResolver_Resolve fs (Path (ts_File (cfg_TokenSource cfg))) entry = Ok tok.
Proof.
  intros He. destruct (interp_event (collaborator cfg) h _ _ _ He) as (s0 & Hr & Hd). simpl in Hr, Hd.
  unfold result_of, trace_of in *. simpl in *. destruct (h Files s0) as [fs s1]. simpl in *.
  exists fs. split; [apply Hd; by left|].
  destruct (FileResolver_Resolve _ _ _) as [tk|]; simpl in Hr; [by injection Hr as ->|done].
Qed.

Lemma command_runner {S} (h : handler serve_call S) cfg req s c :
  RunCommand c ∈ calls (trace_of h (broker_run cfg req) s) ->
  exists spec, RunnerRun spec ∈ calls (trace_of (broker_view cfg h) (broker_prog cfg req) s)
    /\ c = runner_command cfg spec.
Proof.
  intros (d & Hd & Hc)%calls_in. apply interp_call_of in Hd as (e & s0 & He & Hd & _).
  destruct (is_runner (projT1 e)) eqn:Er.
  - assert (Hin : projT1 e ∈ calls (trace_of (broker_view cfg h) (broker_prog cfg req) s))
      by (apply calls_in; by exists e).
    destruct e as [b y]. cbn [projT1] in *. destruct b as [| | | | | |spec]; try done. exists spec. split; [done|].
    assert (Hd' : d ∈ trace_of h (collaborator cfg (RunnerRun spec)) s0) by exact Hd.
    clear Hd; rename Hd' into Hd.
    destruct (runner_trace h cfg spec s0) as [[Ht _]|(x & t & Ht & Hx & _)]; rewrite Ht in Hd;
      [by inversion Hd|]. apply elem_of_cons in Hd as [->|Hd]; [simpl in Hc; congruence|].
    exfalso. assert (Hm : RunCommand c ∈ calls t) by (apply calls_in; by exists d).
    rewrite Hx in Hm. by apply list_elem_of_fmap in Hm as (w & [=] & _).
  - exfalso. apply (quiet_no_command (trace_of h (collaborator cfg (projT1 e)) s0) c).
    + by apply collaborator_quiet.
    + apply calls_in. by exists d.
Qed.

(** A command is run only while answering an admitted request. *)
Lemma command_admitted {S} (h : handler serve_call S) s c :
  RunCommand c ∈ calls (trace_of h (Serve) s) ->
  exists t0 req cfg s1 t, trace_of h (Serve) s = t0 ++ trace_of h (broker_run cfg req) s1 ++ t
    /\ admitted t0 req cfg /\ is_DryRun req = false
    /\ Forall quiet (calls t0)
    /\ calls t = map Encode (warning (result_of (broker_view cfg h) (broker_prog cfg req) s1)
           ++ [result_frame (run_result (result_of (broker_view cfg h) (broker_prog cfg req) s1))])
    /\ RunCommand c ∈ calls (trace_of h (broker_run cfg req) s1).
Proof.
  destruct (Serve_phases h s) as [(t & msg & x & -> & Hq)|(t0 & req & cfg & s1 & -> & Hq & Ha & _)].
  { rewrite calls_app, elem_of_app. intros [H|H]; [by apply quiet_no_command in H|].
    rewrite calls_cons, elem_of_cons in H. destruct H as [[=]|H]. by inversion H. }
  rewrite calls_app, elem_of_app. intros [H|H]; [by apply quiet_no_command in H|].
  destruct (is_DryRun req) eqn:Ed.
  { destruct (answer_dry h cfg req s1 Ed) as (t & d & x & Ht & Hqt). rewrite Ht, calls_app, elem_of_app in H.
    destruct H as [H|H]; [by apply quiet_no_command in H|].
    rewrite calls_cons, elem_of_cons in H. destruct H as [[=]|H]. by inversion H. }
  destruct (answer_run h cfg req s1 Ed) as (t & Ht & Hc). rewrite Ht in H |- *.
  exists t0, req, cfg, s1, t. split_and!; try done.
  rewrite calls_app, elem_of_app, Hc in H. destruct H as [H|H]; [done|].
  by apply list_elem_of_fmap in H as (f & [=] & _).
Qed.

(** What a command that is run needed. *)
Lemma commands_authorized {S} (h : handler serve_call S) s c :
  let t := trace_of h (Serve) s in
  RunCommand c ∈ calls t ->
  exists req cfg p tok runID fs a r,
    admitted t req cfg /\ is_DryRun req = false
    /\ lookup_project cfg (Protocol.Project req) = Some p
    /\ ev (Collaborator (start_of (run_request req))) (Ok runID) ∈ t
    /\ ev (Collaborator (EvalSymlinks (Config.WorkingDir p))) (Some a) ∈ t
    /\ ev (Collaborator (EvalSymlinks (Protocol.WorkingDir req))) (Some r) ∈ t
    /\ Filepath.Clean a = Filepath.Clean r
    /\ (decide p (Protocol.Argv req) = VerdictAllow
        \/ decide p (Protocol.Argv req) = VerdictPrompt
           /\ ev (Collaborator (Approve (prompt_for unicode_print (run_request req)))) (Ok Approved) ∈ t)
    /\ ev Files fs ∈ t
    /\ FileResolver_Resolve fs (Path (ts_File (cfg_TokenSource cfg))) (TokenEntry p) = Ok tok
    /\ c = runner_command cfg (spec_for (run_request req) p tok).
Proof.
  cbv zeta. intros (t0 & req & cfg & s1 & t & -> & Ha & Hdry & _ & _ & Hc)%command_admitted.
  apply command_runner in Hc as (spec & Hs & ->).
  destruct (runner_called_authorized unicode_print cfg true (broker_view cfg h) (run_request req) s1 spec Hs)
    as (runID & p & tb & tok & x & rest & Hb & (Hp & tw & ta & -> & Hw & Hv) & -> & _).
  fold (broker_prog cfg req) in Hb.
  assert (Hin : forall e, e ∈ trace_of (broker_view cfg h) (broker_prog cfg req) s1 ->
    is_runner (projT1 e) = false -> is_resolve (projT1 e) = false ->
    ev (Collaborator (projT1 e)) (projT2 e) ∈ t0 ++ trace_of h (broker_run cfg req) s1 ++ t).
  { intros e He H1 H2. apply elem_of_app. right. apply elem_of_app. left. by apply collaborator_event. }
  rewrite Hb in Hin.
  assert (Hprep := Ha). destruct Hprep as (input & fs0 & _ & _ & _ & n & _ & _ & _ & Hready & _).
  destruct Hw as [[Hwd _]|(_ & _ & a & r & -> & Hclean)].
  { exfalso. pose proof (wr_dirs _ Hready) as Hd. rewrite Forall_forall in Hd.
    apply find_alias_Some in Hp as [Hp _]. specialize (Hd p Hp). by rewrite Hwd in Hd. }
  destruct (resolver_event h cfg req s1 (TokenEntry p) tok) as (fs & Hfs & Hres).
  { rewrite Hb. set_solver. }
  exists req, cfg, p, tok, runID, fs, a, r. split_and!; try done.
  - destruct Ha as (i & f & Hi & Hf & ?). exists i, f. split_and!; [set_solver|set_solver|naive_solver..].
  - apply (Hin (ev (start_of (run_request req)) (Ok runID))); [set_solver|done|done].
  - apply (Hin (ev (EvalSymlinks (Config.WorkingDir p)) (Some a))); [set_solver|done|done].
  - apply (Hin (ev (EvalSymlinks (Protocol.WorkingDir req)) (Some r))); [set_solver|done|done].
  - destruct Hv as [[Hv _]|[Hv ->]]; [by left|right]. split; [done|].
    apply (Hin (ev (Approve (prompt_for unicode_print (run_request req))) (Ok Approved))); [set_solver|done|done].
  - set_solver.
Qed.

(** C2: a command runs only under every protection at once: if [Serve] runs a
    command then the request was well formed and not a dry run, the policy
    file and the runtime were trusted, the start of the run was logged, the
    project exists, the working directories resolve to the same place, the
    argv is allowlisted for automatic use or a human approved the prompt
    that shows it, and the token came from the private token file; the
    command is [bws run] for that project and exactly that argv. *)
Theorem Serve_commands_authorized {S} (h : handler serve_call S) s c :
  let t := trace_of h (Serve) s in
  RunCommand c ∈ calls t ->
  exists req cfg p tok runID fs a r,
    admitted t req cfg /\ is_DryRun req = false
    /\ lookup_project cfg (Protocol.Project req) = Some p
    /\ ev (Collaborator (start_of (run_request req))) (Ok runID) ∈ t
    /\ ev (Collaborator (EvalSymlinks (Config.WorkingDir p))) (Some a) ∈ t
    /\ ev (Collaborator (EvalSymlinks (Protocol.WorkingDir req))) (Some r) ∈ t
    /\ Filepath.Clean a = Filepath.Clean r
    /\ (decide p (Protocol.Argv req) = VerdictAllow
        \/ decide p (Protocol.Argv req) = VerdictPrompt
           /\ ev (Collaborator (Approve (prompt_for unicode_print (run_request req)))) (Ok Approved) ∈ t)
    /\ ev Files fs ∈ t
    /\ FileResolver_Resolve fs (Path (ts_File (cfg_TokenSource cfg))) (TokenEntry p) = Ok tok
    /\ c = runner_command cfg (spec_for (run_request req) p tok).
Proof. apply commands_authorized. Qed.

(** *** The cause of a refusal *)

Lemma collaborator_asks {S} (h : handler serve_call S) cfg c s q :
  Collaborator (Approve q) ∈ calls (trace_of h (collaborator cfg c) s) -> c = Approve q.
Proof.
  destruct (is_runner c) eqn:Er.
  - destruct c as [| | | | | |spec]; try done.
    destruct (runner_trace h cfg spec s) as [[-> _]|(x & t & -> & Hc & _)]; [by inversion 1|].
    rewrite calls_cons, Hc. intros [[=]|H]%elem_of_cons. by apply list_elem_of_fmap in H as (w & [=] & _).
  - destruct c; try done; unfold trace_of; simpl; destruct (h _ s); cbn; intros H;
      apply list_elem_of_singleton in H; by simplify_eq.
Qed.

(** A result with a cause: the approver gave it, about this request. *)
Lemma cause_admitted {S} (h : handler serve_call S) s outs r :
  sent (trace_of h (Serve) s) = outs ++ [result_frame r] -> res_Cause r <> "" ->
  exists req cfg, admitted (trace_of h (Serve) s) req cfg /\ is_DryRun req = false /\ res_Denied r = true
    /\ @ev serve_call serve_interface (Collaborator ApproveCause) (res_Cause r) ∈ trace_of h (Serve) s
    /\ forall q, Collaborator (Approve q) ∈ calls (trace_of h (Serve) s) -> q = prompt_for unicode_print (run_request req).
Proof.
  destruct (Serve_phases h s) as [(t & msg & x & -> & Hq)|(t0 & req & cfg & s1 & -> & Hq & Ha & Ht0)].
  { rewrite sent_app, quiet_sent by done. intros H%(app_inj_tail []). by destruct H as [_ [=]]. }
  rewrite sent_app, (quiet_sent t0 Hq). cbn [app]. destruct (is_DryRun req) eqn:Ed.
  { destruct (answer_dry h cfg req s1 Ed) as (t & d & x & -> & Ht). rewrite sent_app, (quiet_sent t Ht).
    intros [_ [= <-]]%(app_inj_tail []) Hc. unfold dry_result in Hc. by destruct (dr_Verdict d). }
  destruct (answer_run h cfg req s1 Ed) as (t & -> & Ht). rewrite sent_app, (sent_encodes t _ Ht), app_assoc.
  intros [_ Hr]%app_inj_tail Hc. injection Hr as <-. cbn [res_Cause res_Denied run_result] in *.
  destruct (cause_reported unicode_print cfg true (broker_view cfg h) (run_request req) s1 Hc) as (Hd & He & Hp).
  exists req, cfg. split_and!; [| |done| |].
  - destruct Ha as (i & fs & Hi & Hf & ?). exists i, fs. split_and!; [set_solver|set_solver|naive_solver..].
  - done.
  - apply elem_of_app. right. apply elem_of_app. left.
    by apply (collaborator_event h cfg req s1 (ev ApproveCause _)).
  - intros q. rewrite !calls_app, !elem_of_app, Ht0, Ht. intros [Hin|[Hin|Hin]].
    + by repeat (apply elem_of_cons in Hin as [[=]|Hin]); inversion Hin.
    + apply calls_in in Hin as (d & Hd' & Hdc). apply interp_call_of in Hd' as (e & s0 & He' & Hd' & _).
      apply Hp. apply calls_in. exists e. split; [exact He'|].
      apply (collaborator_asks h cfg _ s0). apply calls_in. by exists d.
    + by apply list_elem_of_fmap in Hin as (f & [=] & _).
Qed.

(** *** Output and exit code *)

(** Broker calls other than the runner's send nothing and run nothing. *)
Lemma quiet_traces {S} (h : handler serve_call S) cfg t ts :
  none is_runner t -> call_traces (collaborator cfg) h t ts -> Forall quiet (calls (concat ts)).
Proof.
  intros Hn H. induction H as [|e te t ts (s0 & -> & _) _ IH]; [constructor|].
  apply none_cons in Hn as [He Hn]. cbn [concat]. rewrite calls_app. apply Forall_app.
  split; [by apply collaborator_quiet|by apply IH].
Qed.

(** Where no command is run, nothing is forwarded. *)
Lemma unrun_silent {S} (h : handler serve_call S) cfg req s :
  (forall c, RunCommand c ∉ calls (trace_of h (broker_run cfg req) s)) ->
  sent (trace_of h (broker_run cfg req) s) = [].
Proof.
  pose proof (interp_trace (collaborator cfg) h (broker_prog cfg req) s) as (ts & Ht & Hts).
  change (trace_of h (broker_run cfg req) s = concat ts) in Ht. rewrite Ht. clear Ht.
  induction Hts as [|[c r] te t ts (s0 & -> & _) _ IH]; [done|]. cbn [concat projT1]. intros H.
  rewrite sent_app, IH, app_nil_r.
  - destruct (is_runner c) eqn:Er; [|by apply quiet_sent, collaborator_quiet].
    destruct c as [| | | | | |spec]; try done.
    destruct (runner_trace h cfg spec s0) as [[-> _]|(x & t' & Htr & _)]; [done|].
    destruct (H (runner_command cfg spec)). cbn [concat]. rewrite calls_app, Htr. by left.
  - intros c' Hc. apply (H c'). rewrite calls_app. apply elem_of_app. by right.
Qed.

(** A run whose broker calls the runner once: what is sent is what the one
    command wrote, if there was one, and the runner's answer is its exit. *)
Lemma one_runner {S} (h : handler serve_call S) cfg req s pre spec y post :
  trace_of (broker_view cfg h) (broker_prog cfg req) s = pre ++ ev (RunnerRun spec) y :: post ->
  none is_runner pre -> none is_runner post ->
  ((forall c, RunCommand c ∉ calls (trace_of h (broker_run cfg req) s)) /\ y = Err tt)
  \/ exists x : passthrough, ev (RunCommand (runner_command cfg spec)) x ∈ trace_of h (broker_run cfg req) s
       /\ sent (trace_of h (broker_run cfg req) s) = map output_frame (pt_writes x)
       /\ y = wrap_err (fun _ => tt) (pt_exit x).
Proof.
  intros E Hpre Hpost. pose proof (interp_trace (collaborator cfg) h (broker_prog cfg req) s) as (ts & Ht & Hts).
  assert (Ht' : trace_of h (broker_run cfg req) s = concat ts) by exact Ht. rewrite Ht'. clear Ht Ht'.
  fold (broker_view cfg h) in Hts. rewrite E in Hts. unfold call_traces in Hts.
  apply Forall2_app_inv_l in Hts as (ta & tb & Hta & Htb & ->).
  apply Forall2_cons_inv_l in Htb as (tx & tc & (s3 & Etx & Hres) & Htc & ->). cbn [projT1 projT2 ev] in *.
  pose proof (quiet_traces h cfg pre ta Hpre Hta) as Hqa. pose proof (quiet_traces h cfg post tc Hpost Htc) as Hqc.
  rewrite concat_app, concat_cons.
  destruct (runner_trace h cfg spec s3) as [[Htr Hr]|(x & t' & Htr & Hc & Hr)]; rewrite Hr in Hres; subst tx;
    rewrite Htr.
  - left. split; [|done]. intros c. rewrite !calls_app, !elem_of_app.
    intros [Hin|[Hin|Hin]]; [by apply (quiet_no_command _ c Hqa)|by inversion Hin|by apply (quiet_no_command _ c Hqc)].
  - right. exists x. split_and!; [| |done].
    + apply elem_of_app. right. by left.
    + rewrite !sent_app, (quiet_sent _ Hqa), (quiet_sent _ Hqc), app_nil_r, sent_cons. cbn.
      apply sent_encodes. by rewrite Hc, map_map.
Qed.

(** A command that was run: its output was forwarded, and the outcome is its
    exit code, or the failure to get one. *)
Lemma command_output {S} (h : handler serve_call S) cfg req s c :
  let o := result_of (broker_view cfg h) (broker_prog cfg req) s in
  RunCommand c ∈ calls (trace_of h (broker_run cfg req) s) ->
  exists p tok (x : passthrough), let spec := spec_for (run_request req) p tok in
    ev (RunCommand (runner_command cfg spec)) x ∈ trace_of h (broker_run cfg req) s
    /\ sent (trace_of h (broker_run cfg req) s) = map output_frame (pt_writes x)
    /\ (if ro_Denied o then is_ok (pt_exit x) = false /\ Reason o = ReasonRunnerStartFailed /\ ApprovalCause o = ""
        else pt_exit x = Ok (ro_ExitCode o)).
Proof.
  cbv zeta. intros Hin. pose proof (command_runner h cfg req s c Hin) as (spec & Hspec & ->).
  destruct (runner_decides unicode_print cfg true (broker_view cfg h) (run_request req) s spec Hspec)
    as (pre & y & post & p & tok & E & Hpre & Hpost & -> & Hy).
  exists p, tok. destruct (one_runner h cfg req s _ _ _ _ E Hpre Hpost) as [[Hs ->]|(x & Hx & Hs & ->)].
  - by destruct (Hs _ Hin).
  - exists x. split; [exact Hx|]. split; [exact Hs|]. destruct (ro_Denied _); destruct (pt_exit x) as [code|e].
    + by destruct Hy.
    + split; [reflexivity|apply Hy].
    + injection Hy as ->. reflexivity.
    + discriminate Hy.
Qed.

(** An executed run: one command, its output forwarded, its exit code. *)
Lemma executed_output {S} (h : handler serve_call S) cfg req s :
  let o := result_of (broker_view cfg h) (broker_prog cfg req) s in
  ro_Denied o = false ->
  exists p tok (x : passthrough), let spec := spec_for (run_request req) p tok in
    ev (RunCommand (runner_command cfg spec)) x ∈ trace_of h (broker_run cfg req) s
    /\ pt_exit x = Ok (ro_ExitCode o)
    /\ sent (trace_of h (broker_run cfg req) s) = map output_frame (pt_writes x).
Proof.
  cbv zeta. intros Hd. destruct (executed_runner unicode_print cfg true (broker_view cfg h) (run_request req) s Hd)
    as (spec & Hspec).
  destruct (runner_decides unicode_print cfg true (broker_view cfg h) (run_request req) s spec Hspec)
    as (pre & y & post & p & tok & E & Hpre & Hpost & -> & Hy).
  destruct (ro_Denied _) eqn:Ed in Hy; [discriminate (eq_trans (eq_sym Ed) Hd)|].
  exists p, tok. destruct (one_runner h cfg req s _ _ _ _ E Hpre Hpost) as [[_ ->]|(x & Hx & Hs & ->)]; [done|].
  exists x. split_and!; [done| |done]. destruct (pt_exit x); [|done]. by injection Hy as ->.
Qed.

(** The caller gets the command's own output and exit code: if a command
    was run and the result says it was not denied, then the frames are every
    piece the command wrote, byte for byte, in order and on its stream, then
    at most the audit warning, then the result with the exit code the
    command returned. *)
Theorem Serve_passthrough {S} (h : handler serve_call S) s c outs r :
  RunCommand c ∈ calls (trace_of h (Serve) s) ->
  sent (trace_of h (Serve) s) = outs ++ [result_frame r] -> res_Denied r = false ->
  exists cfg spec (x : passthrough) w,
    ev (RunCommand (runner_command cfg spec)) x ∈ trace_of h (Serve) s
    /\ pt_exit x = Ok (res_ExitCode r)
    /\ outs = map output_frame (pt_writes x) ++ w
    /\ (w = [] \/ w = [mkFrame frameStderr audit_warning None ""]).
Proof.
  intros (t0 & req & cfg & s1 & t & -> & _ & _ & Hq & Ht & _)%command_admitted.
  rewrite !sent_app, (quiet_sent t0 Hq), (sent_encodes t _ Ht). simpl.
  rewrite app_assoc. intros [Hout Hr]%app_inj_tail Hd. injection Hr as <-.
  unfold run_result in *. cbn [res_Denied res_ExitCode] in *. rewrite Hd.
  destruct (executed_output h cfg req s1 Hd) as (p & tok & x & Hx & Hexit & Hs).
  exists cfg, (spec_for (run_request req) p tok), x, (warning (result_of (broker_view cfg h) (broker_prog cfg req) s1)). split_and!.
  - set_solver.
  - done.
  - by rewrite <- Hs, <- Hout.
  - unfold warning. destruct (AuditIncomplete _); auto.
Qed.

End Serve.

(** ** Witnesses *)

Definition demo_request : Protocol.Request := Protocol.mkRequest "p" "/w" ["ls"] false.

(** A prepared worker; the command prints and exits with 3. *)
Definition demo_serve : handler serve_call unit := fun c s =>
  match c return answer c * unit with
  | NewLogger _ => (Ok tt, s)
  | ReadInput => (("{}", false), s)
  | Encode _ => (Ok tt, s)
  | Files => (demo_fs, s)
  | Collaborator (LoggerStart _) => (Ok "run", s)
  | Collaborator (LoggerFinish _ _) => (Ok tt, s)
  | Collaborator (EvalSymlinks q) => (Some q, s)
  | Collaborator (Approve _) => (Ok Denied, s)
  | Collaborator ApproveCause => ("", s)
  | Collaborator (Resolve _) => (Err tt, s)
  | Collaborator (RunnerRun _) => (Err tt, s)
  | RunCommand (ExecRun _ _ _) => (Err "", s)
  | RunCommand (ExecRunPassthrough _ _ _ _) => (mkPassthrough [(StdoutStream, "hi")] (Ok 3), s)
  end.

Definition demo_text (e : serve_error) (a : option unit) : string := "error".

Notation demo_prog :=
  (Serve demo_url demo_toml (fun _ => Some (demo_request, true)) (fun _ => false) demo_text NewServer).

Definition demo_command : exec_call :=
  runner_command demo_config (spec_for (run_request demo_request)
    (mkProject "p" "id" "entry" "/w" "never" [mkAllowEntry ["ls"]]) (mkToken "tok")).

Definition demo_frames : list frame :=
  [mkFrame "stdout" "hi" None ""; result_frame (mkResult false "" "" 3)].

Lemma demo_sent : sent (trace_of demo_serve demo_prog tt) = demo_frames.
Proof. vm_compute. reflexivity. Qed.

Lemma demo_runs : RunCommand demo_command ∈ calls (trace_of demo_serve demo_prog tt).
Proof.
  replace (calls (trace_of demo_serve demo_prog tt)) with
    (take 7 (calls (trace_of demo_serve demo_prog tt))
     ++ RunCommand demo_command :: drop 8 (calls (trace_of demo_serve demo_prog tt)))
    by (vm_compute; reflexivity).
  set_solver.
Qed.

Lemma Serve_client_protocol_witness :
  result_of child_handler (ClientRun 3 NewClient demo_request)
    (mkChild (sent (trace_of demo_serve demo_prog tt)) false None)
  = Some (Ok (mkResult false "" "" 3)).
Proof.
  destruct (Serve_client_protocol demo_url demo_toml (fun _ => Some (demo_request, true)) (fun _ => false)
              demo_text NewServer demo_serve tt NewClient demo_request 3
              ltac:(rewrite demo_sent; simpl; lia)) as (outs & f & Hs & _ & _ & Hr).
  rewrite Hr. rewrite demo_sent in Hs.
  change demo_frames with ([mkFrame "stdout" "hi" None ""] ++ [result_frame (mkResult false "" "" 3)]) in Hs.
  apply app_inj_tail in Hs as [_ <-]. reflexivity.
Defined.

Lemma Serve_commands_authorized_witness :
  exists cfg req, admitted demo_url demo_toml (fun _ => Some (demo_request, true)) NewServer
    (trace_of demo_serve demo_prog tt) req cfg.
Proof.
  destruct (Serve_commands_authorized demo_url demo_toml (fun _ => Some (demo_request, true)) (fun _ => false)
              demo_text NewServer demo_serve tt demo_command demo_runs)
    as (req & cfg & p & tok & runID & fs & a & r & Ha & _).
  exists cfg, req. exact Ha.
Defined.

Lemma Serve_passthrough_witness :
  exists x : passthrough, pt_exit x = Ok 3.
Proof.
  destruct (Serve_passthrough demo_url demo_toml (fun _ => Some (demo_request, true)) (fun _ => false)
              demo_text NewServer demo_serve tt demo_command [mkFrame "stdout" "hi" None ""]
              (mkResult false "" "" 3) demo_runs demo_sent eq_refl)
    as (cfg & spec & x & w & _ & Hx & _).
  exists x. exact Hx.
Defined.
