(* ===== verification/Cli.v ===== *)
(** * Cli: the commands around the worker and the relay (internal/cli, cmd)

    The caller's [secrets-broker run], the worker's dispatch on its arguments,
    and the checks the relay makes before it listens.  Flag parsing is
    cobra's and the flag package's: the parsed values are arguments. *)

From S2P Require Import Prelude GoStrings GoText GoJson Effects Exec Config Broker Protocol Worker Serve.
From S2P Require AccessDiag ProjectList.

#[local] Open Scope Z_scope.

(** ** secrets-broker run (internal/cli/run.go, root.go) *)
Module Run.

Inductive cli_error : Type :=
| EProjectFlag
| ENoCommand
| EGetwd (e : string).

(** The lines written, and the exit code. *)
Record effect := mkEffect { lines : list (stream * string); exit : Z }.

Definition dry_label (r : Protocol.Result) : string :=
  if res_Denied r then "deny"
  else if negb (String.eqb (res_Reason r) "allowlisted") then "prompt" else "allow".

(** [RunE]: [client] is [worker.NewClient().Run]. *)
Definition RunE (projectAlias : string) (dryRun : bool) (argv : list string)
    (getwd : result string string) (client : Protocol.Request -> result string Protocol.Result)
    : result cli_error effect :=
  fail_if String.eqb projectAlias "" with EProjectFlag;
  fail_if Nat.eqb (length argv) 0 with ENoCommand;
  workingDir ← wrap_err EGetwd getwd;
  match client (Protocol.mkRequest projectAlias workingDir argv dryRun) with
  | Err e => Ok (mkEffect [(StderrStream, "secrets-broker: " +:+ e)] exitDenied)
  | Ok r =>
      let dry := if dryRun then [(StdoutStream, dry_label r +:+ ": " +:+ res_Reason r)] else [] in
      let denied :=
        if res_Denied r then
          [(StderrStream,
            if negb (String.eqb (res_Cause r) "")
            then "secrets-broker: denied (" +:+ res_Reason r +:+ ": " +:+ res_Cause r +:+ ")"
            else "secrets-broker: denied (" +:+ res_Reason r +:+ ")")]
        else [] in
      Ok (mkEffect (dry ++ denied) (res_ExitCode r))
  end.

(** [Execute]: a usage error has an exit code of its own. *)
Definition Execute (r : result cli_error effect) : Z :=
  match r with Err _ => 2 | Ok e => exit e end.

End Run.

(** ** secrets-broker-worker (cmd/secrets-broker-worker/main.go) *)
Module WorkerMain.

Inductive action : Type :=
| ListProjectsAction
| CheckAccessAction (alias : string)
| ServeAction
| CheckAction
| Usage.

Definition dispatch (args : list string) : action :=
  match args with
  | [] => ServeAction
  | [a] =>
      if String.eqb a "projects-list" then ListProjectsAction
      else if String.eqb a "access-check" then CheckAccessAction ""
      else if String.eqb a "check" then CheckAction
      else Usage
  | [a; alias] => if String.eqb a "access-check" then CheckAccessAction alias else Usage
  | _ => Usage
  end.

(** What the server's methods return, and whether writing to [out] works. *)
Record outcomes := mkOutcomes {
  list_result : result worker_error ProjectList.Result;
  access_result : string -> result worker_error AccessDiag.Result;
  serve_result : result string unit;
  check_result : result worker_error CheckResult;
  out_ok : bool;
}.

(** [run]: the exit code. *)
Definition run (args : list string) (o : outcomes) : Z :=
  match dispatch args with
  | ListProjectsAction =>
      match list_result o with
      | Err _ => 2
      | Ok _ => if out_ok o then 0 else 2
      end
  | CheckAccessAction alias =>
      match access_result o alias with
      | Err _ => 2
      | Ok r =>
          if negb (out_ok o) then 2
          else if negb (String.eqb (AccessDiag.r_Outcome r) AccessDiag.OutcomeAllAccessible) then 1
          else 0
      end
  | ServeAction => match serve_result o with Err _ => 1 | Ok _ => 0 end
  | CheckAction =>
      match check_result o with
      | Err _ => 1
      | Ok _ => if out_ok o then 0 else 1
      end
  | Usage => 2
  end.

(** [json.Marshal] of the two results. *)
Definition encode_project_result (p : AccessDiag.ProjectResult) : string :=
  Json.encode_object
    [Json.member "alias" (Json.encode_string (AccessDiag.pr_Alias p));
     Json.member "bws_project_id" (Json.encode_string (AccessDiag.pr_BWSProjectID p));
     Json.member "status" (Json.encode_string (AccessDiag.pr_Status p))].

Definition encode_access (r : AccessDiag.Result) : string :=
  Json.encode_object
    [Json.member "version" (Itoa.Itoa (AccessDiag.r_Version r));
     Json.member "outcome" (Json.encode_string (AccessDiag.r_Outcome r));
     Json.member "projects" (Json.encode_array (map encode_project_result (AccessDiag.r_Projects r)))].

Definition encode_project (p : ProjectList.Project) : string :=
  Json.encode_object
    [Json.member "id" (Json.encode_string (ProjectList.ID p));
     Json.member "name" (Json.encode_string (ProjectList.Name p))].

Definition encode_projects (r : ProjectList.Result) : string :=
  Json.encode_object
    [Json.member "version" (Itoa.Itoa (ProjectList.Version_ r));
     Json.member "projects" match ProjectList.Projects r with
                            | None => "null"
                            | Some ps => Json.encode_array (map encode_project ps)
                            end].

(** What [run] writes apart from [Serve]'s frames; [error_text] is the text of
    an error.  A write to [out] that fails writes nothing. *)
Definition output (error_text : worker_error -> string) (args : list string) (o : outcomes)
    : list (stream * string) :=
  let prefix := "secrets-broker-worker: " in
  let out s := if out_ok o then [(StdoutStream, s +:+ str1 LF)] else [] in
  let err s := [(StderrStream, s +:+ str1 LF)] in
  match dispatch args with
  | ListProjectsAction =>
      match list_result o with
      | Err _ => err (prefix +:+ "project list failed")
      | Ok r =>
          if out_ok o then out (encode_projects r) else err (prefix +:+ "project list output failed")
      end
  | CheckAccessAction alias =>
      match access_result o alias with
      | Err _ => err (prefix +:+ "access check failed")
      | Ok r =>
          if out_ok o then out (encode_access r) else err (prefix +:+ "access check output failed")
      end
  | ServeAction => []
  | CheckAction =>
      match check_result o with
      | Err e => err (prefix +:+ "check failed: " +:+ error_text e)
      | Ok r =>
          out ("Worker semantic check passed: " +:+ Itoa.Itoa (cr_Projects r)
               +:+ " project(s), token metadata valid (" +:+ Itoa.Itoa (cr_TokenBytes r) +:+ " bytes).")
      end
  | Usage => err "usage: secrets-broker-worker [check | access-check [ALIAS] | projects-list]"
  end.

End WorkerMain.

(** ** secrets-broker-relay (cmd/secrets-broker-relay/main.go) *)
Module RelayMain.

Record flags := mkFlags {
  controlAddr : string;
  decisionAddr : string;
  ttl : Z;
  sweepInterval : Z;
  sweepAfter : Z;
}.

Definition default_flags : flags :=
  mkFlags "127.0.0.1:7620" "127.0.0.1:7621" 300000000000 60000000000 3600000000000.

Inductive relay_error : Type :=
| ESameAddr
| EControlAddr
| EDecisionAddr
| EDurations.

Section Main.
(** [net.SplitHostPort]; [net.ParseIP] with [IsUnspecified] of the result. *)
Context (SplitHostPort : string -> option (string * string)).
Context (ParseIP : string -> option bool).

Definition validateListenAddr (addr : string) : bool :=
  match SplitHostPort addr with
  | None => false
  | Some (host, _) =>
      match ParseIP host with
      | None => false
      | Some unspecified => negb unspecified
      end
  end.

(** What [main] checks before it opens a listener. *)
Definition startup (f : flags) : result relay_error flags :=
  fail_if String.eqb (controlAddr f) (decisionAddr f) with ESameAddr;
  fail_if negb (validateListenAddr (controlAddr f)) with EControlAddr;
  fail_if negb (validateListenAddr (decisionAddr f)) with EDecisionAddr;
  fail_if (ttl f <=? 0) || (sweepInterval f <=? 0) || (sweepAfter f <? 0) with EDurations;
  Ok f.

(** The relay listens only where it may: startup succeeds exactly when
    the two addresses differ, each names a specific IP address, and the
    durations make every request expire and no live request be swept. *)
Theorem startup_exact f :
  startup f = Ok f <->
  controlAddr f <> decisionAddr f
  /\ (forall a, a = controlAddr f \/ a = decisionAddr f ->
        exists host port, SplitHostPort a = Some (host, port) /\ ParseIP host = Some false)
  /\ 0 < ttl f /\ 0 < sweepInterval f /\ 0 <= sweepAfter f.
Proof.
  assert (Hv : forall a, validateListenAddr a = true <->
    exists host port, SplitHostPort a = Some (host, port) /\ ParseIP host = Some false).
  { intros a. unfold validateListenAddr. destruct (SplitHostPort a) as [[host port]|]; [|naive_solver].
    destruct (ParseIP host) as [[]|] eqn:E; simpl; naive_solver. }
  unfold startup. rewrite !fail_if_Ok, !negb_false_iff, !Hv, !orb_false_iff, String.eqb_neq.
  rewrite !Z.leb_gt, Z.ltb_ge. naive_solver.
Qed.
End Main.

End RelayMain.

(** ** Properties *)

(** The dry run's label is the broker's verdict: what [secrets-broker run
    --dry-run] prints for the result the worker derives from a broker's dry
    run is "allow", "prompt" or "deny" exactly as the broker decided, although
    the result carries only a flag and a text. *)
Theorem dry_label_is_verdict {S} up cfg (h : handler broker_call S) project wd argv s :
  let d := result_of h (DryRun up cfg project wd argv) s in
  Run.dry_label (dry_result d) =
    match dr_Verdict d with
    | VerdictAllow => "allow"
    | VerdictPrompt => "prompt"
    | VerdictDeny => "deny"
    end.
Proof.
  cbv zeta. unfold result_of, DryRun. destruct (lookup_project cfg project) as [p|]; [|done].
  rewrite run_bind. destruct (run h (working_dir_ok p wd) s) as [[b s1] t1].
  destruct b; cbn [negb]; [|done]. simpl. by destruct (decide p argv).
Qed.

(** The caller's exit code tells the outcomes apart: a usage error exits
    with 2 and sends nothing to the worker; a worker that cannot be reached or
    answers with an error counts as a denial, 125; a denied request says so on
    stderr; and otherwise the code is the result's. *)
Theorem RunE_exit_codes project dry argv getwd client :
  let r := Run.RunE project dry argv getwd client in
  (r = Err Run.EProjectFlag \/ r = Err Run.ENoCommand \/ (exists e, r = Err (Run.EGetwd e)))
     /\ Run.Execute r = 2
  \/ exists wd, let req := Protocol.mkRequest project wd argv dry in
       project <> "" /\ argv <> [] /\ getwd = Ok wd
       /\ match client req with
          | Err _ => Run.Execute r = 125
          | Ok res => Run.Execute r = res_ExitCode res
              /\ (res_Denied res = true -> exists e, r = Ok e
                    /\ exists l, (StderrStream, "secrets-broker: denied (" +:+ l) ∈ Run.lines e)
          end.
Proof.
  cbv zeta. unfold Run.RunE. destruct (String.eqb_spec project "") as [->|Hp]; [left; by auto|].
  destruct argv as [|a argv]; [left; by auto|]. cbn [length Nat.eqb].
  destruct getwd as [wd|e]; cbn [wrap_err mbind result_bind]; [|left; split; [right; right; by eexists|done]].
  right. exists wd. split_and!; [done|done|done|].
  destruct (client _) as [res|e]; [|done]. split; [done|]. intros ->. eexists. split; [done|].
  destruct (negb (String.eqb (res_Cause res) "")); eexists; cbn [Run.lines];
    apply elem_of_app; right; apply list_elem_of_here.
Qed.

(** The administrator's access check is truthful: the worker exits with 0
    for it only if the report was written and claims access to every
    project. *)
Theorem access_check_exit_zero alias o :
  WorkerMain.run ["access-check"; alias] o = 0 <->
  exists r, WorkerMain.access_result o alias = Ok r /\ WorkerMain.out_ok o = true
    /\ AccessDiag.r_Outcome r = AccessDiag.OutcomeAllAccessible.
Proof.
  unfold WorkerMain.run. simpl. destruct (WorkerMain.access_result o alias) as [r|e]; [|naive_solver].
  destruct (WorkerMain.out_ok o); simpl; [|naive_solver].
  destruct (String.eqb_spec (AccessDiag.r_Outcome r) AccessDiag.OutcomeAllAccessible); simpl; naive_solver.
Qed.
