(* ===== verification/Session.v ===== *)
(** * Session: one invocation of secrets-broker run, both processes

    The caller's command ([Cli.Run]) starts the worker ([Serve]) through the
    client of [Protocol]; the worker's frames are the child's output.  What the
    caller sees is what the client writes, then the command's own lines, and
    the exit code. *)

From S2P Require Import Prelude GoStrings GoText Effects Exec Config Broker Protocol Worker Serve Cli.

#[local] Open Scope Z_scope.

Section Session.
Context (url_Parse : string -> option URL) (toml_Unmarshal : string -> option Config).
Context (json_request : string -> option (Protocol.Request * bool)).
Context (unicode_print : Z -> bool).
Context (error_text : serve_error -> option unit -> string).
Context (client_text : client_error -> string).
Context (srv : Server) (client : Client).

Notation Serve := (Serve url_Parse toml_Unmarshal json_request unicode_print error_text srv).
Notation admitted := (admitted url_Parse toml_Unmarshal json_request srv).

















(** ** Properties *)



End Session.

(** ** A witness *)




