(* ===== verification/RelayRun.v ===== *)
(** * RelayRun: the relay's process (cmd/secrets-broker-relay/main.go)

    [main] as a transition system: two listeners whose connections are served
    by goroutines of their own, the goroutine that sweeps, and the main
    goroutine that waits for a signal and shuts the servers down.  A request
    in flight is the rest of its handler's program ([RelayServer]); one step
    answers its next call from the shared store, so the steps interleave the
    store operations of all requests and of the sweeper.  [net/http] is what
    its documentation says of [ListenAndServe] and [Shutdown]: a listener ends
    with [ErrServerClosed] only after [Shutdown] was called on it, and no
    order is assumed between that and requests already accepted. *)

From S2P Require Import Prelude GoStrings GoText GoJson Effects Config Relay Http RelayServer Cli.

#[local] Open Scope Z_scope.

Import Store History.

(** ** State *)

Inductive listener : Type := ControlListener | DecisionListener.

#[export] Instance listener_eq_dec : EqDecision listener. Proof. solve_decision. Defined.

Definition listener_name (l : listener) : string :=
  match l with ControlListener => "control" | DecisionListener => "decision" end.

Definition port_of (l : listener) (r : Request) : port :=
  match l with ControlListener => Control r | DecisionListener => Decision r end.

(** The lines of the operator's log: the message with its attributes. *)
Inductive log_line : Type :=
| LogStarting (l : listener) (addr : string)
| LogFailed (l : listener)
| LogSwept (removed : Z)
| LogShutdown
| LogRequest (port : string) (method : string) (path : list string).

(** Where the goroutine of a listener is. *)
Inductive serving : Type :=
| Spawned                (** before [ListenAndServe] *)
| Listening              (** in [ListenAndServe] *)
| Ended.                 (** returned on [ErrServerClosed] *)

(** Where the main goroutine is: before [<-ctx.Done()], in one of the two
    calls of [Shutdown]. *)
Inductive position : Type := Waiting | ClosingControl | ClosingDecision.

Record process := mkProcess {
  store : Store;
  goroutine : listener -> serving;
  shut : listener -> bool;                      (** [Shutdown] was called *)
  inflight : list (port * prog op Response);
  sweeping : bool;                              (** the sweeper is in its loop *)
  ctx_done : bool;
  main_at : position;
  logged : list log_line;
  exit : option Z;
}.

Definition set_listener {A} (l : listener) (a : A) (f : listener -> A) : listener -> A :=
  fun l' => if decide (l' = l) then a else f l'.

Definition log (line : log_line) (s : process) : process :=
  mkProcess (store s) (goroutine s) (shut s) (inflight s) (sweeping s) (ctx_done s) (main_at s)
    (logged s ++ [line]) (exit s).
Definition with_store (st : Store) (s : process) : process :=
  mkProcess st (goroutine s) (shut s) (inflight s) (sweeping s) (ctx_done s) (main_at s) (logged s) (exit s).
Definition with_goroutine (l : listener) (g : serving) (s : process) : process :=
  mkProcess (store s) (set_listener l g (goroutine s)) (shut s) (inflight s) (sweeping s) (ctx_done s)
    (main_at s) (logged s) (exit s).
Definition with_inflight (ts : list (port * prog op Response)) (s : process) : process :=
  mkProcess (store s) (goroutine s) (shut s) ts (sweeping s) (ctx_done s) (main_at s) (logged s) (exit s).
Definition Exit (code : Z) (s : process) : process :=
  mkProcess (store s) (goroutine s) (shut s) (inflight s) (sweeping s) (ctx_done s) (main_at s) (logged s)
    (Some code).
(** The main goroutine goes on to [p], calling [Shutdown] of a listener. *)
Definition shutdown (l : listener) (p : position) (s : process) : process :=
  mkProcess (store s) (goroutine s) (set_listener l true (shut s)) (inflight s) (sweeping s) (ctx_done s) p
    (logged s) (exit s).

Section Process.
Context (unicode_print : Z -> bool) (url_Parse : string -> option URL).
Context (decode_prompt decode_decision : Reader -> option string).
Context (ParseForm : Request -> Reader -> option (list (string * string))).
Context (SplitHostPort : string -> option (string * string)).
Context (ParseIP : string -> option bool).
Context (f : RelayMain.flags).

Notation startup := (RelayMain.startup SplitHostPort ParseIP).
Notation may_issue := (may_issue unicode_print url_Parse decode_prompt decode_decision ParseForm (RelayMain.ttl f)).
Notation served := (served unicode_print url_Parse decode_prompt decode_decision ParseForm (RelayMain.ttl f)).

Definition address (l : listener) : string :=
  match l with
  | ControlListener => RelayMain.controlAddr f
  | DecisionListener => RelayMain.decisionAddr f
  end.

Definition handler_of (l : listener) (r : Request) : prog op Response :=
  match l with
  | ControlListener => NewControlHandler unicode_print decode_prompt (RelayMain.ttl f) r
  | DecisionListener => NewDecisionHandler unicode_print url_Parse decode_decision ParseForm r
  end.

(** [withLogging]: the line, then the handler. *)
Definition withLogging (l : listener) (r : Request) (s : process) : process :=
  with_inflight (inflight s ++ [(port_of l r, handler_of l r)])
    (log (LogRequest (listener_name l) (Method r) (Path r)) s).

(** [main] up to the first goroutine. *)
Definition start : process :=
  mkProcess NewStore (fun _ => Spawned) (fun _ => false) [] true false Waiting [] None.

Definition main : result RelayMain.relay_error process := _ ← startup f; Ok start.

(** ** Steps *)

Inductive label : Type :=
| Listen (l : listener)             (** the listener's goroutine calls [ListenAndServe] *)
| ListenFails (l : listener)        (** which returns an error *)
| ListenCloses (l : listener)       (** which returns [ErrServerClosed] *)
| Serve (l : listener) (r : Request)
| Advance (i : nat) (now : Z)       (** the [i]th request's next call *)
| Respond (i : nat)                 (** the [i]th request's handler returns *)
| Tick (now : Z)                    (** the sweeper's ticker *)
| StopSweeping
| Signal
| MainWakes
| ControlShut                       (** [controlServer.Shutdown] returns *)
| DecisionShut.

(** One step, with the store operation it makes, if any; [None] where the
    code is elsewhere. *)
Definition step (lb : label) (s : process) : option (process * list (port * entry)) :=
  match exit s with
  | Some _ => None
  | None =>
      let quiet s := Some (s, []) in
      match lb with
      | Listen l =>
          match goroutine s l with
          | Spawned => quiet (with_goroutine l Listening (log (LogStarting l (address l)) s))
          | _ => None
          end
      | ListenFails l =>
          match goroutine s l with Listening => quiet (Exit 1 (log (LogFailed l) s)) | _ => None end
      | ListenCloses l =>
          match goroutine s l with
          | Listening => if shut s l then quiet (with_goroutine l Ended s) else None
          | _ => None
          end
      | Serve l r =>
          match goroutine s l with Listening => quiet (withLogging l r s) | _ => None end
      | Advance i now =>
          match inflight s !! i with
          | Some (p, Call o k) =>
              let '(a, st) := store_handler now o (store s) in
              Some (with_inflight (<[i := (p, k a)]> (inflight s)) (with_store st s),
                    [(p, (now, o, (apply (store s) now o).1))])
          | _ => None
          end
      | Respond i =>
          match inflight s !! i with
          | Some (_, Ret _) => quiet (with_inflight (take i (inflight s) ++ drop (S i) (inflight s)) s)
          | _ => None
          end
      | Tick now =>
          if sweeping s then
            let '(removed, st) := Sweep (store s) now (RelayMain.sweepAfter f) in
            Some (if 0 <? removed then log (LogSwept removed) (with_store st s) else with_store st s,
                  [(Sweeper (RelayMain.sweepAfter f), (now, OSweep (RelayMain.sweepAfter f), RCount removed))])
          else None
      | StopSweeping =>
          if sweeping s && ctx_done s
          then quiet (mkProcess (store s) (goroutine s) (shut s) (inflight s) false (ctx_done s) (main_at s)
                        (logged s) (exit s))
          else None
      | Signal =>
          quiet (mkProcess (store s) (goroutine s) (shut s) (inflight s) (sweeping s) true (main_at s)
                   (logged s) (exit s))
      | MainWakes =>
          match main_at s with
          | Waiting =>
              if ctx_done s then quiet (shutdown ControlListener ClosingControl (log LogShutdown s)) else None
          | _ => None
          end
      | ControlShut =>
          match main_at s with ClosingControl => quiet (shutdown DecisionListener ClosingDecision s) | _ => None end
      | DecisionShut =>
          match main_at s with ClosingDecision => quiet (Exit 0 s) | _ => None end
      end
  end.

(** The states of a relay that started, with the history of its store. *)
Inductive reachable : list (port * entry) -> process -> Prop :=
| ReachMain s : main = Ok s -> reachable [] s
| ReachStep h s lb s' es : reachable h s -> step lb s = Some (s', es) -> reachable (h ++ es) s'.

(** Steps by their labels. *)
Fixpoint steps_of (ls : list label) (s : process) : option (process * list (port * entry)) :=
  match ls with
  | [] => Some (s, [])
  | lb :: ls =>
      '(s1, es1) ← step lb s;
      '(s2, es2) ← steps_of ls s1;
      Some (s2, es1 ++ es2)
  end.

Lemma steps_of_reachable ls h s s' es :
  reachable h s -> steps_of ls s = Some (s', es) -> reachable (h ++ es) s'.
Proof.
  revert h s s' es. induction ls as [|lb ls IH]; intros h s s' es H; cbn [steps_of].
  { intros [= <- <-]. by rewrite app_nil_r. }
  destruct (step lb s) as [[s1 es1]|] eqn:E; [|done]. cbn.
  destruct (steps_of ls s1) as [[s2 es2]|] eqn:E2; [|done]. intros [= <- <-].
  rewrite app_assoc. eapply IH; [|done]. by eapply ReachStep.
Qed.

Lemma steps_of_cons lb ls s s1 s' :
  step lb s = Some (s1, []) -> steps_of ls s1 = Some (s', []) -> steps_of (lb :: ls) s = Some (s', []).
Proof. intros H1 H2. cbn [steps_of]. rewrite H1. cbn. by rewrite H2. Qed.

(** ** What the process keeps *)

(** A request is on the operator's log; the sweeper has its flag. *)
Definition accounted (lines : list log_line) (p : port) : Prop :=
  match p with
  | Control r => LogRequest "control" (Method r) (Path r) ∈ lines
  | Decision r => LogRequest "decision" (Method r) (Path r) ∈ lines
  | Sweeper d => d = RelayMain.sweepAfter f
  end.

Lemma accounted_more lines more p : accounted lines p -> accounted (lines ++ more) p.
Proof. destruct p; cbn; [rewrite elem_of_app; by left..|done]. Qed.

Definition pending_ok (lines : list log_line) (t : port * prog op Response) : Prop :=
  accounted lines t.1 /\ forall o, issues t.2 o -> may_issue t.1 o.

Lemma pending_more lines more t : pending_ok lines t -> pending_ok (lines ++ more) t.
Proof. intros [Ha Hi]. split; [by apply accounted_more|done]. Qed.

Record kept (h : list (port * entry)) (s : process) : Prop := {
  kept_started : startup f = Ok f;
  kept_store : served NewStore h (store s);
  kept_inflight : Forall (pending_ok (logged s)) (inflight s);
  kept_logged : forall p e, (p, e) ∈ h -> accounted (logged s) p;
  kept_shut : main_at s <> Waiting -> ctx_done s = true /\ LogShutdown ∈ logged s;
  kept_exit : forall code, exit s = Some code ->
    code = 0 /\ main_at s = ClosingDecision \/ code = 1 /\ exists l, LogFailed l ∈ logged s;
}.

(** A step that leaves the store as it is, and extends the log. *)
Lemma kept_quiet h s s' more :
  kept h s -> store s' = store s -> logged s' = logged s ++ more ->
  Forall (pending_ok (logged s')) (inflight s') ->
  (main_at s' <> Waiting -> ctx_done s' = true /\ LogShutdown ∈ logged s') ->
  (forall code, exit s' = Some code ->
    code = 0 /\ main_at s' = ClosingDecision \/ code = 1 /\ exists l, LogFailed l ∈ logged s') ->
  kept h s'.
Proof.
  intros [H1 H2 H3 H4 H5 H6] Hs Hl Hi Hp He. split; [done|by rewrite Hs|done| |done|done].
  intros p e Hin. rewrite Hl. by eapply accounted_more, H4.
Qed.

Lemma kept_same_inflight h s more : kept h s -> Forall (pending_ok (logged s ++ more)) (inflight s).
Proof. intros H. eapply Forall_impl; [apply (kept_inflight _ _ H)|]. intros t. apply pending_more. Qed.

Lemma kept_start s : main = Ok s -> kept [] s.
Proof.
  unfold main. destruct (startup f) as [f'|] eqn:E; [|done]. cbn. intros [= <-].
  split; try done; [|constructor|by intros ? ? ?%elem_of_nil].
  unfold RelayMain.startup in *. by repeat case_match; simplify_eq/=.
Qed.

Lemma apply_handler s now o : apply s now o = ((apply s now o).1, (store_handler now o s).2).
Proof.
  destruct o; cbn; [destruct (Create _ _ _ _ _)|..|destruct (Sweep _ _ _)]; try done.
  by destruct (Decide _ _ _ _).
Qed.

Lemma kept_advance h s i now p o k :
  kept h s -> inflight s !! i = Some (p, Call o k) ->
  kept (h ++ [(p, (now, o, (apply (store s) now o).1))])
    (with_inflight (<[i := (p, k (store_handler now o (store s)).1)]> (inflight s))
       (with_store (store_handler now o (store s)).2 s)).
Proof.
  intros [H1 H2 H3 H4 H5 H6] Hi.
  destruct (Forall_lookup_1 _ _ _ _ H3 Hi) as [Ha Hk]. cbn in Ha, Hk.
  split; cbn; [done| | | |done|done].
  - eapply served_snoc; [done|apply Hk; by left|apply apply_handler].
  - apply Forall_insert; [done|]. split; [done|]. cbn. intros o' Ho. apply Hk. right. by eexists.
  - intros p' e [Hin|[= -> ->]%list_elem_of_singleton]%elem_of_app; [by eapply H4|done].
Qed.

Lemma kept_tick h s now :
  kept h s ->
  let '(removed, st) := Sweep (store s) now (RelayMain.sweepAfter f) in
  kept (h ++ [(Sweeper (RelayMain.sweepAfter f), (now, OSweep (RelayMain.sweepAfter f), RCount removed))])
    (if 0 <? removed then log (LogSwept removed) (with_store st s) else with_store st s).
Proof.
  intros [H1 H2 H3 H4 H5 H6]. destruct (Sweep _ _ _) as [removed st] eqn:E.
  assert (Hk : kept (h ++ [(Sweeper (RelayMain.sweepAfter f), (now, OSweep (RelayMain.sweepAfter f), RCount removed))])
    (with_store st s)).
  { split; cbn; [done| |done| |done|done].
    - eapply served_snoc; [done|done|]. cbn. by rewrite E.
    - intros p e [Hin|[= -> ->]%list_elem_of_singleton]%elem_of_app; [by eapply H4|done]. }
  destruct (0 <? removed); [|done].
  apply (kept_quiet _ _ _ [LogSwept removed] Hk); cbn; [done|done| | |].
  - by apply (kept_same_inflight _ _ _ Hk).
  - intros Hp. destruct (H5 Hp). split; [done|]. apply elem_of_app. by left.
  - intros c [Hc|(Hc & l & Hl)]%H6; [by left|]. right. split; [done|]. exists l. apply elem_of_app. by left.
Qed.

Lemma kept_serve h s l r : kept h s -> kept h (withLogging l r s).
Proof.
  intros H. apply (kept_quiet _ _ _ [LogRequest (listener_name l) (Method r) (Path r)] H); cbn; [done|done| | |].
  - apply Forall_app. split; [by apply (kept_same_inflight _ _ _ H)|]. constructor; [|done].
    destruct l; (split; [cbn; apply elem_of_app; right; by left|done]).
  - intros [? ?]%(kept_shut _ _ H). split; [done|]. apply elem_of_app. by left.
  - intros c [?|(? & l' & ?)]%(kept_exit _ _ H); [by left|]. right. split; [done|]. exists l'.
    apply elem_of_app. by left.
Qed.

Lemma kept_step h s lb s' es : kept h s -> step lb s = Some (s', es) -> kept (h ++ es) s'.
Proof.
  intros H. unfold step. destruct (exit s) eqn:He; [done|].
  pose proof (kept_inflight _ _ H) as Hi. pose proof (kept_shut _ _ H) as Hs.
  pose proof (fun more => kept_same_inflight _ _ more H) as Hm.
  destruct lb as [l|l|l|l r|i now|i|now| | | | |].
  - destruct (goroutine s l); try done. intros [= <- <-]. rewrite app_nil_r.
    apply (kept_quiet _ _ _ [LogStarting l (address l)] H); cbn; [done..|apply Hm| |congruence].
    intros [? ?]%Hs. split; [done|]. apply elem_of_app. by left.
  - destruct (goroutine s l); try done. intros [= <- <-]. rewrite app_nil_r.
    apply (kept_quiet _ _ _ [LogFailed l] H); cbn; [done..|apply Hm| |].
    + intros [? ?]%Hs. split; [done|]. apply elem_of_app. by left.
    + intros ? [= <-]. right. split; [done|]. exists l. apply elem_of_app. right. by left.
  - destruct (goroutine s l); try done. destruct (shut s l); [|done]. intros [= <- <-]. rewrite app_nil_r.
    by apply (kept_quiet _ _ _ [] H); rewrite ?app_nil_r; cbn; try done; rewrite He.
  - destruct (goroutine s l); try done. intros [= <- <-]. rewrite app_nil_r. by apply kept_serve.
  - destruct (inflight s !! i) as [[p [a|o k]]|] eqn:Ei; try done.
    pose proof (kept_advance _ _ _ now _ _ _ H Ei) as Hk.
    destruct (store_handler _ _ _) as [a st]. by intros [= <- <-].
  - destruct (inflight s !! i) as [[p [a|o k]]|] eqn:Ei; try done. intros [= <- <-]. rewrite app_nil_r.
    apply (kept_quiet _ _ _ [] H); rewrite ?app_nil_r; cbn; try done; [|by rewrite He].
    apply Forall_app. split; [by apply Forall_take|by apply Forall_drop].
  - destruct (sweeping s); [|done]. pose proof (kept_tick _ _ now H) as Hk.
    destruct (Sweep _ _ _) as [n st]. by intros [= <- <-].
  - destruct (sweeping s && ctx_done s); [|done]. intros [= <- <-]. rewrite app_nil_r.
    by apply (kept_quiet _ _ _ [] H); rewrite ?app_nil_r; cbn; try done; rewrite He.
  - intros [= <- <-]. rewrite app_nil_r.
    apply (kept_quiet _ _ _ [] H); rewrite ?app_nil_r; cbn; try done; try (by rewrite He).
    intros Hp. by destruct (Hs Hp).
  - destruct (main_at s); try done. destruct (ctx_done s) eqn:Ec; [|done]. intros [= <- <-]. rewrite app_nil_r.
    apply (kept_quiet _ _ _ [LogShutdown] H); cbn; [done..|apply Hm| |by rewrite He].
    intros _. split; [done|]. apply elem_of_app. right. by left.
  - destruct (main_at s) eqn:Ep; try done. intros [= <- <-]. rewrite app_nil_r.
    apply (kept_quiet _ _ _ [] H); rewrite ?app_nil_r; cbn; try done; [|by rewrite He].
    intros _. by apply Hs.
  - destruct (main_at s) eqn:Ep; try done. intros [= <- <-]. rewrite app_nil_r.
    apply (kept_quiet _ _ _ [] H); rewrite ?app_nil_r; cbn; try done; rewrite Ep.
    + intros _. by apply Hs.
    + intros ? [= <-]. by left.
Qed.

Lemma reachable_kept h s : reachable h s -> kept h s.
Proof. induction 1; [by apply kept_start|by eapply kept_step]. Qed.

(** ** Properties *)

(** C10: the relay's operator can see every approval: in any reachable state of
    the process, if the store reports a request approved, then the relay
    started with two distinct, specific addresses; the request was registered
    with that prompt by a POST to the control listener and approved, in time,
    by a same-origin POST to the decision listener; and both requests are on
    the operator's log. *)
Theorem relay_approvals_on_record h s now id q :
  reachable h s -> Store.Get (store s) now id = Ok q -> rq_Status q = StatusApproved ->
  startup f = Ok f
  /\ exists r0 r1 t,
       asks_to_create decode_prompt r0 id (Prompt q)
       /\ asks_to_decide url_Parse decode_decision ParseForm r1 id true
       /\ t <= CreatedAt q + RelayMain.ttl f
       /\ (Decision r1, (t, ODecide id true, RUnit (Ok tt))) ∈ h
       /\ LogRequest "control" (Method r0) (Path r0) ∈ logged s
       /\ LogRequest "decision" (Method r1) (Path r1) ∈ logged s.
Proof.
  intros H%reachable_kept Hg Ha. split; [by apply (kept_started _ _ H)|].
  destruct (approval_comes_from_decision_listener _ _ _ _ _ _ _ _ _ _ _ _ (kept_store _ _ H) Hg Ha)
    as (pre & r0 & mid & r1 & t & post & -> & Ht & Hc & Hd).
  pose proof (kept_logged _ _ H) as Hl. exists r0, r1, t. split_and!; try done.
  - set_solver.
  - refine (Hl (Control r0) (CreatedAt q, OCreate id (Prompt q) (RelayMain.ttl f), RUnit (Ok tt)) _). set_solver.
  - refine (Hl (Decision r1) (t, ODecide id true, RUnit (Ok tt)) _). set_solver.
Qed.

(** C37: no request is lost before its time: once the relay has registered a
    request, then whatever other requests do and however often the sweeper
    runs, until [sweepAfter] past the deadline the request is in the store
    under its prompt; it can be decided up to its deadline if nobody has
    decided it, and otherwise the store keeps that decision. *)
Theorem request_waits_for_its_decision h s r id p ttl t0 :
  reachable h s -> (Control r, (t0, OCreate id p ttl, RUnit (Ok tt))) ∈ h ->
  (forall po t o re, (po, (t, o, re)) ∈ h -> t <= t0 + ttl + RelayMain.sweepAfter f) ->
  ttl = RelayMain.ttl f
  /\ exists q, requests (store s) !! id = Some q /\ Prompt q = p /\ Deadline q = t0 + ttl
       /\ ((forall now b, now <= t0 + ttl -> is_ok (Decide (store s) now id b).1 = true)
           \/ exists po t b, (po, (t, ODecide id b, RUnit (Ok tt))) ∈ h /\ t <= t0 + ttl
                /\ forall now, Store.Get (store s) now id
                     = Ok (set_status (if b then StatusApproved else StatusDenied) q)).
Proof.
  intros H%reachable_kept Hin Ht. pose proof (kept_store _ _ H) as Hs. split.
  { pose proof (served_issued _ _ _ _ _ _ _ _ _ _ _ Hs Hin) as Hi. cbn in Hi.
    apply control_issues in Hi as (id' & [(p' & _ & [Heq|Heq])|[_ Heq]]); by simplify_eq. }
  destruct (steps_created_stays _ _ _ id p ttl t0 (served_steps _ _ _ _ _ _ _ _ _ Hs))
    as (q & Hq & Hp & _ & Hd & Hst).
  { apply list_elem_of_fmap. eexists. split; [|exact Hin]. done. }
  { intros t d re ([po e] & Heq & Hin')%list_elem_of_fmap. cbn in Heq. subst e.
    pose proof (served_issued _ _ _ _ _ _ _ _ _ _ _ Hs Hin') as Hi.
    destruct po as [r'|r'|d']; cbn in Hi.
    - by apply control_issues in Hi as (? & [(? & _ & [?|?])|[_ ?]]).
    - by apply decision_issues in Hi as [(? & ? & _ & ?)|[(? & _ & ?)|(_ & _ & ?)]].
    - injection Hi as ->. pose proof (kept_logged _ _ H _ _ Hin') as ->. specialize (Ht _ _ _ _ Hin'). lia. }
  exists q. split_and!; try done. destruct Hst as [Hst|(t & b & Hdec & Hle & Hst)]; [left|right].
  - intros now b Hn. unfold Decide, Time.After. rewrite Hq, Hst.
    destruct (Z.ltb_spec (Deadline q) now); [lia|done].
  - apply list_elem_of_fmap in Hdec as ([po e] & Heq & Hdec). cbn in Heq. subst e. exists po, t, b.
    split_and!; [done|lia|]. intros now. unfold Store.Get, view. rewrite Hq. f_equal.
    rewrite <- Hst. rewrite bool_decide_eq_false_2 by (rewrite Hst; by destruct b). by destruct q.
Qed.

(** How the process ends: with 0 after a signal and both shutdowns, with 1
    when a listener failed, which the log says; and once it was told to stop,
    the main goroutine alone can bring it to exit code 0. *)
Theorem exits_exactly h s :
  reachable h s ->
  (forall code, exit s = Some code ->
     code = 0 /\ ctx_done s = true /\ LogShutdown ∈ logged s \/ code = 1 /\ exists l, LogFailed l ∈ logged s)
  /\ (ctx_done s = true -> exit s = None ->
       exists ls s', steps_of ls s = Some (s', []) /\ exit s' = Some 0 /\ store s' = store s
         /\ Forall (fun lb => lb = MainWakes \/ lb = ControlShut \/ lb = DecisionShut) ls).
Proof.
  intros H%reachable_kept. split.
  - intros code [[-> Hm]|?]%(kept_exit _ _ H); [left|by right]. split; [done|]. apply (kept_shut _ _ H). by rewrite Hm.
  - intros Hc He.
    assert (H3 : forall s, exit s = None -> main_at s = ClosingDecision -> step DecisionShut s = Some (Exit 0 s, []))
      by (intros s1 E1 E2; unfold step; by rewrite E1, E2).
    assert (H2 : forall s, exit s = None -> main_at s = ClosingControl ->
              step ControlShut s = Some (shutdown DecisionListener ClosingDecision s, []))
      by (intros s1 E1 E2; unfold step; by rewrite E1, E2).
    destruct (main_at s) eqn:Em.
    + exists [MainWakes; ControlShut; DecisionShut]. eexists. split; [|split_and!].
      * eapply steps_of_cons; [unfold step; by rewrite He, Em, Hc|].
        eapply steps_of_cons; [by apply H2|]. eapply steps_of_cons; [by apply H3|reflexivity].
      * done.
      * done.
      * repeat (apply List.Forall_cons; [by auto|]); apply List.Forall_nil.
    + exists [ControlShut; DecisionShut]. eexists. split; [|split_and!].
      * eapply steps_of_cons; [by apply H2|]. eapply steps_of_cons; [by apply H3|reflexivity].
      * done.
      * done.
      * repeat (apply List.Forall_cons; [by auto|]); apply List.Forall_nil.
    + exists [DecisionShut]. eexists. split; [|split_and!].
      * eapply steps_of_cons; [by apply H3|reflexivity].
      * done.
      * done.
      * repeat (apply List.Forall_cons; [by auto|]); apply List.Forall_nil.
Qed.

End Process.

(** ** An execution *)

Module Process_example.

Definition split (addr : string) : option (string * string) := Some (addr, "").
Definition parse (host : string) : option bool := Some false.

Definition step_of : list label -> process -> option (process * list (port * entry)) :=
  steps_of (fun _ => false) (fun _ => None) raw_body raw_body (fun _ _ => None) RelayMain.default_flags.

(** A request is registered, decided while the sweeper ticks, and the relay
    is told to stop. *)
Definition labels : list label :=
  [Listen ControlListener; Listen DecisionListener; Serve ControlListener create_request; Advance 0 0;
   Serve DecisionListener approve_request; Tick 3; Advance 1 5; Respond 1; Signal].

Definition reached : process * list (port * entry) := default (start, []) (step_of labels start).

Definition created : Relay.Request :=
  Relay.mkRequest "a" "run?" StatusPending 0 (RelayMain.ttl RelayMain.default_flags).

(** The operations on the store, in their order. *)
Definition history : list (port * entry) :=
  [(Control create_request, (0, OCreate "a" "run?" 300000000000, RUnit (Ok tt)));
   (Sweeper 3600000000000, (3, OSweep 3600000000000, RCount 0));
   (Decision approve_request, (5, ODecide "a" true, RUnit (Ok tt)))].

Lemma reached_history : reached.2 = history.
Proof. vm_compute. reflexivity. Qed.

Lemma reached_steps : step_of labels start = Some reached.
Proof.
  unfold reached. destruct (step_of labels start) as [r|] eqn:E; [done|]. exfalso.
  assert (H : bool_decide (is_Some (step_of labels start)) = true) by (vm_compute; reflexivity).
  by rewrite E in H.
Qed.

Lemma run_from_start r :
  step_of labels start = Some r ->
  reachable (fun _ => false) (fun _ => None) raw_body raw_body (fun _ _ => None) split parse
    RelayMain.default_flags r.2 r.1.
Proof. destruct r as [s' es]. apply (steps_of_reachable _ _ _ _ _ _ _ _ labels [] start). by constructor. Qed.

Lemma reached_reachable :
  reachable (fun _ => false) (fun _ => None) raw_body raw_body (fun _ _ => None) split parse
    RelayMain.default_flags history reached.1.
Proof. rewrite <- reached_history. exact (run_from_start reached reached_steps). Qed.
End Process_example.

Import Process_example.

Lemma relay_approvals_on_record_witness :
  Store.Get (store reached.1) 9 "a" = Ok (set_status StatusApproved created)
  /\ exists r1, LogRequest "decision" (Method r1) (Path r1) ∈ logged reached.1.
Proof.
  assert (Hg : Store.Get (store reached.1) 9 "a" = Ok (set_status StatusApproved created))
    by (vm_compute; reflexivity).
  split; [exact Hg|].
  destruct (relay_approvals_on_record _ _ _ _ _ _ _ _ _ _ _ _ _ reached_reachable Hg ltac:(reflexivity))
    as (_ & r0 & r1 & t & _ & _ & _ & _ & _ & Hl).
  exists r1. exact Hl.
Defined.

Lemma request_waits_for_its_decision_witness :
  (Control create_request, (0, OCreate "a" "run?" 300000000000, RUnit (Ok tt))) ∈ history
  /\ exists q, requests (store reached.1) !! "a" = Some q /\ Prompt q = "run?".
Proof.
  split; [by left|].
  destruct (request_waits_for_its_decision _ _ _ _ _ _ _ _ _ _ create_request "a" "run?" 300000000000 0
              reached_reachable ltac:(by left)) as (_ & q & Hq & Hp & _).
  { intros po t o re H. unfold history in H.
    repeat (apply elem_of_cons in H as [H|H]; [injection H as _ -> _ _; vm_compute; discriminate|]).
    by apply elem_of_nil in H. }
  exists q. split; [exact Hq|exact Hp].
Defined.
