(* ===== verification/RelayAnswers.v ===== *)
(** * RelayAnswers: what the relay's responses say

    The executions of the relay's process with the responses its handlers
    return.  A response is the result of its handler's program on store
    operations of the history ([answers_kept]), so a response can be read: a
    201 of the control listener says that the request was registered
    ([created_on_record]), and the status in a 200 is the one the store
    reported at that point ([status_on_record]). *)

From S2P Require Import Prelude GoStrings GoText GoJson Effects Config Relay Http RelayServer Cli RelayRun.

#[local] Open Scope Z_scope.

Import Store History.

(** The history's form of a call and its answer. *)
Definition reply_of (e : event op) : reply :=
  let 'existT o a := e in
  match o return answer o -> reply with
  | OCreate _ _ _ | ODecide _ _ => fun a => RUnit a
  | OGet _ => fun a => RRequest a
  | OPending => fun a => RList a
  | OSweep _ => fun a => RCount a
  end a.

Lemma reply_of_handler s now o : (apply s now o).1 = reply_of (ev o (store_handler now o s).1).
Proof.
  destruct o; cbn; try done; [by destruct (Create _ _ _ _ _)|by destruct (Decide _ _ _ _)|].
  by destruct (Sweep _ _ _).
Qed.

(** *** A handler's behaviours *)

Section Control.
Context (unicode_print : Z -> bool) (decode_prompt : Reader -> option string) (ttl : Z).

Lemma control_created r t resp :
  behaves (NewControlHandler unicode_print decode_prompt ttl r) t resp -> Code resp = StatusCreated ->
  exists id prompt, asks_to_create decode_prompt r id prompt /\ ev (OCreate id prompt ttl) (Ok tt) ∈ t.
Proof.
  unfold NewControlHandler. destruct (Path r) as [|seg [|id [|]]] eqn:Ep; try (by intros [-> ->]).
  destruct (String.eqb_spec seg "requests") as [->|]; cbn [negb orb]; [|by intros [-> ->]].
  destruct (String.eqb id ""); [by intros [-> ->]|].
  destruct (is_POST r) eqn:Em; [|destruct (is_GET r); [|by intros [-> ->]]].
  - unfold control_create. destruct (validID id) eqn:Ev; cbn [negb]; [|by intros [-> ->]].
    destruct (decode_prompt _) as [p|] eqn:Ed; [|by intros [-> ->]].
    destruct (String.eqb_spec p ""); cbn [orb]; [by intros [-> ->]|].
    destruct (Z.ltb_spec 8192 (len p)); [by intros [-> ->]|].
    intros (x & t1 & -> & Hk). destruct x as [[]|e]; [|by destruct Hk as [-> ->]].
    intros _. exists id, p. split; [|by left]. unfold asks_to_create. rewrite <- is_POST_spec, <- validID_spec.
    by split_and!.
  - unfold control_get. destruct (validID id); cbn [negb]; [|by intros [-> ->]].
    intros (x & t1 & -> & [-> ->]). by destruct x.
Qed.

Lemma control_read r t resp :
  behaves (NewControlHandler unicode_print decode_prompt ttl r) t resp -> Code resp = StatusOK ->
  exists id q, Path r = ["requests"; id] /\ ev (OGet id) (Ok q) ∈ t
    /\ WBody resp = encode_view (viewOf q) +:+ str1 LF.
Proof.
  unfold NewControlHandler. destruct (Path r) as [|seg [|id [|]]]; try (by intros [-> ->]).
  destruct (String.eqb_spec seg "requests") as [->|]; cbn [negb orb]; [|by intros [-> ->]].
  destruct (String.eqb id ""); [by intros [-> ->]|].
  destruct (is_POST r); [|destruct (is_GET r); [|by intros [-> ->]]].
  - unfold control_create. destruct (validID id); cbn [negb]; [|by intros [-> ->]].
    destruct (decode_prompt _) as [p|]; [|by intros [-> ->]].
    destruct (_ || _); [by intros [-> ->]|].
    intros (x & t1 & -> & Hk). destruct x as [[]|e]; [|by destruct Hk as [-> ->]].
    destruct Hk as (y & t3 & -> & [-> ->]). by destruct y.
  - unfold control_get. destruct (validID id); cbn [negb]; [|by intros [-> ->]].
    intros (x & t1 & -> & [-> ->]). destruct x as [q|e]; [|done].
    intros _. exists id, q. split_and!; [done|by left|done].
Qed.
End Control.

(** *** Executions with their responses *)

Section Answers.
Context (unicode_print : Z -> bool) (url_Parse : string -> option URL).
Context (decode_prompt decode_decision : Reader -> option string).
Context (ParseForm : Request -> Reader -> option (list (string * string))).
Context (SplitHostPort : string -> option (string * string)).
Context (ParseIP : string -> option bool).
Context (f : RelayMain.flags).

Notation main := (RelayRun.main SplitHostPort ParseIP f).
Notation step := (RelayRun.step unicode_print url_Parse decode_prompt decode_decision ParseForm f).
Notation reachable :=
  (RelayRun.reachable unicode_print url_Parse decode_prompt decode_decision ParseForm SplitHostPort ParseIP f).
Notation handler_of :=
  (RelayRun.handler_of unicode_print url_Parse decode_prompt decode_decision ParseForm f).

(** The response a step writes. *)
Definition response_of (lb : label) (s : process) : list (port * Response) :=
  match lb with
  | Respond i => match inflight s !! i with Some (p, Ret a) => [(p, a)] | _ => [] end
  | _ => []
  end.

(** [answering h rs s]: an execution with the history [h] reaches [s] and has
    written the responses [rs]. *)
Inductive answering : list (port * entry) -> list (port * Response) -> process -> Prop :=
| AnswerMain s : main = Ok s -> answering [] [] s
| AnswerStep h rs s lb s' es :
    answering h rs s -> step lb s = Some (s', es) -> answering (h ++ es) (rs ++ response_of lb s) s'.

Lemma answering_reachable h rs s : answering h rs s -> reachable h s.
Proof. induction 1; [by constructor|by eapply ReachStep]. Qed.

(** The same by labels. *)
Fixpoint answers_of (ls : list label) (s : process)
    : option (process * list (port * entry) * list (port * Response)) :=
  match ls with
  | [] => Some (s, [], [])
  | lb :: ls =>
      '(s1, es1) ← step lb s;
      '(s2, es2, rs2) ← answers_of ls s1;
      Some (s2, es1 ++ es2, response_of lb s ++ rs2)
  end.

Lemma answers_of_answering ls h rs s x :
  answering h rs s -> answers_of ls s = Some x -> answering (h ++ x.1.2) (rs ++ x.2) x.1.1.
Proof.
  revert h rs s x. induction ls as [|lb ls IH]; intros h rs s x H; cbn [answers_of].
  { intros [= <-]. by rewrite !app_nil_r. }
  destruct (step lb s) as [[s1 es1]|] eqn:E; [|done]. cbn.
  destruct (answers_of ls s1) as [[[s2 es2] rs2]|] eqn:E2; [|done]. intros [= <-]. cbn.
  rewrite !app_assoc. eapply (IH _ _ _ (s2, es2, rs2)); [|done]. by eapply AnswerStep.
Qed.

Lemma answers_from_start ls s x : main = Ok s -> answers_of ls s = Some x -> answering x.1.2 x.2 x.1.1.
Proof. intros Hs Hx. apply (answers_of_answering ls [] [] s); [by constructor|done]. Qed.

(** The calls [t] of the request at [p] are in the history, with their answers. *)
Definition on_record (h : list (port * entry)) (p : port) (t : list (event op)) : Prop :=
  Forall (fun e => exists now, (p, (now, projT1 e, reply_of e)) ∈ h) t.

Lemma on_record_more h es p t : on_record h p t -> on_record (h ++ es) p t.
Proof.
  intros H. eapply Forall_impl; [exact H|]. intros e (now & He). exists now. apply elem_of_app. by left.
Qed.

(** A request in flight: the calls [t] it has made, and the rest of its
    handler. *)
Definition started (h : list (port * entry)) (x : port * prog op Response) : Prop :=
  exists l r t, x.1 = port_of l r /\ on_record h x.1 t
    /\ forall t' a, behaves x.2 t' a -> behaves (handler_of l r) (t ++ t') a.

Lemma started_more h es x : started h x -> started (h ++ es) x.
Proof. intros (l & r & t & ? & ? & ?). exists l, r, t. split_and!; [done|by apply on_record_more|done]. Qed.

Definition told (h : list (port * entry)) (x : port * Response) : Prop :=
  exists l r t, x.1 = port_of l r /\ on_record h x.1 t /\ behaves (handler_of l r) t x.2.

Lemma told_more h es x : told h x -> told (h ++ es) x.
Proof. intros (l & r & t & ? & ? & ?). exists l, r, t. split_and!; [done|by apply on_record_more|done]. Qed.

(** A step leaves the requests in flight as they are, starts one, answers
    the next call of one, or takes one out. *)
Lemma step_started h s lb s' es :
  Forall (started h) (inflight s) -> step lb s = Some (s', es) -> Forall (started (h ++ es)) (inflight s').
Proof.
  intros H. assert (Hm : Forall (started (h ++ es)) (inflight s))
    by (eapply Forall_impl; [exact H|intros x; apply started_more]).
  unfold RelayRun.step. destruct (exit s); [done|].
  destruct lb as [l|l|l|l r|i now|i|now| | | | |]; intros E.
  1-3: repeat case_match; simplify_eq; by rewrite ?app_nil_r in *.
  - case_match; simplify_eq. apply Forall_app. split; [done|]. constructor; [|done].
    exists l, r, []. split_and!; [done|constructor|done].
  - destruct (inflight s !! i) as [[p [a|o k]]|] eqn:Ei; try done.
    destruct (store_handler now o (store s)) as [a st] eqn:Ea. injection E as <- <-. cbn.
    apply Forall_insert; [done|]. destruct (Forall_lookup_1 _ _ _ _ H Ei) as (l & r & t & Hp & Ht & Hb).
    exists l, r, (t ++ [ev o a]). cbn in *. split_and!; [done| |].
    + apply Forall_app. split; [by apply on_record_more|]. constructor; [|done]. exists now.
      cbn [projT1 ev]. rewrite reply_of_handler, Ea. apply elem_of_app. right. by left.
    + intros t' b Hk. rewrite <- app_assoc. apply Hb. by exists a, t'.
  - destruct (inflight s !! i) as [[p [a|o k]]|]; simplify_eq. rewrite app_nil_r. cbn.
    apply Forall_app. split; [by apply Forall_take|by apply Forall_drop].
  - destruct (sweeping s); [|done]. destruct (Sweep _ _ _) as [n st]. injection E as <- <-.
    by destruct (0 <? n).
  - repeat case_match; simplify_eq; by rewrite ?app_nil_r in *.
  - simplify_eq; by rewrite ?app_nil_r in *.
  - repeat case_match; simplify_eq; by rewrite ?app_nil_r in *.
  - repeat case_match; simplify_eq; by rewrite ?app_nil_r in *.
  - repeat case_match; simplify_eq; by rewrite ?app_nil_r in *.
Qed.

Lemma answers_kept h rs s :
  answering h rs s -> Forall (started h) (inflight s) /\ Forall (told h) rs.
Proof.
  induction 1 as [s E|h rs s lb s' es _ [IH1 IH2] E].
  - unfold RelayRun.main in E. destruct (RelayMain.startup _ _ _); [|done]. injection E as <-. by split.
  - split; [by eapply step_started|]. apply Forall_app. split.
    { eapply Forall_impl; [exact IH2|]. intros x. apply told_more. }
    destruct lb as [| | | | |i| | | | | |]; try constructor. cbn.
    destruct (inflight s !! i) as [[p [a|o k]]|] eqn:Ei; [|constructor..]. constructor; [|constructor].
    apply told_more. destruct (Forall_lookup_1 _ _ _ _ IH1 Ei) as (l & r & t & Hp & Ht & Hb).
    exists l, r, t. cbn in *. split_and!; [done|done|].
    rewrite <- (app_nil_r t). apply Hb. by split.
Qed.

Lemma control_port l r r' : Control r = port_of l r' -> l = ControlListener /\ r' = r.
Proof. by destruct l; intros [= ->]. Qed.

Lemma on_record_in h p t o a : on_record h p t -> ev o a ∈ t -> exists now, (p, (now, o, reply_of (ev o a))) ∈ h.
Proof. intros H Hin. unfold on_record in H. rewrite Forall_forall in H. exact (H _ Hin). Qed.

(** The control listener's 201: the request is registered. *)
Lemma created_on_record h rs s r resp :
  answering h rs s -> (Control r, resp) ∈ rs -> Code resp = StatusCreated ->
  exists id prompt now, asks_to_create decode_prompt r id prompt
    /\ (Control r, (now, OCreate id prompt (RelayMain.ttl f), RUnit (Ok tt))) ∈ h.
Proof.
  intros [_ H]%answers_kept Hin Hc. rewrite Forall_forall in H.
  destruct (H _ Hin) as (l & r' & t & [-> ->]%control_port & Ht & Hb). cbn in Hb.
  apply control_created in Hb as (id & prompt & Ha & He); [|done].
  destruct (on_record_in _ _ _ _ _ Ht He) as (now & Hn). by exists id, prompt, now.
Qed.

(** The control listener's 200: its status is what the store reported. *)
Lemma status_on_record h rs s r resp :
  answering h rs s -> (Control r, resp) ∈ rs -> Code resp = StatusOK ->
  exists id q now, Path r = ["requests"; id] /\ WBody resp = encode_view (viewOf q) +:+ str1 LF
    /\ (Control r, (now, OGet id, RRequest (Ok q))) ∈ h.
Proof.
  intros [_ H]%answers_kept Hin Hc. rewrite Forall_forall in H.
  destruct (H _ Hin) as (l & r' & t & [-> ->]%control_port & Ht & Hb). cbn in Hb.
  apply control_read in Hb as (id & q & Hp & He & Hw); [|done].
  destruct (on_record_in _ _ _ _ _ Ht He) as (now & Hn). by exists id, q, now.
Qed.

End Answers.
