(* ===== verification/EndToEnd.v ===== *)
(** * EndToEnd: the worker, its approver and the relay together

    The worker of [Serve] asks its approver through the call [Approve].  Here
    that call is the polling approver over HTTP: [relay_client] makes its two
    operations exchanges of [HTTPRelayClient], and [linked] replaces every
    answer of the approver in an execution of the worker by the exchanges it
    came from.  The relay is the process of [RelayRun]; an exchange that got a
    response got one of the responses it wrote ([answered]).  Nothing else is
    assumed of the network: exchanges may fail at any time, the relay may
    serve any other requests in any interleaving, and its operator may do
    anything at the decision listener. *)

From S2P Require Import Prelude GoStrings GoText GoJson Effects Exec Config SecureFile Token Relay Http RelayServer.
From S2P Require Import Approval Broker Protocol Worker Serve Cli RelayRun RelayAnswers.

#[local] Open Scope Z_scope.

Import Store History Tailscale HTTPRelayClient.

(** ** The approver over HTTP *)

Section Client.
Context (url_ok : string -> bool) (decode_status : Reader -> option string).

Notation approve_net := (approve_call + http_call)%type.

(** The relay client as the approver's [client]; its randomness, its timer
    and its context are its own. *)
Definition relay_client (baseURL : string) (c : approve_call) : prog approve_net (answer c) :=
  match c return prog approve_net (answer c) with
  | Tailscale.Register id prompt =>
      r ← on_right (HTTPRelayClient.Register url_ok baseURL id prompt);
      mret (wrap_err (fun _ => tt) r)
  | Tailscale.Poll id =>
      r ← on_right (HTTPRelayClient.Poll url_ok decode_status baseURL id);
      mret (wrap_err (fun _ => tt) r)
  | c => on_left (call c)
  end.

Definition approver (baseURL : string) (fuel : nat) (prompt : string)
    : prog approve_net (option (Outcome approve_error)) :=
  interp (relay_client baseURL) (Tailscale.Approve fuel prompt).

Definition net_ev (c : http_call) (a : result string (Z * string)) : event approve_net := right_ev (ev c a).

Definition request_url (baseURL id : string) : string := baseURL +:+ "/requests/" +:+ id.

Definition post_prompt (baseURL id prompt : string) : http_call :=
  Do "POST" (request_url baseURL id) [("Content-Type", "application/json")] (register_body prompt).

Definition get_status (baseURL id : string) : http_call := Do "GET" (request_url baseURL id) [] "".

Lemma register_exchange baseURL id prompt t :
  behaves (relay_client baseURL (Tailscale.Register id prompt)) t (Ok tt) ->
  exists body, net_ev (post_prompt baseURL id prompt) (Ok (StatusCreated, body)) ∈ t.
Proof.
  cbn [relay_client]. intros (t1 & t2 & r & -> & (t' & -> & Hb)%behaves_on_right & [-> Hr])%behaves_bind.
  destruct r as [[]|e]; [|done]. unfold HTTPRelayClient.Register in Hb.
  destruct (negb _); [by destruct Hb|]. destruct Hb as (resp & t2 & -> & [-> Hb]).
  destruct resp as [[code body]|e]; [|done]. destruct (Z.eqb_spec code StatusCreated) as [->|]; [|done].
  exists body. by left.
Qed.

Lemma poll_exchange baseURL id st t :
  behaves (relay_client baseURL (Tailscale.Poll id)) t (Ok st) ->
  exists body, net_ev (get_status baseURL id) (Ok (StatusOK, body)) ∈ t
    /\ decode_status (LimitReader body 65536) = Some st.
Proof.
  cbn [relay_client]. intros (t1 & t2 & r & -> & (t' & -> & Hb)%behaves_on_right & [-> Hr])%behaves_bind.
  destruct r as [st'|e]; [|done]. injection Hr as ->. unfold HTTPRelayClient.Poll in Hb.
  destruct (negb _); [by destruct Hb|]. destruct Hb as (resp & t2 & -> & [-> Hb]).
  destruct resp as [[code body]|e]; [|done]. destruct (Z.eqb_spec code StatusOK) as [->|]; [|done].
  cbn in Hb. destruct (decode_status _) as [x|] eqn:Ed; [|done]. injection Hb as ->.
  exists body. split; [by left|done].
Qed.

(** An approval or a refusal rests on two exchanges: the POST that registered
    the prompt, and a GET that reported the decision. *)
Lemma approver_exchanges baseURL fuel prompt t o :
  behaves (approver baseURL fuel prompt) t (Some o) -> decision o = Ok Approved \/ cause o = CauseRejected ->
  exists b st body body', let id := Hex.EncodeToString b in
    net_ev (post_prompt baseURL id prompt) (Ok (StatusCreated, body)) ∈ t
    /\ net_ev (get_status baseURL id) (Ok (StatusOK, body')) ∈ t
    /\ decode_status (LimitReader body' 65536) = Some st /\ answered_with o st.
Proof.
  intros (es & ts & Hb & -> & Hx)%behaves_interp Hd.
  destruct (Approve_polled _ _ _ _ Hb Hd) as (b & st & Hr & Hp & Hst).
  destruct (expands_in _ _ _ _ Hx Hr) as (tr & Hbr & Hr').
  destruct (expands_in _ _ _ _ Hx Hp) as (tp & Hbp & Hp').
  destruct (register_exchange _ _ _ _ Hbr) as (body & Hpost).
  destruct (poll_exchange _ _ _ _ Hbp) as (body' & Hget & Hdec).
  exists b, st, body, body'. split_and!; [by apply Hr'|by apply Hp'|done|done].
Qed.
End Client.

(** ** The worker with its approver *)

(** [TailscaleApprover]: its client's base URL, and the [cause] field. *)
Record TailscaleApprover := mkApprover { ta_baseURL : string; ta_cause : Cause }.

(** [NewTailscaleApprover(NewHTTPRelayClient(...), ...)] in [Serve] *)
Definition NewTailscaleApprover (cfg : Config) : TailscaleApprover :=
  mkApprover (ControlURL (as_TailscaleRelay (cfg_ApprovalSource cfg))) CauseNone.

Definition asks_approver (c : serve_call) : bool :=
  match c with Collaborator (Broker.Approve _) | Collaborator Broker.ApproveCause => true | _ => false end.

#[local] Notation sys_call := (serve_call + (approve_call + http_call))%type.

(** An exchange, in the execution of the whole. *)
Definition exchange (c : http_call) (a : result string (Z * string)) : event sys_call := right_ev (net_ev c a).

Section Linked.
Context (url_ok : string -> bool) (decode_status : Reader -> option string).
Context (url_Parse : string -> option URL) (toml_Unmarshal : string -> option Config).
Context (srv : Server).

(** The event at which the worker is prepared, with its policy. *)
Definition prepared (e : event serve_call) : option Config :=
  let 'existT c a := e in
  match c return answer c -> option Config with
  | Files => fun fs =>
      match prepare url_Parse toml_Unmarshal (fs : FS) srv with Ok cfg => Some cfg | Err _ => None end
  | _ => fun _ => None
  end a.

(** [linked a t t']: in the execution [t] of [Serve] every answer of the
    approver, [a] at its beginning, comes from the approver, and [t'] is the
    execution with the approver's own calls in place of those answers. *)
Inductive linked : option TailscaleApprover -> list (event serve_call) -> list (event sys_call) -> Prop :=
| LinkedNil a : linked a [] []
| LinkedNew e cfg t t' :
    prepared e = Some cfg -> linked (Some (NewTailscaleApprover cfg)) t t' ->
    linked None (e :: t) (left_ev e :: t')
| LinkedApprove a fuel prompt te o t t' :
    behaves (approver url_ok decode_status (ta_baseURL a) fuel prompt) te (Some o) ->
    linked (Some (mkApprover (ta_baseURL a) (cause o))) t t' ->
    linked (Some a)
      (ev (Collaborator (Broker.Approve prompt)) (wrap_err (fun _ => tt) (decision o)) :: t)
      ((right_ev <$> te) ++ t')
| LinkedCause a t t' :
    linked (Some a) t t' ->
    linked (Some a)
      (ev (Collaborator Broker.ApproveCause) (cause_string (Tailscale.ApproveCause (ta_cause a))) :: t) t'
| LinkedOwn a e t t' :
    asks_approver (projT1 e) = false -> (a = None -> prepared e = None) ->
    linked a t t' -> linked a (e :: t) (left_ev e :: t').

(** A base URL that some prepared policy names. *)
Definition configured (baseURL : string) : Prop :=
  exists fs cfg, prepare url_Parse toml_Unmarshal fs srv = Ok cfg /\ baseURL = ta_baseURL (NewTailscaleApprover cfg).

Lemma prepared_configured e cfg : prepared e = Some cfg -> configured (ta_baseURL (NewTailscaleApprover cfg)).
Proof.
  destruct e as [c a]. destruct c; try done. cbn. destruct (prepare _ _ a srv) as [cfg'|] eqn:E; [|done].
  intros [= ->]. by exists a, cfg.
Qed.

Lemma configured_origin baseURL : configured baseURL -> is_http_origin url_Parse baseURL = true.
Proof.
  intros (fs & cfg & (n & _ & _ & (raw & _ & _ & Hwf)%Parse_Ok & Hr & _)%prepare_Ok & ->).
  destruct (wfc_approval _ _ Hwf) as [Hk|(_ & Ho & _)]; [|by apply is_http_origin_spec]. by rewrite (wr_approval _ Hr) in Hk.
Qed.

Definition approval_of (e : event serve_call) : option (string * result unit Approval.Decision) :=
  let 'existT c a := e in
  match c return answer c -> option (string * result unit Approval.Decision) with
  | Collaborator (Broker.Approve prompt) => fun a => Some (prompt, a)
  | _ => fun _ => None
  end a.

Lemma approval_of_own e : asks_approver (projT1 e) = false -> approval_of e = None.
Proof. destruct e as [c a]. by destruct c as [| | | |[]|]. Qed.

Lemma approval_of_prepared e cfg : prepared e = Some cfg -> approval_of e = None.
Proof. destruct e as [c a]. by destruct c as [| | | |[]|]. Qed.

(** Where an outcome of the approver comes from. *)
Definition backed (t' : list (event sys_call)) (prompt : string) (o : Outcome approve_error) : Prop :=
  exists baseURL fuel te, configured baseURL
    /\ behaves (approver url_ok decode_status baseURL fuel prompt) te (Some o)
    /\ forall d, d ∈ te -> right_ev d ∈ t'.

Lemma backed_more t1 t' prompt o : backed t' prompt o -> backed (t1 ++ t') prompt o.
Proof.
  intros (b & f & te & ? & ? & H). exists b, f, te. split_and!; try done.
  intros d Hd. apply elem_of_app. right. by apply H.
Qed.

Definition well_configured (a : option TailscaleApprover) : Prop :=
  forall x, a = Some x -> configured (ta_baseURL x).

Lemma well_configured_new e cfg : prepared e = Some cfg -> well_configured (Some (NewTailscaleApprover cfg)).
Proof. intros H ? [= <-]. by apply prepared_configured with e. Qed.

Lemma approve_backed a fuel prompt te o t' :
  configured (ta_baseURL a) ->
  behaves (approver url_ok decode_status (ta_baseURL a) fuel prompt) te (Some o) ->
  backed ((right_ev <$> te) ++ t') prompt o.
Proof.
  intros Ha Hb. exists (ta_baseURL a), fuel, te. split_and!; [done|done|].
  intros d Hd. apply elem_of_app. left. by apply list_elem_of_fmap_2.
Qed.

(** An answer of the approver is the decision of an outcome. *)
Lemma linked_backed a t t' e prompt r :
  linked a t t' -> well_configured a -> e ∈ t -> approval_of e = Some (prompt, r) ->
  exists o, backed t' prompt o /\ r = wrap_err (fun _ => tt) (decision o).
Proof.
  intros H. revert e prompt r.
  assert (Hmore : forall t1 t' (x : string * result unit Approval.Decision),
    (exists o, backed t' x.1 o /\ x.2 = wrap_err (fun _ => tt) (decision o)) ->
    exists o, backed (t1 ++ t') x.1 o /\ x.2 = wrap_err (fun _ => tt) (decision o))
    by (intros ? ? ? (o & ? & ?); exists o; split; [by apply backed_more|done]).
  induction H as [|e' cfg t t' Hp _ IH|a fuel p te o t t' Hb _ IH|a t t' _ IH|a e' t t' Ha Hp _ IH];
    intros e prompt r Hc; [by inversion 1|..]; intros [->|Hin]%elem_of_cons Hr.
  - by rewrite (approval_of_prepared _ _ Hp) in Hr.
  - apply (Hmore [_] _ (prompt, r)), (IH e); [by apply well_configured_new with e'|done..].
  - injection Hr as -> <-. exists o. split; [|done]. apply (approve_backed a fuel); [by apply Hc|done].
  - apply (Hmore _ _ (prompt, r)), (IH e); [|done..]. intros ? [= <-]. by apply (Hc a).
  - done.
  - by apply (IH e).
  - by rewrite approval_of_own in Hr.
  - by apply (Hmore [_] _ (prompt, r)), (IH e).
Qed.

Definition cause_of (e : event serve_call) : option string :=
  let 'existT c a := e in
  match c return answer c -> option string with
  | Collaborator Broker.ApproveCause => fun a => Some a
  | _ => fun _ => None
  end a.

Lemma cause_of_own e : asks_approver (projT1 e) = false -> cause_of e = None.
Proof. destruct e as [c a]. by destruct c as [| | | |[]|]. Qed.

Lemma cause_of_prepared e cfg : prepared e = Some cfg -> cause_of e = None.
Proof. destruct e as [c a]. by destruct c as [| | | |[]|]. Qed.

Lemma cause_rejected c : cause_string (Tailscale.ApproveCause c) = "rejected" -> c = CauseRejected.
Proof. by destruct c. Qed.

(** The cause "rejected" is that of the last outcome before it. *)
Lemma linked_rejected a t t' e :
  linked a t t' -> well_configured a -> e ∈ t -> cause_of e = Some "rejected" ->
  (exists x, a = Some x /\ ta_cause x = CauseRejected)
  \/ exists prompt o, backed t' prompt o /\ cause o = CauseRejected
       /\ Collaborator (Broker.Approve prompt) ∈ calls t.
Proof.
  intros H. revert e.
  induction H as [|e' cfg t t' Hp _ IH|a fuel p te o t t' Hb _ IH|a t t' _ IH|a e' t t' Ha Hp _ IH];
    intros e Hc; [by inversion 1|..]; intros [->|Hin]%elem_of_cons Hr.
  - by rewrite (cause_of_prepared _ _ Hp) in Hr.
  - destruct (IH e (well_configured_new _ _ Hp) Hin Hr) as [(x & [= <-] & [=])|(q & o & Hq & Ho & Hcall)].
    right. exists q, o. split_and!; [by apply (backed_more [_])|done|by right].
  - done.
  - destruct (IH e) as [(x & [= <-] & Hx)|(q & o' & Hq & Ho & Hcall)];
      [intros ? [= <-]; by apply (Hc a)|done|done|right..].
    + exists p, o. split_and!; [apply (approve_backed a fuel); [by apply Hc|done]|done|by left].
    + exists q, o'. split_and!; [by apply backed_more|done|by right].
  - left. exists a. split; [done|]. injection Hr as Hr. by apply cause_rejected.
  - destruct (IH e Hc Hin Hr) as [?|(q & o & ? & ? & ?)]; [by left|right]. exists q, o. split_and!; [done..|by right].
  - by rewrite cause_of_own in Hr.
  - destruct (IH e Hc Hin Hr) as [?|(q & o & Hq & ? & ?)]; [by left|right]. exists q, o.
    split_and!; [by apply (backed_more [_])|done|by right].
Qed.

(** The relation is executable: the approver is run against an environment
    [hn] at each of its answers. *)
Fixpoint link {N} (hn : handler (approve_call + http_call) N) (fuel : nat) (a : option TailscaleApprover)
    (t : list (event serve_call)) (n : N) : option (list (event sys_call)) :=
  match t with
  | [] => Some []
  | e :: t =>
      match approval_of e, cause_of e, a with
      | Some (prompt, r), _, Some a =>
          let '(x, n, te) := run hn (approver url_ok decode_status (ta_baseURL a) fuel prompt) n in
          o ← x;
          if bool_decide (r = wrap_err (fun _ => tt) (decision o))
          then app (right_ev <$> te) <$> link hn fuel (Some (mkApprover (ta_baseURL a) (cause o))) t n else None
      | None, Some text, Some a =>
          if String.eqb text (cause_string (Tailscale.ApproveCause (ta_cause a)))
          then link hn fuel (Some a) t n else None
      | None, None, _ =>
          cons (left_ev e) <$>
            link hn fuel
              (match a with None => NewTailscaleApprover <$> prepared e | Some a => Some a end) t n
      | _, _, None => None
      end
  end.

Lemma approval_of_Some e prompt r :
  approval_of e = Some (prompt, r) -> e = ev (Collaborator (Broker.Approve prompt)) r.
Proof. destruct e as [c a]. destruct c as [| | | |[]|]; try done. by intros [= -> ->]. Qed.

Lemma cause_of_Some e text : cause_of e = Some text -> e = ev (Collaborator Broker.ApproveCause) text.
Proof. destruct e as [c a]. destruct c as [| | | |[]|]; try done. by intros [= ->]. Qed.

Lemma asks_none e : approval_of e = None -> cause_of e = None -> asks_approver (projT1 e) = false.
Proof. destruct e as [c a]. by destruct c as [| | | |[]|]. Qed.

Lemma link_linked {N} (hn : handler (approve_call + http_call) N) fuel a t n t' :
  link hn fuel a t n = Some t' -> linked a t t'.
Proof.
  revert a n t'. induction t as [|e t IH]; intros a n t'; cbn [link]; [intros [= <-]; constructor|].
  destruct (approval_of e) as [[prompt r]|] eqn:Ea.
  - apply approval_of_Some in Ea as ->. destruct a as [a|]; [|done].
    destruct (run hn _ n) as [[[o|] n'] te] eqn:Er; [|done]. cbn [mbind option_bind].
    case_bool_decide as Hr; [subst r|done]. intros (t1 & Ht & ->)%fmap_Some. eapply LinkedApprove.
    + pose proof (run_behaves hn (approver url_ok decode_status (ta_baseURL a) fuel prompt) n) as Hb.
      unfold trace_of, result_of in Hb. by rewrite Er in Hb.
    + by eapply IH.
  - destruct (cause_of e) as [text|] eqn:Ec.
    + apply cause_of_Some in Ec as ->. destruct a as [a|]; [|done].
      destruct (String.eqb_spec text (cause_string (Tailscale.ApproveCause (ta_cause a)))) as [->|]; [|done].
      intros H. constructor. by eapply IH.
    + intros (t1 & Ht & ->)%fmap_Some. pose proof (asks_none e Ea Ec) as Hq. destruct a as [a|].
      * apply LinkedOwn; [done|done|]. by eapply IH.
      * destruct (prepared e) as [cfg|] eqn:Ep; [by apply LinkedNew with cfg; [|eapply IH]|].
        apply LinkedOwn; [done|done|]. by eapply IH.
Qed.
End Linked.

(** ** The relay on the other side *)

(** The texts a decision goes by. *)
Lemma status_of_decision st b : status_string st = status_string (decision_status b) -> st = decision_status b.
Proof. by destruct st, b. Qed.

Section System.
Context (unicode_print : Z -> bool) (url_Parse : string -> option URL).
Context (decode_status : Reader -> option string).
(** The relay's. *)
Context (decode_prompt decode_decision : Reader -> option string).
Context (ParseForm : Http.Request -> Reader -> option (list (string * string))).
Context (SplitHostPort : string -> option (string * string)).
Context (ParseIP : string -> option bool).
Context (f : RelayMain.flags).
(** The segments of the path of a URL. *)
Context (url_path : string -> list string).

Notation answering :=
  (answering unicode_print url_Parse decode_prompt decode_decision ParseForm SplitHostPort ParseIP f).

(** [net/url] and [encoding/json] between the two programs, each as
    documented: below an origin with an empty path the request's path is what
    follows it (or is cut, by a question mark at the origin's end); a decoded
    text is the one that was encoded. *)
Record wire : Prop := {
  wire_path : forall base id i, is_http_origin url_Parse base = true -> all_bytes Hex.is_digit id = true ->
    url_path (request_url base id) = ["requests"; i] -> i = id;
  wire_prompt : forall p q, Utf8.ValidString p = true ->
    decode_prompt (MaxBytesReader (register_body p) 16384) = Some q -> q = p;
  wire_status : forall q st,
    decode_status (LimitReader (encode_view (viewOf q) +:+ str1 LF) 65536) = Some st ->
    st = status_string (rq_Status q);
}.

(** An exchange that got a response got one that the control listener wrote,
    to a request with this method, path and body. *)
Definition answered (rs : list (port * Response)) (c : http_call) (a : result string (Z * string)) : Prop :=
  let 'Do method url _ body := c in
  match a with
  | Err _ => True
  | Ok (code, text) =>
      exists r resp, (Control r, resp) ∈ rs /\ Http.Method r = method /\ Http.Path r = url_path url
        /\ Http.RBody r = body /\ Code resp = code /\ WBody resp = text
  end.

(** No ID, 16 random bytes, is registered for two different prompts. *)
Definition ids_not_reused (h : list (port * entry)) : Prop :=
  forall id p1 t1 q1 l1 p2 t2 q2 l2,
    (p1, (t1, OCreate id q1 l1, RUnit (Ok tt))) ∈ h -> (p2, (t2, OCreate id q2 l2, RUnit (Ok tt))) ∈ h -> q1 = q2.

(** The relay's operator decided: the prompt was registered under [id] at the
    control listener, a same-origin POST to the decision listener decided it
    in time, and both requests are on the operator's log. *)
Definition decided_on_record (h : list (port * entry)) (s : process) (id prompt : string) (b : bool) : Prop :=
  exists pre r0 t0 mid r1 t1 post,
    h = pre ++ (Control r0, (t0, OCreate id prompt (RelayMain.ttl f), RUnit (Ok tt)))
          :: mid ++ (RelayServer.Decision r1, (t1, ODecide id b, RUnit (Ok tt))) :: post
    /\ t1 <= t0 + RelayMain.ttl f
    /\ asks_to_create decode_prompt r0 id prompt
    /\ asks_to_decide url_Parse decode_decision ParseForm r1 id b
    /\ LogRequest "control" (Http.Method r0) (Http.Path r0) ∈ logged s
    /\ LogRequest "decision" (Http.Method r1) (Http.Path r1) ∈ logged s.

Lemma exchanges_decided h rs s base id prompt body body' st b :
  answering h rs s -> wire -> ids_not_reused h ->
  is_http_origin url_Parse base = true -> all_bytes Hex.is_digit id = true -> Utf8.ValidString prompt = true ->
  answered rs (post_prompt base id prompt) (Ok (StatusCreated, body)) ->
  answered rs (get_status base id) (Ok (StatusOK, body')) ->
  decode_status (LimitReader body' 65536) = Some st -> st = status_string (decision_status b) ->
  decided_on_record h s id prompt b.
Proof.
  intros Hans Hw Hids Hbase Hid Hp (r & resp & Hr & _ & Hpath & Hbody & Hc & _)
    (r' & resp' & Hr' & _ & Hpath' & _ & Hc' & <-) Hst ->.
  destruct (created_on_record _ _ _ _ _ _ _ _ _ _ _ _ _ Hans Hr Hc) as (id1 & p1 & now1 & Hask & Hcreate).
  destruct (status_on_record _ _ _ _ _ _ _ _ _ _ _ _ _ Hans Hr' Hc') as (id2 & q & now2 & Hpath2 & Hview & Hget).
  assert (id1 = id) as -> by (destruct Hask as (_ & Hp1 & _); rewrite Hp1 in Hpath;
    by apply (wire_path Hw base id id1)).
  assert (id2 = id) as -> by (rewrite Hpath2 in Hpath'; by apply (wire_path Hw base id id2)).
  assert (p1 = prompt) as -> by (destruct Hask as (_ & _ & _ & Hd & _); rewrite Hbody in Hd;
    by apply (wire_prompt Hw)).
  rewrite Hview in Hst. apply (wire_status Hw), eq_sym, status_of_decision in Hst.
  pose proof (reachable_kept _ _ _ _ _ _ _ _ _ _ (answering_reachable _ _ _ _ _ _ _ _ _ _ _ Hans)) as Hk.
  destruct (served_split _ _ _ _ _ _ _ _ _ _ _ _ _ (kept_store _ _ _ _ _ _ _ _ _ _ Hk) Hget)
    as (h1 & s1 & h2 & -> & Hs1 & Happly).
  cbn in Happly. injection Happly as Happly.
  destruct (decision_from_listener _ _ _ _ _ _ _ _ _ _ _ _ b Hs1 Happly Hst)
    as (pre & r0 & mid & r1 & t1 & post & -> & Ht & Ha0 & Ha1).
  assert (Prompt q = prompt) as <- by (eapply (Hids id (Control r0) (CreatedAt q) _ (RelayMain.ttl f)); [set_solver|exact Hcreate]).
  pose proof (kept_logged _ _ _ _ _ _ _ _ _ _ Hk) as Hl.
  exists pre, r0, (CreatedAt q), mid, r1, t1, (post ++ (Control r', (now2, OGet id, RRequest (Ok q))) :: h2).
  split_and!; try done.
  - by rewrite <- app_assoc, <- app_comm_cons, <- app_assoc, <- app_comm_cons.
  - refine (Hl (Control r0) (CreatedAt q, OCreate id (Prompt q) (RelayMain.ttl f), RUnit (Ok tt)) _). set_solver.
  - refine (Hl (RelayServer.Decision r1) (t1, ODecide id b, RUnit (Ok tt)) _). set_solver.
Qed.

(** The worker's. *)
Context (url_ok : string -> bool) (toml_Unmarshal : string -> option Config).
Context (json_request : string -> option (Protocol.Request * bool)).
Context (error_text : serve_error -> option unit -> string).
Context (srv : Server).

Notation Serve := (Serve.Serve url_Parse toml_Unmarshal json_request unicode_print error_text srv).
Notation linked := (linked url_ok decode_status url_Parse toml_Unmarshal srv).
Notation admitted := (admitted url_Parse toml_Unmarshal json_request srv).

(** An outcome of the approver, with the relay on the other side. *)
Lemma backed_decided t' prompt o h rs s (b : bool) :
  backed url_ok decode_status url_Parse toml_Unmarshal srv t' prompt o ->
  answering h rs s -> wire -> ids_not_reused h -> Utf8.ValidString prompt = true ->
  (forall c a, exchange c a ∈ t' -> answered rs c a) ->
  (if b then decision o = Ok Approved else cause o = CauseRejected) ->
  exists id, decided_on_record h s id prompt b.
Proof.
  intros (base & fuel & te & Hbase & Hb & Hin) Hans Hw Hids Hp Hnet Ho.
  destruct (approver_exchanges _ _ _ _ _ _ _ Hb) as (bs & st & body & body' & Hpost & Hget & Hst & Hans1 & Hans2).
  { destruct b; auto. }
  exists (Hex.EncodeToString bs).
  apply (exchanges_decided h rs s base _ prompt body body' st b); try assumption.
  - by apply (configured_origin _ toml_Unmarshal srv).
  - apply Hex.Encode_digits.
  - by apply Hnet, Hin.
  - by apply Hnet, Hin.
  - destruct b; [by apply Hans1|by apply Hans2].
Qed.

(** ** Properties *)

(** C1: a command runs only as the policy or a person decided, from end to
    end: with the worker's approver polling the relay over HTTP, whatever the
    network loses and whatever other requests the relay serves, if the worker
    runs a command then it answered a well-formed request with its policy, and
    either that policy allows the argv outright, or the relay registered the
    prompt that shows exactly this request and a same-origin POST to its
    decision listener approved it in time, both on the operator's log. *)
Theorem command_runs_only_as_decided {S} (hd : handler serve_call S) w c t' h rs s :
  let t := trace_of hd Serve w in
  linked None t t' -> answering h rs s -> wire -> ids_not_reused h ->
  (forall c a, exchange c a ∈ t' -> answered rs c a) ->
  RunCommand c ∈ calls t ->
  exists req cfg p tok,
    admitted t req cfg /\ is_DryRun req = false /\ lookup_project cfg (Protocol.Project req) = Some p
    /\ c = runner_command cfg (spec_for (run_request req) p tok)
    /\ (Broker.decide p (Protocol.Argv req) = VerdictAllow
        \/ Broker.decide p (Protocol.Argv req) = VerdictPrompt
           /\ exists id, decided_on_record h s id (prompt_for unicode_print (run_request req)) true).
Proof.
  cbv zeta. intros Hl Hans Hw Hids Hnet Hc.
  destruct (commands_authorized _ _ _ _ _ _ _ _ _ Hc)
    as (req & cfg & p & tok & runID & fs & a & r & Ha & Hdry & Hp & _ & _ & _ & _ & Hv & _ & _ & ->).
  exists req, cfg, p, tok. split_and!; [done..|]. destruct Hv as [Hv|[Hv He]]; [by left|right].
  split; [done|].
  destruct (linked_backed _ _ _ _ _ _ _ _ _ _ _ Hl ltac:(done) He Logic.eq_refl) as (o & Hb & Ho).
  apply (backed_decided t' _ o h rs s true Hb Hans Hw Hids (formatPrompt_valid _ _ _ _) Hnet).
  by destruct (decision o) as [[]|].
Qed.

(** C11: nobody is told "rejected" unless a person refused: if the worker's result
    gives that cause then it is a denial, and the relay's operator refused the
    prompt that shows exactly this request, in time, by a same-origin POST to
    the decision listener that is on the log.  Time-outs, lost exchanges and an
    unreachable relay are never reported so. *)
Theorem rejection_was_decided {S} (hd : handler serve_call S) w outs res t' h rs s :
  let t := trace_of hd Serve w in
  linked None t t' -> answering h rs s -> wire -> ids_not_reused h ->
  (forall c a, exchange c a ∈ t' -> answered rs c a) ->
  sent t = outs ++ [result_frame res] -> res_Cause res = cause_string CauseRejected ->
  res_Denied res = true
  /\ exists req cfg id, admitted t req cfg
       /\ decided_on_record h s id (prompt_for unicode_print (run_request req)) false.
Proof.
  cbv zeta. intros Hl Hans Hw Hids Hnet Hs Hc.
  destruct (cause_admitted _ _ _ _ _ _ _ _ _ _ Hs) as (req & cfg & Ha & _ & Hd & He & Hp); [by rewrite Hc|].
  split; [done|]. rewrite Hc in He.
  destruct (linked_rejected _ _ _ _ _ _ _ _ _ Hl ltac:(done) He Logic.eq_refl) as [(x & [=] & _)|(q & o & Hb & Ho & Hq)].
  apply Hp in Hq as ->.
  destruct (backed_decided t' _ o h rs s false Hb Hans Hw Hids (formatPrompt_valid _ _ _ _) Hnet Ho) as (id & Hid).
  by exists req, cfg, id.
Qed.
End System.

(** ** An execution of the whole system *)

Module Execution.

(** *** The other side's decoders *)

Definition strip (pre s : string) : option string :=
  if Strings.HasPrefix s pre then Some (Strings.drop (String.length pre) s) else None.

Lemma strip_app pre s : strip pre (pre +:+ s) = Some s.
Proof. unfold strip. by rewrite Strings.HasPrefix_app, Strings.drop_app_length. Qed.

Definition prompt_key : string := dq "{`prompt`:`".
Definition id_key : string := dq "{`id`:`".
Definition status_key : string := dq ",`status`:`".

Definition read_prompt (rd : Reader) : option string :=
  if rd_fails rd then None else
  s ← strip prompt_key (rd_data rd);
  '(p, rest) ← Strconv.unquote s;
  if String.eqb rest "}" then Some p else None.

(** It takes a text that fills the limit for a cut one. *)
Definition read_status (rd : Reader) : option string :=
  if 65536 <=? len (rd_data rd) then None else
  s ← strip id_key (rd_data rd);
  '(_, s) ← Strconv.unquote s;
  s ← strip status_key s;
  '(st, _) ← Strconv.unquote s;
  Some st.

Definition origin : string := "http://r".
Definition origin_url (s : string) : option URL :=
  if String.eqb s origin then Some (mkURL "http" "r" false "" "" "") else None.

Definition origin_path (u : string) : list string :=
  match strip (origin +:+ "/requests/") u with Some id => ["requests"; id] | None => [] end.

Lemma register_body_text p : register_body p = prompt_key +:+ Json.encode_body p +:+ String dquote "}".
Proof. unfold register_body, Json.encode_object, Json.encode_string. cbn. by rewrite append_assoc. Qed.

Lemma view_text v : exists rest,
  encode_view v +:+ str1 LF
  = id_key +:+ Json.encode_body (v_ID v) +:+ String dquote (status_key +:+ Json.encode_body (v_Status v)
      +:+ String dquote rest).
Proof.
  eexists. unfold encode_view, Json.encode_object, Json.encode_string. cbn. rewrite !append_assoc. cbn.
  rewrite !append_assoc. cbn. by rewrite !append_assoc.
Qed.

Lemma status_coerce st : Utf8.coerce (status_string st) = status_string st.
Proof. by destruct st. Qed.

Lemma take_short n s : len s <= n -> Strings.take (Z.to_nat n) s = s.
Proof. unfold len. intros H. apply take_ge. lia. Qed.

Lemma take_not_full n s : len (Strings.take (Z.to_nat n) s) < n -> Strings.take (Z.to_nat n) s = s.
Proof. unfold len. rewrite length_take. intros H. apply take_ge. lia. Qed.

Lemma origin_wire : wire origin_url read_status read_prompt origin_path.
Proof.
  split.
  - intros base id i Hb _. unfold is_http_origin, origin_url in Hb.
    destruct (String.eqb_spec base origin) as [->|]; [|done].
    unfold origin_path, request_url. rewrite <- append_assoc, strip_app. by intros [= ->].
  - intros p q Hp. unfold read_prompt, MaxBytesReader. cbn [rd_fails rd_data].
    destruct (Z.ltb_spec 16384 (len (register_body p))) as [|Hl]; [done|].
    rewrite (take_short 16384) by done. rewrite register_body_text, strip_app.
    cbn [mbind option_bind]. rewrite Json.unquote_encode_body. cbn. intros [= <-].
    by apply Utf8.ValidString_coerce.
  - intros q st. unfold read_status, LimitReader. cbn [rd_data].
    destruct (Z.leb_spec 65536 (len (Strings.take (Z.to_nat 65536) (encode_view (viewOf q) +:+ str1 LF)))) as [|Hl];
      [done|].
    rewrite (take_not_full 65536) by done.
    destruct (view_text (viewOf q)) as [rest ->]. rewrite strip_app. cbn [mbind option_bind].
    rewrite Json.unquote_encode_body. cbn [mbind option_bind]. rewrite strip_app. cbn [mbind option_bind].
    rewrite Json.unquote_encode_body. cbn [mbind option_bind]. intros [= <-]. apply status_coerce.
Qed.

(** *** The worker *)

(** One project whose every command is asked for. *)
Definition policy : Config :=
  mkConfig (mkRuntime "/b/bws" "/b" "/h") (mkTokenSource "file" (mkEnvSource "") (mkFileSource "/t"))
    (mkApprovalSource "tailscale-relay" (mkTailscaleRelaySource origin 2 300))
    [mkProject "p" "id" "entry" "/w" "always" [mkAllowEntry ["ls"]]].

Definition prompt : string := prompt_for (fun _ => false) (run_request demo_request).

(** The relay's operator answers [b]. *)
Definition worker_env (b : bool) : handler serve_call unit := fun c s =>
  match c return answer c * unit with
  | NewLogger path => demo_serve (NewLogger path) s
  | ReadInput => demo_serve ReadInput s
  | Encode f => demo_serve (Encode f) s
  | Files => demo_serve Files s
  | RunCommand e => demo_serve (RunCommand e) s
  | Collaborator (LoggerStart r) => demo_serve (Collaborator (LoggerStart r)) s
  | Collaborator (LoggerFinish i r) => demo_serve (Collaborator (LoggerFinish i r)) s
  | Collaborator (EvalSymlinks q) => demo_serve (Collaborator (EvalSymlinks q)) s
  | Collaborator (Broker.Approve _) => (Ok (if b then Approved else Approval.Denied), s)
  | Collaborator Broker.ApproveCause => ("rejected", s)
  | Collaborator (Resolve e) => demo_serve (Collaborator (Resolve e)) s
  | Collaborator (RunnerRun sp) => demo_serve (Collaborator (RunnerRun sp)) s
  end.

Definition worker : prog serve_call (result string unit) :=
  Serve.Serve origin_url (fun _ => Some policy) (fun _ => Some (demo_request, true)) (fun _ => false) demo_text
    NewServer.

Definition command : exec_call :=
  runner_command policy (spec_for (run_request demo_request)
    (mkProject "p" "id" "entry" "/w" "always" [mkAllowEntry ["ls"]]) (mkToken "tok")).

(** *** The relay *)

Definition drawn : string := "0123456789abcdef".
Definition id : string := Hex.EncodeToString drawn.

Definition post_request : Http.Request :=
  Http.mkRequest "POST" ["requests"; id] "r" false [("Content-Type", "application/json")] (register_body prompt).
Definition get_request : Http.Request := Http.mkRequest "GET" ["requests"; id] "r" false [] "".
Definition decide_request (b : bool) : Http.Request :=
  Http.mkRequest "POST" ["requests"; id; "decide"] "r:1" false [] (if b then "approve" else "deny").

Definition labels (b : bool) : list label :=
  [Listen ControlListener; Listen DecisionListener;
   RelayRun.Serve ControlListener post_request; Advance 0 0; Advance 0 1; Respond 0;
   RelayRun.Serve DecisionListener (decide_request b); Advance 0 5; Respond 0;
   RelayRun.Serve ControlListener get_request; Advance 0 6; Respond 0].

Definition created : Relay.Request :=
  Relay.mkRequest id prompt StatusPending 0 (RelayMain.ttl RelayMain.default_flags).

Definition history (b : bool) : list (port * entry) :=
  [(Control post_request, (0, OCreate id prompt 300000000000, RUnit (Ok tt)));
   (Control post_request, (1, OGet id, RRequest (Ok created)));
   (RelayServer.Decision (decide_request b), (5, ODecide id b, RUnit (Ok tt)));
   (Control get_request, (6, OGet id, RRequest (Ok (set_status (decision_status b) created))))].

Definition post_response : Response := writeJSON StatusCreated (viewOf created).
Definition get_response (b : bool) : Response := writeJSON StatusOK (viewOf (set_status (decision_status b) created)).

Definition responses (b : bool) : list (port * Response) :=
  [(Control post_request, post_response);
   (RelayServer.Decision (decide_request b), mkResponse StatusOK [] "");
   (Control get_request, get_response b)].

Definition relay_run (b : bool) : option (process * list (port * entry) * list (port * Response)) :=
  answers_of (fun _ => false) origin_url read_prompt raw_body (fun _ _ => None) RelayMain.default_flags (labels b) start.

Definition reached (b : bool) : process * list (port * entry) * list (port * Response) :=
  default (start, [], []) (relay_run b).

Lemma reached_eq b : (reached b).1.2 = history b /\ (reached b).2 = responses b.
Proof. destruct b; (split; vm_compute; reflexivity). Qed.

Lemma reached_run b : relay_run b = Some (reached b).
Proof.
  unfold reached. destruct (relay_run b) as [r|] eqn:E; [done|]. exfalso.
  assert (H : bool_decide (is_Some (relay_run b)) = true) by (destruct b; vm_compute; reflexivity).
  by rewrite E in H.
Qed.

Definition final (b : bool) : process := (reached b).1.1.

Lemma relay_answering b :
  answering (fun _ => false) origin_url read_prompt raw_body (fun _ _ => None) Process_example.split
    Process_example.parse RelayMain.default_flags (history b) (responses b) (final b).
Proof.
  destruct (reached_eq b) as [<- <-].
  exact (answers_from_start _ _ _ _ _ Process_example.split Process_example.parse RelayMain.default_flags
    (labels b) start (reached b) Logic.eq_refl (reached_run b)).
Qed.

Lemma history_ids b : ids_not_reused (history b).
Proof.
  assert (H : forall i p t q l, (p, (t, OCreate i q l, RUnit (Ok tt))) ∈ history b -> q = prompt).
  { intros i p t q l Hin. unfold history in Hin.
    repeat (apply elem_of_cons in Hin as [Hin|Hin]; [by injection Hin|]). by inversion Hin. }
  intros i p1 t1 q1 l1 p2 t2 q2 l2 H1%H H2%H. by rewrite H1, H2.
Qed.

(** *** Between them *)

Definition net_env (b : bool) : handler (approve_call + http_call) unit := fun c s =>
  match c return answer c * unit with
  | inl Rand => (Some drawn, s)
  | inl Select => (Tick, s)
  | inl CtxErr => (false, s)
  | inl (Tailscale.Register _ _) => (Err tt, s)
  | inl (Tailscale.Poll _) => (Err tt, s)
  | inr (Do method _ _ _) =>
      let resp := if String.eqb method "POST" then post_response else get_response b in
      (Ok (Code resp, WBody resp), s)
  end.

Definition execution (b : bool) : option (list (event (serve_call + (approve_call + http_call)))) :=
  link (fun _ => true) read_status origin_url (fun _ => Some policy) NewServer (net_env b) 2 None
    (trace_of (worker_env b) worker tt) tt.

Definition executed (b : bool) : list (event (serve_call + (approve_call + http_call))) :=
  default [] (execution b).

Lemma executed_linked b :
  linked (fun _ => true) read_status origin_url (fun _ => Some policy) NewServer None
    (trace_of (worker_env b) worker tt) (executed b).
Proof.
  unfold executed. destruct (execution b) as [t'|] eqn:E; [by eapply link_linked|]. exfalso.
  assert (H : bool_decide (is_Some (execution b)) = true) by (destruct b; vm_compute; reflexivity).
  by rewrite E in H.
Qed.

Definition exchange_of (e : event (serve_call + (approve_call + http_call)))
    : option (http_call * result string (Z * string)) :=
  let 'existT c a := e in
  match c return answer c -> option (http_call * result string (Z * string)) with
  | inr (inr c) => fun a => Some (c, a)
  | _ => fun _ => None
  end a.

Definition exchanges (b : bool) : list (http_call * result string (Z * string)) :=
  [(post_prompt origin id prompt, Ok (Code post_response, WBody post_response));
   (get_status origin id, Ok (Code (get_response b), WBody (get_response b)))].

Lemma executed_exchanges b : omap exchange_of (executed b) = exchanges b.
Proof. destruct b; vm_compute; reflexivity. Qed.

Lemma executed_answered b c a : exchange c a ∈ executed b -> answered origin_path (responses b) c a.
Proof.
  intros H. assert (Hin : (c, a) ∈ omap exchange_of (executed b))
    by (apply list_elem_of_omap; by exists (exchange c a)).
  rewrite executed_exchanges in Hin. unfold exchanges in Hin.
  apply elem_of_cons in Hin as [[-> ->]%pair_equal_spec|[-> ->]%list_elem_of_singleton%pair_equal_spec].
  - exists post_request, post_response. split_and!; try reflexivity. by left.
  - exists get_request, (get_response b). split_and!; try reflexivity. right. right. by left.
Qed.
End Execution.


Import Execution.

Lemma only_request t req cfg :
  admitted origin_url (fun _ => Some policy) (fun _ => Some (demo_request, true)) NewServer t req cfg ->
  req = demo_request /\ cfg = applyDefaults policy.
Proof.
  intros (input & fs & _ & _ & Hd & (n & _ & _ & (raw & [= <-] & -> & _)%Parse_Ok & _)). split; [|done].
  unfold decodeRequest in Hd. repeat (case_match; [done|]). by injection Hd.
Qed.

Lemma command_runs_only_as_decided_witness :
  RunCommand command ∈ calls (trace_of (worker_env true) worker tt)
  /\ exists i, decided_on_record origin_url read_prompt raw_body (fun _ _ => None) RelayMain.default_flags
       (history true) (final true) i prompt true.
Proof.
  assert (Hc : RunCommand command ∈ calls (trace_of (worker_env true) worker tt)).
  { replace (calls (trace_of (worker_env true) worker tt)) with
      (take 8 (calls (trace_of (worker_env true) worker tt))
       ++ RunCommand command :: drop 9 (calls (trace_of (worker_env true) worker tt)))
      by (vm_compute; reflexivity).
    apply elem_of_app. right. left. }
  split; [exact Hc|].
  destruct (command_runs_only_as_decided (fun _ => false) origin_url read_status read_prompt raw_body (fun _ _ => None)
    Process_example.split Process_example.parse RelayMain.default_flags origin_path (fun _ => true)
    (fun _ => Some policy) (fun _ => Some (demo_request, true)) demo_text NewServer (worker_env true) tt command
    (executed true) (history true) (responses true) (final true)
    (executed_linked true) (relay_answering true) origin_wire (history_ids true) (executed_answered true) Hc)
    as (req & cfg & p & tok & Ha & _ & Hp & _ & Hv).
  destruct (only_request _ _ _ Ha) as [-> ->]. vm_compute in Hp. injection Hp as <-.
  destruct Hv as [Hv|[_ Hi]]; [vm_compute in Hv; discriminate Hv|exact Hi].
Defined.

Definition refusal : Protocol.Result := mkResult true "approval_rejected" "rejected" 125.

Lemma rejection_was_decided_witness :
  sent (trace_of (worker_env false) worker tt) = [result_frame refusal]
  /\ exists i, decided_on_record origin_url read_prompt raw_body (fun _ _ => None) RelayMain.default_flags
       (history false) (final false) i prompt false.
Proof.
  assert (Hs : sent (trace_of (worker_env false) worker tt) = [] ++ [result_frame refusal])
    by (vm_compute; reflexivity).
  split; [exact Hs|].
  destruct (rejection_was_decided (fun _ => false) origin_url read_status read_prompt raw_body (fun _ _ => None)
    Process_example.split Process_example.parse RelayMain.default_flags origin_path (fun _ => true)
    (fun _ => Some policy) (fun _ => Some (demo_request, true)) demo_text NewServer (worker_env false) tt [] refusal
    (executed false) (history false) (responses false) (final false)
    (executed_linked false) (relay_answering false) origin_wire (history_ids false) (executed_answered false)
    Hs ltac:(reflexivity)) as (_ & req & cfg & i & Ha & Hi).
  destruct (only_request _ _ _ Ha) as [-> _]. exists i. exact Hi.
Defined.
