(* ===== verification/Recovery.v ===== *)
(** * Recovery: protected recovery artifacts (internal/admin/recovery.go)

    A [RecoveryStore] keeps, for each removed project, one file named by the
    recovery ID with the whole policy before the removal and the digests of
    the policy before and after it.  Its operations are programs over the
    system calls they make.  On Linux [info.Sys()] is a [*syscall.Stat_t], so
    the failure of that assertion in [validateExpectedIdentity] has no branch. *)

From stdpp Require Import sorting.
From S2P Require Import Prelude GoStrings GoText GoJson GoSha256 GoSort Effects Io SecureFile.

#[local] Open Scope Z_scope.

Definition recoveryArtifactVersion : Z := 1.
Definition maxRecoveryArtifactBytes : Z := 2097152.

Record RecoveryResult := mkRecoveryResult { Changed : bool; rr_RecoveryID : string }.

Record RecoverySummary := mkRecoverySummary {
  rs_RecoveryID : string;
  rs_Project : string;
  rs_CreatedAt : Z;
}.

Record RecoveryArtifactInput := mkRecoveryArtifactInput {
  ri_RecoveryID : string;
  ri_Project : string;
  Before : string;
  After : string;
}.

Record RecoveryArtifact := mkRecoveryArtifact {
  ra_Version : Z;
  ra_RecoveryID : string;
  ra_CreatedAt : Z;
  ra_Project : string;
  BeforeSHA256 : string;
  AfterSHA256 : string;
  Policy : string;
}.

#[export] Instance RecoveryArtifact_eq_dec : EqDecision RecoveryArtifact. Proof. solve_decision. Defined.

(** ** Package encoding/base64 *)
Module Base64.

Definition digit (d : Z) : ascii :=
  if d <? 26 then byte_of (65 + d)
  else if d <? 52 then byte_of (71 + d)
  else if d <? 62 then byte_of (d - 4)
  else if d =? 62 then "+"%char else "/"%char.

(** [base64.StdEncoding.EncodeToString] *)
Fixpoint EncodeToString (s : string) : string :=
  match s with
  | EmptyString => EmptyString
  | String a EmptyString =>
      String (digit (byte_val a / 4)) (String (digit (byte_val a mod 4 * 16)) "==")
  | String a (String b EmptyString) =>
      String (digit (byte_val a / 4))
        (String (digit (byte_val a mod 4 * 16 + byte_val b / 16))
          (String (digit (byte_val b mod 16 * 4)) "="))
  | String a (String b (String c s')) =>
      String (digit (byte_val a / 4))
        (String (digit (byte_val a mod 4 * 16 + byte_val b / 16))
          (String (digit (byte_val b mod 16 * 4 + byte_val c / 64))
            (String (digit (byte_val c mod 64)) (EncodeToString s'))))
  end.

End Base64.

(** [json.Marshal] of an artifact; a nil [[]byte] is written as null, and
    [append([]byte(nil), b...)] is nil for an empty [b]. *)
Definition artifact_Marshal (a : RecoveryArtifact) : option string :=
  created ← Time.MarshalJSON (ra_CreatedAt a);
  Some (Json.encode_object
    [Json.member "version" (Itoa.Itoa (ra_Version a));
     Json.member "recovery_id" (Json.encode_string (ra_RecoveryID a));
     Json.member "created_at" created;
     Json.member "project" (Json.encode_string (ra_Project a));
     Json.member "before_sha256" (Json.encode_string (BeforeSHA256 a));
     Json.member "after_sha256" (Json.encode_string (AfterSHA256 a));
     Json.member "policy"
       (if String.eqb (Policy a) "" then "null"
        else String dquote (Base64.EncodeToString (Policy a) +:+ str1 dquote))]).

(** What a second [Decode] finds after the first value. *)
Inductive json_tail : Type :=
| JsonEOF
| JsonValue
| JsonBad.

(** The decoder, with unknown fields disallowed: the first value as an
    artifact, and what follows it. *)
Class ArtifactDecoder := artifact_Decode : string -> option (RecoveryArtifact * json_tail).

(** The decoder reads back what the encoder wrote for this artifact. *)
Definition reads_back `{ArtifactDecoder} (a : RecoveryArtifact) : Prop :=
  forall s, artifact_Marshal a = Some s -> artifact_Decode s = Some (a, JsonEOF).

(** ** The calls *)

(** What [os.Lstat] reports; the mode holds setuid, setgid and sticky. *)
Record Stat_t := mkStat { st_kind : kind; st_mode : Z; st_uid : Z; st_gid : Z; st_size : Z }.

Inductive link_result : Type :=
| LinkOk
| LinkExists               (** [errors.Is(err, fs.ErrExist)] *)
| LinkFailed.

Inductive store_call : Type :=
| SNow
| SLstat (path : string)
| SCreateTemp (dir pattern : string)
| SChmod (mode : Z)                (** on the temporary file, like the next three *)
| SWrite (data : string)           (** the bytes written, [None] on an error *)
| SSync                            (** [s.syncFile] *)
| SClose
| SLink (from to : string)         (** [s.linkFile] *)
| SRemove (path : string)
| SOpenDir (path : string)
| SSyncDir
| SCloseDir
| SReadDir (path : string)
| SReadFile (path : string) (maxBytes forbidden : Z) (allowRoot : bool).

#[export] Instance store_interface : Interface store_call := fun c =>
  match c with
  | SNow => Z
  | SLstat _ => option Stat_t
  | SCreateTemp _ _ => option string
  | SChmod _ | SSync | SClose | SRemove _ | SOpenDir _ | SSyncDir => bool
  | SWrite _ => option Z
  | SLink _ _ => link_result
  | SCloseDir => unit
  | SReadDir _ => option (list string)
  | SReadFile _ _ _ _ => result securefile_error string
  end.

(** ** Errors *)

(** Of a look at the directory or at an artifact. *)
Inductive check_error : Type :=
| CStating
| CKind
| CMode (perm : Z)
| CSpecialBits
| COwner (want got : Z)
| CGroup (want got : Z)
| CTooBig.

Inductive recovery_error : Type :=
| RInvalidID
| RProjectRequired
| RDirectory (e : check_error)
| RFile (e : check_error)
| REncoding
| RTooBig
| RCreatingTemp
| RSettingPermissions
| RValidatingTemp (e : check_error)
| RWriting
| RSyncing
| RClosing
| RExists (id : string)
| RPublishing
| RRemovingTemp
| RSyncingDirectory
| RReadingDirectory
| RUnsafe (name : string) (e : recovery_error)
| RListed (name : string) (e : recovery_error)
| RReading (e : securefile_error)
| RDecoding
| RTrailingData
| RTrailer
| RVersion (v : Z)
| RIDMismatch
| RProjectEmpty
| RCreatedEmpty
| RDigestInvalid (label : string)
| RDigestMismatch.

(** ** Validation *)

(** [recoveryIDPattern]: 32 lower-case hexadecimal digits. *)
Definition recovery_id_ok (id : string) : bool :=
  Nat.eqb (String.length id) 32 && all_bytes Hex.is_digit id.

Definition validateRecoveryID (id : string) : result recovery_error unit :=
  fail_if negb (recovery_id_ok id) with RInvalidID; Ok tt.

(** The loop is over runes; a rune beyond ASCII is no digit, and neither is
    any byte of one. *)
Definition validateDigest (value label : string) : result recovery_error unit :=
  fail_if negb (len value =? 64) with RDigestInvalid label;
  fail_if negb (all_bytes Hex.is_digit value) with RDigestInvalid label;
  Ok tt.

(** The zero [time.Time] is the first instant of year 1. *)
Definition zero_time : Z := -62135596800 * Time.Second.

Definition validateRecoveryArtifact (a : RecoveryArtifact) (recoveryID : string)
    : result recovery_error unit :=
  fail_if negb (ra_Version a =? recoveryArtifactVersion) with RVersion (ra_Version a);
  fail_if negb (String.eqb (ra_RecoveryID a) recoveryID) with RIDMismatch;
  fail_if String.eqb (ra_Project a) "" with RProjectEmpty;
  fail_if ra_CreatedAt a =? zero_time with RCreatedEmpty;
  _ ← validateDigest (BeforeSHA256 a) "pre-removal";
  _ ← validateDigest (AfterSHA256 a) "post-removal";
  fail_if negb (String.eqb (digestBytes (Policy a)) (BeforeSHA256 a)) with RDigestMismatch;
  Ok tt.

Definition validateExpectedIdentity (i : Stat_t) (expectedOwner expectedGroup : Z)
    : result check_error unit :=
  fail_if negb (st_uid i =? expectedOwner) with COwner expectedOwner (st_uid i);
  fail_if negb (st_gid i =? expectedGroup) with CGroup expectedGroup (st_gid i);
  Ok tt.

(** The checks of [validateRecoveryDir] and [validateRecoveryFile] that differ
    in the kind, the mode and the size only. *)
Definition check_stat (k : kind) (mode : Z) (sized : bool) (owner group : Z) (o : option Stat_t)
    : result check_error unit :=
  match o with
  | None => Err CStating
  | Some i =>
      fail_if negb (bool_decide (st_kind i = k)) with CKind;
      fail_if negb (Z.land (st_mode i) 511 =? mode) with CMode (Z.land (st_mode i) 511);
      fail_if negb (Z.land (st_mode i) 3584 =? 0) with CSpecialBits;
      _ ← validateExpectedIdentity i owner group;
      fail_if sized && (maxRecoveryArtifactBytes <? st_size i) with CTooBig;
      Ok tt
  end.

(** ** The store *)

Record RecoveryStore := mkRecoveryStore { rdir : string; owner : Z; group : Z }.

Notation store_io A := (prog store_call (result recovery_error A)).

Section Operations.
Context `{ArtifactDecoder} (s : RecoveryStore).

Definition validateRecoveryDir : store_io unit :=
  i ← call (SLstat (rdir s));
  lift (wrap_err RDirectory (check_stat Directory 448 false (owner s) (group s) (i : option Stat_t))).

Definition validateRecoveryFile (wrap : check_error -> recovery_error) (path : string) : store_io unit :=
  i ← call (SLstat path);
  lift (wrap_err wrap (check_stat Regular 384 true (owner s) (group s) (i : option Stat_t))).

(** [syncDirectory] *)
Definition syncDirectory (path : string) : prog store_call bool :=
  o ← call (SOpenDir path);
  if negb (o : bool) then mret false else
  r ← call SSyncDir;
  _ ← call SCloseDir;
  mret (r : bool).

(** The artifact of an input, made at a time. *)
Definition artifact_of (input : RecoveryArtifactInput) (created : Z) : RecoveryArtifact :=
  mkRecoveryArtifact recoveryArtifactVersion (ri_RecoveryID input) created (ri_Project input)
    (digestBytes (Before input)) (digestBytes (After input)) (Before input).

(** [filepath.Join(s.dir, id)] *)
Definition artifact_path (id : string) : string := Filepath.Join [rdir s; id].

(** A short write without an error is one too. *)
Definition writeAll (data : string) : prog store_call bool :=
  w ← call (SWrite data);
  mret (match (w : option Z) with None => false | Some written => written =? len data end).

(** From the creation of the temporary file to the link. *)
Definition fill_and_link (tempName encoded finalPath id : string) : store_io unit :=
  try! _ := require RSettingPermissions (call (SChmod 384));
  try! _ := validateRecoveryFile RValidatingTemp tempName;
  try! _ := require RWriting (writeAll encoded);
  try! _ := require RSyncing (call SSync);
  try! _ := require RClosing (call SClose);
  l ← call (SLink tempName finalPath);
  lift (match (l : link_result) with
        | LinkOk => Ok tt
        | LinkExists => Err (RExists id)
        | LinkFailed => Err RPublishing
        end).

(** After the link, with both deferred functions registered: the flags are
    [keepTemp] and [rollbackFinal]. *)
Definition settle (tempName finalPath : string) : store_io unit :=
  removed ← call (SRemove tempName);
  if negb (removed : bool) then
    _ ← call (SRemove finalPath);
    _ ← call SClose;
    _ ← call (SRemove tempName);
    fail RRemovingTemp
  else
    synced ← syncDirectory (rdir s);
    if negb (synced : bool) then
      _ ← call (SRemove finalPath);
      _ ← syncDirectory (rdir s);
      _ ← call (SRemove finalPath);
      _ ← call SClose;
      fail RSyncingDirectory
    else
      _ ← call SClose;
      ok tt.

(** From the creation of the temporary file on. *)
Definition publish_file (encoded id : string) : store_io unit :=
  t ← call (SCreateTemp (rdir s) ".recovery.tmp-*");
  match (t : option string) with
  | None => fail RCreatingTemp
  | Some tempName =>
      r ← fill_and_link tempName encoded (artifact_path id) id;
      match r with
      | Err e => _ ← call SClose; _ ← call (SRemove tempName); fail e
      | Ok _ => settle tempName (artifact_path id)
      end
  end.

Definition Publish (input : RecoveryArtifactInput) : store_io unit :=
  try! _ := lift (validateRecoveryID (ri_RecoveryID input));
  if String.eqb (ri_Project input) "" then fail RProjectRequired else
  try! _ := validateRecoveryDir;
  now ← call SNow;
  match artifact_Marshal (artifact_of input now) with
  | None => fail REncoding
  | Some encoded =>
      if maxRecoveryArtifactBytes <? len encoded then fail RTooBig else
      publish_file encoded (ri_RecoveryID input)
  end.

(** The decoding of a file, with [requireJSONEOF]. *)
Definition decode_artifact (data recoveryID : string) : result recovery_error RecoveryArtifact :=
  match artifact_Decode data with
  | None => Err RDecoding
  | Some (_, JsonValue) => Err RTrailingData
  | Some (_, JsonBad) => Err RTrailer
  | Some (a, JsonEOF) => _ ← validateRecoveryArtifact a recoveryID; Ok a
  end.

Definition Read (recoveryID : string) : store_io RecoveryArtifact :=
  try! _ := lift (validateRecoveryID recoveryID);
  try! _ := validateRecoveryDir;
  let path := artifact_path recoveryID in
  try! _ := validateRecoveryFile RFile path;
  d ← call (SReadFile path maxRecoveryArtifactBytes 63 false);
  try! data := lift (wrap_err RReading (d : result securefile_error string));
  lift (decode_artifact data recoveryID).

Definition summary_of (a : RecoveryArtifact) : RecoverySummary :=
  mkRecoverySummary (ra_RecoveryID a) (ra_Project a) (ra_CreatedAt a).

(** The loop of [List]. *)
Fixpoint read_entries (names : list string) : store_io (list RecoverySummary) :=
  match names with
  | [] => ok []
  | name :: names' =>
      try! _ := lift (wrap_err (RUnsafe name) (validateRecoveryID name));
      r ← Read name;
      try! a := lift (wrap_err (RListed name) r);
      try! rest := read_entries names';
      ok (summary_of a :: rest)
  end.

(** The comparison given to [sort.Slice]. *)
Definition summary_less : RecoverySummary -> RecoverySummary -> bool :=
  KeyOrder.less rs_CreatedAt rs_RecoveryID.

Definition List : store_io (list RecoverySummary) :=
  try! _ := validateRecoveryDir;
  e ← call (SReadDir (rdir s));
  match (e : option (list string)) with
  | None => fail RReadingDirectory
  | Some names =>
      try! summaries := read_entries names;
      ok (Slice summary_less summaries)
  end.

End Operations.

(** ** Specification *)

Section Spec.
Context `{ArtifactDecoder} (s : RecoveryStore).

(** A look that passes. *)
Definition good_stat (k : kind) (mode : Z) (i : Stat_t) : Prop :=
  st_kind i = k /\ Z.land (st_mode i) 511 = mode /\ Z.land (st_mode i) 3584 = 0
  /\ st_uid i = owner s /\ st_gid i = group s.

Definition good_dir : Stat_t -> Prop := good_stat Directory 448.
Definition good_file (i : Stat_t) : Prop :=
  good_stat Regular 384 i /\ st_size i <= maxRecoveryArtifactBytes.

(** What an artifact must say to be read under an ID. *)
Definition valid_artifact (a : RecoveryArtifact) (id : string) : Prop :=
  ra_Version a = 1 /\ ra_RecoveryID a = id /\ ra_Project a <> "" /\ ra_CreatedAt a <> zero_time
  /\ BeforeSHA256 a = digestBytes (Policy a)
  /\ len (AfterSHA256 a) = 64 /\ all_bytes Hex.is_digit (AfterSHA256 a) = true.

(** A whole publication: the artifact is written and synced under a private
    temporary name, then linked to its own, then the directory is synced. *)
Definition published (input : RecoveryArtifactInput) (t : list (event store_call)) : Prop :=
  exists di now encoded temp ti c,
    t = [ ev (SLstat (rdir s)) (Some di); ev SNow now;
          ev (SCreateTemp (rdir s) ".recovery.tmp-*") (Some temp); ev (SChmod 384) true;
          ev (SLstat temp) (Some ti); ev (SWrite encoded) (Some (len encoded)); ev SSync true; ev SClose true;
          ev (SLink temp (artifact_path s (ri_RecoveryID input))) LinkOk; ev (SRemove temp) true;
          ev (SOpenDir (rdir s)) true; ev SSyncDir true; ev SCloseDir tt; ev SClose c ]
    /\ recovery_id_ok (ri_RecoveryID input) = true /\ ri_Project input <> ""
    /\ good_dir di /\ good_file ti
    /\ artifact_Marshal (artifact_of input now) = Some encoded
    /\ len encoded <= maxRecoveryArtifactBytes.

(** The temporary files a trace created. *)
Definition temp_of (x : event store_call) : option string :=
  let 'existT c a := x in
  match c return answer c -> option string with SCreateTemp _ _ => fun a => a | _ => fun _ => None end a.

Definition temps (t : list (event store_call)) : list string := omap temp_of t.

(** The files a run has made and not removed, [files] being those before the
    event: a removal that fails leaves its file. *)
Definition kept (x : event store_call) (files : gset string) : gset string :=
  let 'existT c a := x in
  match c return answer c -> gset string with
  | SCreateTemp _ _ => fun temp => match temp with Some p => {[p]} ∪ files | None => files end
  | SLink _ to => fun l => match l with LinkOk => {[to]} ∪ files | _ => files end
  | SRemove p => fun ok : bool => if ok then files ∖ {[p]} else files
  | _ => fun _ => files
  end a.

Fixpoint left_behind (files : gset string) (t : list (event store_call)) : gset string :=
  match t with [] => files | x :: t => left_behind (kept x files) t end.

Definition failed_removal (x : event store_call) (p : string) : Prop :=
  let 'existT c a := x in
  match c return answer c -> Prop with SRemove q => fun ok => q = p /\ ok = false | _ => fun _ => False end a.

(** At some point of the trace [p] was there, and removing it failed. *)
Fixpoint abandoned (files : gset string) (t : list (event store_call)) (p : string) : Prop :=
  match t with
  | [] => False
  | x :: t => (p ∈ files /\ failed_removal x p) \/ abandoned (kept x files) t p
  end.

Lemma validateRecoveryID_Ok id : validateRecoveryID id = Ok tt <-> recovery_id_ok id = true.
Proof. unfold validateRecoveryID. destruct (recovery_id_ok id); naive_solver. Qed.

Lemma check_stat_Ok k mode sized o :
  check_stat k mode sized (owner s) (group s) o = Ok tt <->
  exists i, o = Some i /\ good_stat k mode i /\ (sized = true -> st_size i <= maxRecoveryArtifactBytes).
Proof.
  unfold check_stat, validateExpectedIdentity, good_stat. destruct o as [i|]; [|naive_solver].
  split.
  - intros H1. inv_ok. boolP. exists i. split_and!; try done.
    intros ->. simpl in *. by boolP.
  - intros (? & [= <-] & (-> & -> & -> & -> & ->) & Hs). rewrite bool_decide_eq_true_2 by done.
    rewrite !Z.eqb_refl. simpl. destruct sized; [|done]. simpl.
    rewrite (proj2 (Z.ltb_ge _ _)) by by apply Hs. done.
Qed.

Lemma validateDigest_Ok v label :
  validateDigest v label = Ok tt <-> len v = 64 /\ all_bytes Hex.is_digit v = true.
Proof. unfold validateDigest. rewrite !fail_if_Ok, !negb_false_iff, Z.eqb_eq. naive_solver. Qed.

Lemma digest_form data : len (digestBytes data) = 64 /\ all_bytes Hex.is_digit (digestBytes data) = true.
Proof. split; [unfold len; by rewrite digestBytes_length|apply digestBytes_hex]. Qed.

Lemma validateRecoveryArtifact_Ok a id :
  validateRecoveryArtifact a id = Ok tt <-> valid_artifact a id.
Proof.
  unfold validateRecoveryArtifact, valid_artifact, recoveryArtifactVersion. split.
  - intros H1. inv_ok. boolP. destruct x, x0.
    repeat match goal with H : validateDigest _ _ = Ok tt |- _ => apply validateDigest_Ok in H as [? ?] end.
    by split_and!.
  - intros (Hv & -> & Hp & Hc & Hb & Ha).
    rewrite Hv, String.eqb_refl, (proj2 (String.eqb_neq _ _) Hp), (proj2 (Z.eqb_neq _ _) Hc). cbn.
    rewrite Hb, String.eqb_refl.
    rewrite (proj2 (validateDigest_Ok (digestBytes _) _)) by apply digest_form.
    by rewrite (proj2 (validateDigest_Ok (AfterSHA256 a) _) Ha).
Qed.

(** What is published under an ID can be read under it. *)
Lemma artifact_of_valid input now :
  ri_Project input <> "" -> now <> zero_time ->
  valid_artifact (artifact_of input now) (ri_RecoveryID input).
Proof. intros. split_and!; try done; apply digest_form. Qed.

(** A look, as a behaviour. *)
Lemma validateRecoveryDir_behaves t r :
  behaves (validateRecoveryDir s) t r <->
  exists i, t = [ev (SLstat (rdir s)) i]
    /\ r = wrap_err RDirectory (check_stat Directory 448 false (owner s) (group s) i).
Proof.
  unfold validateRecoveryDir. rewrite behaves_bind. split.
  - intros (? & ? & i & -> & (? & ? & -> & -> & <-) & [-> ->]). by eexists.
  - intros (i & -> & ->). exists [ev (SLstat (rdir s)) i], [], i.
    split_and!; [done|by exists i, []|done].
Qed.

Lemma validateRecoveryFile_behaves wrap path t r :
  behaves (validateRecoveryFile s wrap path) t r <->
  exists i, t = [ev (SLstat path) i]
    /\ r = wrap_err wrap (check_stat Regular 384 true (owner s) (group s) i).
Proof.
  unfold validateRecoveryFile. rewrite behaves_bind. split.
  - intros (? & ? & i & -> & (? & ? & -> & -> & <-) & [-> ->]). by eexists.
  - intros (i & -> & ->). exists [ev (SLstat path) i], [], i.
    split_and!; [done|by exists i, []|done].
Qed.

(** *** Publishing *)

Lemma writeAll_behaves data t b :
  behaves (writeAll data) t b ->
  exists w, t = [ev (SWrite data) w] /\ (b = true <-> w = Some (len data)).
Proof.
  intros (w & t' & -> & [-> ->]). exists w. split; [done|]. destruct w as [n|]; [|by split].
  rewrite Z.eqb_eq. split; [by intros ->|by intros [= ->]].
Qed.

Lemma published_behaves input t : published input t -> behaves (Publish s input) t (Ok tt).
Proof.
  intros (di & now & encoded & temp & ti & c & -> & Hid & Hp & Hd & [Ht Hs] & Hm & Hl).
  unfold Publish. eapply behaves_lift_then; [by apply validateRecoveryID_Ok|].
  rewrite (proj2 (String.eqb_neq _ _) Hp).
  eapply (behaves_then _ _ [ev (SLstat (rdir s)) (Some di)]).
  { apply validateRecoveryDir_behaves. eexists. split; [done|].
    by rewrite (proj2 (check_stat_Ok Directory 448 false (Some di))) by (by exists di). }
  apply (behaves_call_bind SNow). rewrite Hm, (proj2 (Z.ltb_ge _ _) Hl). unfold publish_file.
  apply (behaves_call_bind (SCreateTemp _ _) _ (Some temp)).
  apply (behaves_bind_split _ _ [ ev (SChmod 384) true; ev (SLstat temp) (Some ti); ev (SWrite encoded) (Some (len encoded));
    ev SSync true; ev SClose true; ev (SLink temp (artifact_path s (ri_RecoveryID input))) LinkOk ]
    _ (Ok tt)).
  - eexists _, _. split; [done|]. eexists _, _. split; [done|].
    cbn -[check_stat Z.eqb]. rewrite (proj2 (check_stat_Ok Regular 384 true (Some ti))) by by exists ti.
    exists (Some (len encoded)). eexists. split; [done|]. rewrite Z.eqb_refl. repeat (eexists _, _; split; [done|]). by split.
  - repeat (eexists _, _; split; [done|]). by split.
Qed.

Definition link_targets (t : list (event store_call)) : list string :=
  omap (fun c => match c with SLink _ to => Some to | _ => None end) (calls t).

Lemma fill_and_link_behaves temp encoded final id t r :
  behaves (fill_and_link s temp encoded final id) t r ->
  link_targets t ⊆ [final] /\ (r <> Ok tt -> forall files, left_behind files t = files)
  /\ (r = Ok tt -> exists ti, good_file ti
       /\ t = [ ev (SChmod 384) true; ev (SLstat temp) (Some ti); ev (SWrite encoded) (Some (len encoded));
                ev SSync true; ev SClose true; ev (SLink temp final) LinkOk ]).
Proof.
  unfold fill_and_link, validateRecoveryFile. intros H1. inv_io.
  all: try match goal with H : behaves (writeAll _) _ _ |- _ => apply writeAll_behaves in H as (w & -> & Hw) end.
  all: inv_io; try rewrite (proj1 Hw Logic.eq_refl).
  all: try match goal with H : check_stat _ _ _ _ _ _ = Ok ?u |- _ =>
    destruct u; apply check_stat_Ok in H as (ti & -> & Hg & Hz) end.
  all: repeat match goal with x : answer (SLink _ _) |- _ => destruct x end; cbn.
  all: repeat match goal with
    | |- context [match (if ?b then _ else _) with _ => _ end] => destruct b end.
  all: split_and!; try done; try set_solver.
  all: intros _; exists ti; split; [|done]; split; [done|by apply Hz].
Qed.

Lemma settle_behaves temp final t r :
  behaves (settle s temp final) t r ->
  link_targets t = []
  /\ (forall p, p ∈ left_behind {[final; temp]} t -> abandoned {[final; temp]} t p \/ r = Ok tt /\ p = final)
  /\ (r = Ok tt -> exists c, t = [ ev (SRemove temp) true; ev (SOpenDir (rdir s)) true; ev SSyncDir true;
                                  ev SCloseDir tt; ev SClose c ]).
Proof.
  unfold settle, syncDirectory. intros H1. inv_io.
  all: repeat match goal with x : answer SCloseDir |- _ => destruct x
    | H : negb ?b = false |- _ => apply negb_false_iff in H as ->
    | H : negb ?b = true |- _ => apply negb_true_iff in H as -> end.
  all: split; [done|split]; try done; try (intros _; by eexists).
  all: intros p; cbn.
  all: repeat match goal with b : answer (SRemove _) |- _ => destruct b end; set_solver.
Qed.

Lemma link_targets_app t1 t2 : link_targets (t1 ++ t2) = link_targets t1 ++ link_targets t2.
Proof. unfold link_targets. by rewrite calls_app, omap_app. Qed.

Lemma left_behind_app files t1 t2 : left_behind files (t1 ++ t2) = left_behind (left_behind files t1) t2.
Proof. revert files. induction t1; intros files; [done|]. cbn. auto. Qed.

Lemma abandoned_app files t1 t2 p :
  abandoned files (t1 ++ t2) p <-> abandoned files t1 p \/ abandoned (left_behind files t1) t2 p.
Proof.
  revert files. induction t1 as [|x t1 IH]; intros files; cbn; [tauto|]. rewrite IH. tauto.
Qed.

(** What holds of every publication, finished or not. *)
Definition tidy (id : string) (r : result recovery_error unit) (t : list (event store_call)) : Prop :=
  link_targets t ⊆ [artifact_path s id]
  /\ forall p, p ∈ left_behind ∅ t -> abandoned ∅ t p \/ r = Ok tt /\ p = artifact_path s id.

Lemma publish_file_behaves encoded id t r :
  behaves (publish_file s encoded id) t r ->
  tidy id r t
  /\ (r = Ok tt -> exists temp ti c, good_file ti
       /\ t = [ ev (SCreateTemp (rdir s) ".recovery.tmp-*") (Some temp); ev (SChmod 384) true;
          ev (SLstat temp) (Some ti); ev (SWrite encoded) (Some (len encoded)); ev SSync true; ev SClose true;
          ev (SLink temp (artifact_path s id)) LinkOk; ev (SRemove temp) true;
          ev (SOpenDir (rdir s)) true; ev SSyncDir true; ev SCloseDir tt; ev SClose c ]).
Proof.
  unfold publish_file. intros (o & t' & -> & H1)%(behaves_call_inv (SCreateTemp _ _)). destruct o as [temp|].
  2:{ destruct H1 as [-> ->]. split; [|done]. split; [set_solver|]. intros p. cbn. set_solver. }
  assert (Htemp : kept (ev (SCreateTemp (rdir s) ".recovery.tmp-*") (Some temp)) ∅ = {[temp]})
    by (cbn; set_solver).
  apply (proj1 (behaves_bind _ _ _ _)) in H1 as (t1 & t2 & [[]|err] & -> & H1 & H2);
    apply fill_and_link_behaves in H1 as (Ht1 & Hn & Hok).
  - apply settle_behaves in H2 as (Hs1 & Hs2 & Hsok). destruct (Hok eq_refl) as (ti & Hti & ->). split; [split|].
    + rewrite app_comm_cons, link_targets_app, Hs1. cbn. set_solver.
    + intros p. cbn [left_behind abandoned app]. rewrite Htemp. cbn [kept ev]. intros Hp.
      destruct (Hs2 p Hp) as [Ha|]; [left|by right]. by repeat right.
    + intros Hr. destruct (Hsok Hr) as [c ->]. by exists temp, ti, c.
  - destruct H2 as (c & t3 & -> & (b & t4 & -> & [-> ->])). specialize (Hn ltac:(done)). split; [split|done].
    + rewrite app_comm_cons, link_targets_app. cbn. by rewrite app_nil_r.
    + intros p. cbn [left_behind abandoned app]. rewrite Htemp, left_behind_app, abandoned_app, Hn.
      destruct b; cbn; set_solver.
Qed.

Lemma quiet_tidy id r t : link_targets t = [] -> left_behind ∅ t = ∅ -> tidy id r t.
Proof. intros E1 E2. unfold tidy. rewrite E1, E2. split; [set_solver|]. intros p Hp. set_solver. Qed.

Lemma Publish_behaves input t r :
  behaves (Publish s input) t r ->
  tidy (ri_RecoveryID input) r t
  /\ (link_targets t = [] \/ recovery_id_ok (ri_RecoveryID input) = true)
  /\ (r = Ok tt -> published input t).
Proof.
  unfold Publish. intros [(t1 & t2 & [] & -> & [-> Hid] & H1)|(e & [-> _] & ->)]%behaves_and_then.
  2:{ split_and!; [by apply quiet_tidy|by left|done]. }
  symmetry in Hid. apply validateRecoveryID_Ok in Hid. cbn [app].
  destruct (String.eqb_spec (ri_Project input) "") as [|Hp].
  { destruct H1 as [-> ->]. split_and!; [by apply quiet_tidy|by left|done]. }
  apply behaves_and_then in H1 as [(t1 & t3 & [] & -> & H1 & H2)|(e & H1 & ->)].
  all: apply validateRecoveryDir_behaves in H1 as (i & -> & Hd).
  2:{ split_and!; [by apply quiet_tidy|by left|done]. }
  symmetry in Hd. apply wrap_err_Ok, check_stat_Ok in Hd as (di & -> & Hd & _).
  apply (behaves_call_inv SNow) in H2 as (now & t4 & -> & H2).
  destruct (artifact_Marshal _) as [encoded|] eqn:Em.
  2:{ destruct H2 as [-> ->]. split_and!; [by apply quiet_tidy|by left|done]. }
  destruct (Z.ltb_spec maxRecoveryArtifactBytes (len encoded)).
  { destruct H2 as [-> ->]. split_and!; [by apply quiet_tidy|by left|done]. }
  apply publish_file_behaves in H2 as [[Ht1 Ht2] Hok]. split_and!; [|by right|].
  { split; [exact Ht1|]. intros p Hp'. destruct (Ht2 p Hp') as [Ha|]; [left; by do 2 right|by right]. }
  intros Hr. destruct (Hok Hr) as (temp & ti & c & Hti & ->).
  by exists di, now, encoded, temp, ti, c.
Qed.

(** C29: a publication is all or nothing and never touches an artifact that is
    there: for every environment, [Publish] succeeds exactly when the ID is
    well formed, the directory and the temporary file pass their checks and
    every step up to the directory's sync works, the encoded artifact having
    been written and synced before it got its name; it never gives a name
    other than the artifact's own, and only by a link, which does not replace
    a file.  When it succeeds the artifact is all it leaves, the temporary file
    having had another name; when it fails,
    every file it made is gone again, save one that was there when the
    operating system refused to remove it. *)
Theorem Publish_exact input t :
  let final := artifact_path s (ri_RecoveryID input) in
  (behaves (Publish s input) t (Ok tt) <-> published input t)
  /\ (behaves (Publish s input) t (Ok tt) -> final ∉ temps t -> left_behind ∅ t = {[final]})
  /\ (forall err p, behaves (Publish s input) t (Err err) -> p ∈ left_behind ∅ t -> abandoned ∅ t p)
  /\ (forall r from to, behaves (Publish s input) t r -> SLink from to ∈ calls t ->
       to = final /\ recovery_id_ok (ri_RecoveryID input) = true).
Proof.
  split_and!; [split; [|apply published_behaves]|..].
  - intros H1. by apply (Publish_behaves _ _ _ H1).
  - intros H1 Ht. apply Publish_behaves in H1 as (_ & _ & Hok).
    destruct (Hok Logic.eq_refl) as (di & now & encoded & temp & ti & c & -> & _). cbn in *. set_solver.
  - intros err p H1 Hp. apply Publish_behaves in H1 as ([_ Ht] & _). by destruct (Ht p Hp) as [|[[=] _]].
  - intros r from to H1 Hin. apply Publish_behaves in H1 as ([Ht _] & Hid & _).
    assert (Hto : to ∈ link_targets t).
    { unfold link_targets. apply list_elem_of_omap. by exists (SLink from to). }
    destruct Hid as [Hn|]; [rewrite Hn in Hto; by inversion Hto|]. set_solver.
Qed.

(** *** Reading *)

(** A whole reading. *)
Definition read_as (id : string) (t : list (event store_call)) (a : RecoveryArtifact) : Prop :=
  exists di fi data,
    t = [ ev (SLstat (rdir s)) (Some di); ev (SLstat (artifact_path s id)) (Some fi);
          ev (SReadFile (artifact_path s id) maxRecoveryArtifactBytes 63 false) (Ok data) ]
    /\ recovery_id_ok id = true /\ good_dir di /\ good_file fi
    /\ artifact_Decode data = Some (a, JsonEOF) /\ valid_artifact a id.

Lemma decode_artifact_Ok data id a :
  decode_artifact data id = Ok a <-> artifact_Decode data = Some (a, JsonEOF) /\ valid_artifact a id.
Proof.
  unfold decode_artifact. destruct (artifact_Decode data) as [[a' []]|]; try naive_solver.
  rewrite <- validateRecoveryArtifact_Ok. split.
  - intros H1. inv_ok. by destruct x.
  - intros [[= ->] H1]. by rewrite H1.
Qed.

(** An artifact is read only if it can be trusted: for every environment,
    [Read] returns an artifact exactly when the ID is well formed, the
    directory and the file are of the right kind, private, and of the expected
    owner and group, the file is no longer than the limit and holds one JSON
    value and no more, and the artifact in it names this version, this ID, a
    project and a time and carries the digest of the policy it stores. *)
Theorem Read_exact id t a :
  behaves (Read s id) t (Ok a) <-> read_as id t a.
Proof.
  unfold Read, read_as. split.
  - intros [(t1 & t2 & [] & -> & [-> Hid] & H1)|(e & _ & [=])]%behaves_and_then.
    symmetry in Hid. apply validateRecoveryID_Ok in Hid. cbn [app].
    apply behaves_and_then in H1 as [(t1 & t3 & [] & -> & H1 & H2)|(e & _ & [=])].
    apply validateRecoveryDir_behaves in H1 as (? & -> & Hd).
    symmetry in Hd. apply wrap_err_Ok, check_stat_Ok in Hd as (di & -> & Hd & _).
    apply behaves_and_then in H2 as [(t1 & t4 & [] & -> & H1 & H2)|(e & _ & [=])].
    apply validateRecoveryFile_behaves in H1 as (? & -> & Hf).
    symmetry in Hf. apply wrap_err_Ok, check_stat_Ok in Hf as (fi & -> & Hf & Hz).
    apply (behaves_call_inv (SReadFile _ _ _ _)) in H2 as (d & t5 & -> & H2).
    apply behaves_and_then in H2 as [(t1 & t6 & data & -> & [-> Hr] & [-> H2])|(e & _ & [=])].
    symmetry in Hr. apply wrap_err_Ok in Hr as ->. symmetry in H2. apply decode_artifact_Ok in H2 as [? ?].
    exists di, fi, data. split_and!; try done. split; [done|by apply Hz].
  - intros (di & fi & data & -> & Hid & Hd & [Hf Hz] & Hdec & Hv).
    eapply behaves_lift_then; [by apply validateRecoveryID_Ok|].
    eapply (behaves_then _ _ [ev (SLstat (rdir s)) (Some di)]).
    { apply validateRecoveryDir_behaves. eexists. split; [done|].
      by rewrite (proj2 (check_stat_Ok Directory 448 false (Some di))) by (by exists di). }
    eapply (behaves_then _ _ [ev (SLstat (artifact_path s id)) (Some fi)]).
    { apply validateRecoveryFile_behaves. eexists. split; [done|].
      by rewrite (proj2 (check_stat_Ok Regular 384 true (Some fi))) by (by exists fi). }
    apply (behaves_call_bind (SReadFile _ _ _ _)). eapply behaves_lift_then; [done|].
    split; [done|]. symmetry. by apply decode_artifact_Ok.
Qed.

(** *** Listing *)

Lemma read_entries_behaves names t l :
  behaves (read_entries s names) t (Ok l) ->
  exists ts, t = concat ts /\ length ts = length names
    /\ Forall2 (fun n x => exists ta a, ta ∈ ts /\ read_as n ta a /\ x = summary_of a) names l.
Proof.
  revert t l. induction names as [|n names IH]; intros t l; cbn [read_entries].
  { intros [-> [= ->]]. exists []. split_and!; [done|done|constructor]. }
  intros [(t1 & t2 & [] & -> & [-> _] & H1)|(e & _ & [=])]%behaves_and_then. cbn [app].
  apply (proj1 (behaves_bind _ _ _ _)) in H1 as (t1 & t3 & ra & -> & H1 & H2).
  apply behaves_and_then in H2 as [(t4 & t5 & a & -> & [-> Hr] & H2)|(e & _ & [=])].
  symmetry in Hr. apply wrap_err_Ok in Hr as ->. apply Read_exact in H1.
  apply behaves_and_then in H2 as [(t6 & t7 & rest & -> & H2 & [-> [= ->]])|(e & _ & [=])].
  apply IH in H2 as (ts & -> & Hlen & Hall). exists (t1 :: ts). cbn. rewrite app_nil_r.
  split_and!; [done|by rewrite Hlen|]. constructor.
  - exists t1, a. split_and!; [by left|done|done].
  - eapply Forall2_impl; [exact Hall|]. cbn. intros ? ? (ta & a' & Hin & ? & ?).
    exists ta, a'. split_and!; [by right|done|done].
Qed.

(** The listing shows every artifact once, oldest first: when [List]
    succeeds, every name in the directory is a recovery ID, each artifact was
    read with all the checks of [Read], and the result is the only ordering of
    their summaries by creation time and then by ID; one entry that fails its
    checks fails the listing. *)
Theorem List_exact t l :
  behaves (List s) t (Ok l) ->
  exists di names ts l',
    t = ev (SLstat (rdir s)) (Some di) :: ev (SReadDir (rdir s)) (Some names) :: concat ts
    /\ good_dir di
    /\ Forall2 (fun n x => recovery_id_ok n = true /\ rs_RecoveryID x = n
          /\ exists ta a, ta ∈ ts /\ read_as n ta a /\ x = summary_of a) names l'
    /\ (NoDup names -> NoDup l /\ forall l0,
         l0 ≡ₚ l' /\ StronglySorted (KeyOrder.by_key rs_CreatedAt rs_RecoveryID) l0 <-> l0 = l).
Proof.
  unfold List. intros [(t1 & t2 & [] & -> & H1 & H2)|(e & _ & [=])]%behaves_and_then.
  apply validateRecoveryDir_behaves in H1 as (? & -> & Hd).
  symmetry in Hd. apply wrap_err_Ok, check_stat_Ok in Hd as (di & -> & Hd & _).
  apply (behaves_call_inv (SReadDir _)) in H2 as (o & t3 & -> & H2).
  destruct o as [names|]; [|by destruct H2].
  apply behaves_and_then in H2 as [(t4 & t5 & l' & -> & H2 & [-> [= ->]])|(e & _ & [=])].
  apply read_entries_behaves in H2 as (ts & -> & _ & Hall). rewrite app_nil_r.
  assert (Hall' : Forall2 (fun n x => recovery_id_ok n = true /\ rs_RecoveryID x = n
          /\ exists ta a, ta ∈ ts /\ read_as n ta a /\ x = summary_of a) names l').
  { eapply Forall2_impl; [exact Hall|]. cbn. intros n x (ta & a & Hin & Hr & ->).
    pose proof Hr as (? & ? & ? & _ & Hid & _ & _ & _ & Hv).
    split_and!; [done|apply Hv|by exists ta, a]. }
  exists di, names, ts, l'. split_and!; [done|done|done|]. intros Hnd.
  assert (Hids : rs_RecoveryID <$> l' = names).
  { clear -Hall'. induction Hall' as [|n x names l' (_ & E & _) _ IH]; [done|]. cbn. by rewrite E, IH. }
  split.
  - rewrite Slice_Permutation. apply (NoDup_fmap_1 rs_RecoveryID). by rewrite Hids.
  - intros l0. apply (KeyOrder.Slice_unique rs_CreatedAt rs_RecoveryID). intros a b Ha Hb E.
    rewrite <- Hids in Hnd. apply list_elem_of_lookup_1 in Ha as [i Hi], Hb as [j Hj].
    assert (i = j); [|congruence].
    eapply NoDup_lookup; [exact Hnd| |]; rewrite list_lookup_fmap; [by rewrite Hi|by rewrite Hj, E].
Qed.

End Spec.

(** ** A witness *)

Definition demo_store : RecoveryStore := mkRecoveryStore "/r" 0 0.

Definition demo_input : RecoveryArtifactInput :=
  mkRecoveryArtifactInput "00112233445566778899aabbccddeeff" "p" "before" "after".

(** A full disk that goes read-only: a file is made, then neither filled nor
    removed. *)
Definition stuck_disk : handler store_call unit := fun c u =>
  match c return answer c * unit with
  | SNow => (0, u)
  | SLstat p => (Some (if String.eqb p "/r" then mkStat Directory 448 0 0 0 else mkStat Regular 384 0 0 0), u)
  | SCreateTemp _ _ => (Some "/r/tmp", u)
  | SChmod _ => (true, u)
  | SWrite _ => (Some 3, u)
  | SSync => (true, u)
  | SClose => (true, u)
  | SLink _ _ => (LinkOk, u)
  | SRemove _ => (false, u)
  | SOpenDir _ => (true, u)
  | SSyncDir => (true, u)
  | SCloseDir => (tt, u)
  | SReadDir _ => (None, u)
  | SReadFile _ _ _ _ => (Err (ENotRegular "x"), u)
  end.

Lemma Publish_exact_witness :
  exists t, behaves (Publish demo_store demo_input) t (Err RWriting) /\ abandoned ∅ t "/r/tmp".
Proof.
  exists (trace_of stuck_disk (Publish demo_store demo_input) tt).
  assert (H : behaves (Publish demo_store demo_input)
                (trace_of stuck_disk (Publish demo_store demo_input) tt) (Err RWriting)).
  { replace (Err RWriting) with (result_of stuck_disk (Publish demo_store demo_input) tt) by (vm_compute; reflexivity).
    apply run_behaves. }
  split; [exact H|].
  apply (proj1 (proj2 (proj2 (Publish_exact demo_store demo_input _))) _ _ H).
  apply (bool_decide_unpack _). vm_compute. reflexivity.
Defined.
