(* ===== verification/PolicyText.v ===== *)
(** * PolicyText: editing policy.toml as text (internal/admin/policy.go)

    The administrator's edits keep the file's comments and layout: they find
    the project's block and the lines in it with regular expressions, and cut
    or insert bytes.  None of the expressions can match a line feed and each
    is anchored at both ends of a line ([(?m)^...$]), so a match is a whole
    line: an expression is modelled as a test of a line, and [FindAll] gives
    the lines that pass, as byte offsets. *)

From stdpp Require Import sorting.
From S2P Require Import Prelude GoStrings GoText GoJson Config.

#[local] Open Scope nat_scope.

(** ** The expressions *)

(** Past any tabs and spaces. *)
Fixpoint skip_blanks (s : string) : string :=
  match s with
  | String c s' => if Ascii.eqb c TAB || Ascii.eqb c " " then skip_blanks s' else s
  | EmptyString => EmptyString
  end.

(** Any bytes to the end of a line, a CR only as the last. *)
Fixpoint no_CR_but_last (s : string) : bool :=
  match s with
  | EmptyString => true
  | String c s' => if Ascii.eqb c CR then String.eqb s' "" else no_CR_but_last s'
  end.

(** The end of a line after a value: blanks, then perhaps a comment, then
    perhaps a CR. *)
Definition comment_to_end (s : string) : bool :=
  match skip_blanks s with
  | EmptyString => true
  | String c s' =>
      if Ascii.eqb c "#" then no_CR_but_last s' else Ascii.eqb c CR && String.eqb s' ""
  end.

(** [projectHeaderPattern] and [allowHeaderPattern] *)
Definition header_line (header line : string) : bool :=
  let s := skip_blanks line in
  Strings.HasPrefix s header && comment_to_end (Strings.drop (String.length header) s).

Definition projectHeader : string := "[[projects]]".
Definition allowHeader : string := "[[projects.allow]]".
Definition projectHeaderPattern : string -> bool := header_line projectHeader.
Definition allowHeaderPattern : string -> bool := header_line allowHeader.

(** [argvPattern] *)
Definition argvPattern (line : string) : bool :=
  let s := skip_blanks line in
  Strings.HasPrefix s "argv"
  && (let t := skip_blanks (Strings.drop 4 s) in
      Strings.HasPrefix t "=" && no_CR_but_last (Strings.drop 1 t)).

(** The bytes of a basic string (double quotes, a backslash taking the next
    byte with it) and of a literal string (single quotes) after the opening
    quote, the closing quote counted. *)
Fixpoint scan_basic (s : string) : option nat :=
  match s with
  | EmptyString => None
  | String c s' =>
      if Ascii.eqb c dquote then Some 1
      else if Ascii.eqb c backslash then
        match s' with
        | EmptyString => None
        | String _ s'' => n ← scan_basic s''; Some (2 + n)
        end
      else if Ascii.eqb c CR then None
      else n ← scan_basic s'; Some (1 + n)
  end.

Fixpoint scan_literal (s : string) : option nat :=
  match s with
  | EmptyString => None
  | String c s' =>
      if Ascii.eqb c squote then Some 1
      else if Ascii.eqb c CR then None
      else n ← scan_literal s'; Some (1 + n)
  end.

(** [approvalPattern], and the expression of [replaceProjectField]: the
    offsets of the value in the line, from the end of the first group to the
    start of the second. *)
Definition field_value (field line : string) : option (nat * nat) :=
  let s := skip_blanks line in
  if negb (Strings.HasPrefix s field) then None else
  let t := skip_blanks (Strings.drop (String.length field) s) in
  if negb (Strings.HasPrefix t "=") then None else
  let v := skip_blanks (Strings.drop 1 t) in
  match v with
  | EmptyString => None
  | String c v' =>
      n ← (if Ascii.eqb c dquote then scan_basic v'
           else if Ascii.eqb c squote then scan_literal v' else None);
      if comment_to_end (Strings.drop n v') then
        let start := String.length line - String.length v in Some (start, start + 1 + n)
      else None
  end.

(** ** Lines and matches *)

Fixpoint lines_at (off : nat) (ls : list string) : list (nat * string) :=
  match ls with
  | [] => []
  | l :: ls' => (off, l) :: lines_at (off + String.length l + 1) ls'
  end.

Definition Lines (data : string) : list (nat * string) := lines_at 0 (Strings.Split data LF).

(** [pattern.FindAllIndex(data, -1)] *)
Definition FindAll (p : string -> bool) (data : string) : list (nat * nat) :=
  omap (fun ol => if p ol.2 then Some (ol.1, ol.1 + String.length ol.2) else None) (Lines data).

(** The value offsets of [pattern.FindAllSubmatchIndex(data, -1)] *)
Definition FindAllValue (field data : string) : list (nat * nat) :=
  omap (fun ol => '(a, b) ← field_value field ol.2; Some (ol.1 + a, ol.1 + b)) (Lines data).

(** [data[a:b]], and [data] with [data[a:b]] replaced. *)
Definition slice (data : string) (a b : nat) : string := Strings.take (b - a) (Strings.drop a data).
Definition splice (data : string) (a b : nat) (new : string) : string :=
  Strings.take a data +:+ new +:+ Strings.drop b data.

(** ** Operations *)

Inductive text_error : Type :=
| EProjectBlocks            (** not one [[[projects]]] block per project *)
| EProjectOutside
| EApprovalTwice
| EFieldNotSingle (field : string)
| EAllowBlocks              (** not one [[[projects.allow]]] block per entry *)
| EAllowOutside
| EArgvNotSingle
| ESpansOverlap.

Definition CRLF : string := String CR (str1 LF).

(** The newline of the file: CRLF if it holds one. *)
Definition newline_of (data : string) : string :=
  if Strings.Contains data CRLF then CRLF else str1 LF.

(** The byte before [index] is there and is no line feed. *)
Definition not_after_LF (data : string) (index : nat) : bool :=
  (0 <? index) && negb (String.eqb (slice data (index - 1) index) (str1 LF)).

Definition appendProject (data : string) (p : Project) : string :=
  let nl := newline_of data in
  let updated :=
    if (0 <? String.length data) && negb (Strings.HasSuffix data nl) then data +:+ nl else data in
  let updated :=
    if (0 <? String.length updated) && negb (Strings.HasSuffix updated (nl +:+ nl))
    then updated +:+ nl else updated in
  let lines :=
    [ projectHeader;
      "alias = " +:+ Json.encode_string (Alias p);
      "bws_project_id = " +:+ Json.encode_string (BWSProjectID p);
      "token_entry = " +:+ Json.encode_string (TokenEntry p);
      "working_dir = " +:+ Json.encode_string (WorkingDir p);
      dq ("approval = `" +:+ ApprovalAllowlistedPrompt +:+ "`") ] in
  updated +:+ Strings.Join lines nl +:+ nl.

Definition projectBlockBounds (data : string) (projectCount projectIndex : nat)
    : result text_error (nat * nat) :=
  let headers := FindAll projectHeaderPattern data in
  fail_if negb (length headers =? projectCount) with EProjectBlocks;
  match headers !! projectIndex with
  | None => Err EProjectOutside
  | Some h =>
      let end_ := match headers !! S projectIndex with
                  | Some h' => h'.1
                  | None => String.length data
                  end in
      Ok (h.2, end_)
  end.

Definition removeProjectSpan (data : string) (projectCount projectIndex : nat)
    : result text_error string :=
  let headers := FindAll projectHeaderPattern data in
  fail_if negb (length headers =? projectCount) with EProjectBlocks;
  match headers !! projectIndex with
  | None => Err EProjectOutside
  | Some h =>
      let end_ := match headers !! S projectIndex with
                  | Some h' => h'.1
                  | None => String.length data
                  end in
      Ok (splice data h.1 end_ "")
  end.

Definition replaceApproval (data : string) (projectCount projectIndex : nat) (approval : string)
    : result text_error string :=
  '(start, end_) ← projectBlockBounds data projectCount projectIndex;
  let block := slice data start end_ in
  let quoted := String dquote (approval +:+ str1 dquote) in
  match FindAllValue "approval" block with
  | [(a, b)] => Ok (splice data (start + a) (start + b) quoted)
  | _ :: _ :: _ => Err EApprovalTwice
  | [] =>
      let insertAt :=
        match FindAll allowHeaderPattern block with h :: _ => start + h.1 | [] => end_ end in
      let nl := newline_of data in
      let line := "approval = " +:+ quoted +:+ nl in
      let line := if not_after_LF data insertAt then nl +:+ line else line in
      Ok (splice data insertAt insertAt line)
  end.

Definition replaceProjectField (data : string) (projectCount projectIndex : nat)
    (field value : string) : result text_error string :=
  '(start, end_) ← projectBlockBounds data projectCount projectIndex;
  match FindAllValue field (slice data start end_) with
  | [(a, b)] => Ok (splice data (start + a) (start + b) (Json.encode_string value))
  | _ => Err (EFieldNotSingle field)
  end.

(** The two lines of an allowlist entry. *)
Definition allow_entry (nl : string) (argv : list string) : string :=
  "  " +:+ allowHeader +:+ nl +:+ "  argv = " +:+ Json.encode_strings argv +:+ nl.

Definition insertAllowEntry (data : string) (projectCount projectIndex allowCount : nat)
    (argv : list string) : result text_error string :=
  '(start, end_) ← projectBlockBounds data projectCount projectIndex;
  fail_if negb (length (FindAll allowHeaderPattern (slice data start end_)) =? allowCount)
    with EAllowBlocks;
  let nl := newline_of data in
  Ok (splice data end_ end_
        ((if not_after_LF data end_ then nl else "") +:+ allow_entry nl argv)).

Definition consumeNewline (data : string) (index : nat) : nat :=
  if String.eqb (slice data index (S index)) (str1 LF) then S index else index.

(** The loop of [removeAllowEntries] over the selected indices. *)
Fixpoint entry_spans (data : string) (start : nat) (block : string) (headers : list (nat * nat))
    (remove : list nat) : result text_error (list (nat * nat)) :=
  match remove with
  | [] => Ok []
  | index :: remove' =>
      match headers !! index with
      | None => Err EAllowOutside
      | Some h =>
          let sectionEnd :=
            match headers !! S index with Some h' => h'.1 | None => String.length block end in
          let sectionStart := h.2 in
          match FindAll argvPattern (slice block sectionStart sectionEnd) with
          | [m] =>
              spans ← entry_spans data start block headers remove';
              Ok ((start + h.1, consumeNewline data (start + h.2))
                  :: (start + sectionStart + m.1, consumeNewline data (start + sectionStart + m.2))
                  :: spans)
          | _ => Err EArgvNotSingle
          end
      end
  end.

(** The loop that copies what lies between the spans. *)
Fixpoint cut_spans (data : string) (cursor : nat) (spans : list (nat * nat))
    : result text_error string :=
  match spans with
  | [] => Ok (Strings.drop cursor data)
  | (a, b) :: spans' =>
      fail_if a <? cursor with ESpansOverlap;
      rest ← cut_spans data b spans';
      Ok (slice data cursor a +:+ rest)
  end.

Definition removeAllowEntries (data : string) (projectCount projectIndex allowCount : nat)
    (remove : list nat) : result text_error string :=
  '(start, end_) ← projectBlockBounds data projectCount projectIndex;
  let block := slice data start end_ in
  let allowHeaders := FindAll allowHeaderPattern block in
  fail_if negb (length allowHeaders =? allowCount) with EAllowBlocks;
  spans ← entry_spans data start block allowHeaders remove;
  cut_spans data 0 spans.

(** ** Lines of a text *)

Definition shift (n : nat) (m : nat * nat) : nat * nat := (n + m.1, n + m.2).

Lemma Split_app a b : Strings.Split (a +:+ String LF b) LF = Strings.Split a LF ++ Strings.Split b LF.
Proof.
  induction a as [|c a IH]; [done|]. cbn [String.append Strings.Split]. rewrite IH.
  destruct (Ascii.eqb c LF); [done|].
  pose proof (Strings.Split_nonempty a LF). by destruct (Strings.Split a LF).
Qed.

Definition lines_length (ls : list string) : nat := foldr (fun l n => String.length l + 1 + n) 0 ls.

Lemma lines_length_Split s : lines_length (Strings.Split s LF) = S (String.length s).
Proof.
  induction s as [|c s IH]; [done|]. cbn [Strings.Split].
  destruct (Ascii.eqb c LF); simpl; [by rewrite IH|].
  pose proof (Strings.Split_nonempty s LF). destruct (Strings.Split s LF); [done|].
  simpl in *. lia.
Qed.

Lemma lines_at_app off l1 l2 :
  lines_at off (l1 ++ l2) = lines_at off l1 ++ lines_at (off + lines_length l1) l2.
Proof.
  revert off. induction l1 as [|l l1 IH]; intros off; simpl; [by rewrite Nat.add_0_r|].
  rewrite IH. do 3 f_equal. lia.
Qed.

Lemma lines_at_shift off ls : lines_at off ls = map (fun ol => (off + ol.1, ol.2)) (lines_at 0 ls).
Proof.
  assert (H : forall a, lines_at (off + a) ls = map (fun ol => (off + ol.1, ol.2)) (lines_at a ls)).
  { induction ls as [|l ls IH]; intros a; simpl; [done|]. by rewrite <- IH, !Nat.add_assoc. }
  by rewrite <- H, Nat.add_0_r.
Qed.

Lemma Lines_app a b :
  Lines (a +:+ String LF b) = Lines a ++ map (fun ol => (S (String.length a) + ol.1, ol.2)) (Lines b).
Proof.
  unfold Lines. rewrite Split_app, lines_at_app, lines_length_Split. by rewrite (lines_at_shift (0 + _)).
Qed.

Lemma omap_map {A B C} (f : A -> B) (g : B -> option C) l : omap g (map f l) = omap (g ∘ f) l.
Proof. induction l as [|x l IH]; [done|]. cbn. by rewrite IH. Qed.

Lemma map_omap {A B C} (f : A -> option B) (g : B -> C) l :
  map g (omap f l) = omap (fun x => g <$> f x) l.
Proof. induction l as [|x l IH]; [done|]. cbn. destruct (f x); cbn; by rewrite IH. Qed.

Lemma FindAll_app p a b :
  FindAll p (a +:+ String LF b) = FindAll p a ++ map (shift (S (String.length a))) (FindAll p b).
Proof.
  unfold FindAll. rewrite Lines_app, omap_app, omap_map, map_omap. f_equal.
  apply list_omap_ext, Forall_Forall2_diag, Forall_forall. intros [o l] _. simpl.
  destruct (p l); [|done]. simpl. unfold shift. simpl. do 2 f_equal. lia.
Qed.

Definition no_LF (s : string) : Prop := Strings.Split s LF = [s].

Lemma no_LF_spec s : all_bytes (fun c => negb (Ascii.eqb c LF)) s = true -> no_LF s.
Proof.
  unfold no_LF. induction s as [|c s IH]; [done|]. cbn [all_bytes Strings.Split].
  intros [->%negb_true_iff H]%andb_true_iff. by rewrite IH.
Qed.

Lemma FindAll_line p l : no_LF l -> FindAll p l = if p l then [(0, String.length l)] else [].
Proof. unfold FindAll, Lines. intros ->. simpl. by destruct (p l). Qed.

(** A match of a line pattern: where it stands and what is around it. *)
Record line_match (p : string -> bool) (data : string) (m : nat * nat) : Prop := {
  lm_order : m.1 <= m.2;
  lm_bound : m.2 <= String.length data;
  lm_line : p (slice data m.1 m.2) = true;
  lm_no_LF : no_LF (slice data m.1 m.2);
}.

Lemma slice_app a v b : slice (a +:+ v +:+ b) (String.length a) (String.length a + String.length v) = v.
Proof.
  unfold slice. rewrite Strings.drop_app_length.
  replace (_ + _ - _) with (String.length v) by lia. apply take_app_length.
Qed.

Lemma lines_at_elem off ls o l :
  (o, l) ∈ lines_at off ls <-> exists l1 l2, ls = l1 ++ l :: l2 /\ o = off + lines_length l1.
Proof.
  revert off. induction ls as [|x ls IH]; intros off; simpl.
  { split; [by intros ?%elem_of_nil|]. intros ([] & ? & ? & _); done. }
  rewrite elem_of_cons, IH. split.
  - intros [[= -> ->]|(l1 & l2 & -> & ->)]; [by exists [], ls; simpl; auto with lia|].
    exists (x :: l1), l2. split; [done|]. simpl. lia.
  - intros ([|y l1] & l2 & [= -> ->] & ->); simpl; [left; f_equal; lia|].
    right. exists l1, l2. split; [done|]. lia.
Qed.

(** The text before a line, and from the end of it. *)
Lemma Join_split l1 l l2 :
  exists a b, Strings.Join (l1 ++ l :: l2) (str1 LF) = a +:+ l +:+ b /\ String.length a = lines_length l1
    /\ (b = "" \/ exists b', b = String LF b').
Proof.
  induction l1 as [|x l1 (a & b & H & Ha & Hb)].
  - exists "". destruct l2 as [|y l2]; simpl.
    + exists "". rewrite append_empty_r. auto.
    + eexists (String LF _). split_and!; [done|done|right; by eexists].
  - exists (x +:+ String LF a), b. split_and!; [|rewrite length_append; simpl; lia|done].
    destruct l1; simpl in *; rewrite H, ?append_assoc; done.
Qed.

Lemma Split_no_LF s : Forall no_LF (Strings.Split s LF).
Proof.
  induction s as [|c s IH]; simpl; [by repeat constructor|].
  destruct (Ascii.eqb_spec c LF) as [->|Hc]; [by constructor|].
  pose proof (Strings.Split_nonempty s LF). destruct (Strings.Split s LF) as [|w ws]; [done|].
  inversion IH as [|? ? Hw Hws]; subst. constructor; [|done].
  unfold no_LF in *. simpl. apply Ascii.eqb_neq in Hc. by rewrite Hc, Hw.
Qed.

Lemma FindAll_elem p data m :
  m ∈ FindAll p data ->
  line_match p data m
  /\ (m.2 = String.length data \/ slice data m.2 (S m.2) = str1 LF).
Proof.
  unfold FindAll, Lines. intros ([o l] & Hin & Hm)%list_elem_of_omap.
  apply lines_at_elem in Hin as (l1 & l2 & Hs & ->). simpl in Hm.
  destruct (p l) eqn:Hp; [|done]. injection Hm as <-. simpl.
  destruct (Join_split l1 l l2) as (a & b & Hj & <- & Hb). rewrite <- Hs, Strings.Join_Split in Hj.
  pose proof (Split_no_LF data) as Hl. rewrite Hs, Forall_app, Forall_cons in Hl.
  subst data. split.
  - constructor; simpl; rewrite ?length_append; [lia|lia| |]; rewrite slice_app; tauto.
  - rewrite !length_append. destruct Hb as [->|(b' & ->)]; [left; simpl; lia|right].
    unfold slice. rewrite <- append_assoc, drop_app_ge by (rewrite length_append; lia).
    rewrite length_append, Nat.sub_diag. simpl. by replace (S _ - _) with 1 by lia.
Qed.

(** The matches of a pattern come in order and do not touch. *)
Lemma FindAll_sorted p data : StronglySorted (fun m m' => m.2 < m'.1) (FindAll p data).
Proof.
  unfold FindAll, Lines. generalize 0, (Strings.Split data LF). intros off ls. revert off.
  induction ls as [|l ls IH]; intros off; cbn [lines_at omap list_omap]; [constructor|]. simpl.
  destruct (p l); [|apply IH]. constructor; [apply IH|]. apply Forall_forall.
  intros m ([o l'] & Hin & Hm)%list_elem_of_omap. apply lines_at_elem in Hin as (l1 & l2 & _ & ->).
  simpl in Hm. destruct (p l'); [|done]. injection Hm as <-. simpl. lia.
Qed.

Lemma FindAll_lookup_lt p data i j m m' :
  FindAll p data !! i = Some m -> FindAll p data !! j = Some m' -> i < j -> m.2 < m'.1.
Proof.
  generalize (FindAll_sorted p data). generalize (FindAll p data). intros l Hs. revert i j.
  induction Hs as [|x l Hs IH Hx]; intros [|i] [|j]; simpl; try done; try lia.
  - intros [= ->] Hj _. rewrite Forall_forall in Hx. by eapply Hx, list_elem_of_lookup_2.
  - intros Hi Hj Hlt. apply (IH i j Hi Hj). lia.
Qed.

(** ** The selected block *)

Lemma head_in {A} (l : list A) x r : l = x :: r -> x ∈ l.
Proof. intros ->. left. Qed.

Lemma bounds_Ok data n i start end_ :
  projectBlockBounds data n i = Ok (start, end_) ->
  let headers := FindAll projectHeaderPattern data in
  exists h, length headers = n /\ headers !! i = Some h /\ start = h.2
    /\ end_ = match headers !! S i with Some h' => h'.1 | None => String.length data end
    /\ start <= end_ <= String.length data.
Proof.
  unfold projectBlockBounds. intros H. inv_ok. boolP. apply Nat.eqb_eq in H0.
  destruct (FindAll projectHeaderPattern data !! i) as [h|] eqn:Eh; [|done].
  injection H as <- <-. exists h. split_and!; try done.
  - pose proof (FindAll_elem _ _ _ (list_elem_of_lookup_2 _ _ _ Eh)) as [[]  _].
    destruct (_ !! S i) as [h'|] eqn:Eh'; [|done].
    pose proof (FindAll_lookup_lt _ _ _ _ _ _ Eh Eh' ltac:(lia)). lia.
  - destruct (_ !! S i) as [h'|] eqn:Eh'; [|done].
    pose proof (FindAll_elem _ _ _ (list_elem_of_lookup_2 _ _ _ Eh')) as [[]  _]. lia.
Qed.

(** [updated] is [data] with only bytes between [lo] and [hi] changed. *)
Definition edits_inside (data : string) (lo hi : nat) (updated : string) : Prop :=
  exists v, updated = Strings.take lo data +:+ v +:+ Strings.drop hi data.

Lemma take_split a b s : a <= b -> Strings.take b s = Strings.take a s +:+ slice s a b.
Proof.
  unfold slice. revert b s. induction a as [|a IH]; intros b s H.
  - rewrite Nat.sub_0_r. destruct s; reflexivity.
  - destruct b as [|b]; [lia|]. destruct s as [|c s]; [simpl; by destruct (b - a)|].
    simpl. f_equal. apply IH. lia.
Qed.

Lemma drop_split a b s : a <= b -> Strings.drop a s = slice s a b +:+ Strings.drop b s.
Proof.
  unfold slice. intros H. replace b with (a + (b - a)) at 2 by lia. rewrite <- drop_drop.
  by rewrite Strings.take_drop.
Qed.

Lemma slice_split s a m b : a <= m <= b -> slice s a b = slice s a m +:+ slice s m b.
Proof.
  intros. unfold slice at 1 2. rewrite (take_split (m - a) (b - a)) by lia. f_equal.
  unfold slice. rewrite drop_drop. f_equal; [lia|f_equal; lia].
Qed.

Lemma splice_inside data lo a b hi new :
  lo <= a <= b -> b <= hi -> edits_inside data lo hi (splice data a b new).
Proof.
  intros. unfold splice. exists (slice data lo a +:+ new +:+ slice data b hi).
  rewrite (take_split lo a), (drop_split b hi) by lia. by rewrite !append_assoc.
Qed.

Lemma slice_length data a b : b <= String.length data -> a <= b -> String.length (slice data a b) = b - a.
Proof. intros. unfold slice. rewrite length_take, length_drop. lia. Qed.

Lemma FindAll_block p data start end_ m :
  start <= end_ <= String.length data -> m ∈ FindAll p (slice data start end_) ->
  start <= start + m.1 <= start + m.2 /\ start + m.2 <= end_.
Proof.
  intros H [[] _]%FindAll_elem. rewrite slice_length in * by lia. lia.
Qed.

Lemma length_skip_blanks s : String.length (skip_blanks s) <= String.length s.
Proof. induction s as [|c s IH]; simpl; [done|]. case_match; simpl; lia. Qed.

Lemma scan_basic_bound s n : scan_basic s = Some n -> n <= String.length s.
Proof.
  enough (H : forall k s n, String.length s <= k -> scan_basic s = Some n -> n <= String.length s)
    by (intros; by apply (H (String.length s))).
  clear. induction k as [|k IH]; intros [|c s] n Hk; simpl in *; try done; try lia.
  destruct (Ascii.eqb c dquote); [intros [= <-]; lia|].
  destruct (Ascii.eqb c backslash).
  - destruct s as [|d s]; [done|]. simpl in Hk. destruct (scan_basic s) as [x|] eqn:E; [|done].
    intros [= <-]. apply IH in E; simpl; lia.
  - destruct (Ascii.eqb c CR); [done|]. destruct (scan_basic s) as [x|] eqn:E; [|done].
    intros [= <-]. apply IH in E; lia.
Qed.

Lemma scan_literal_bound s n : scan_literal s = Some n -> n <= String.length s.
Proof.
  revert n. induction s as [|c s IH]; intros n; simpl; [done|].
  case_match; [intros [= <-]; lia|]. case_match; [done|].
  destruct (scan_literal s) as [x|]; [|done]. intros [= <-]. specialize (IH x eq_refl). lia.
Qed.

Lemma field_value_bound field l a b : field_value field l = Some (a, b) -> a <= b <= String.length l.
Proof.
  unfold field_value. case_match; [done|]. case_match; [done|].
  set (v := skip_blanks (Strings.drop 1 _)).
  assert (Hv : String.length v <= String.length l).
  { unfold v. etransitivity; [apply length_skip_blanks|]. rewrite length_drop.
    etransitivity; [apply Nat.le_sub_l|]. etransitivity; [apply length_skip_blanks|].
    rewrite length_drop. etransitivity; [apply Nat.le_sub_l|]. apply length_skip_blanks. }
  clearbody v. destruct v as [|c v]; [done|]. simpl in Hv.
  destruct (if Ascii.eqb c dquote then _ else _) as [n|] eqn:En; [|done]. simpl.
  assert (n <= String.length v).
  { destruct (Ascii.eqb c dquote); [by apply scan_basic_bound|].
    destruct (Ascii.eqb c squote); [by apply scan_literal_bound|done]. }
  destruct (comment_to_end _); [|done]. intros [= <- <-]. simpl. lia.
Qed.

Lemma FindAllValue_block field data start end_ m :
  start <= end_ <= String.length data -> m ∈ FindAllValue field (slice data start end_) ->
  start <= start + m.1 <= start + m.2 /\ start + m.2 <= end_.
Proof.
  intros H. unfold FindAllValue, Lines. intros ([o l] & Hin & Hm)%list_elem_of_omap.
  apply lines_at_elem in Hin as (l1 & l2 & Hs & ->). simpl in Hm.
  destruct (field_value field l) as [[a b]|] eqn:E; [|done]. injection Hm as <-. simpl.
  apply field_value_bound in E.
  destruct (Join_split l1 l l2) as (p & q & Hj & <- & _). rewrite <- Hs, Strings.Join_Split in Hj.
  apply (f_equal String.length) in Hj. rewrite slice_length, !length_append in Hj by lia. lia.
Qed.

Lemma consumeNewline_bound data i j :
  (i = j -> j = String.length data \/ slice data i (S i) <> str1 LF) -> i <= j ->
  i <= consumeNewline data i <= j.
Proof.
  intros Hj Hi. unfold consumeNewline. destruct (String.eqb_spec (slice data i (S i)) (str1 LF)) as [E|E]; [|lia].
  destruct (decide (i = j)) as [->|]; [|lia]. destruct (Hj eq_refl) as [->|]; [|done].
  unfold slice in E. rewrite drop_all in E. by destruct (S _ - _).
Qed.

(** What the loop that copies leaves: the text before and after the spans. *)
Lemma cut_spans_inside data lo hi c spans out :
  Forall (fun s => lo <= s.1 <= s.2 /\ s.2 <= hi) spans -> c <= hi -> lo <= hi ->
  cut_spans data c spans = Ok out ->
  exists v, out = slice data c (Nat.max c lo) +:+ v +:+ Strings.drop hi data.
Proof.
  intros Hs. revert c out. induction Hs as [|[a b] spans [Hab Hb] Hs IH]; intros c out Hc Hlo; simpl.
  - intros [= <-]. exists (slice data (Nat.max c lo) hi).
    rewrite (drop_split c (Nat.max c lo)), (drop_split (Nat.max c lo) hi) by lia. done.
  - simpl in *. intros H. inv_ok. boolP. destruct (IH _ _ Hb Hlo H1) as (v & ->).
    exists (slice data (Nat.max c lo) a +:+ v).
    rewrite (Nat.max_l b lo) by lia. unfold slice at 2. rewrite Nat.sub_diag. simpl.
    rewrite (slice_split data c (Nat.max c lo) a) by lia. by rewrite !append_assoc.
Qed.

(** A block ends at the end of the text or before a header, never at a line feed. *)
Lemma header_not_LF data m :
  m ∈ FindAll projectHeaderPattern data -> slice data m.1 (S m.1) <> str1 LF.
Proof.
  intros [[Ho _ Hl] _]%FindAll_elem E.
  destruct (decide (m.1 = m.2)) as [Hm|Hm].
  - unfold slice in Hl. by rewrite Hm, Nat.sub_diag in Hl.
  - rewrite (slice_split data m.1 (S m.1) m.2) in Hl by lia. by rewrite E in Hl.
Qed.

Lemma bounds_end data n i start end_ :
  projectBlockBounds data n i = Ok (start, end_) ->
  end_ = String.length data \/ slice data end_ (S end_) <> str1 LF.
Proof.
  intros (h & _ & _ & _ & -> & _)%bounds_Ok. destruct (_ !! S i) as [h'|] eqn:E; [right|by left].
  by eapply header_not_LF, list_elem_of_lookup_2.
Qed.

(** Every span lies in the block. *)
Lemma entry_spans_inside data start end_ headers remove spans :
  let block := slice data start end_ in
  start <= end_ <= String.length data ->
  end_ = String.length data \/ slice data end_ (S end_) <> str1 LF ->
  headers = FindAll allowHeaderPattern block ->
  entry_spans data start block headers remove = Ok spans ->
  Forall (fun s => start <= s.1 <= s.2 /\ s.2 <= end_) spans.
Proof.
  intros block Hb He ->. revert spans. induction remove as [|i remove IH]; intros spans; simpl.
  { intros [= <-]. constructor. }
  destruct (FindAll allowHeaderPattern block !! i) as [h|] eqn:Eh; [|done].
  apply list_elem_of_lookup_2 in Eh as Hh. apply FindAll_block in Hh; [|done].
  set (e := match _ !! S i with Some h' => h'.1 | None => _ end).
  assert (Hlen : String.length block = end_ - start) by (apply slice_length; lia).
  assert (Hs : h.2 <= e <= String.length block).
  { unfold e. destruct (_ !! S i) as [h'|] eqn:Eh'; [|lia].
    pose proof (FindAll_lookup_lt _ _ _ _ _ _ Eh Eh' ltac:(lia)).
    apply list_elem_of_lookup_2, FindAll_block in Eh'; [lia|done]. }
  clearbody e. destruct (FindAll argvPattern _) as [|m [|]] eqn:Em; [done| |done].
  apply head_in, FindAll_block in Em; [|done]. intros H. inv_ok.
  assert (Hc : forall k, start + k <= end_ -> start + k <= consumeNewline data (start + k) <= end_).
  { intros k Hk. apply consumeNewline_bound; [|done]. intros ->. done. }
  constructor; [|constructor; [|by apply IH]]; simpl.
  - specialize (Hc h.2). lia.
  - specialize (Hc (h.2 + m.2)). rewrite Nat.add_assoc in Hc. lia.
Qed.

(** ** Properties *)

(** The edits of a project's block. *)
Inductive block_edit (data : string) (n i : nat) (updated : string) : Prop :=
| BE_approval approval : replaceApproval data n i approval = Ok updated -> block_edit data n i updated
| BE_field field value : replaceProjectField data n i field value = Ok updated -> block_edit data n i updated
| BE_insert k argv : insertAllowEntry data n i k argv = Ok updated -> block_edit data n i updated
| BE_remove k remove : removeAllowEntries data n i k remove = Ok updated -> block_edit data n i updated.

(** ** Round trips *)

(** Compare texts written as concatenations, and their lengths. *)
Ltac text_eq := repeat (rewrite append_assoc; cbn [String.append str1]); reflexivity.
Ltac text_len := repeat (rewrite length_append; cbn [String.length str1]); lia.

(** The newline of the file ends a line with at most a CR more. *)
Definition cr_of (nl : string) : string := if String.eqb nl CRLF then str1 CR else "".

Lemma newline_of_spec data : newline_of data = cr_of (newline_of data) +:+ str1 LF.
Proof. unfold newline_of. by destruct (Strings.Contains data CRLF). Qed.

Definition plain_line (s : string) : Prop := all_bytes Json.no_control s = true.

Lemma plain_no_LF s nl : plain_line s -> no_LF (s +:+ cr_of nl).
Proof.
  intros H. apply no_LF_spec. rewrite all_bytes_app. unfold cr_of.
  destruct (String.eqb nl CRLF); simpl; rewrite andb_true_r; revert H; apply all_bytes_impl;
    intros c; pose proof (forall_ascii (fun c => implb (Json.no_control c) (negb (Ascii.eqb c LF)))
      ltac:(vm_compute; reflexivity) c) as Hc; simpl in Hc; intros Hn; by rewrite Hn in Hc.
Qed.

Lemma plain_no_CR s nl : plain_line s -> no_CR_but_last (s +:+ cr_of nl) = true.
Proof.
  intros H. induction s as [|c s IH]; [unfold cr_of; by destruct (String.eqb nl CRLF)|].
  simpl. apply andb_true_iff in H as [Hc Hs]. rewrite IH by done.
  destruct (Ascii.eqb_spec c CR) as [->|]; [by vm_compute in Hc|done].
Qed.

(** C30: an edit stays in its project's block: whatever the file holds, if an
    edit of project [i] succeeds then the file has one header for each of the
    [n] projects, and every byte up to the end of the [i]th header line and
    from the next header on is what it was. *)
Theorem edits_stay_in_block data n i updated :
  block_edit data n i updated ->
  exists start end_, projectBlockBounds data n i = Ok (start, end_)
    /\ edits_inside data start end_ updated.
Proof.
  intros [a H|f v H|k argv H|k rm H].
  - unfold replaceApproval in H. inv_ok. destruct x as [start end_].
    pose proof (bounds_Ok _ _ _ _ _ H0) as (h & _ & _ & _ & _ & Hb).
    exists start, end_. split; [done|].
    destruct (FindAllValue _ _) as [|[p q] [|]] eqn:Ev; [| |done]; inv_ok.
    + destruct (FindAll allowHeaderPattern _) as [|h' l] eqn:Ef; [apply splice_inside; lia|].
      apply head_in, FindAll_block in Ef; [|done]. apply splice_inside; lia.
    + apply head_in, FindAllValue_block in Ev; [|done]. simpl in Ev. apply splice_inside; lia.
  - unfold replaceProjectField in H. inv_ok. destruct x as [start end_].
    pose proof (bounds_Ok _ _ _ _ _ H0) as (h & _ & _ & _ & _ & Hb).
    exists start, end_. split; [done|].
    destruct (FindAllValue _ _) as [|[p q] [|]] eqn:Ev; [done| |done]. inv_ok.
    apply head_in, FindAllValue_block in Ev; [|done]. simpl in Ev. apply splice_inside; lia.
  - unfold insertAllowEntry in H. inv_ok. destruct x as [start end_].
    pose proof (bounds_Ok _ _ _ _ _ H0) as (h & _ & _ & _ & _ & Hb).
    exists start, end_. split; [done|]. inv_ok. apply splice_inside; lia.
  - unfold removeAllowEntries in H. inv_ok. destruct x as [start end_].
    pose proof (bounds_Ok _ _ _ _ _ H0) as (h & _ & _ & _ & _ & Hb).
    exists start, end_. split; [done|]. inv_ok.
    pose proof (entry_spans_inside _ _ _ _ _ _ Hb (bounds_end _ _ _ _ _ H0) eq_refl H2) as Hs.
    destruct (cut_spans_inside _ start end_ 0 _ _ Hs ltac:(lia) ltac:(lia) H) as (v & ->).
    exists v. f_equal. unfold slice. by rewrite Nat.sub_0_r.
Qed.

(** The two lines of an entry, and what the patterns see in them. *)
Definition header_text (nl : string) : string := "  " +:+ allowHeader +:+ cr_of nl.
Definition argv_text (nl : string) (argv : list string) : string :=
  "  argv = " +:+ Json.encode_strings argv +:+ cr_of nl.

Lemma allow_entry_lines data argv :
  let nl := newline_of data in
  allow_entry nl argv = header_text nl +:+ String LF (argv_text nl argv +:+ str1 LF).
Proof.
  cbv zeta. unfold allow_entry, header_text, argv_text.
  rewrite (newline_of_spec data) at 1 2. by rewrite !append_assoc.
Qed.

Lemma header_text_no_LF nl : no_LF (header_text nl).
Proof. unfold header_text. rewrite <- append_assoc. by apply plain_no_LF. Qed.

Lemma argv_text_no_LF nl argv : no_LF (argv_text nl argv).
Proof.
  unfold argv_text. rewrite <- append_assoc. apply plain_no_LF. unfold plain_line.
  rewrite all_bytes_app. by rewrite Json.encode_strings_no_control.
Qed.

Lemma header_text_matches nl :
  allowHeaderPattern (header_text nl) = true /\ projectHeaderPattern (header_text nl) = false
  /\ argvPattern (header_text nl) = false.
Proof. unfold header_text, cr_of. by destruct (String.eqb nl CRLF). Qed.

Lemma argv_text_matches nl argv :
  allowHeaderPattern (argv_text nl argv) = false /\ projectHeaderPattern (argv_text nl argv) = false
  /\ argvPattern (argv_text nl argv) = true.
Proof.
  split_and!; [done|done|]. unfold argv_text, argvPattern.
  change (no_CR_but_last (" " +:+ Json.encode_strings argv +:+ cr_of nl) = true).
  rewrite <- append_assoc. apply plain_no_CR. unfold plain_line.
  rewrite all_bytes_app. by rewrite Json.encode_strings_no_control.
Qed.

(** Lines without a project header, put in at the end of a block that ends
    with a line feed. *)
Lemma bounds_insert d1 x d2 n i s :
  projectBlockBounds (d1 +:+ String LF d2) n i = Ok (s, S (String.length d1)) ->
  s <= String.length d1 -> FindAll projectHeaderPattern x = [] ->
  projectBlockBounds (d1 +:+ String LF (x +:+ String LF d2)) n i
  = Ok (s, S (String.length d1) + S (String.length x)).
Proof.
  intros (h & Hn & Hi & -> & He & _)%bounds_Ok Hs Hx. unfold projectBlockBounds. cbv zeta.
  rewrite !FindAll_app, Hx in *. cbn [map app].
  set (A := FindAll projectHeaderPattern d1) in *.
  set (B := FindAll projectHeaderPattern d2) in *.
  rewrite !length_app, !length_map in *. rewrite <- Hn, Nat.eqb_refl. cbn [negb].
  assert (Hi1 : i < length A).
  { destruct (decide (i < length A)) as [|Hge]; [done|].
    rewrite lookup_app_r, list_lookup_fmap in Hi by lia.
    destruct (B !! (i - length A)) as [b|]; [|done]. injection Hi as <-. simpl in Hs. lia. }
  rewrite lookup_app_l in Hi |- * by done. rewrite Hi. do 2 f_equal.
  assert (Hi2 : length A <= S i).
  { destruct (decide (S i < length A)) as [Hlt|]; [|lia]. exfalso.
    rewrite lookup_app_l in He by done. apply lookup_lt_is_Some_2 in Hlt as [h' Hh'].
    rewrite Hh' in He. apply list_elem_of_lookup_2, FindAll_elem in Hh' as [[] _]. lia. }
  rewrite lookup_app_r in He |- * by done.
  rewrite list_lookup_fmap in He. rewrite !(list_lookup_fmap (A:=nat * nat)).
  destruct (B !! (S i - length A)) as [b|]; simpl in *; [lia|].
  rewrite !length_append in *. simpl in *. rewrite length_append in *. simpl in *. lia.
Qed.

Lemma not_after_LF_split data e :
  not_after_LF data e = false -> 0 < e <= String.length data ->
  exists d1 d2, data = d1 +:+ String LF d2 /\ e = S (String.length d1).
Proof.
  unfold not_after_LF. intros H He. apply andb_false_iff in H as [H|H]; boolP; [lia|].
  exists (Strings.take (e - 1) data), (Strings.drop e data). split.
  - rewrite <- (Strings.take_drop (e - 1) data) at 1. f_equal.
    rewrite (drop_split (e - 1) e) by lia. by rewrite H.
  - rewrite length_take. lia.
Qed.

Lemma FindAll_trailing p s : p "" = false -> FindAll p (s +:+ str1 LF) = FindAll p s.
Proof.
  intros Hp. unfold str1. rewrite FindAll_app, (FindAll_line p "") by done.
  rewrite Hp. apply app_nil_r.
Qed.

Lemma FindAll_entry p nl argv :
  p "" = false ->
  FindAll p (header_text nl +:+ String LF (argv_text nl argv))
  = (if p (header_text nl) then [(0, String.length (header_text nl))] else [])
    ++ map (shift (S (String.length (header_text nl))))
         (if p (argv_text nl argv) then [(0, String.length (argv_text nl argv))] else []).
Proof.
  intros Hp. rewrite FindAll_app, !FindAll_line by auto using header_text_no_LF, argv_text_no_LF. done.
Qed.

(** A header line ends before the byte that ends its block. *)
Lemma block_nonempty data n i s e :
  projectBlockBounds data n i = Ok (s, e) -> not_after_LF data e = false ->
  exists d1 d2, data = d1 +:+ String LF d2 /\ e = S (String.length d1) /\ s <= String.length d1.
Proof.
  intros Hb Hn. pose proof (bounds_Ok _ _ _ _ _ Hb) as (h & _ & Hi & -> & _ & Hle).
  apply list_elem_of_lookup_2 in Hi as Hin.
  pose proof (FindAll_elem _ _ _ Hin) as [[Ho _ Hl Hlf] _].
  assert (Hpos : h.1 < h.2).
  { destruct (decide (h.1 = h.2)) as [E|]; [|lia]. unfold slice in Hl. by rewrite E, Nat.sub_diag in Hl. }
  destruct (not_after_LF_split data e Hn ltac:(lia)) as (d1 & d2 & -> & ->).
  exists d1, d2. split_and!; [done|done|].
  destruct (decide (h.2 = S (String.length d1))) as [E|]; [|lia]. exfalso.
  rewrite (slice_split _ h.1 (String.length d1)), E in Hlf by lia.
  unfold slice in Hlf at 2. rewrite Strings.drop_app_length in Hlf.
  replace (S _ - _) with 1 in Hlf by lia. unfold no_LF in Hlf. cbn [Strings.take] in Hlf.
  rewrite Split_app in Hlf. apply (f_equal length) in Hlf. rewrite length_app in Hlf.
  pose proof (Strings.Split_nonempty (slice (d1 +:+ String LF d2) h.1 (String.length d1)) LF).
  destruct (Strings.Split _ LF); [done|]. simpl in Hlf. lia.
Qed.

Lemma consumeNewline_at a b : consumeNewline (a +:+ String LF b) (String.length a) = S (String.length a).
Proof.
  unfold consumeNewline, slice. rewrite Strings.drop_app_length.
  by replace (S _ - _) with 1 by lia.
Qed.

Lemma consumeNewline_eq data a b o :
  data = a +:+ String LF b -> o = String.length a -> consumeNewline data o = S o.
Proof. intros -> ->. apply consumeNewline_at. Qed.

Lemma slice_prefix data a b o : data = a +:+ b -> o = String.length a -> slice data 0 o = a.
Proof. intros -> ->. unfold slice. rewrite Nat.sub_0_r. apply take_app_length. Qed.

Lemma drop_suffix data a b o : data = a +:+ b -> o = String.length a -> Strings.drop o data = b.
Proof. intros -> ->. apply Strings.drop_app_length. Qed.

Lemma splice_at data a b o new : data = a +:+ b -> o = String.length a -> splice data o o new = a +:+ new +:+ b.
Proof. intros -> ->. unfold splice. by rewrite take_app_length, Strings.drop_app_length. Qed.

Lemma slice_from a b n : n = String.length (a +:+ b) -> slice (a +:+ b) (String.length a) n = b.
Proof. intros ->. rewrite length_append. rewrite <- (append_empty_r b) at 1. apply slice_app. Qed.

(** The removal of the last entry of a block, by its two lines. *)
Lemma remove_last_entry d0 b0 d2 n i nl argv e :
  let l1 := header_text nl in
  let l2 := argv_text nl argv in
  let updated := d0 +:+ b0 +:+ String LF (l1 +:+ String LF (l2 +:+ String LF d2)) in
  projectBlockBounds updated n i = Ok (String.length d0, e) ->
  e = String.length d0 + String.length b0 + String.length l1 + String.length l2 + 3 ->
  let k := length (FindAll allowHeaderPattern b0) in
  removeAllowEntries updated n i (S k) [k] = Ok (d0 +:+ b0 +:+ String LF d2).
Proof.
  intros l1 l2 updated Hb He k.
  destruct (header_text_matches nl) as (Ha1 & _ & _).
  destruct (argv_text_matches nl argv) as (Ha2 & _ & Hv2).
  assert (Hblock : slice updated (String.length d0) e
                   = b0 +:+ String LF (l1 +:+ String LF (l2 +:+ str1 LF))).
  { unfold updated. replace (b0 +:+ String LF (l1 +:+ String LF (l2 +:+ String LF d2)))
      with ((b0 +:+ String LF (l1 +:+ String LF (l2 +:+ str1 LF))) +:+ d2).
    - replace e with (String.length d0 + String.length (b0 +:+ String LF (l1 +:+ String LF (l2 +:+ str1 LF)))).
      + apply slice_app.
      + rewrite He. text_len.
    - text_eq. }
  unfold removeAllowEntries. rewrite Hb. unfold mbind at 1, result_bind at 1. rewrite Hblock.
  set (block := b0 +:+ _).
  assert (Hf : FindAll allowHeaderPattern block
               = FindAll allowHeaderPattern b0
                 ++ [(S (String.length b0), S (String.length b0) + String.length l1)]).
  { unfold block. rewrite FindAll_app. f_equal.
    rewrite FindAll_app, FindAll_trailing by done.
    rewrite !FindAll_line by (apply header_text_no_LF || apply argv_text_no_LF).
    unfold l1, l2. rewrite Ha1, Ha2. simpl. unfold shift; simpl. do 3 f_equal; lia. }
  rewrite Hf, length_app. simpl length. rewrite Nat.add_1_r, Nat.eqb_refl. cbn [negb].
  unfold mbind, result_bind. cbn [entry_spans].
  rewrite lookup_app_r, Nat.sub_diag by done. cbn [lookup list_lookup fst snd].
  rewrite (lookup_ge_None_2 _ (S k)) by (rewrite length_app; simpl; unfold k; lia).
  assert (Hsec : slice block (S (String.length b0) + String.length l1) (String.length block)
                 = "" +:+ String LF (l2 +:+ str1 LF)).
  { assert (E : block = (b0 +:+ String LF l1) +:+ String LF (l2 +:+ str1 LF))
      by (unfold block; by rewrite append_assoc).
    rewrite E. replace (S (String.length b0) + String.length l1) with (String.length (b0 +:+ String LF l1))
      by (rewrite length_append; simpl; lia). by rewrite slice_from. }
  rewrite Hsec, FindAll_app, FindAll_trailing by done.
  rewrite (FindAll_line _ ""), (FindAll_line _ l2) by (done || apply argv_text_no_LF).
  unfold l2 at 1. rewrite Hv2. change (argvPattern "") with false. cbn [map app shift fst snd].
  cbv [mbind result_bind].
  rewrite (consumeNewline_eq updated (d0 +:+ b0 +:+ String LF l1) (l2 +:+ String LF d2))
    by (unfold updated; text_eq || text_len).
  rewrite (consumeNewline_eq updated (d0 +:+ b0 +:+ String LF (l1 +:+ String LF l2)) d2)
    by (unfold updated; text_eq || (cbn [String.length]; text_len)).
  cbn [cut_spans Nat.ltb Nat.leb].
  rewrite (slice_prefix updated (d0 +:+ b0 +:+ str1 LF) (l1 +:+ String LF (l2 +:+ String LF d2)))
    by (unfold updated; text_eq || text_len).
  rewrite (drop_suffix updated (d0 +:+ b0 +:+ String LF (l1 +:+ String LF (l2 +:+ str1 LF))) d2)
    by (unfold updated; text_eq || (cbn [String.length]; text_len)).
  rewrite (proj2 (Nat.leb_gt _ _)) by (cbn [String.length]; lia).
  unfold mbind, result_bind, slice. f_equal.
  match goal with |- context [Strings.take ?x _] => replace x with 0 by (cbn [String.length]; lia) end.
  text_eq.
Qed.

(** Adding and removing undo each other: if an allowlist entry is inserted
    into a block that ends with a line feed, removing the entry it became
    gives back the file byte for byte. *)
Theorem insert_remove_roundtrip data n i k argv updated start end_ :
  projectBlockBounds data n i = Ok (start, end_) -> not_after_LF data end_ = false ->
  insertAllowEntry data n i k argv = Ok updated ->
  removeAllowEntries updated n i (S k) [k] = Ok data.
Proof.
  intros Hb Hn H. unfold insertAllowEntry in H. rewrite Hb in H.
  unfold mbind, result_bind in H. rewrite Hn in H. inv_ok. boolP. apply Nat.eqb_eq in H0.
  destruct (block_nonempty _ _ _ _ _ Hb Hn) as (d1 & d2 & Hd & He & Hs).
  pose proof (allow_entry_lines data argv) as Hent. cbv zeta in Hent. set (nl := newline_of data) in *.
  set (d0 := Strings.take start d1) in *. set (b0 := Strings.drop start d1) in *.
  assert (Hd1 : d1 = d0 +:+ b0) by (symmetry; apply Strings.take_drop).
  assert (Hd0 : String.length d0 = start) by (unfold d0; rewrite length_take; lia).
  clearbody d0 b0 nl. subst d1 end_ start.
  assert (Hx : FindAll projectHeaderPattern (header_text nl +:+ String LF (argv_text nl argv)) = []).
  { rewrite FindAll_entry by done. destruct (header_text_matches nl) as (_ & -> & _).
    by destruct (argv_text_matches nl argv) as (_ & -> & _). }
  assert (Hk : length (FindAll allowHeaderPattern b0) = k).
  { rewrite <- H0, <- (FindAll_trailing _ b0) by done. do 2 f_equal. symmetry.
    rewrite Hd. unfold slice. rewrite append_assoc, Strings.drop_app_length.
    replace (S _ - _) with (S (String.length b0)) by text_len.
    rewrite take_app_ge by lia. by replace (S _ - _) with 1 by lia. }
  rewrite Hd in Hb. pose proof (bounds_insert _ _ d2 n i _ Hb Hs Hx) as Hb2.
  rewrite <- Hk.
  replace (splice data _ _ _)
    with (d0 +:+ b0 +:+ String LF (header_text nl +:+ String LF (argv_text nl argv +:+ String LF d2))).
  2:{ rewrite (splice_at data ((d0 +:+ b0) +:+ str1 LF) d2), Hent; [text_eq| |text_len].
      rewrite Hd. text_eq. }
  erewrite (remove_last_entry d0 b0 d2 n i nl argv).
  - by rewrite Hd, append_assoc.
  - rewrite <- Hb2. f_equal. text_eq.
  - text_len.
Qed.

(** ** A project added at the end *)

(** The lines after the header that [appendProject] writes. *)
Definition project_fields (p : Project) : list string :=
  [ "alias = " +:+ Json.encode_string (Alias p);
    "bws_project_id = " +:+ Json.encode_string (BWSProjectID p);
    "token_entry = " +:+ Json.encode_string (TokenEntry p);
    "working_dir = " +:+ Json.encode_string (WorkingDir p);
    dq ("approval = `" +:+ ApprovalAllowlistedPrompt +:+ "`") ].

(** What [appendProject] puts after [data] first: an empty line. *)
Definition padded (data : string) : string :=
  let nl := newline_of data in
  let updated :=
    if (0 <? String.length data) && negb (Strings.HasSuffix data nl) then data +:+ nl else data in
  if (0 <? String.length updated) && negb (Strings.HasSuffix updated (nl +:+ nl))
  then updated +:+ nl else updated.

Lemma padded_spec data :
  exists z, padded data = data +:+ z /\ z ∈ [""; newline_of data; newline_of data +:+ newline_of data]
    /\ (data = "" -> z = "").
Proof.
  unfold padded. destruct (0 <? String.length data) eqn:E0; cbn [andb].
  - destruct (negb _); case_match; eexists; split.
    all: try (symmetry; apply append_empty_r).
    all: rewrite ?append_assoc; try done.
    all: split; [set_solver|intros ->; done].
  - boolP. destruct data; [|simpl in E0; lia]. exists "". split_and!; [done|set_solver|done].
Qed.

Fixpoint terminated (nl : string) (ls : list string) : string :=
  match ls with [] => "" | l :: ls' => l +:+ nl +:+ terminated nl ls' end.

Lemma Join_terminated nl l ls : Strings.Join (l :: ls) nl +:+ nl = terminated nl (l :: ls).
Proof.
  revert l. induction ls as [|x ls IH]; intros l; [simpl; by rewrite append_empty_r|].
  cbn [Strings.Join terminated]. rewrite !append_assoc. do 2 f_equal. apply IH.
Qed.

Lemma FindAll_terminated p nl ls :
  p "" = false -> Forall (fun l => plain_line l /\ p (l +:+ cr_of nl) = false) ls ->
  FindAll p (terminated (cr_of nl +:+ str1 LF) ls) = [].
Proof.
  intros Hp. induction 1 as [|l ls [Hl Hpl] _ IH]; cbn [terminated].
  { rewrite FindAll_line by done. by rewrite Hp. }
  replace (l +:+ (cr_of nl +:+ str1 LF) +:+ terminated (cr_of nl +:+ str1 LF) ls)
    with ((l +:+ cr_of nl) +:+ String LF (terminated (cr_of nl +:+ str1 LF) ls)) by text_eq.
  rewrite FindAll_app, IH, FindAll_line by (by apply plain_no_LF). by rewrite Hpl.
Qed.

Lemma project_fields_plain nl p :
  Forall (fun l => plain_line l /\ projectHeaderPattern (l +:+ cr_of nl) = false) (project_fields p).
Proof.
  unfold project_fields. repeat constructor; try done;
    unfold plain_line; rewrite all_bytes_app, Json.encode_string_no_control; done.
Qed.

Lemma appendProject_text data p :
  let nl := newline_of data in
  appendProject data p
  = padded data +:+ (projectHeader +:+ cr_of nl) +:+ String LF (terminated (cr_of nl +:+ str1 LF) (project_fields p)).
Proof.
  cbv zeta. change (appendProject data p)
    with (padded data +:+ Strings.Join (projectHeader :: project_fields p) (newline_of data) +:+ newline_of data).
  rewrite Join_terminated. cbn [terminated]. rewrite <- newline_of_spec.
  rewrite (newline_of_spec data) at 1. text_eq.
Qed.

Lemma FindAll_padded data :
  data = "" \/ (exists d, data = d +:+ str1 LF) ->
  length (FindAll projectHeaderPattern data) = length (FindAll projectHeaderPattern (padded data))
  /\ (padded data = "" \/ exists d, padded data = d +:+ str1 LF).
Proof.
  destruct (padded_spec data) as (z & -> & Hz & Hz0). intros [->|[d ->]].
  { rewrite Hz0 by done. split; [done|by left]. }
  assert (Hf : FindAll projectHeaderPattern z = [] /\ (z = "" \/ exists z', z = z' +:+ str1 LF)).
  { unfold newline_of in Hz. destruct (Strings.Contains _ CRLF); rewrite !elem_of_cons in Hz;
      destruct Hz as [->|[->|[->|Hz]]]; try (by inversion Hz); (split; [done|]);
      first [by left|right]; [by exists (str1 CR)|by exists (CRLF +:+ str1 CR)|by exists ""|by exists (str1 LF)]. }
  destruct Hf as [Hf Hz']. split.
  - rewrite append_assoc. change (str1 LF +:+ z) with (String LF z). unfold str1.
    rewrite !FindAll_app, Hf. by rewrite (FindAll_line _ "").
  - right. destruct Hz' as [->|[z' ->]]; [exists d; by rewrite append_empty_r|].
    exists (d +:+ str1 LF +:+ z'). text_eq.
Qed.

(** A project added to a file that ends with a line feed can be cut out
    again: removing the last project leaves the file's bytes and at most the
    blank line that was put before it. *)
Theorem append_remove_roundtrip data p :
  data = "" \/ (exists d, data = d +:+ str1 LF) ->
  let n := length (FindAll projectHeaderPattern data) in
  exists z, z ∈ [""; newline_of data; newline_of data +:+ newline_of data]
    /\ removeProjectSpan (appendProject data p) (S n) n = Ok (data +:+ z).
Proof.
  intros Hd n. destruct (FindAll_padded data Hd) as [Hn Hp].
  destruct (padded_spec data) as (z & Hz & Hin & _). exists z. split; [done|]. rewrite <- Hz.
  rewrite appendProject_text. set (nl := newline_of data).
  set (q := projectHeader +:+ cr_of nl). set (rest := terminated _ _).
  assert (Hh : FindAll projectHeaderPattern (q +:+ String LF rest) = [(0, String.length q)]).
  { rewrite FindAll_app. unfold rest. rewrite FindAll_terminated by (done || apply project_fields_plain).
    unfold q. rewrite FindAll_line by (by apply plain_no_LF).
    replace (projectHeaderPattern _) with true; [done|]. unfold cr_of. by destruct (String.eqb nl CRLF). }
  assert (Ha : FindAll projectHeaderPattern (padded data +:+ q +:+ String LF rest)
               = FindAll projectHeaderPattern (padded data)
                 ++ [(String.length (padded data), String.length (padded data) + String.length q)]).
  { destruct Hp as [->|[d ->]]; [exact Hh|].
    replace ((d +:+ str1 LF) +:+ q +:+ String LF rest) with (d +:+ String LF (q +:+ String LF rest)) by text_eq.
    rewrite FindAll_app, Hh, FindAll_trailing by done. cbn [map]. unfold shift; simpl.
    rewrite length_append. simpl. repeat (f_equal; try lia). }
  unfold removeProjectSpan. rewrite Ha, length_app, <- Hn. fold n. cbn [length].
  rewrite Nat.add_1_r, Nat.eqb_refl. cbn [negb].
  rewrite lookup_app_r by lia. rewrite <- Hn. fold n. rewrite Nat.sub_diag. cbn [lookup list_lookup fst].
  rewrite (lookup_ge_None_2 _ (S n)) by (rewrite length_app, <- Hn; fold n; simpl; lia).
  unfold splice. rewrite take_app_length, drop_all. cbn. by rewrite append_empty_r.
Qed.

Lemma edits_stay_in_block_witness :
  let data := dq "[[projects]]" +:+ str1 LF +:+ dq "approval = `never`" +:+ str1 LF in
  exists updated start end_, replaceApproval data 1 0 "allowlisted-prompt" = Ok updated
    /\ projectBlockBounds data 1 0 = Ok (start, end_) /\ edits_inside data start end_ updated.
Proof.
  intros data. eexists.
  assert (H : replaceApproval data 1 0 "allowlisted-prompt" = Ok _) by (vm_compute; reflexivity).
  destruct (edits_stay_in_block data 1 0 _ (BE_approval data 1 0 _ _ H)) as (start & end_ & Hb & Hi).
  exists start, end_. split; [exact H|]. split; [exact Hb|exact Hi].
Defined.
