(* ===== verification/PolicyEditor.v ===== *)
(** * PolicyEditor: the administrator's policy operations (internal/admin/policy.go)

    [Editor]'s methods are programs over the system calls they make and over
    the recovery artifacts' interface ([RecoveryArtifacts]).  They read the
    policy, build the new text with [PolicyText], parse it again and compare
    the result with the intended configuration, and replace the file
    atomically under a lock.  [beforeWrite], the tests' hook, is nil.  On Linux
    [info.Sys()] is a [*syscall.Stat_t], so the failure of that assertion has
    no branch. *)

From S2P Require Import Prelude GoStrings GoText GoJson GoSha256 Effects Io Policy Config SecureFile Recovery PolicyText.

#[local] Open Scope Z_scope.

Definition maxPolicyBytes : Z := 1048576.

Definition ModeAutomatic : string := "automatic".
Definition ModeConfirm : string := "confirm".

Record ProjectSummary := mkProjectSummary { ps_Alias : string; ps_Mode : string; ps_Behavior : string }.

Record ProjectDetail := mkProjectDetail {
  pd_Alias : string;
  pd_BWSProjectID : string;
  pd_TokenEntry : string;
  pd_WorkingDir : string;
  pd_Mode : string;
  pd_Behavior : string;
  pd_Allow : list (list string);
}.

Record ProjectInput := mkProjectInput {
  pi_Alias : string;
  pi_BWSProjectID : string;
  pi_TokenEntry : string;
  pi_WorkingDir : string;
}.

Record ProjectMetadataUpdate := mkProjectMetadataUpdate {
  pu_BWSProjectID : option string;
  pu_TokenEntry : option string;
  pu_WorkingDir : option string;
}.

Record fileMetadata := mkFileMetadata {
  fm_mode : Z;
  fm_uid : Z;
  fm_gid : Z;
  fm_dev : Z;
  fm_ino : Z;
  fm_size : Z;
  fm_modified : Z;
}.

#[export] Instance fileMetadata_eq_dec : EqDecision fileMetadata. Proof. solve_decision. Defined.

Definition sameFile (a b : fileMetadata) : bool :=
  (fm_dev a =? fm_dev b) && (fm_ino a =? fm_ino b) && (fm_uid a =? fm_uid b)
  && (fm_gid a =? fm_gid b) && (fm_mode a =? fm_mode b) && (fm_size a =? fm_size b)
  && (fm_modified a =? fm_modified b).

(** ** The calls *)

(** What [os.Lstat] reports. *)
Record FileInfo := mkFileInfo { fi_regular : bool; fi_meta : fileMetadata }.

Inductive policy_call : Type :=
| TrustedDir (dir : string)                        (** [securefile.ValidateTrustedDir] *)
| Lstat (path : string)
| ReadFile (path : string) (maxBytes forbidden : Z) (allowRoot : bool)  (** [securefile.Read] *)
| OpenPolicy (path : string)                       (** read-only, without following a link *)
| Flock (nonblocking : bool)                       (** on the opened policy *)
| CloseLock
| CreateTemp (dir pattern : string)
| TempStat                                         (** owner and group *)
| TempChown (uid gid : Z)
| TempChmod (mode : Z)
| TempWrite (data : string)
| TempSync
| TempClose
| Rename (from to : string)
| Remove (path : string)
| OpenDir (dir : string)
| SyncDir
| CloseDir
| Publish (input : RecoveryArtifactInput)          (** [e.recovery] *)
| ListArtifacts
| ReadArtifact (recoveryID : string).

Inductive flock_error : Type :=
| EWOULDBLOCK
| EFlock.

(** [true] is success, [None] an error; the error of a [RecoveryArtifacts]
    method is the store's. *)
#[export] Instance policy_interface : Interface policy_call := fun c =>
  match c with
  | TrustedDir _ => result securefile_error unit
  | Lstat _ => option FileInfo
  | ReadFile _ _ _ _ => result securefile_error string
  | OpenPolicy _ => bool
  | Flock _ => result flock_error unit
  | CreateTemp _ _ => option string
  | TempStat => option (Z * Z)
  | TempChown _ _ | TempChmod _ | TempWrite _ | TempSync | TempClose => bool
  | Rename _ _ | OpenDir _ | SyncDir => bool
  | CloseLock | CloseDir | Remove _ => unit
  | Publish _ => result recovery_error unit
  | ListArtifacts => result recovery_error (list RecoverySummary)
  | ReadArtifact _ => result recovery_error RecoveryArtifact
  end.

(** ** Errors, one constructor for each error site *)

Inductive editor_error : Type :=
| EPolicyDir (e : securefile_error)
| EStatingPolicy
| EPolicyNotRegular
| EPolicyTooOpen (perm : Z)
| EPolicyOwner (want got : Z)
| EReadingPolicy (e : securefile_error)
| EChangedWhileRead
| ErrPolicyChanged
| EParse (e : config_error)
| EInvalidWorkerPolicy (e : config_error)
| EValidatingUpdated (e : config_error)
| EValidatingUpdatedWorker (e : config_error)
| EChangedElsewhere
| EText (e : text_error)
| EUnknownProject (alias : string)
| EUnsupportedMode (mode : string)
| EAliasRequired
| EBWSProjectIDRequired
| ETokenEntryRequired
| EWorkingDirRequired
| EWorkingDirNotAbs
| EAlreadyExists (alias : string)
| ENoMetadataField
| EArgvEmpty
| ETooLarge
| EOpeningLock
| ErrPolicyBusy
| ELocking
| EChangedBeforeReplace
| ECreatingTemp
| EStatingTemp
| EPreservingOwner
| EPreservingMode
| EWritingTemp
| ESyncingTemp
| EClosingTemp
| EChangedBeforeRename
| EReplacing
| EOpeningDir
| ESyncingDir
| ENoRecovery
| EConfirmationRequired
| EConfirmationMismatch
| ERecoveryID (e : recovery_error)
| ELastProject
| EPublishing (e : recovery_error)
| ERecovery (e : recovery_error)
| EPolicyChangedSinceRemoval
| EValidatingStored (e : config_error)
| EValidatingStoredWorker (e : config_error)
| EArtifactWithoutProject
| EArtifactDiffers
| EStoredLayout (e : text_error)
| EArtifactNotReproducing.

(** ** The editor *)

Record Editor := mkEditor {
  path : string;
  expectedOwner : Z;
  recovery : bool;                (** [e.recovery != nil] *)
  expectedRevision : string;
}.

Definition NewEditor (path : string) (expectedOwner : Z) : Editor := mkEditor path expectedOwner false "".
Definition newEditorWithRecovery (path : string) (expectedOwner : Z) : Editor :=
  mkEditor path expectedOwner true "".

Definition WithRevision (e : Editor) (revision : string) : Editor :=
  mkEditor (path e) (expectedOwner e) (recovery e) revision.

Definition storedApproval (mode : string) : result editor_error string :=
  if String.eqb mode ModeAutomatic then Ok ApprovalNever
  else if String.eqb mode ModeConfirm then Ok ApprovalAllowlistedPrompt
  else Err (EUnsupportedMode mode).

Definition displayApproval (approval : string) : string * string :=
  if String.eqb approval ApprovalNever
  then (ModeAutomatic, "allowlisted commands run without confirmation")
  else if String.eqb approval ApprovalAllowlistedPrompt
  then (ModeConfirm, "allowlisted commands require confirmation")
  else if String.eqb approval ApprovalPrompt
  then ("prompt-unlisted", "allowlisted commands run; unlisted commands may be confirmed")
  else if String.eqb approval ApprovalAlways
  then ("prompt-any", "every command may be confirmed, including unlisted commands")
  else (approval, "unknown").

(** [findProject]: the index of the first project with the alias. *)
Fixpoint find_index (alias : string) (ps : list Project) : option nat :=
  match ps with
  | [] => None
  | p :: ps' => if String.eqb (Alias p) alias then Some O else S <$> find_index alias ps'
  end.

Definition findProject (cfg : Config) (alias : string) : result editor_error nat :=
  match find_index alias (cfg_Projects cfg) with
  | Some i => Ok i
  | None => Err (EUnknownProject alias)
  end.

Definition cloneArgv (entries : list AllowEntry) : list (list string) := map Argv entries.

Definition validateProjectInput (input : ProjectInput) : result editor_error unit :=
  fail_if String.eqb (pi_Alias input) "" with EAliasRequired;
  fail_if String.eqb (pi_BWSProjectID input) "" with EBWSProjectIDRequired;
  fail_if String.eqb (pi_TokenEntry input) "" with ETokenEntryRequired;
  fail_if String.eqb (pi_WorkingDir input) "" with EWorkingDirRequired;
  fail_if negb (Filepath.IsAbs (pi_WorkingDir input)) with EWorkingDirNotAbs;
  Ok tt.

(** The guards at the start of [UpdateProjectMetadata]. *)
Definition validateMetadataUpdate (u : ProjectMetadataUpdate) : result editor_error unit :=
  let holds (o : option string) s := match o with Some v => String.eqb v s | None => false end in
  fail_if negb (bool_decide (is_Some (pu_BWSProjectID u)) || bool_decide (is_Some (pu_TokenEntry u))
                || bool_decide (is_Some (pu_WorkingDir u))) with ENoMetadataField;
  fail_if holds (pu_BWSProjectID u) "" with EBWSProjectIDRequired;
  fail_if holds (pu_TokenEntry u) "" with ETokenEntryRequired;
  match pu_WorkingDir u with
  | None => Ok tt
  | Some d =>
      fail_if String.eqb d "" with EWorkingDirRequired;
      fail_if negb (Filepath.IsAbs d) with EWorkingDirNotAbs;
      Ok tt
  end.

Definition with_projects (c : Config) (ps : list Project) : Config :=
  mkConfig (cfg_Runtime c) (cfg_TokenSource c) (cfg_ApprovalSource c) ps.

Definition with_approval (p : Project) (a : string) : Project :=
  mkProject (Alias p) (BWSProjectID p) (TokenEntry p) (WorkingDir p) a (Allow p).

Definition with_allow (p : Project) (l : list AllowEntry) : Project :=
  mkProject (Alias p) (BWSProjectID p) (TokenEntry p) (WorkingDir p) (Approval p) l.

Notation io A := (prog policy_call (result editor_error A)).

Section Operations.
(** [net/url.Parse] and the TOML decoder. *)
Context (url_Parse : string -> option URL) (toml_Unmarshal : string -> option Config).
Context (e : Editor).

(** *** Reading *)

Definition metadata : io fileMetadata :=
  i ← call (Lstat (path e));
  lift (match (i : option FileInfo) with
        | None => Err EStatingPolicy
        | Some i =>
            let m := fi_meta i in
            fail_if negb (fi_regular i) with EPolicyNotRegular;
            fail_if negb (Z.land (fm_mode m) 18 =? 0) with EPolicyTooOpen (fm_mode m);
            fail_if negb (fm_uid m =? expectedOwner e) with EPolicyOwner (expectedOwner e) (fm_uid m);
            Ok m
        end).

(** The text must parse to a configuration a worker accepts. *)
Definition parse_current (data : string) : result editor_error Config :=
  cfg ← wrap_err EParse (Parse url_Parse toml_Unmarshal data);
  _ ← wrap_err EInvalidWorkerPolicy (ValidateWorker cfg);
  Ok cfg.

Definition readPolicy : io (string * Config * fileMetadata) :=
  d ← call (TrustedDir (Filepath.Dir (path e)));
  try! _ := lift (wrap_err EPolicyDir (d : result securefile_error unit));
  try! before := metadata;
  r ← call (ReadFile (path e) maxPolicyBytes 18 true);
  try! data := lift (wrap_err EReadingPolicy (r : result securefile_error string));
  try! after := metadata;
  if negb (sameFile before after) then fail EChangedWhileRead else
  if negb (String.eqb (expectedRevision e) "")
     && negb (String.eqb (digestBytes data) (expectedRevision e)) then fail ErrPolicyChanged else
  try! cfg := lift (parse_current data);
  ok (data, cfg, after).

Definition ListProjects : io (list ProjectSummary) :=
  try! p := readPolicy;
  ok (map (fun project =>
             let '(mode, behavior) := displayApproval (Approval project) in
             mkProjectSummary (Alias project) mode behavior) (cfg_Projects p.1.2)).

Definition Revision : io string :=
  try! p := readPolicy; ok (digestBytes p.1.1).

Definition detail_of (p : Project) : ProjectDetail :=
  let '(mode, behavior) := displayApproval (Approval p) in
  mkProjectDetail (Alias p) (BWSProjectID p) (TokenEntry p) (WorkingDir p) mode behavior
    (cloneArgv (Allow p)).

(** [cfg.Projects[i]] for an index that [findProject] returned. *)
Definition project_at (cfg : Config) (i : nat) : Project :=
  default (mkProject "" "" "" "" "" []) (cfg_Projects cfg !! i).

Definition GetProject (alias : string) : io ProjectDetail :=
  try! p := readPolicy;
  try! i := lift (findProject p.1.2 alias);
  ok (detail_of (project_at p.1.2 i)).

Definition ListAllowlist (alias : string) : io (list (list string)) :=
  try! p := readPolicy;
  try! i := lift (findProject p.1.2 alias);
  ok (cloneArgv (Allow (project_at p.1.2 i))).

(** *** Replacing the file *)

Definition lockPolicy : io unit :=
  let nonblocking := negb (String.eqb (expectedRevision e) "") in
  try! _ := require EOpeningLock (call (OpenPolicy (path e)));
  r ← call (Flock nonblocking);
  match (r : result flock_error unit) with
  | Ok _ => ok tt
  | Err x =>
      _ ← call CloseLock;
      fail (match x with EWOULDBLOCK => if nonblocking then ErrPolicyBusy else ELocking | EFlock => ELocking end)
  end.

(** The metadata must still be [original]. *)
Definition unchanged (original : fileMetadata) (err : editor_error) : io unit :=
  try! current := metadata;
  if negb (sameFile original current) then fail err else ok tt.

(** The temporary file: owner, mode, content. *)
Definition fill_temp (data : string) (original : fileMetadata) : io unit :=
  s ← call TempStat;
  match (s : option (Z * Z)) with
  | None => fail EStatingTemp
  | Some (uid, gid) =>
      try! _ := (if negb (uid =? fm_uid original) || negb (gid =? fm_gid original)
             then require EPreservingOwner (call (TempChown (fm_uid original) (fm_gid original)))
             else ok tt);
      try! _ := require EPreservingMode (call (TempChmod (fm_mode original)));
      try! _ := require EWritingTemp (call (TempWrite data));
      try! _ := require ESyncingTemp (call TempSync);
      require EClosingTemp (call TempClose)
  end.

(** From the rename on; the temporary file is the policy now. *)
Definition sync_dir : io unit :=
  try! _ := require EOpeningDir (call (OpenDir (Filepath.Dir (path e))));
  r ← require ESyncingDir (call SyncDir);
  _ ← call CloseDir;
  mret r.

(** From the creation of the temporary file on, with its deferred clean-up:
    the flag is [keepTemp]. *)
Definition replace_file (data : string) (original : fileMetadata) : io unit :=
  t ← call (CreateTemp (Filepath.Dir (path e)) ".policy.toml.tmp-*");
  match (t : option string) with
  | None => fail ECreatingTemp
  | Some tempName =>
      r ← (try! _ := fill_temp data original;
           try! _ := unchanged original EChangedBeforeRename;
           require EReplacing (call (Rename tempName (path e))));
      match r with
      | Err err => _ ← call TempClose; _ ← call (Remove tempName); fail err
      | Ok _ => r ← sync_dir; _ ← call TempClose; mret r
      end
  end.

Definition writeAtomic (data : string) (original : fileMetadata) : io unit :=
  if maxPolicyBytes <? len data then fail ETooLarge else
  try! _ := lockPolicy;
  r ← (try! _ := unchanged original EChangedBeforeReplace; replace_file data original);
  _ ← call CloseLock;
  mret r.

(** *** Edits *)

(** The updated text must parse to exactly the intended configuration.  A nil
    and an empty slice are one value here; [reflect.DeepEqual] tells them
    apart. *)
Definition validate_updated (updated : string) (expected : Config) : result editor_error unit :=
  cfg ← wrap_err EValidatingUpdated (Parse url_Parse toml_Unmarshal updated);
  _ ← wrap_err EValidatingUpdatedWorker (ValidateWorker cfg);
  fail_if negb (bool_decide (expected = cfg)) with EChangedElsewhere;
  Ok tt.

Definition CreateProject (input : ProjectInput) : io bool :=
  try! _ := lift (validateProjectInput input);
  try! p := readPolicy;
  let '(data, cfg, meta) := p in
  if existsb (fun project => String.eqb (Alias project) (pi_Alias input)) (cfg_Projects cfg)
  then fail (EAlreadyExists (pi_Alias input)) else
  let project := mkProject (pi_Alias input) (pi_BWSProjectID input) (pi_TokenEntry input)
                   (pi_WorkingDir input) ApprovalAllowlistedPrompt [] in
  let updated := appendProject data project in
  try! _ := lift (validate_updated updated (with_projects cfg (cfg_Projects cfg ++ [project])));
  try! _ := writeAtomic updated meta;
  ok true.

(** The fields of [UpdateProjectMetadata], in order: name, current value, new
    value, and the update of the project. *)
Definition metadata_fields (p : Project) (u : ProjectMetadataUpdate)
    : list (string * string * option string * (string -> Project -> Project)) :=
  [ ("bws_project_id", BWSProjectID p, pu_BWSProjectID u,
      fun v p => mkProject (Alias p) v (TokenEntry p) (WorkingDir p) (Approval p) (Allow p));
    ("token_entry", TokenEntry p, pu_TokenEntry u,
      fun v p => mkProject (Alias p) (BWSProjectID p) v (WorkingDir p) (Approval p) (Allow p));
    ("working_dir", WorkingDir p, pu_WorkingDir u,
      fun v p => mkProject (Alias p) (BWSProjectID p) (TokenEntry p) v (Approval p) (Allow p)) ].

(** The loop over the fields: the text, the project, and [changed]. *)
Fixpoint update_fields (count i : nat)
    (fields : list (string * string * option string * (string -> Project -> Project)))
    (updated : string) (project : Project) (changed : bool)
    : result editor_error (string * Project * bool) :=
  match fields with
  | [] => Ok (updated, project, changed)
  | (name, current, None, apply) :: fields' => update_fields count i fields' updated project changed
  | (name, current, Some value, apply) :: fields' =>
      if String.eqb value current then update_fields count i fields' updated project changed
      else
        updated ← wrap_err EText (replaceProjectField updated count i name value);
        update_fields count i fields' updated (apply value project) true
  end.

Definition UpdateProjectMetadata (alias : string) (input : ProjectMetadataUpdate) : io bool :=
  try! _ := lift (validateMetadataUpdate input);
  try! p := readPolicy;
  let '(data, cfg, meta) := p in
  try! i := lift (findProject cfg alias);
  let project := project_at cfg i in
  try! u := lift (update_fields (length (cfg_Projects cfg)) i (metadata_fields project input)
                data project false);
  let '(updated, project, changed) := u in
  if negb changed then ok false else
  try! _ := lift (validate_updated updated (with_projects cfg (<[i := project]> (cfg_Projects cfg))));
  try! _ := writeAtomic updated meta;
  ok true.

Definition SetApproval (alias mode : string) : io bool :=
  try! approval := lift (storedApproval mode);
  try! p := readPolicy;
  let '(data, cfg, meta) := p in
  try! i := lift (findProject cfg alias);
  let project := project_at cfg i in
  if String.eqb (Approval project) approval then ok false else
  try! updated := lift (wrap_err EText (replaceApproval data (length (cfg_Projects cfg)) i approval));
  try! _ := lift (validate_updated updated
                (with_projects cfg (<[i := with_approval project approval]> (cfg_Projects cfg))));
  try! _ := writeAtomic updated meta;
  ok true.

(** [validateAllowlistUpdate] *)
Definition validateAllowlistUpdate (updated : string) (cfg : Config) (i : nat) (want : list AllowEntry)
    : result editor_error unit :=
  validate_updated updated
    (with_projects cfg (<[i := with_allow (project_at cfg i) want]> (cfg_Projects cfg))).

Definition AddAllowlist (alias : string) (argv : list string) : io bool :=
  if Nat.eqb (length argv) 0 then fail EArgvEmpty else
  try! p := readPolicy;
  let '(data, cfg, meta) := p in
  try! i := lift (findProject cfg alias);
  let allow := Allow (project_at cfg i) in
  if existsb (fun entry => bool_decide (Argv entry = argv)) allow then ok false else
  try! updated := lift (wrap_err EText
                      (insertAllowEntry data (length (cfg_Projects cfg)) i (length allow) argv));
  try! _ := lift (validateAllowlistUpdate updated cfg i (allow ++ [mkAllowEntry argv]));
  try! _ := writeAtomic updated meta;
  ok true.

(** The indices of the entries to remove, from [n] on. *)
Fixpoint matching (argv : list string) (n : nat) (allow : list AllowEntry) : list nat :=
  match allow with
  | [] => []
  | entry :: allow' =>
      if bool_decide (Argv entry = argv) then n :: matching argv (S n) allow'
      else matching argv (S n) allow'
  end.

Definition RemoveAllowlist (alias : string) (argv : list string) : io bool :=
  if Nat.eqb (length argv) 0 then fail EArgvEmpty else
  try! p := readPolicy;
  let '(data, cfg, meta) := p in
  try! i := lift (findProject cfg alias);
  let allow := Allow (project_at cfg i) in
  let remove := matching argv 0 allow in
  let want := filter (fun entry => Argv entry <> argv) allow in
  if Nat.eqb (length remove) 0 then ok false else
  try! updated := lift (wrap_err EText
                      (removeAllowEntries data (length (cfg_Projects cfg)) i (length allow) remove));
  try! _ := lift (validateAllowlistUpdate updated cfg i want);
  try! _ := writeAtomic updated meta;
  ok true.

(** *** Removal and restoration *)

(** [expected.Projects] without the project at [i]. *)
Definition without (cfg : Config) (i : nat) : Config :=
  with_projects cfg (take i (cfg_Projects cfg) ++ drop (S i) (cfg_Projects cfg)).

Definition RemoveProject (alias confirmation recoveryID : string)
    : prog policy_call (RecoveryResult * option editor_error) :=
  let none := mkRecoveryResult false "" in
  let refuse err : prog policy_call (RecoveryResult * option editor_error) := mret (none, Some err) in
  if negb (recovery e) then refuse ENoRecovery else
  if String.eqb confirmation "" then refuse EConfirmationRequired else
  if negb (String.eqb confirmation alias) then refuse EConfirmationMismatch else
  prepared ← (try! _ := lift (wrap_err ERecoveryID (validateRecoveryID recoveryID));
              try! p := readPolicy;
              let '(data, cfg, meta) := p in
              try! i := lift (findProject cfg alias);
              if Nat.eqb (length (cfg_Projects cfg)) 1 then fail ELastProject else
              try! updated := lift (wrap_err EText (removeProjectSpan data (length (cfg_Projects cfg)) i));
              try! _ := lift (validate_updated updated (without cfg i));
              r ← call (Publish (mkRecoveryArtifactInput recoveryID alias data updated));
              try! _ := lift (wrap_err EPublishing (r : result recovery_error unit));
              ok (updated, meta));
  match prepared with
  | Err err => refuse err
  | Ok (updated, meta) =>
      w ← writeAtomic updated meta;
      match w with
      | Err err => mret (mkRecoveryResult false recoveryID, Some err)
      | Ok _ => mret (mkRecoveryResult true recoveryID, None)
      end
  end.

Definition ListRecoveries : io (list RecoverySummary) :=
  if negb (recovery e) then fail ENoRecovery else
  r ← call ListArtifacts;
  lift (wrap_err ERecovery (r : result recovery_error (list RecoverySummary))).

(** The checks of [RestoreProject] on the stored policy. *)
Definition check_artifact (artifact : RecoveryArtifact) (currentData : string) (currentConfig : Config)
    : result editor_error unit :=
  fail_if negb (String.eqb (digestBytes currentData) (AfterSHA256 artifact)) with EPolicyChangedSinceRemoval;
  stored ← wrap_err EValidatingStored (Parse url_Parse toml_Unmarshal (Policy artifact));
  _ ← wrap_err EValidatingStoredWorker (ValidateWorker stored);
  match find_index (ra_Project artifact) (cfg_Projects stored) with
  | None => Err EArtifactWithoutProject
  | Some i =>
      fail_if negb (bool_decide (without stored i = currentConfig)) with EArtifactDiffers;
      removed ← wrap_err EStoredLayout
                  (removeProjectSpan (Policy artifact) (length (cfg_Projects stored)) i);
      fail_if negb (String.eqb removed currentData) with EArtifactNotReproducing;
      Ok tt
  end.

Definition RestoreProject (recoveryID confirmation : string)
    : prog policy_call (RecoveryResult * option editor_error) :=
  let none := mkRecoveryResult false "" in
  if negb (recovery e) then mret (none, Some ENoRecovery) else
  if String.eqb confirmation "" then mret (none, Some EConfirmationRequired) else
  a ← call (ReadArtifact recoveryID);
  match (a : result recovery_error RecoveryArtifact) with
  | Err err => mret (none, Some (ERecovery err))
  | Ok artifact =>
      r ← (if negb (String.eqb confirmation (ra_Project artifact)) then fail EConfirmationMismatch else
           try! p := readPolicy;
           let '(currentData, currentConfig, meta) := p in
           try! _ := lift (check_artifact artifact currentData currentConfig);
           writeAtomic (Policy artifact) meta);
      match r with
      | Err err => mret (mkRecoveryResult false recoveryID, Some err)
      | Ok _ => mret (mkRecoveryResult true recoveryID, None)
      end
  end.

End Operations.

(** ** Specification *)

Definition is_rename (c : policy_call) : bool := match c with Rename _ _ => true | _ => false end.

Definition no_rename (t : list (event policy_call)) : Prop :=
  Forall (fun c => is_rename c = false) (calls t).

(** Calls that only look. *)
Definition looks (t : list (event policy_call)) : Prop :=
  Forall (fun c => match c with TrustedDir _ | Lstat _ | ReadFile _ _ _ _ => True | _ => False end) (calls t).

Definition temp_free (t : list (event policy_call)) : Prop :=
  Forall (fun c => match c with CreateTemp _ _ | Rename _ _ => False | _ => True end) (calls t).

(** The calls of a concrete trace, one by one. *)
Ltac by_calls := unfold looks, no_rename, temp_free, calls; cbn; repeat constructor; done.

Section Spec.
Context (e : Editor).

(** A file an administrator's edit may start from. *)
Definition good_info (i : FileInfo) (m : fileMetadata) : Prop :=
  fi_regular i = true /\ fi_meta i = m /\ Z.land (fm_mode m) 18 = 0 /\ fm_uid m = expectedOwner e.

(** The policy was read: from a trusted directory, between two looks at one
    file, at the displayed revision if there is one, and it is valid. *)
Definition policy_read (url_Parse : string -> option URL) (toml_Unmarshal : string -> option Config)
    (t : list (event policy_call)) (data : string) (cfg : Config) (m : fileMetadata) : Prop :=
  exists i1 i2,
    t = [ ev (TrustedDir (Filepath.Dir (path e))) (Ok tt); ev (Lstat (path e)) (Some i1);
          ev (ReadFile (path e) maxPolicyBytes 18 true) (Ok data); ev (Lstat (path e)) (Some i2) ]
    /\ good_info i1 m /\ good_info i2 m
    /\ (expectedRevision e = "" \/ digestBytes data = expectedRevision e)
    /\ Parse url_Parse toml_Unmarshal data = Ok cfg /\ ValidateWorker cfg = Ok tt.

(** Everything is ready to put [data] in the place of the policy described by
    [m]: the lock is held, the policy was looked at again under it, the
    temporary file has the policy's owner and mode and all of [data] on disk,
    and then the policy was looked at once more. *)
Definition ready_to_replace (t : list (event policy_call)) (data : string) (m : fileMetadata)
    (temp : string) : Prop :=
  exists i1 i2 uid gid,
    t = [ ev (OpenPolicy (path e)) true;
          ev (Flock (negb (String.eqb (expectedRevision e) ""))) (Ok tt);
          ev (Lstat (path e)) (Some i1);
          ev (CreateTemp (Filepath.Dir (path e)) ".policy.toml.tmp-*") (Some temp);
          ev TempStat (Some (uid, gid)) ]
        ++ (if negb (uid =? fm_uid m) || negb (gid =? fm_gid m)
            then [ev (TempChown (fm_uid m) (fm_gid m)) true] else [])
        ++ [ ev (TempChmod (fm_mode m)) true; ev (TempWrite data) true; ev TempSync true;
             ev TempClose true; ev (Lstat (path e)) (Some i2) ]
    /\ good_info i1 m /\ good_info i2 m.

(** A temporary file that was created and not renamed is removed. *)
Definition no_temp_left (t : list (event policy_call)) : Prop :=
  forall temp, ev (CreateTemp (Filepath.Dir (path e)) ".policy.toml.tmp-*") (Some temp) ∈ t ->
    ev (Rename temp (path e)) true ∈ t \/ Remove temp ∈ calls t.

(** ** Lemmas on reading *)

Lemma sameFile_spec a b : sameFile a b = true <-> a = b.
Proof.
  unfold sameFile. rewrite !andb_true_iff, !Z.eqb_eq. destruct a, b; simpl.
  split; [intros; destruct_and!; by subst|intros [= -> -> -> -> -> -> ->]; by split_and!].
Qed.

Lemma metadata_behaves t r :
  behaves (metadata e) t r ->
  exists i, t = [ev (Lstat (path e)) i]
    /\ (forall m, r = Ok m -> exists i', i = Some i' /\ good_info i' m).
Proof.
  unfold metadata. intros (t1 & t2 & i & -> & H1 & H2)%behaves_bind.
  inv_io.
  eexists. split; [done|]. intros m H. case_match; [|done].
  unfold good_info. inv_ok. boolP. eexists. by split_and!.
Qed.

Lemma looks_app t1 t2 : looks t1 -> looks t2 -> looks (t1 ++ t2).
Proof. unfold looks. rewrite calls_app, Forall_app. done. Qed.

Lemma looks_no_rename t : looks t -> no_rename t.
Proof. intros H. eapply Forall_impl; [exact H|]. by intros []. Qed.

Lemma no_rename_app t1 t2 : no_rename (t1 ++ t2) <-> no_rename t1 /\ no_rename t2.
Proof. unfold no_rename. by rewrite calls_app, Forall_app. Qed.

Lemma parse_current_Ok url_Parse toml_Unmarshal data cfg :
  parse_current url_Parse toml_Unmarshal data = Ok cfg ->
  Parse url_Parse toml_Unmarshal data = Ok cfg /\ ValidateWorker cfg = Ok tt.
Proof. unfold parse_current. intros H. inv_ok. by destruct x0. Qed.

Lemma readPolicy_behaves url_Parse toml_Unmarshal t r :
  behaves (readPolicy url_Parse toml_Unmarshal e) t r ->
  looks t /\ forall data cfg m, r = Ok (data, cfg, m) -> policy_read url_Parse toml_Unmarshal t data cfg m.
Proof.
  unfold readPolicy. intros H. inv_io.
  all: repeat match goal with H : behaves (metadata _) _ _ |- _ =>
         apply metadata_behaves in H as (? & -> & ?) end.
  all: split; [unfold looks, calls; cbn; repeat constructor|].
  all: intros ? ? ? HH; simplify_eq.
  destruct x6. destruct (H0 _ eq_refl) as (i1 & -> & Hi1), (H _ eq_refl) as (i2 & -> & Hi2).
  apply negb_false_iff, sameFile_spec in Heqb as ->.
  match goal with H : Ok _ = parse_current _ _ _ |- _ => symmetry in H; apply parse_current_Ok in H end.
  exists i1, i2. split_and!; [done|done|done| |naive_solver..].
  apply andb_false_iff in Heqb0 as [Hr|Hr]; boolP; auto.
Qed.

(** ** Lemmas on replacing *)

Lemma unchanged_behaves m err t r :
  behaves (unchanged e m err) t r ->
  exists i, t = [ev (Lstat (path e)) i] /\ (r = Ok tt -> exists i', i = Some i' /\ good_info i' m).
Proof.
  unfold unchanged. intros H. inv_io;
    match goal with H : behaves (metadata _) _ _ |- _ => apply metadata_behaves in H as (i & -> & Hm) end;
    exists i; (split; [done|]); try done.
  intros _. apply negb_false_iff, sameFile_spec in Heqb as ->. by apply Hm.
Qed.

Lemma lock_behaves t r :
  behaves (lockPolicy e) t r ->
  temp_free t /\ (r = Ok tt -> t = [ev (OpenPolicy (path e)) true;
                                   ev (Flock (negb (String.eqb (expectedRevision e) ""))) (Ok tt)]).
Proof.
  unfold lockPolicy. intros H. inv_io; try (split; [by_calls|done]).
  match goal with H : behaves (match ?x with _ => _ end) _ _ |- _ => destruct x as [[]|] end; inv_io; (split; [by_calls|done]).
Qed.

Lemma fill_temp_behaves data m t r :
  behaves (fill_temp data m) t r ->
  temp_free t /\ (r = Ok tt -> exists uid gid,
    t = ev TempStat (Some (uid, gid))
        :: (if negb (uid =? fm_uid m) || negb (gid =? fm_gid m)
            then [ev (TempChown (fm_uid m) (fm_gid m)) true] else [])
        ++ [ ev (TempChmod (fm_mode m)) true; ev (TempWrite data) true; ev TempSync true;
             ev TempClose true ]).
Proof.
  unfold fill_temp. intros H. inv_io.
  match goal with H : behaves (match ?x with _ => _ end) _ _ |- _ => destruct x as [[uid gid]|] end;
    [|inv_io; split; [by_calls|done]].
  inv_io; try (split; [by_calls|done]); (split; [by_calls|]); intros Hr.
  all: exists uid, gid; rewrite Heqb; match goal with H : (if ?b then _ else _) = _ |- _ => by destruct b end.
Qed.

Lemma sync_dir_behaves t r : behaves (sync_dir e) t r -> temp_free t.
Proof. unfold sync_dir. intros H. inv_io; by_calls. Qed.

Lemma temp_free_no_rename t : temp_free t -> no_rename t.
Proof. intros H. eapply Forall_impl; [exact H|]. by intros []. Qed.

(** The name of the temporary file an event created. *)
Definition created (x : event policy_call) : option string :=
  let 'existT c a := x in
  match c return answer c -> option string with CreateTemp _ _ => fun a => a | _ => fun _ => None end a.

Lemma temp_free_app t1 t2 : temp_free (t1 ++ t2) <-> temp_free t1 /\ temp_free t2.
Proof. unfold temp_free. by rewrite calls_app, Forall_app. Qed.

Lemma temp_free_created t temp :
  temp_free t -> ev (CreateTemp (Filepath.Dir (path e)) ".policy.toml.tmp-*") (Some temp) ∉ t.
Proof.
  unfold temp_free, calls. rewrite Forall_fmap, Forall_forall. intros H Hin. exact (H _ Hin).
Qed.

Lemma no_temp_left_free t : temp_free t -> no_temp_left t.
Proof. intros H temp Hin. by apply temp_free_created in Hin. Qed.

Lemma no_temp_left_app t1 t2 : no_temp_left t1 -> no_temp_left t2 -> no_temp_left (t1 ++ t2).
Proof.
  intros H1 H2 temp [Hin|Hin]%elem_of_app; [destruct (H1 _ Hin)|destruct (H2 _ Hin)];
    rewrite calls_app, !elem_of_app; tauto.
Qed.

(** The part of [ready_to_replace] from the temporary file on. *)
Definition temp_ready (t : list (event policy_call)) (data : string) (m : fileMetadata) : Prop :=
  exists i2 uid gid,
    t = ev TempStat (Some (uid, gid))
        :: (if negb (uid =? fm_uid m) || negb (gid =? fm_gid m)
            then [ev (TempChown (fm_uid m) (fm_gid m)) true] else [])
        ++ [ ev (TempChmod (fm_mode m)) true; ev (TempWrite data) true; ev TempSync true;
             ev TempClose true; ev (Lstat (path e)) (Some i2) ]
    /\ good_info i2 m.

Lemma temp_free_created_none t : temp_free t -> Forall (fun x => created x = None) t.
Proof.
  unfold temp_free, calls. rewrite Forall_fmap. intros H. eapply Forall_impl; [exact H|].
  intros [c a]. simpl. by destruct c.
Qed.

Lemma no_temp_left_one temp u :
  Forall (fun x => created x = None) u ->
  ev (Rename temp (path e)) true ∈ u \/ Remove temp ∈ calls u ->
  no_temp_left (ev (CreateTemp (Filepath.Dir (path e)) ".policy.toml.tmp-*") (Some temp) :: u).
Proof.
  intros Hu Hd temp' [Hin|Hin]%elem_of_cons.
  - apply (f_equal created) in Hin. injection Hin as ->.
    rewrite calls_cons, !elem_of_cons. tauto.
  - rewrite Forall_forall in Hu. by apply Hu in Hin.
Qed.

Lemma attempt_behaves data m temp t r :
  behaves (and_then (fill_temp data m) (fun _ => and_then (unchanged e m EChangedBeforeRename)
             (fun _ => require EReplacing (call (Rename temp (path e)))))) t r ->
  (temp_free t /\ exists err, r = Err err)
  \/ exists t1 b, t = t1 ++ [ev (Rename temp (path e)) b] /\ temp_free t1 /\ temp_ready t1 data m
       /\ r = if b : bool then Ok tt else Err EReplacing.
Proof.
  intros [(t1 & t2 & [] & -> & H1 & H)|(err & H & ->)]%behaves_and_then.
  2:{ apply fill_temp_behaves in H as [Hf _]. left. split; [done|by eexists]. }
  apply fill_temp_behaves in H1 as [Hf H1]. destruct (H1 eq_refl) as (uid & gid & ->).
  apply behaves_and_then in H as [(t3 & t4 & [] & -> & H2 & H3)|(err & H2 & ->)].
  - apply unchanged_behaves in H2 as (i & -> & H2). destruct (H2 eq_refl) as (i2 & -> & Hi2).
    apply behaves_require in H3 as (b & (? & ? & -> & -> & <-) & ->). right.
    eexists _, b. rewrite app_assoc. split_and!; [done| | |done].
    + apply temp_free_app. split; [done|by_calls].
    + exists i2, uid, gid. split; [|done]. by destruct (_ || _).
  - apply unchanged_behaves in H2 as (i & -> & _). left.
    split; [apply temp_free_app; split; [done|by_calls]|by eexists].
Qed.

Lemma replace_file_behaves data m t r :
  behaves (replace_file e data m) t r ->
  no_temp_left t
  /\ ((no_rename t /\ r <> Ok tt)
      \/ exists temp t1 b t2,
           t = ev (CreateTemp (Filepath.Dir (path e)) ".policy.toml.tmp-*") (Some temp)
               :: t1 ++ ev (Rename temp (path e)) b :: t2
           /\ temp_ready t1 data m /\ no_rename t2
           /\ (r = Ok tt -> b = true) /\ (b = false -> r = Err EReplacing)).
Proof.
  unfold replace_file. intros (t1 & t2 & x & -> & Hc & H)%behaves_bind.
  destruct Hc as (? & ? & -> & -> & <-). destruct x as [temp|].
  2:{ inv_io. split; [|left; split; [by_calls|done]].
      intros temp Hin%list_elem_of_singleton. by apply (f_equal created) in Hin. }
  apply behaves_bind in H as (tf & t3 & r1 & -> & H1 & H2).
  destruct (attempt_behaves _ _ _ _ _ H1) as [(Hf & err & ->)|(t1 & b & -> & Hf & Hready & ->)]; clear H1.
  - inv_io. split.
    + apply no_temp_left_one; [|right; rewrite calls_app, elem_of_app; right; by repeat constructor].
      apply Forall_app. split; [by apply temp_free_created_none|by repeat constructor].
    + left. split; [|done]. change (no_rename ([ev (CreateTemp (Filepath.Dir (path e)) ".policy.toml.tmp-*") (Some temp)] ++ tf ++ [ev TempClose x2; ev (Remove temp) x7])).
      rewrite !no_rename_app. split_and!; [by_calls|by apply temp_free_no_rename|by_calls].
  - assert (Ht3 : temp_free t3 /\ (r = Ok tt -> b = true) /\ (b = false -> r = Err EReplacing /\ Remove temp ∈ calls t3)).
    { destruct b.
      - apply behaves_bind in H2 as (u1 & u2 & r2 & -> & H1 & H2). apply sync_dir_behaves in H1.
        inv_io. split_and!; [|done|done]. apply temp_free_app. split; [done|by_calls].
      - inv_io. split_and!; [by_calls|done|]. split; [done|]. by repeat constructor. }
    destruct Ht3 as (Ht3 & Hok & Hno). split.
    + apply no_temp_left_one.
      * rewrite !Forall_app. split_and!; [by apply temp_free_created_none|by repeat constructor|].
        by apply temp_free_created_none.
      * rewrite <- app_assoc. destruct b; [left; set_solver|right].
        rewrite !calls_app, !elem_of_app. right. right. by apply Hno.
    + right. exists temp, t1, b, t3. rewrite <- app_assoc.
      split_and!; [done|done|by apply temp_free_no_rename|done|naive_solver].
Qed.

(** What [writeAtomic] does: nothing to the policy, or one rename when all is
    ready; and it cleans up. *)
Lemma writeAtomic_behaves data m t r :
  behaves (writeAtomic e data m) t r ->
  no_temp_left t
  /\ ((no_rename t /\ r <> Ok tt)
      \/ exists temp t1 b t2, t = t1 ++ ev (Rename temp (path e)) b :: t2
           /\ ready_to_replace t1 data m temp /\ no_rename t2
           /\ len data <= maxPolicyBytes /\ (r = Ok tt -> b = true) /\ (b = false -> r = Err EReplacing)).
Proof.
  unfold writeAtomic. destruct (maxPolicyBytes <? len data) eqn:Hlen.
  { intros H. inv_io. split; [by intros ? ?%elem_of_nil|]. left. by split; [by_calls|]. }
  boolP. intros [(t1 & t2 & [] & -> & H1 & H)|(err & H & ->)]%behaves_and_then.
  2:{ apply lock_behaves in H as [Hf _]. split; [by apply no_temp_left_free|].
      left. split; [by apply temp_free_no_rename|done]. }
  apply lock_behaves in H1 as [Hf1 H1]. specialize (H1 eq_refl). subst t1.
  apply behaves_bind in H as (tb & t3 & r1 & -> & Hb & H). destruct H as (x & ? & -> & -> & ->).
  assert (Hclose : temp_free [ev CloseLock x]) by by_calls.
  apply behaves_and_then in Hb as [(ti & t4 & [] & -> & Hi & Hr)|(err & Hi & ->)].
  2:{ apply unchanged_behaves in Hi as (i & -> & _). split.
      - apply no_temp_left_free, temp_free_app. split; [done|by_calls].
      - left. split; [by_calls|done]. }
  apply unchanged_behaves in Hi as (i & -> & Hi). destruct (Hi eq_refl) as (i1 & -> & Hi1).
  apply replace_file_behaves in Hr as [Hleft Hr]. split.
  { rewrite <- app_assoc. apply no_temp_left_app; [by apply no_temp_left_free|].
    apply no_temp_left_app; [apply no_temp_left_free; by_calls|].
    apply no_temp_left_app; [done|by apply no_temp_left_free]. }
  destruct Hr as [[Hn Hr]|(temp & t1 & b & t2 & -> & Hready & Hn & Hok & Hno)].
  - left. split; [|done]. rewrite !no_rename_app. split_and!; [by_calls..|done|by_calls].
  - right. exists temp.
    exists ([ ev (OpenPolicy (path e)) true;
              ev (Flock (negb (String.eqb (expectedRevision e) ""))) (Ok tt);
              ev (Lstat (path e)) (Some i1);
              ev (CreateTemp (Filepath.Dir (path e)) ".policy.toml.tmp-*") (Some temp) ] ++ t1), b,
      (t2 ++ [ev CloseLock x]).
    split; [cbn; by rewrite <- !app_assoc|]. split_and!; [|by apply no_rename_app; split; [|by_calls]|done..].
    destruct Hready as (i2 & uid & gid & -> & Hi2). exists i1, i2, uid, gid. by split_and!.
Qed.
End Spec.

(** ** The intended effect of each edit *)

Inductive mutation : Type :=
| MCreateProject (input : ProjectInput)
| MUpdateProjectMetadata (alias : string) (input : ProjectMetadataUpdate)
| MSetApproval (alias mode : string)
| MAddAllowlist (alias : string) (argv : list string)
| MRemoveAllowlist (alias : string) (argv : list string).

Definition set_metadata (u : ProjectMetadataUpdate) (p : Project) : Project :=
  mkProject (Alias p) (default (BWSProjectID p) (pu_BWSProjectID u))
    (default (TokenEntry p) (pu_TokenEntry u)) (default (WorkingDir p) (pu_WorkingDir u))
    (Approval p) (Allow p).

(** Change the project with the alias. *)
Definition at_alias (alias : string) (f : Project -> Project) (cfg : Config) : option Config :=
  i ← find_index alias (cfg_Projects cfg);
  Some (with_projects cfg (<[i := f (project_at cfg i)]> (cfg_Projects cfg))).

Definition add_entry (argv : list string) (p : Project) : Project :=
  if bool_decide (argv ∈ map Argv (Allow p)) then p else with_allow p (Allow p ++ [mkAllowEntry argv]).

Definition remove_entry (argv : list string) (p : Project) : Project :=
  with_allow p (filter (fun entry => Argv entry <> argv) (Allow p)).

(** The configuration an edit is meant to produce; [None] if it has none. *)
Definition edited (m : mutation) (cfg : Config) : option Config :=
  match m with
  | MCreateProject i =>
      if bool_decide (pi_Alias i ∈ map Alias (cfg_Projects cfg)) then None
      else Some (with_projects cfg (cfg_Projects cfg ++
             [mkProject (pi_Alias i) (pi_BWSProjectID i) (pi_TokenEntry i) (pi_WorkingDir i)
                ApprovalAllowlistedPrompt []]))
  | MUpdateProjectMetadata alias u => at_alias alias (set_metadata u) cfg
  | MSetApproval alias mode =>
      match storedApproval mode with
      | Ok a => at_alias alias (fun p => with_approval p a) cfg
      | Err _ => None
      end
  | MAddAllowlist alias argv => at_alias alias (add_entry argv) cfg
  | MRemoveAllowlist alias argv => at_alias alias (remove_entry argv) cfg
  end.

Lemma with_projects_id cfg : with_projects cfg (cfg_Projects cfg) = cfg.
Proof. by destruct cfg. Qed.

Lemma find_index_Some alias ps i :
  find_index alias ps = Some i -> exists p, ps !! i = Some p /\ Alias p = alias.
Proof.
  revert i. induction ps as [|p ps IH]; intros i; simpl; [done|].
  destruct (String.eqb_spec (Alias p) alias); [intros [= <-]; by exists p|].
  destruct (find_index alias ps) as [j|]; [|done]. intros [= <-]. by apply IH.
Qed.

Lemma project_at_lookup cfg alias i :
  find_index alias (cfg_Projects cfg) = Some i ->
  cfg_Projects cfg !! i = Some (project_at cfg i) /\ Alias (project_at cfg i) = alias.
Proof. intros (p & Hp & Ha)%find_index_Some. unfold project_at. by rewrite Hp. Qed.

(** An edit that leaves the project as it is leaves the configuration. *)
Lemma at_alias_id alias f cfg i :
  find_index alias (cfg_Projects cfg) = Some i -> f (project_at cfg i) = project_at cfg i ->
  at_alias alias f cfg = Some cfg.
Proof.
  intros Hi Hf. unfold at_alias. rewrite Hi. simpl. rewrite Hf, list_insert_id; [by rewrite with_projects_id|].
  by apply (project_at_lookup _ alias).
Qed.

Lemma update_fields_spec n i data p u updated p' changed :
  update_fields n i (metadata_fields p u) data p false = Ok (updated, p', changed) ->
  p' = set_metadata u p /\ (changed = false -> p' = p).
Proof.
  unfold metadata_fields, set_metadata. destruct p as [a b t w ap al], u as [ub ut uw]. cbn.
  destruct ub as [vb|], ut as [vt|], uw as [vw|]; cbn;
    repeat match goal with |- context [String.eqb ?x ?y] => destruct (String.eqb_spec x y); subst; cbn end;
    intros H; inv_ok; try done.
Qed.

Lemma matching_nil argv n l :
  matching argv n l = [] <-> filter (fun entry => Argv entry <> argv) l = l.
Proof.
  revert n. induction l as [|x l IH]; intros n; [done|]. simpl. rewrite filter_cons.
  destruct (decide (Argv x <> argv)) as [Hx|Hx]; case_bool_decide; try (by destruct Hx); try done.
  - rewrite IH. split; [by intros ->|by intros [=]].
  - split; [done|]. intros E. apply (f_equal length) in E.
    pose proof (length_filter (fun entry => Argv entry <> argv) l). simpl in E. lia.
Qed.

Lemma existsb_argv argv l :
  existsb (fun entry => bool_decide (Argv entry = argv)) l = bool_decide (argv ∈ map Argv l).
Proof.
  apply eq_true_iff_eq. rewrite existsb_exists, bool_decide_eq_true, list_elem_of_fmap.
  setoid_rewrite bool_decide_eq_true. setoid_rewrite <- list_elem_of_In. naive_solver.
Qed.

Lemma existsb_alias a (ps : list Project) :
  existsb (fun p => String.eqb (Alias p) a) ps = bool_decide (a ∈ map Alias ps).
Proof.
  apply eq_true_iff_eq. rewrite existsb_exists, bool_decide_eq_true, list_elem_of_fmap.
  setoid_rewrite String.eqb_eq. setoid_rewrite <- list_elem_of_In. naive_solver.
Qed.

Lemma findProject_Ok cfg alias i : findProject cfg alias = Ok i <-> find_index alias (cfg_Projects cfg) = Some i.
Proof. unfold findProject. destruct (find_index _ _); naive_solver. Qed.

Section Mutations.
Context (url_Parse : string -> option URL) (toml_Unmarshal : string -> option Config).
Context (e : Editor).

Definition mutate (m : mutation) : io bool :=
  match m with
  | MCreateProject i => CreateProject url_Parse toml_Unmarshal e i
  | MUpdateProjectMetadata a u => UpdateProjectMetadata url_Parse toml_Unmarshal e a u
  | MSetApproval a mode => SetApproval url_Parse toml_Unmarshal e a mode
  | MAddAllowlist a argv => AddAllowlist url_Parse toml_Unmarshal e a argv
  | MRemoveAllowlist a argv => RemoveAllowlist url_Parse toml_Unmarshal e a argv
  end.

Lemma validate_updated_Ok updated expected :
  validate_updated url_Parse toml_Unmarshal updated expected = Ok tt ->
  Parse url_Parse toml_Unmarshal updated = Ok expected /\ ValidateWorker expected = Ok tt.
Proof. unfold validate_updated. intros H. inv_ok. boolP. subst. by destruct x0. Qed.

(** The three ways an edit can go: refused before it writes, nothing to do,
    or a validated text given to [writeAtomic]. *)
Inductive edit_behaves (m : mutation) (t : list (event policy_call)) (r : result editor_error bool) : Prop :=
| EB_refused err : looks t -> r = Err err -> edit_behaves m t r
| EB_nothing data cfg meta :
    policy_read e url_Parse toml_Unmarshal t data cfg meta -> edited m cfg = Some cfg -> r = Ok false ->
    edit_behaves m t r
| EB_write t1 t2 data cfg meta updated cfg' w :
    t = t1 ++ t2 -> policy_read e url_Parse toml_Unmarshal t1 data cfg meta ->
    edited m cfg = Some cfg' -> Parse url_Parse toml_Unmarshal updated = Ok cfg' ->
    ValidateWorker cfg' = Ok tt -> behaves (writeAtomic e updated meta) t2 w ->
    r = (fun _ => true) <$> w -> edit_behaves m t r.

(** The common tail of the edits. *)
Lemma edit_tail m t1 t2 data cfg meta updated cfg' r :
  policy_read e url_Parse toml_Unmarshal t1 data cfg meta -> edited m cfg = Some cfg' ->
  behaves (and_then (lift (validate_updated url_Parse toml_Unmarshal updated cfg'))
             (fun _ => and_then (writeAtomic e updated meta) (fun _ => ok true))) t2 r ->
  edit_behaves m (t1 ++ t2) r.
Proof.
  intros Hr He [(t3 & t4 & [] & -> & [-> Hv] & H)|(err & [-> Hv] & ->)]%behaves_and_then.
  - symmetry in Hv. apply validate_updated_Ok in Hv as [Hp Hw].
    apply behaves_and_then in H as [(t5 & t6 & [] & -> & H1 & [-> ->])|(err & H & ->)].
    + by eapply (EB_write _ _ _ t1 t5); rewrite ?app_nil_r.
    + by eapply (EB_write _ _ _ t1 t4).
  - destruct Hr as (i1 & i2 & -> & _). apply (EB_refused _ _ _ err); [by_calls|done].
Qed.

Lemma policy_read_looks t data cfg meta :
  policy_read e url_Parse toml_Unmarshal t data cfg meta -> looks t.
Proof. intros (i1 & i2 & -> & _). by_calls. Qed.

(** The common head of the edits: the policy, and the project. *)
Lemma edit_head {A} (k : string -> Config -> fileMetadata -> io A) t r :
  behaves (and_then (readPolicy url_Parse toml_Unmarshal e) (fun p => let '(data, cfg, meta) := p in k data cfg meta)) t r ->
  (exists err, looks t /\ r = Err err)
  \/ exists t1 t2 data cfg meta, t = t1 ++ t2
       /\ policy_read e url_Parse toml_Unmarshal t1 data cfg meta /\ behaves (k data cfg meta) t2 r.
Proof.
  intros [(t1 & t2 & [[data cfg] meta] & -> & H1 & H)|(err & H & ->)]%behaves_and_then.
  - apply readPolicy_behaves in H1 as [_ H1]. right. exists t1, t2, data, cfg, meta. by auto.
  - apply readPolicy_behaves in H as [H _]. left. by exists err.
Qed.

Lemma edit_stop m t1 t2 data cfg meta err r :
  policy_read e url_Parse toml_Unmarshal t1 data cfg meta -> behaves (fail err : io bool) t2 r ->
  edit_behaves m (t1 ++ t2) r.
Proof.
  intros Hr [-> ->]. eapply EB_refused; [|done]. rewrite app_nil_r. by eapply policy_read_looks.
Qed.

Lemma edit_nothing m t1 t2 data cfg meta r :
  policy_read e url_Parse toml_Unmarshal t1 data cfg meta -> edited m cfg = Some cfg ->
  behaves (ok false : io bool) t2 r -> edit_behaves m (t1 ++ t2) r.
Proof. intros Hr He [-> ->]. rewrite app_nil_r. by eapply EB_nothing. Qed.

Lemma edit_project {A} cfg alias (k : nat -> io A) t r :
  behaves (and_then (lift (findProject cfg alias)) k) t r ->
  (exists err, behaves (fail err : io A) t r)
  \/ exists i, find_index alias (cfg_Projects cfg) = Some i /\ behaves (k i) t r.
Proof.
  intros [(t1 & t2 & i & -> & [-> Hi] & H)|(err & [-> _] & ->)]%behaves_and_then; [right|left; by exists err].
  exists i. split; [|done]. by apply findProject_Ok.
Qed.

Lemma edit_text {A} (x : result text_error string) (k : string -> io A) t r :
  behaves (and_then (lift (wrap_err EText x)) k) t r ->
  (exists err, behaves (fail err : io A) t r) \/ exists updated, x = Ok updated /\ behaves (k updated) t r.
Proof.
  intros [(t1 & t2 & u & -> & [-> Hi] & H)|(err & [-> _] & ->)]%behaves_and_then; [right|left; by exists err].
  exists u. split; [|done]. symmetry in Hi. by apply wrap_err_Ok in Hi.
Qed.

Lemma mutate_behaves m t r : behaves (mutate m) t r -> edit_behaves m t r.
Proof.
  destruct m as [i|a u|a mode|a argv|a argv]; cbn [mutate].
  - unfold CreateProject.
    intros [(t1 & t2 & [] & -> & [-> Hv] & H)|(err & [-> _] & ->)]%behaves_and_then;
      [|by eapply EB_refused; [by_calls|]].
    apply edit_head in H as [(err & Hl & ->)|(t3 & t4 & data & cfg & meta & -> & Hr & H)];
      [by eapply EB_refused|].
    cbn [app]. rewrite existsb_alias in H. case_bool_decide as Hin; [by eapply edit_stop|].
    eapply edit_tail; [done| |exact H]. unfold edited. by rewrite bool_decide_false.
  - unfold UpdateProjectMetadata.
    intros [(t1 & t2 & [] & -> & [-> Hv] & H)|(err & [-> _] & ->)]%behaves_and_then;
      [|by eapply EB_refused; [by_calls|]].
    apply edit_head in H as [(err & Hl & ->)|(t3 & t4 & data & cfg & meta & -> & Hr & H)];
      [by eapply EB_refused|].
    cbn [app]. apply edit_project in H as [(err & H)|(i & Hi & H)]; [by eapply edit_stop|].
    apply behaves_and_then in H as [(t5 & t6 & [[updated p] changed] & -> & [-> Hu] & H)|(err & [-> _] & ->)];
      [|by eapply (edit_stop _ _ [])].
    symmetry in Hu. apply update_fields_spec in Hu as [-> Hp].
    assert (He : edited (MUpdateProjectMetadata a u) cfg
                 = Some (with_projects cfg (<[i:=set_metadata u (project_at cfg i)]> (cfg_Projects cfg)))).
    { unfold edited, at_alias. by rewrite Hi. }
    destruct changed; cbn [negb app] in *; [by eapply edit_tail|].
    eapply edit_nothing; [done| |exact H]. cbn [edited]. apply (at_alias_id _ _ _ i); auto.
  - unfold SetApproval.
    intros [(t1 & t2 & approval & -> & [-> Hv] & H)|(err & [-> _] & ->)]%behaves_and_then;
      [|by eapply EB_refused; [by_calls|]].
    apply edit_head in H as [(err & Hl & ->)|(t3 & t4 & data & cfg & meta & -> & Hr & H)];
      [by eapply EB_refused|].
    cbn [app]. apply edit_project in H as [(err & H)|(i & Hi & H)]; [by eapply edit_stop|].
    destruct (String.eqb_spec (Approval (project_at cfg i)) approval) as [Ha|Ha].
    { eapply edit_nothing; [done| |exact H]. cbn [edited]. rewrite <- Hv.
      apply (at_alias_id _ _ _ i); [done|]. unfold with_approval. subst. by destruct (project_at cfg i). }
    apply edit_text in H as [(err & H)|(updated & Hx & H)]; [by eapply edit_stop|].
    eapply edit_tail; [done| |exact H]. cbn [edited]. rewrite <- Hv. unfold at_alias. by rewrite Hi.
  - unfold AddAllowlist. destruct (Nat.eqb _ 0); [intros [-> ->]; by eapply EB_refused; [by_calls|]|].
    intros H. apply edit_head in H as [(err & Hl & ->)|(t3 & t4 & data & cfg & meta & -> & Hr & H)];
      [by eapply EB_refused|].
    apply edit_project in H as [(err & H)|(i & Hi & H)]; [by eapply edit_stop|].
    rewrite existsb_argv in H. case_bool_decide as Hin.
    { eapply edit_nothing; [done| |exact H]. cbn [edited]. apply (at_alias_id _ _ _ i); [done|].
      unfold add_entry. by rewrite bool_decide_true. }
    apply edit_text in H as [(err & H)|(updated & Hx & H)]; [by eapply edit_stop|].
    eapply edit_tail; [done| |exact H]. cbn [edited]. unfold at_alias. rewrite Hi.
    unfold add_entry. simpl. by rewrite bool_decide_false.
  - unfold RemoveAllowlist. destruct (Nat.eqb _ 0); [intros [-> ->]; by eapply EB_refused; [by_calls|]|].
    intros H. apply edit_head in H as [(err & Hl & ->)|(t3 & t4 & data & cfg & meta & -> & Hr & H)];
      [by eapply EB_refused|].
    apply edit_project in H as [(err & H)|(i & Hi & H)]; [by eapply edit_stop|].
    destruct (Nat.eqb_spec (length (matching argv 0 (Allow (project_at cfg i)))) 0) as [Hm|Hm].
    { eapply edit_nothing; [done| |exact H]. cbn [edited]. apply (at_alias_id _ _ _ i); [done|].
      apply nil_length_inv, matching_nil in Hm. unfold remove_entry. rewrite Hm.
      unfold with_allow. by destruct (project_at cfg i). }
    apply edit_text in H as [(err & H)|(updated & Hx & H)]; [by eapply edit_stop|].
    eapply edit_tail; [done| |exact H]. cbn [edited]. unfold at_alias. by rewrite Hi.
Qed.

(** The rename of a replaced policy, in a trace. *)
Definition replaced (t : list (event policy_call)) (updated : string) (m : fileMetadata) (b : bool) : Prop :=
  exists temp t1 t2, t = t1 ++ ev (Rename temp (path e)) b :: t2
    /\ ready_to_replace e t1 updated m temp /\ no_rename t2.

Lemma renamed_in t from to : no_rename t -> Rename from to ∉ calls t.
Proof. unfold no_rename. rewrite Forall_forall. intros H Hin. by apply H in Hin. Qed.

Lemma writeAtomic_renames data m t r from to :
  behaves (writeAtomic e data m) t r -> Rename from to ∈ calls t ->
  to = path e /\ exists b, replaced t data m b /\ (r = Ok tt -> b = true).
Proof.
  intros H Hin. apply writeAtomic_behaves in H as [_ [[Hn _]|(temp & t1 & b & t2 & -> & Hr & Hn & _ & Hok & _)]].
  { by apply (renamed_in _ _ _ Hn) in Hin. }
  rewrite calls_app, elem_of_app in Hin. destruct Hin as [Hin|Hin].
  - exfalso. destruct Hr as (i1 & i2 & uid & gid & -> & _). revert Hin. apply renamed_in.
    destruct (_ || _); by_calls.
  - cbn in Hin. apply elem_of_cons in Hin as [[= -> ->]|Hin]; [|by apply (renamed_in _ _ _ Hn) in Hin].
    split; [done|]. exists b. split; [by exists temp, t1, t2|done].
Qed.

(** The policy is only ever replaced by the edit that was asked for:
    whatever the file system answers, if an edit renames a file at all then it
    had read a valid policy, at the displayed revision if there is one; the
    text it puts in its place parses to exactly the configuration the edit
    is meant to produce, which a worker accepts; and the rename happens under
    the lock, from a fully written temporary file with the policy's owner and
    mode, after two more looks found the policy unchanged. *)
Theorem policy_replaced_only_by_intended_edit {S} (h : handler policy_call S) m s from to :
  let t := trace_of h (mutate m) s in
  Rename from to ∈ calls t ->
  to = path e
  /\ exists t1 t2 data cfg meta updated cfg' b,
       t = t1 ++ t2 /\ policy_read e url_Parse toml_Unmarshal t1 data cfg meta
       /\ edited m cfg = Some cfg'
       /\ Parse url_Parse toml_Unmarshal updated = Ok cfg' /\ ValidateWorker cfg' = Ok tt
       /\ replaced t2 updated meta b.
Proof.
  intros t Hin. destruct (mutate_behaves m t _ (run_behaves h (mutate m) s))
    as [err Hl _|data cfg meta Hr _ _|t1 t2 data cfg meta updated cfg' w Ht Hr He Hp Hv Hw _].
  - by apply looks_no_rename, (renamed_in _ from to) in Hl.
  - by apply policy_read_looks, looks_no_rename, (renamed_in _ from to) in Hr.
  - rewrite Ht, calls_app, elem_of_app in Hin. destruct Hin as [Hin|Hin].
    { by apply policy_read_looks, looks_no_rename, (renamed_in _ from to) in Hr. }
    destruct (writeAtomic_renames _ _ _ _ _ _ Hw Hin) as [-> (b & Hrep & _)].
    split; [done|]. by exists t1, t2, data, cfg, meta, updated, cfg', b.
Qed.

(** C18: an edit reports what it did: it answers "changed" only if the policy was
    replaced by the intended configuration's text; it answers "no change" only
    if the policy it read already is the intended configuration, and then it
    has only looked at files; and whatever it answers, no temporary file is
    left behind. *)
Theorem edit_result_exact {S} (h : handler policy_call S) m s :
  let t := trace_of h (mutate m) s in
  let r := result_of h (mutate m) s in
  (r = Ok true -> exists t1 t2 data cfg meta updated cfg',
     t = t1 ++ t2 /\ policy_read e url_Parse toml_Unmarshal t1 data cfg meta
     /\ edited m cfg = Some cfg' /\ Parse url_Parse toml_Unmarshal updated = Ok cfg'
     /\ replaced t2 updated meta true)
  /\ (r = Ok false -> looks t /\ exists data cfg meta,
        policy_read e url_Parse toml_Unmarshal t data cfg meta /\ edited m cfg = Some cfg)
  /\ no_temp_left e t.
Proof.
  intros t r. destruct (mutate_behaves m t r (run_behaves h (mutate m) s))
    as [err Hl ->|data cfg meta Hr He ->|t1 t2 data cfg meta updated cfg' w Ht Hr He Hp Hv Hw Hres].
  - split_and!; [done|done|]. intros temp Hin. exfalso. revert Hin. apply temp_free_created.
    eapply Forall_impl; [exact Hl|]. by intros [].
  - split_and!; [done| |].
    + intros _. split; [by eapply policy_read_looks|]. by exists data, cfg, meta.
    + destruct Hr as (i1 & i2 & -> & _). apply no_temp_left_free. by_calls.
  - rewrite Ht. pose proof (writeAtomic_behaves _ _ _ _ _ Hw) as [Hleft Hcase]. split_and!.
    + intros Hr1. rewrite Hres in Hr1. destruct w as [[]|]; [|done].
      destruct Hcase as [[_ Hn]|(temp & t3 & b & t4 & Ht2 & Hready & Hn & _ & Hok & _)]; [done|].
      exists t1, t2, data, cfg, meta, updated, cfg'. split_and!; try done.
      exists temp, t3, t4. by rewrite <- (Hok eq_refl).
    + intros Hr0. rewrite Hres in Hr0. by destruct w.
    + apply no_temp_left_app; [|done]. destruct Hr as (i1 & i2 & -> & _).
      apply no_temp_left_free. by_calls.
Qed.

End Mutations.

(** ** What an edit means to the broker *)

Definition target (m : mutation) : string :=
  match m with
  | MCreateProject i => pi_Alias i
  | MUpdateProjectMetadata a _ | MSetApproval a _ | MAddAllowlist a _ | MRemoveAllowlist a _ => a
  end.

Lemma find_alias_index alias ps :
  find_alias alias ps = (i ← find_index alias ps; ps !! i).
Proof.
  induction ps as [|p ps IH]; [done|]. simpl. destruct (String.eqb (Alias p) alias); [done|].
  rewrite IH. by destruct (find_index alias ps).
Qed.

Lemma find_alias_insert a ps i p p' :
  find_index a ps = Some i -> ps !! i = Some p -> Alias p' = a ->
  find_alias a (<[i := p']> ps) = Some p'
  /\ forall b, b <> a -> find_alias b (<[i := p']> ps) = find_alias b ps.
Proof.
  intros Hi Hp Ha. revert i Hi Hp. induction ps as [|q ps IH]; intros i Hi Hp; [done|]. simpl in Hi.
  destruct (String.eqb_spec (Alias q) a) as [Hq|Hq].
  - injection Hi as <-. simpl. rewrite Ha, String.eqb_refl. split; [done|]. intros b Hb.
    rewrite Hq. by apply not_eq_sym, String.eqb_neq in Hb as ->.
  - destruct (find_index a ps) as [j|]; [|done]. injection Hi as <-. simpl in *.
    destruct (IH j eq_refl Hp) as [IH1 IH2]. apply String.eqb_neq in Hq. rewrite Hq.
    split; [done|]. intros b Hb. by rewrite (IH2 b Hb).
Qed.

(** Everything but the projects is the same, and so is every other project. *)
Definition only_project_differs (a : string) (cfg cfg' : Config) : Prop :=
  cfg_Runtime cfg' = cfg_Runtime cfg /\ cfg_TokenSource cfg' = cfg_TokenSource cfg
  /\ cfg_ApprovalSource cfg' = cfg_ApprovalSource cfg
  /\ forall b, b <> a -> lookup_project cfg' b = lookup_project cfg b.

Lemma at_alias_spec a f cfg cfg' :
  (forall p, Alias (f p) = Alias p) -> at_alias a f cfg = Some cfg' ->
  only_project_differs a cfg cfg'
  /\ exists p, lookup_project cfg a = Some p /\ lookup_project cfg' a = Some (f p).
Proof.
  intros Hf. unfold at_alias. destruct (find_index a (cfg_Projects cfg)) as [i|] eqn:Ei; [|done].
  intros [= <-]. destruct (project_at_lookup _ _ _ Ei) as [Hp Ha].
  destruct (find_alias_insert _ _ _ _ (f (project_at cfg i)) Ei Hp) as [H1 H2]; [by rewrite Hf|].
  split; [by split_and!|]. exists (project_at cfg i). unfold lookup_project. simpl.
  split; [|done]. by rewrite find_alias_index, Ei.
Qed.

Lemma find_alias_app a ps q :
  a ∉ map Alias ps -> find_alias a (ps ++ [q]) = (if String.eqb (Alias q) a then Some q else None)
  /\ find_alias a ps = None.
Proof.
  induction ps as [|p ps IH]; [done|]. cbn [map]. rewrite not_elem_of_cons. intros [Hn Hps].
  simpl. apply not_eq_sym, String.eqb_neq in Hn as ->. by apply IH.
Qed.

Lemma find_alias_snoc_ne b ps q : b <> Alias q -> find_alias b (ps ++ [q]) = find_alias b ps.
Proof.
  intros Hb. induction ps as [|p ps IH]; simpl; [|by rewrite IH].
  by apply not_eq_sym, String.eqb_neq in Hb as ->.
Qed.

Lemma Match_add l argv x :
  Match (l ++ [argv]) x = Match l x || bool_decide (x = argv).
Proof.
  apply eq_true_iff_eq. rewrite orb_true_iff, !Match_iff, bool_decide_eq_true, elem_of_app, list_elem_of_singleton.
  done.
Qed.

(** An edit changes the broker's view of the named project and of nothing
    else.  The runtime, the token source, the approval source and every other
    project stay; adding an argv lets exactly that argv match the allowlist in
    addition, removing one stops exactly that one; a new project starts with
    an empty allowlist and confirmation required. *)
Theorem edit_effect m cfg cfg' :
  edited m cfg = Some cfg' ->
  only_project_differs (target m) cfg cfg'
  /\ exists p', lookup_project cfg' (target m) = Some p'
  /\ match m with
     | MCreateProject i =>
         lookup_project cfg (target m) = None
         /\ p' = mkProject (pi_Alias i) (pi_BWSProjectID i) (pi_TokenEntry i) (pi_WorkingDir i)
                   "allowlisted-prompt" []
     | _ => exists p, lookup_project cfg (target m) = Some p
         /\ match m with
            | MSetApproval _ mode =>
                p' = with_approval p (Approval p')
                /\ (mode = "automatic" /\ Approval p' = "never"
                    \/ mode = "confirm" /\ Approval p' = "allowlisted-prompt")
            | MAddAllowlist _ argv =>
                p' = with_allow p (Allow p')
                /\ forall x, Match (AllowArgv p') x = Match (AllowArgv p) x || bool_decide (x = argv)
            | MRemoveAllowlist _ argv =>
                p' = with_allow p (Allow p')
                /\ forall x, Match (AllowArgv p') x = Match (AllowArgv p) x && negb (bool_decide (x = argv))
            | MUpdateProjectMetadata _ u =>
                AllowArgv p' = AllowArgv p /\ Approval p' = Approval p
                /\ BWSProjectID p' = default (BWSProjectID p) (pu_BWSProjectID u)
                /\ TokenEntry p' = default (TokenEntry p) (pu_TokenEntry u)
                /\ WorkingDir p' = default (WorkingDir p) (pu_WorkingDir u)
            | MCreateProject _ => False
            end
     end.
Proof.
  destruct m as [i|a u|a mode|a argv|a argv]; cbn [edited target].
  - case_bool_decide as Hin; [done|]. intros [= <-]. split.
    + split_and!; [done..|]. intros b Hb. by apply find_alias_snoc_ne.
    + destruct (find_alias_app _ _ (mkProject (pi_Alias i) (pi_BWSProjectID i) (pi_TokenEntry i)
        (pi_WorkingDir i) ApprovalAllowlistedPrompt []) Hin) as [H1 H2].
      simpl in H1. rewrite String.eqb_refl in H1. eexists. split; [exact H1|]. by split.
  - intros H. apply at_alias_spec in H as (Ho & p & Hp & Hp'); [|done].
    split; [done|]. eexists. split; [exact Hp'|]. by exists p.
  - destruct (storedApproval mode) as [ap|] eqn:Em; [|done]. intros H.
    apply at_alias_spec in H as (Ho & p & Hp & Hp'); [|done].
    split; [done|]. eexists. split; [exact Hp'|]. exists p. split_and!; [done|done|].
    unfold storedApproval in Em.
    destruct (String.eqb_spec mode ModeAutomatic) as [->|]; [injection Em as <-; by left|].
    destruct (String.eqb_spec mode ModeConfirm) as [->|]; [injection Em as <-; by right|done].
  - intros H. apply at_alias_spec in H as (Ho & p & Hp & Hp');
      [|intros p; unfold add_entry; by case_bool_decide].
    split; [done|]. eexists. split; [exact Hp'|]. exists p. split; [done|]. unfold add_entry.
    case_bool_decide as Hin.
    + split; [by destruct p|]. intros x. case_bool_decide as Hx; [|by rewrite orb_false_r].
      subst x. rewrite orb_true_r. by apply Match_iff.
    + split; [done|]. intros x. unfold AllowArgv. cbn. rewrite map_app. apply Match_add.
  - intros H. apply at_alias_spec in H as (Ho & p & Hp & Hp'); [|done].
    split; [done|]. eexists. split; [exact Hp'|]. exists p. split_and!; [done|done|].
    intros x. apply eq_true_iff_eq. unfold AllowArgv, remove_entry. cbn.
    rewrite andb_true_iff, !Match_iff, negb_true_iff, bool_decide_eq_false, !list_elem_of_fmap.
    setoid_rewrite list_elem_of_filter. naive_solver.
Qed.

(** ** Removal and restoration *)

Section Recovery.
Context (url_Parse : string -> option URL) (toml_Unmarshal : string -> option Config).
Context (e : Editor).

(** The removal of project [i], as text and as configuration. *)
Definition removes (alias data : string) (cfg : Config) (updated : string) (i : nat) : Prop :=
  find_index alias (cfg_Projects cfg) = Some i /\ length (cfg_Projects cfg) <> 1%nat
  /\ removeProjectSpan data (length (cfg_Projects cfg)) i = Ok updated
  /\ Parse url_Parse toml_Unmarshal updated = Ok (without cfg i)
  /\ ValidateWorker (without cfg i) = Ok tt.

Lemma fresh_artifact_passes id alias data cfg updated i created :
  Parse url_Parse toml_Unmarshal data = Ok cfg -> ValidateWorker cfg = Ok tt ->
  removes alias data cfg updated i ->
  check_artifact url_Parse toml_Unmarshal
    (artifact_of (mkRecoveryArtifactInput id alias data updated) created) updated (without cfg i) = Ok tt.
Proof.
  intros Hp Hv (Hi & _ & Hr & _ & _). unfold check_artifact, artifact_of. cbn.
  rewrite String.eqb_refl. cbn. rewrite Hp. cbn. rewrite Hv. cbn. rewrite Hi.
  rewrite bool_decide_true by done. cbn. rewrite Hr. cbn. by rewrite String.eqb_refl.
Qed.

Lemma publish_looks t1 input a t2 : looks t1 -> no_rename t2 -> no_rename (t1 ++ ev (Publish input) a :: t2).
Proof. intros H1%looks_no_rename H2. apply no_rename_app. split; [done|]. by constructor. Qed.

(** What [RemoveProject] does: refused without touching the policy, or
    published and then written. *)
Lemma RemoveProject_behaves alias confirmation recoveryID t r :
  behaves (RemoveProject url_Parse toml_Unmarshal e alias confirmation recoveryID) t r ->
  (no_rename t /\ Changed r.1 = false /\ r.2 <> None)
  \/ (confirmation = alias /\ recovery_id_ok recoveryID = true
      /\ exists t1 t2 data cfg meta updated i w,
        t = t1 ++ ev (Publish (mkRecoveryArtifactInput recoveryID alias data updated)) (Ok tt) :: t2
        /\ policy_read e url_Parse toml_Unmarshal t1 data cfg meta
        /\ removes alias data cfg updated i
        /\ behaves (writeAtomic e updated meta) t2 w
        /\ r = (mkRecoveryResult (is_ok w) recoveryID, match w with Ok _ => None | Err err => Some err end)).
Proof.
  assert (Href : forall err t r, behaves (mret (mkRecoveryResult false "", Some err) :
            prog policy_call (RecoveryResult * option editor_error)) t r ->
            no_rename t /\ Changed r.1 = false /\ r.2 <> None).
  { intros err t' r' [-> ->]. by split_and!; [by_calls|..]. }
  unfold RemoveProject. cbv zeta.
  destruct (negb (recovery e)); [left; by eapply Href|].
  destruct (String.eqb confirmation ""); [left; by eapply Href|].
  destruct (String.eqb_spec confirmation alias) as [->|]; cbn [negb]; [|left; by eapply Href].
  intros (tp & tw & [[updated meta]|err] & -> & Hp & Hw)%behaves_bind.
  - right. split; [done|].
    apply behaves_and_then in Hp as [(t1 & t2 & [] & -> & [-> Hid] & Hp)|(? & _ & ?)]; [|done].
    unfold validateRecoveryID in Hid. symmetry in Hid. inv_ok. boolP. split; [done|].
    apply edit_head in Hp as [(err & _ & ?)|(t3 & t4 & data & cfg & meta' & -> & Hr & Hp)]; [done|].
    apply edit_project in Hp as [(err & _ & ?)|(i & Hi & Hp)]; [done|].
    destruct (Nat.eqb_spec (length (cfg_Projects cfg)) 1) as [|Hlen]; [by destruct Hp|].
    apply edit_text in Hp as [(err & _ & ?)|(updated' & Hx & Hp)]; [done|].
    apply behaves_and_then in Hp as [(t5 & t6 & [] & -> & [-> Hv] & Hp)|(? & _ & ?)]; [|done].
    symmetry in Hv. apply validate_updated_Ok in Hv as [Hpu Hvu].
    revert Hw. inv_io. intros (t7 & t8 & w & -> & Hw & Hres)%behaves_bind.
    assert (Ht8 : t8 = []) by (destruct w; by destruct Hres). subst t8.
    match goal with |- context [ev (Publish _) (Ok ?x)] => destruct x end.
    eexists t3, t7, data, cfg, _, _, i, w. split_and!; [|exact Hr|by split_and!|exact Hw|].
    + rewrite app_nil_r. cbn. by rewrite <- app_assoc.
    + destruct w; by destruct Hres.
  - destruct Hw as [-> ->]. left. split_and!; [|done..]. rewrite app_nil_r.
    apply behaves_and_then in Hp as [(t1 & t2 & [] & -> & [-> _] & Hp)|(? & [-> _] & _)]; [|by_calls].
    apply edit_head in Hp as [(err' & Hl & _)|(t3 & t4 & data & cfg & meta & -> & Hr & Hp)];
      [by apply looks_no_rename|].
    apply policy_read_looks, looks_no_rename in Hr. cbn [app]. apply no_rename_app. split; [done|].
    inv_io; by_calls.
Qed.

(** A removal can be undone: a policy is replaced by [RemoveProject] only
    after the confirmation matched the alias, and after an artifact with the
    whole text before and the digest of the text after was published; the text
    written is the old one without the project's block and parses to the
    old configuration without the project, which was not the last one; and
    that artifact passes every check of [RestoreProject] as long as the policy
    holds the text written. *)
Theorem removal_is_recoverable {S} (h : handler policy_call S) alias confirmation recoveryID s from to :
  let p := RemoveProject url_Parse toml_Unmarshal e alias confirmation recoveryID in
  Rename from to ∈ calls (trace_of h p s) ->
  to = path e /\ confirmation = alias
  /\ exists t1 t2 data cfg meta updated i b,
       let input := mkRecoveryArtifactInput recoveryID alias data updated in
       trace_of h p s = t1 ++ ev (Publish input) (Ok tt) :: t2
       /\ policy_read e url_Parse toml_Unmarshal t1 data cfg meta
       /\ removes alias data cfg updated i
       /\ replaced e t2 updated meta b
       /\ forall created, check_artifact url_Parse toml_Unmarshal (artifact_of input created) updated
                           (without cfg i) = Ok tt.
Proof.
  cbv zeta. intros Hin.
  destruct (RemoveProject_behaves alias confirmation recoveryID _ _ (run_behaves h _ s))
    as [(Hn & _)|(-> & _ & t1 & t2 & data & cfg & meta & updated & i & w & Ht & Hr & Hrm & Hw & _)].
  { by apply (renamed_in _ from to) in Hn. }
  rewrite Ht in *. rewrite calls_app, elem_of_app in Hin. destruct Hin as [Hin|Hin].
  { by apply policy_read_looks, looks_no_rename, (renamed_in _ from to) in Hr. }
  rewrite calls_cons in Hin. apply elem_of_cons in Hin as [Hin|Hin]; [done|].
  destruct (writeAtomic_renames _ _ _ _ _ _ _ Hw Hin) as [-> (b & Hrep & _)].
  do 2 (split; [done|]). exists t1, t2, data, cfg, meta, updated, i, b.
  split_and!; try done. intros created. destruct Hr as (i1 & i2 & _ & _ & _ & _ & Hp & Hv).
  by eapply fresh_artifact_passes.
Qed.

Lemma check_artifact_Ok a data cfg :
  check_artifact url_Parse toml_Unmarshal a data cfg = Ok tt <->
  digestBytes data = AfterSHA256 a
  /\ exists stored i, Parse url_Parse toml_Unmarshal (Policy a) = Ok stored
       /\ ValidateWorker stored = Ok tt /\ find_index (ra_Project a) (cfg_Projects stored) = Some i
       /\ without stored i = cfg
       /\ removeProjectSpan (Policy a) (length (cfg_Projects stored)) i = Ok data.
Proof.
  unfold check_artifact. rewrite fail_if_Ok, negb_false_iff, String.eqb_eq, bind_Ok.
  setoid_rewrite wrap_err_Ok. setoid_rewrite bind_Ok. setoid_rewrite wrap_err_Ok. split.
  - intros (Hd & stored & Hp & [] & Hv & H). split; [done|]. exists stored.
    destruct (find_index _ _) as [i|]; [|done]. inv_ok. boolP. subst. by exists i.
  - intros (Hd & stored & i & Hp & Hv & Hi & Hw & Hr). split; [done|]. exists stored. split; [done|].
    exists tt. split; [done|]. rewrite Hi, bool_decide_true by done. cbn. rewrite Hr. cbn.
    by rewrite String.eqb_refl.
Qed.

(** What [RestoreProject] does: refused without touching the policy, or
    written from a checked artifact. *)
Lemma RestoreProject_behaves recoveryID confirmation t r :
  behaves (RestoreProject url_Parse toml_Unmarshal e recoveryID confirmation) t r ->
  (no_rename t /\ Changed r.1 = false)
  \/ exists a t1 t2 data cfg meta w,
       t = ev (ReadArtifact recoveryID) (Ok a) :: t1 ++ t2
       /\ confirmation = ra_Project a
       /\ policy_read e url_Parse toml_Unmarshal t1 data cfg meta
       /\ check_artifact url_Parse toml_Unmarshal a data cfg = Ok tt
       /\ behaves (writeAtomic e (Policy a) meta) t2 w /\ Changed r.1 = is_ok w.
Proof.
  unfold RestoreProject. cbv zeta.
  destruct (negb (recovery e)); [intros [-> ->]; left; by split; [by_calls|]|].
  destruct (String.eqb confirmation ""); [intros [-> ->]; left; by split; [by_calls|]|].
  intros (t0 & t3 & a & -> & (? & ? & -> & -> & <-) & H)%behaves_bind.
  destruct a as [a|err]; [|destruct H as [-> ->]; left; by split; [by_calls|]].
  apply behaves_bind in H as (tp & t4 & w & -> & Hp & Hres).
  assert (Ht4 : t4 = [] /\ Changed r.1 = is_ok w) by (destruct w; by destruct Hres as [-> ->]).
  destruct Ht4 as [-> Hr]. rewrite app_nil_r. clear Hres.
  destruct (String.eqb_spec confirmation (ra_Project a)) as [Hc|]; cbn [negb] in Hp.
  2:{ destruct Hp as [-> ->]. left. split; [by_calls|done]. }
  apply edit_head in Hp as [(err & Hl & ->)|(t1 & t2 & data & cfg & meta & -> & Hread & Hp)].
  { left. split; [|done]. cbn. constructor; [done|]. by apply looks_no_rename. }
  apply behaves_and_then in Hp as [(t5 & t6 & [] & -> & [-> Hchk] & Hp)|(err & [-> _] & ->)].
  - right. by exists a, t1, t6, data, cfg, meta, w.
  - left. split; [|done]. rewrite app_nil_r. cbn. constructor; [done|].
    by eapply looks_no_rename, policy_read_looks.
Qed.

(** A restoration puts back exactly what was removed: [RestoreProject]
    replaces the policy only by the artifact's stored text, and only if the
    confirmation names the artifact's project, the current policy still has
    the recorded digest, and cutting that project out of the stored text gives
    the current text byte for byte; it answers "changed" only then. *)
Theorem restore_exact {S} (h : handler policy_call S) recoveryID confirmation s :
  let p := RestoreProject url_Parse toml_Unmarshal e recoveryID confirmation in
  let t := trace_of h p s in
  let r := result_of h p s in
  (Changed r.1 = true -> exists from, ev (Rename from (path e)) true ∈ t)
  /\ forall from to, Rename from to ∈ calls t ->
       to = path e
       /\ exists a t1 t2 data cfg meta stored i b,
            t = ev (ReadArtifact recoveryID) (Ok a) :: t1 ++ t2
            /\ confirmation = ra_Project a
            /\ policy_read e url_Parse toml_Unmarshal t1 data cfg meta
            /\ digestBytes data = AfterSHA256 a
            /\ Parse url_Parse toml_Unmarshal (Policy a) = Ok stored
            /\ find_index (ra_Project a) (cfg_Projects stored) = Some i
            /\ without stored i = cfg
            /\ removeProjectSpan (Policy a) (length (cfg_Projects stored)) i = Ok data
            /\ replaced e t2 (Policy a) meta b
            /\ (Changed r.1 = true -> b = true).
Proof.
  intros p t r. destruct (RestoreProject_behaves recoveryID confirmation t r (run_behaves h p s))
    as [[Hn ->]|(a & t1 & t2 & data & cfg & meta & w & Ht & Hc & Hr & Hchk & Hw & Hch)].
  { split; [done|]. intros from to Hin. by apply (renamed_in _ from to) in Hn. }
  split.
  - rewrite Hch. intros Hok. destruct w as [[]|]; [|done].
    apply writeAtomic_behaves in Hw as [_ [[_ ?]|(temp & t3 & b & t4 & -> & _ & _ & _ & Hb & _)]]; [done|].
    exists temp. rewrite Ht, (Hb eq_refl). set_solver.
  - intros from to Hin. rewrite Ht in Hin. rewrite calls_cons, calls_app, elem_of_cons, elem_of_app in Hin.
    destruct Hin as [Hin|[Hin|Hin]]; [done| |].
    { by apply policy_read_looks, looks_no_rename, (renamed_in _ from to) in Hr. }
    destruct (writeAtomic_renames _ _ _ _ _ _ _ Hw Hin) as [-> (b & Hrep & Hb)]. split; [done|].
    apply check_artifact_Ok in Hchk as (Hd & stored & i & Hp & _ & Hi & Hwi & Hrm).
    exists a, t1, t2, data, cfg, meta, stored, i, b. split_and!; try done.
    rewrite Hch. intros Hok. apply Hb. by destruct w as [[]|].
Qed.
End Recovery.
