(* ===== verification/PolicyWorld.v ===== *)
(** * PolicyWorld: a policy file to run the editor on

    An executable file system with one policy in it, and a small policy with
    two projects.  The editor's theorems hold for every file system; their
    instances are evaluated on this one. *)

From S2P Require Import Prelude GoStrings GoText GoJson Effects Io Policy Config SecureFile Recovery PolicyText PolicyEditor.

#[local] Open Scope Z_scope.

Module World.

Record World := mkWorld {
  text : string;                                  (** the policy *)
  temp : string;                                  (** the temporary file *)
  inode : Z;                                      (** the policy's *)
  artifacts : list (string * RecoveryArtifact);   (** the recovery store, newest first *)
}.

Definition meta (w : World) : fileMetadata := mkFileMetadata 384 0 0 1 (inode w) (len (text w)) 0.

Fixpoint stored_in (l : list (string * RecoveryArtifact)) (id : string) : option RecoveryArtifact :=
  match l with
  | [] => None
  | (id', a) :: l => if String.eqb id' id then Some a else stored_in l id
  end.

(** No call fails; [file] is the policy. *)
Definition step (file : string) : handler policy_call World := fun c w =>
  match c return answer c * World with
  | TrustedDir _ => (Ok tt : result _ unit, w)
  | Lstat _ => (Some (mkFileInfo true (meta w)), w)
  | ReadFile _ _ _ _ => (Ok (text w), w)
  | OpenPolicy _ => (true, w)
  | Flock _ => (Ok tt : result _ unit, w)
  | CloseLock => (tt, w)
  | CreateTemp _ _ => (Some ".policy.toml.tmp-1", mkWorld (text w) "" (inode w) (artifacts w))
  | TempStat => (Some (0, 0), w)
  | TempChown _ _ | TempChmod _ => (true, w)
  | TempWrite d => (true, mkWorld (text w) (temp w +:+ d) (inode w) (artifacts w))
  | TempSync | TempClose => (true, w)
  | Rename _ to =>
      (true, if String.eqb to file then mkWorld (temp w) (temp w) (inode w + 1) (artifacts w) else w)
  | Remove _ => (tt, w)
  | OpenDir _ | SyncDir => (true, w)
  | CloseDir => (tt, w)
  | Publish i =>
      (Ok tt, mkWorld (text w) (temp w) (inode w) ((ri_RecoveryID i, artifact_of i 0) :: artifacts w))
  | ListArtifacts => (Ok [], w)
  | ReadArtifact id => (match stored_in (artifacts w) id with Some a => Ok a | None => Err RDecoding end, w)
  end.

(** ** A policy *)

Definition lines (l : list string) : string := List.fold_right (fun x r => x +:+ str1 LF +:+ r) "" (map dq l).

Definition head_text : string :=
  lines ["[runtime]"; "bws_binary = `/usr/bin/bws`"; "path = `/usr/bin`"; "home = `/var/lib/broker`"; "";
         "[token_source]"; "backend = `file`"; "file = { path = `/etc/broker/token` }"; "";
         "[approval_source]"; "backend = `tailscale-relay`"; ""].

Definition project_text (alias mode : string) : string :=
  lines ["[[projects]]"; "alias = `" +:+ alias +:+ "`"; "bws_project_id = `id-" +:+ alias +:+ "`";
         "token_entry = `token`"; "working_dir = `/srv/" +:+ alias +:+ "`"; "approval = `" +:+ mode +:+ "`";
         "allow = [ { argv = [`make`] } ]"].

Definition policy_text (web_mode : string) : string :=
  head_text +:+ project_text "api" ApprovalNever +:+ project_text "web" web_mode.

Definition project_of (alias mode : string) : Project :=
  mkProject alias ("id-" +:+ alias) "token" ("/srv/" +:+ alias) mode [mkAllowEntry ["make"]].

Definition config_of (ps : list Project) : Config :=
  mkConfig (mkRuntime "/usr/bin/bws" "/usr/bin" "/var/lib/broker")
    (mkTokenSource BackendFile (mkEnvSource "") (mkFileSource "/etc/broker/token"))
    (mkApprovalSource ApprovalBackendTailscaleRelay (mkTailscaleRelaySource "http://127.0.0.1:8080" 2 300))
    ps.

(** A decoder that reads these texts. *)
Definition decode (data : string) : option Config :=
  let api := project_of "api" ApprovalNever in
  if String.eqb data (policy_text ApprovalAllowlistedPrompt)
  then Some (config_of [api; project_of "web" ApprovalAllowlistedPrompt])
  else if String.eqb data (policy_text ApprovalNever)
  then Some (config_of [api; project_of "web" ApprovalNever])
  else if String.eqb data (head_text +:+ project_text "api" ApprovalNever) then Some (config_of [api])
  else None.

Definition parse_url (_ : string) : option URL := Some (mkURL "http" "127.0.0.1:8080" false "" "" "").

Definition start : World := mkWorld (policy_text ApprovalAllowlistedPrompt) "" 7 [].

Definition file : string := "/etc/secrets-broker/policy.toml".

End World.
