(* ===== verification/AdminPath.v ===== *)
(** * AdminPath: project directory readiness (internal/admin/path.go)

    The check resolves the configured directory and then asks, as each of the
    two service accounts, whether it can be entered and written, by running
    test(1) through runuser. *)

From S2P Require Import Prelude GoStrings Effects Io Exec PolicyEditor.

#[local] Open Scope Z_scope.

Definition PathResolved : string := "resolved".
Definition PathMissing : string := "missing".
Definition PathNotDirectory : string := "not_directory".
Definition PathUnresolvable : string := "unresolvable".

Record PathCheckResult := mkPathCheckResult {
  pc_Alias : string;
  ConfiguredPath : string;
  ResolvedPath : string;
  Resolution : string;
  WorkerCanEnter : bool;
  RunnerCanEnter : bool;
  RunnerCanWrite : bool;
}.

Definition Ready (r : PathCheckResult) : bool :=
  String.eqb (Resolution r) PathResolved && WorkerCanEnter r && RunnerCanEnter r.

(** ** The calls *)

Inductive lookup_error : Type :=
| NotExist                         (** [errors.Is(err, fs.ErrNotExist)] *)
| OtherFailure.

Inductive path_call : Type :=
| PEvalSymlinks (path : string)    (** [filepath.EvalSymlinks] *)
| PStat (path : string)            (** [os.Stat]: is it a directory *)
| PExec (c : exec_call).

#[export] Instance path_interface : Interface path_call := fun c =>
  match c with
  | PEvalSymlinks _ => result lookup_error string
  | PStat _ => result lookup_error bool
  | PExec c => answer c
  end.

Inductive path_error : Type :=
| EPathProject (e : editor_error)
| EWorkerProbe
| ERunnerProbe
| ERunnerWriteProbe.

Definition accessRunuserPath : string := "/usr/sbin/runuser".

Definition probe_args (user check path : string) : list string :=
  ["-u"; user; "--"; "/usr/bin/test"; check; path].

Definition probe_env : list string := ["PATH=/usr/bin:/bin"; "LC_ALL=C"].

Definition probe_call (user check path : string) : path_call :=
  PExec (ExecRun accessRunuserPath (probe_args user check path) (Some probe_env)).

(** What [probePath] makes of what [runner.Run] returned. *)
Definition probe_answer (r : result string Exec.Result) : option bool :=
  match r with
  | Err _ => None
  | Ok x =>
      if negb (String.eqb (Stdout x) "") || negb (String.eqb (Stderr x) "")
         || (ExitCode x <? 0) || (1 <? ExitCode x)
      then None else Some (ExitCode x =? 0)
  end.

Notation path_io A := (prog path_call (result path_error A)).

(** [probePath], with the error its caller wraps it in. *)
Definition probePath (e : path_error) (user check path : string) : path_io bool :=
  r ← call (probe_call user check path);
  match probe_answer (r : result string Exec.Result) with
  | None => fail e
  | Some b => ok b
  end.

Definition not_found (e : lookup_error) : string :=
  match e with NotExist => PathMissing | OtherFailure => PathUnresolvable end.

Definition checkProjectPath (project : ProjectDetail) : path_io PathCheckResult :=
  let dir := pd_WorkingDir project in
  let outcome resolved resolution w r wr :=
    mkPathCheckResult (pd_Alias project) dir resolved resolution w r wr in
  x ← call (PEvalSymlinks dir);
  match (x : result lookup_error string) with
  | Err err => ok (outcome "" (not_found err) false false false)
  | Ok resolved =>
      i ← call (PStat resolved);
      match (i : result lookup_error bool) with
      | Err err => ok (outcome "" (not_found err) false false false)
      | Ok false => ok (outcome "" PathNotDirectory false false false)
      | Ok true =>
          try! worker := probePath EWorkerProbe "secrets-broker" "-x" dir;
          try! enter := probePath ERunnerProbe "secrets-broker-runner" "-x" dir;
          if (enter : bool) then
            try! write := probePath ERunnerWriteProbe "secrets-broker-runner" "-w" dir;
            ok (outcome resolved PathResolved worker true write)
          else ok (outcome resolved PathResolved worker false false)
      end
  end.

(** [Editor.CheckProjectPath] *)
Definition CheckProjectPath (url_Parse : string -> option Config.URL)
    (toml_Unmarshal : string -> option Config.Config) (e : Editor) (alias : string)
    : prog (policy_call + path_call) (result path_error PathCheckResult) :=
  d ← on_left (GetProject url_Parse toml_Unmarshal e alias);
  match d with
  | Err err => fail (EPathProject err)
  | Ok detail => on_right (checkProjectPath detail)
  end.

(** ** Specification *)

(** The three commands the check may run. *)
Definition probes (dir : string) : list path_call :=
  [ probe_call "secrets-broker" "-x" dir;
    probe_call "secrets-broker-runner" "-x" dir;
    probe_call "secrets-broker-runner" "-w" dir ].

(** The answer of a probe that ran: nothing was printed, and test(1) exited
    with 0 or 1. *)
Definition probed (user check dir : string) (b : bool) : event path_call :=
  ev (probe_call user check dir) (Ok (Exec.mkResult "" "" (if b then 0 else 1))).

Lemma probe_answer_spec r b :
  probe_answer r = Some b <-> r = Ok (Exec.mkResult "" "" (if b then 0 else 1)).
Proof.
  unfold probe_answer. destruct r as [[out err code]|]; [|done]. cbn. split.
  - case_match; [done|]. intros [= <-]. boolP. subst.
    assert (code = 0 \/ code = 1) as [-> | ->] by lia; done.
  - intros [= -> -> ->]. by destruct b.
Qed.

Lemma probePath_behaves e user check dir t r :
  behaves (probePath e user check dir) t r <->
  exists x, t = [ev (probe_call user check dir) x]
    /\ r = match probe_answer x with Some b => Ok b | None => Err e end.
Proof.
  unfold probePath. split.
  - intros (x & t' & -> & H)%(behaves_call_inv (probe_call _ _ _)). exists x.
    cbn in *. destruct (probe_answer x); by destruct H as [-> ->].
  - intros (x & -> & ->). apply (behaves_call_bind (probe_call user check dir)).
    by destruct (probe_answer x).
Qed.

Lemma behaves_probe e user check dir (f : bool -> path_io PathCheckResult) t r :
  behaves (and_then (probePath e user check dir) f) t (Ok r) <->
  exists b t', t = probed user check dir b :: t' /\ behaves (f b) t' (Ok r).
Proof.
  rewrite behaves_and_then. split.
  - intros [(t1 & t2 & b & -> & (x & -> & Hx)%probePath_behaves & H)|(err & _ & [=])].
    destruct (probe_answer x) as [b'|] eqn:E; [|done]. injection Hx as ->.
    apply probe_answer_spec in E as ->. by exists b', t2.
  - intros (b & t' & -> & H). left. eexists [_], t', b. split_and!; [done| |done].
    apply probePath_behaves. eexists. split; [done|]. by destruct b.
Qed.

(** The ways a check can end with a result. *)
Inductive checked (project : ProjectDetail) : list (event path_call) -> PathCheckResult -> Prop :=
| CKUnresolved err :
    checked project [ev (PEvalSymlinks (pd_WorkingDir project)) (Err err)]
      (mkPathCheckResult (pd_Alias project) (pd_WorkingDir project) "" (not_found err) false false false)
| CKGone resolved err :
    checked project [ev (PEvalSymlinks (pd_WorkingDir project)) (Ok resolved); ev (PStat resolved) (Err err)]
      (mkPathCheckResult (pd_Alias project) (pd_WorkingDir project) "" (not_found err) false false false)
| CKNotDirectory resolved :
    checked project [ev (PEvalSymlinks (pd_WorkingDir project)) (Ok resolved); ev (PStat resolved) (Ok false)]
      (mkPathCheckResult (pd_Alias project) (pd_WorkingDir project) "" PathNotDirectory false false false)
| CKNoRunner resolved w :
    checked project
      [ ev (PEvalSymlinks (pd_WorkingDir project)) (Ok resolved); ev (PStat resolved) (Ok true);
        probed "secrets-broker" "-x" (pd_WorkingDir project) w;
        probed "secrets-broker-runner" "-x" (pd_WorkingDir project) false ]
      (mkPathCheckResult (pd_Alias project) (pd_WorkingDir project) resolved PathResolved w false false)
| CKRunner resolved w wr :
    checked project
      [ ev (PEvalSymlinks (pd_WorkingDir project)) (Ok resolved); ev (PStat resolved) (Ok true);
        probed "secrets-broker" "-x" (pd_WorkingDir project) w;
        probed "secrets-broker-runner" "-x" (pd_WorkingDir project) true;
        probed "secrets-broker-runner" "-w" (pd_WorkingDir project) wr ]
      (mkPathCheckResult (pd_Alias project) (pd_WorkingDir project) resolved PathResolved w true wr).

Lemma checked_behaves project t r : checked project t r -> behaves (checkProjectPath project) t (Ok r).
Proof.
  unfold checkProjectPath. cbv zeta. destruct 1.
  all: apply (behaves_call_bind (PEvalSymlinks _)); try done.
  all: apply (behaves_call_bind (PStat _)); try done.
  all: apply behaves_probe; do 2 eexists; split; [done|].
  all: apply behaves_probe; do 2 eexists; split; [done|]; cbn [ok]; try done.
  apply behaves_probe; do 2 eexists; by split.
Qed.

Lemma behaves_checked project t r : behaves (checkProjectPath project) t (Ok r) -> checked project t r.
Proof.
  unfold checkProjectPath. cbv zeta.
  intros (x & t1 & -> & H)%(behaves_call_inv (PEvalSymlinks _)).
  destruct x as [resolved|err]; [|destruct H as [-> [= ->]]; constructor].
  apply (behaves_call_inv (PStat _)) in H as (i & t2 & -> & H).
  destruct i as [[]|err]; [|destruct H as [-> [= ->]]; constructor..].
  apply behaves_probe in H as (w & t3 & -> & H). apply behaves_probe in H as (en & t4 & -> & H).
  destruct en; [|destruct H as [-> [= ->]]; constructor].
  apply behaves_probe in H as (wr & t5 & -> & [-> [= ->]]). constructor.
Qed.

(** A project is reported ready exactly when its directory resolves to a
    directory and both accounts can enter it: for every environment, a check
    that ends with a result ends in one of five ways, the result saying what
    was seen; it reports ready exactly after both accounts' probes answered
    yes; the probes of [test] as the two accounts are the only commands it
    can run, whatever it is answered. *)
Theorem checkProjectPath_exact project t :
  (forall r, behaves (checkProjectPath project) t (Ok r) <-> checked project t r)
  /\ ((exists r, behaves (checkProjectPath project) t (Ok r) /\ Ready r = true) <->
      exists resolved wr, t =
        [ ev (PEvalSymlinks (pd_WorkingDir project)) (Ok resolved); ev (PStat resolved) (Ok true);
          probed "secrets-broker" "-x" (pd_WorkingDir project) true;
          probed "secrets-broker-runner" "-x" (pd_WorkingDir project) true;
          probed "secrets-broker-runner" "-w" (pd_WorkingDir project) wr ])
  /\ (forall c, issues (checkProjectPath project) (PExec c) -> PExec c ∈ probes (pd_WorkingDir project)).
Proof.
  split; [|split].
  - intros r. split; [apply behaves_checked|apply checked_behaves].
  - split.
    + intros (r & H & Hr). apply behaves_checked in H. unfold Ready in Hr.
      destruct H as [[]|? []| |? w|? w wr]; try done; cbn in Hr; rewrite ?andb_false_r in Hr; try done.
      destruct w; [|done]. by exists resolved, wr.
    + intros (resolved & wr & ->). eexists. split; [apply checked_behaves; constructor|done].
  - intros c. unfold checkProjectPath. cbv zeta. intros [?|[x H]]; [done|].
    destruct x as [resolved|]; [|done]. destruct H as [?|[i H]]; [done|]. destruct i as [[]|]; try done.
    unfold probes. destruct H as [->|[x1 H]]; [set_solver|]. cbn in H.
    destruct (probe_answer x1); [|done].
    destruct H as [->|[x2 H]]; [set_solver|]. cbn in H. destruct (probe_answer x2) as [[]|]; try done.
    destruct H as [->|[x3 H]]; [set_solver|]. cbn in H. by destruct (probe_answer x3).
Qed.
