(* ===== verification/AdminLog.v ===== *)
(** * AdminLog: the administrator's log (internal/admin/audit.go, MutationJSONLLogger)

    Every administrator operation that can change something is bracketed by
    two records.  The interface [MutationLogger] and its implementation over
    the checked file system, which writes one JSON line for each record; an
    argv is logged only as its digest and length. *)

From S2P Require Import Prelude GoStrings GoText GoJson GoSha256 SecureFile AuditLog.

#[local] Open Scope Z_scope.

(** ** Records *)

Record MutationStart := mkMutationStart {
  ActorUID : Z;
  ms_ActorLogin : string;
  ms_Project : string;
  Operation : string;
  ApprovalMode : string;
  ms_Argv : list string;
  ms_RecoveryID : string;
  Fields : list string;
}.

Record MutationFinish := mkMutationFinish {
  mf_Outcome : string;
  mf_ActorLogin : string;
}.

(** The on-disk record; [Timestamp] in nanoseconds. *)
Record mutationRecord := mkMutationRecord {
  MutationID : string;
  mr_Timestamp : Z;
  mr_Event : string;
  mr_ActorUID : option Z;
  mr_ActorLogin : string;
  mr_Project : string;
  mr_Operation : string;
  mr_ApprovalMode : string;
  ArgvSHA256 : string;
  ArgvCount : Z;
  mr_RecoveryID : string;
  mr_Fields : list string;
  mr_Outcome : string;
}.

(** [MutationLogger] *)
Class MutationLogger (E W : Type) := {
  MStart : W -> MutationStart -> result E string * W;
  MFinish : W -> string -> MutationFinish -> result E unit * W;
}.

(** ** os.MkdirAll *)

Definition mkdir (fs : FS) (dir : string) (perm : Z) : bool * FS :=
  if io_error fs dir || bool_decide (is_Some (nodes fs !! dir)) then (false, fs)
  else (true, mkFS (<[dir := mkNode Directory (Z.land perm (Z.lnot (umask fs))) (euid fs) ""]>
                      (nodes fs)) (euid fs) (umask fs) (io_error fs)).

(** Missing directories are made from the first missing ancestor down; what
    exists is left alone.  The path is no longer than the fuel, and each
    parent is shorter. *)
Fixpoint mkdir_all (fuel : nat) (fs : FS) (dir : string) (perm : Z) : bool * FS :=
  match Stat fs dir with
  | Some n => (bool_decide (n_kind n = Directory), fs)
  | None =>
      let parent := Filepath.Dir dir in
      let '(made, fs1) :=
        match fuel with
        | O => (true, fs)
        | S fuel' =>
            if String.eqb parent dir || String.eqb parent "." then (true, fs)
            else mkdir_all fuel' fs parent perm
        end in
      if negb made then (false, fs1) else mkdir fs1 dir perm
  end.

Definition MkdirAll (fs : FS) (dir : string) (perm : Z) : bool * FS :=
  mkdir_all (String.length dir) fs dir perm.

(** ** MutationJSONLLogger *)

Inductive mutation_log_error : Type :=
| EMutationID
| ECreatingLogDir
| EValidatingLogDir (e : securefile_error)
| ELog (e : audit_error).

(** [json.Marshal(rec)] *)
Definition marshal_mutation (r : mutationRecord) : option string :=
  match Time.MarshalJSON (mr_Timestamp r) with
  | None => None
  | Some ts =>
      Some (Json.encode_object
        [Json.member "mutation_id" (Json.encode_string (MutationID r));
         Json.member "timestamp" ts;
         Json.member "event" (Json.encode_string (mr_Event r));
         match mr_ActorUID r with
         | None => None
         | Some z => Json.member "actor_uid" (Itoa.Itoa z)
         end;
         Json.omitempty "actor_login" (String.eqb (mr_ActorLogin r) "") (Json.encode_string (mr_ActorLogin r));
         Json.omitempty "project" (String.eqb (mr_Project r) "") (Json.encode_string (mr_Project r));
         Json.omitempty "operation" (String.eqb (mr_Operation r) "") (Json.encode_string (mr_Operation r));
         Json.omitempty "approval_mode" (String.eqb (mr_ApprovalMode r) "")
           (Json.encode_string (mr_ApprovalMode r));
         Json.omitempty "argv_sha256" (String.eqb (ArgvSHA256 r) "") (Json.encode_string (ArgvSHA256 r));
         Json.omitempty "argv_count" (ArgvCount r =? 0) (Itoa.Itoa (ArgvCount r));
         Json.omitempty "recovery_id" (String.eqb (mr_RecoveryID r) "") (Json.encode_string (mr_RecoveryID r));
         Json.omitempty "fields" (Nat.eqb (length (mr_Fields r)) 0) (Json.encode_strings (mr_Fields r));
         Json.omitempty "outcome" (String.eqb (mr_Outcome r) "") (Json.encode_string (mr_Outcome r))])
  end.

(** [append] *)
Definition mutation_append (path : string) (i : io) (r : mutationRecord) (fs : FS)
    : result mutation_log_error unit * FS :=
  let dir := Filepath.Dir path in
  match MkdirAll fs dir 448 with
  | (false, fs1) => (Err ECreatingLogDir, fs1)
  | (true, fs1) =>
      match ValidatePrivateDir fs1 dir with
      | Err e => (Err (EValidatingLogDir e), fs1)
      | Ok _ =>
          let '(res, fs2) := append_line path i (marshal_mutation r) fs1 in
          (wrap_err ELog res, fs2)
      end
  end.

(** [newRandomHexID]; the bytes are the environment's. *)
Definition newRandomHexID (b : option string) : option string := Hex.EncodeToString <$> b.

Definition digestArgv (argv : list string) : string := digestBytes (Json.encode_strings argv).

(** The record [Start] writes. *)
Definition start_record (id : string) (t : Z) (r : MutationStart) : mutationRecord :=
  mkMutationRecord id t "start" (Some (ActorUID r)) (ms_ActorLogin r) (ms_Project r) (Operation r)
    (ApprovalMode r)
    (if (0 <? length (ms_Argv r))%nat then digestArgv (ms_Argv r) else "")
    (Z.of_nat (length (ms_Argv r))) (ms_RecoveryID r) (Fields r) "".

Definition finish_record (id : string) (t : Z) (r : MutationFinish) : mutationRecord :=
  mkMutationRecord id t "finish" None (mf_ActorLogin r) "" "" "" "" 0 "" [] (mf_Outcome r).

Definition MutationJSONLLogger_Start (path : string) (i : io) (r : MutationStart) (fs : FS)
    : result mutation_log_error string * FS :=
  match newRandomHexID (random i) with
  | None => (Err EMutationID, fs)
  | Some mutationID =>
      let '(res, fs') := mutation_append path i (start_record mutationID (now i) r) fs in
      ((fun _ => mutationID) <$> res, fs')
  end.

Definition MutationJSONLLogger_Finish (path : string) (i : io) (mutationID : string)
    (r : MutationFinish) (fs : FS) : result mutation_log_error unit * FS :=
  mutation_append path i (finish_record mutationID (now i) r) fs.

#[export] Instance MutationJSONLLogger : MutationLogger mutation_log_error JSONLState := {
  MStart s r :=
    let '(res, fs') := MutationJSONLLogger_Start (js_path s) (next_io s) r (js_fs s) in
    (res, mkJSONLState (js_path s) fs' (tail (js_inputs s)));
  MFinish s id r :=
    let '(res, fs') := MutationJSONLLogger_Finish (js_path s) (next_io s) id r (js_fs s) in
    (res, mkJSONLState (js_path s) fs' (tail (js_inputs s)));
}.

(** ** Lemmas *)

(** Directories may be new; nothing else is. *)
Definition grows (fs fs' : FS) : Prop :=
  (forall q n, nodes fs !! q = Some n -> nodes fs' !! q = Some n)
  /\ (forall q n, nodes fs !! q = None -> nodes fs' !! q = Some n -> n_data n = "").

#[export] Instance grows_refl : Reflexive grows.
Proof. intros fs. split; [done|congruence]. Qed.

#[export] Instance grows_trans : Transitive grows.
Proof.
  intros a b c [H1 H2] [H3 H4]. split; [auto|]. intros q n Ha Hc.
  destruct (nodes b !! q) as [m|] eqn:Hb; [|by eapply H4].
  rewrite (H3 _ _ Hb) in Hc. injection Hc as ->. by eapply H2.
Qed.

Lemma mkdir_grows fs dir perm : grows fs (mkdir fs dir perm).2.
Proof.
  unfold mkdir. case_match; [done|]. boolP.
  assert (Hn : nodes fs !! dir = None) by (destruct (nodes fs !! dir); naive_solver).
  split; simpl; [intros q m Hq; rewrite lookup_insert_ne; [done|congruence]|].
  intros q m Hq Hq'. destruct (decide (dir = q)) as [<-|].
  - rewrite lookup_insert_eq in Hq'. by injection Hq' as <-.
  - rewrite lookup_insert_ne in Hq' by done. congruence.
Qed.

Lemma mkdir_all_grows fuel fs dir perm : grows fs (mkdir_all fuel fs dir perm).2.
Proof.
  revert fs dir. induction fuel as [|fuel IH]; intros fs dir; simpl;
    (destruct (Stat fs dir) as [n|]; [done|]); [apply mkdir_grows|].
  destruct (_ || _); cbn [negb]; [apply mkdir_grows|].
  specialize (IH fs (Filepath.Dir dir)). destruct (mkdir_all fuel fs _ perm) as [[] fs1]; [|done].
  etrans; [exact IH|apply mkdir_grows].
Qed.

Lemma grows_log_data fs fs' path : grows fs fs' -> log_data fs' path = log_data fs path.
Proof.
  intros [H1 H2]. unfold log_data. destruct (nodes fs !! path) as [n|] eqn:E; [by rewrite (H1 _ _ E)|].
  destruct (nodes fs' !! path) as [n|] eqn:E'; [|done]. by eapply H2.
Qed.

Lemma marshal_mutation_no_control r js :
  marshal_mutation r = Some js -> all_bytes Json.no_control js = true.
Proof.
  unfold marshal_mutation. destruct (Time.MarshalJSON (mr_Timestamp r)) as [ts|] eqn:Ets; [|done].
  apply Time.MarshalJSON_clean in Ets. intros [= <-].
  apply Json.encode_object_no_control. repeat constructor; auto with json.
  destruct (mr_ActorUID r); [auto with json|done].
Qed.

Lemma mutation_append_result path i r fs res fs' :
  mutation_append path i r fs = (res, fs') ->
  (forall q n, q <> path -> nodes fs !! q = Some n -> nodes fs' !! q = Some n)
  /\ exists w, log_data fs' path = log_data fs path +:+ w
     /\ (res = Ok tt -> exists js, marshal_mutation r = Some js /\ w = js +:+ str1 LF
           /\ count_bytes is_LF js = 0%nat).
Proof.
  unfold mutation_append. pose proof (mkdir_all_grows (String.length (Filepath.Dir path)) fs
    (Filepath.Dir path) 448) as Hg. unfold MkdirAll.
  destruct (mkdir_all _ fs _ _) as [[] fs1]; cbn [snd] in Hg; pose proof (grows_log_data _ _ path Hg) as Hd.
  2:{ intros [= <- <-]. split; [intros; by apply Hg|]. exists "". by rewrite append_empty_r. }
  destruct (ValidatePrivateDir fs1 _) as [[]|].
  2:{ intros [= <- <-]. split; [intros; by apply Hg|]. exists "". by rewrite append_empty_r. }
  destruct (append_line path i _ fs1) as [res1 fs2] eqn:Ea. intros [= <- <-].
  apply append_line_result in Ea as (Hq & w & Hw & Hok & _). split.
  - intros q n Hne Hn. rewrite Hq by done. by apply Hg.
  - exists w. rewrite Hw, Hd. split; [done|]. destruct res1 as [[]|]; [|done]. intros _.
    destruct (Hok eq_refl) as (js & Hm & -> & _). exists js. split_and!; [done|done|].
    by eapply no_control_no_LF, marshal_mutation_no_control.
Qed.

(** ** A session of the administrator's log *)

Inductive mlog_op : Type :=
| MLStart (r : MutationStart)
| MLFinish (id : string) (r : MutationFinish).

Fixpoint msession {E W} `{MutationLogger E W} (ops : list mlog_op) (w : W)
    : list (result E string) * W :=
  match ops with
  | [] => ([], w)
  | MLStart r :: ops =>
      let '(res, w1) := MStart w r in
      let '(rs, w2) := msession ops w1 in (res :: rs, w2)
  | MLFinish id r :: ops =>
      let '(res, w1) := MFinish w id r in
      let '(rs, w2) := msession ops w1 in (((fun _ => id) <$> res) :: rs, w2)
  end.

(** The record of one call. *)
Definition mop_record (o : mlog_op) (id : string) (t : Z) : mutationRecord :=
  match o with
  | MLStart r => start_record id t r
  | MLFinish _ r => finish_record id t r
  end.

Definition mop_id (o : mlog_op) (i : io) : option string :=
  match o with
  | MLStart _ => newRandomHexID (random i)
  | MLFinish id _ => Some id
  end.

(** One call: it goes through [append], or fails for want of an ID. *)
Lemma msession_cons o ops (s : JSONLState) :
  exists res s1, msession (o :: ops) s = (res :: (msession ops s1).1, (msession ops s1).2)
    /\ js_path s1 = js_path s /\ js_inputs s1 = tail (js_inputs s)
    /\ match mop_id o (next_io s) with
       | None => is_ok res = false /\ js_fs s1 = js_fs s
       | Some id => exists a, mutation_append (js_path s) (next_io s)
                                (mop_record o id (now (next_io s))) (js_fs s) = (a, js_fs s1)
                      /\ res = (fun _ => id) <$> a
       end.
Proof.
  destruct o as [r|id r]; cbn [msession MStart MFinish MutationJSONLLogger mop_id mop_record].
  - unfold MutationJSONLLogger_Start. destruct (newRandomHexID _) as [id|].
    + destruct (mutation_append _ _ _ _) as [a fs'] eqn:Ea.
      eexists _, (mkJSONLState (js_path s) fs' (tail (js_inputs s))).
      split; [by destruct (msession ops _)|]. split_and!; [done..|]. by exists a.
    + eexists _, (mkJSONLState (js_path s) (js_fs s) (tail (js_inputs s))).
      split; [by destruct (msession ops _)|]. by split_and!.
  - unfold MutationJSONLLogger_Finish. destruct (mutation_append _ _ _ _) as [a fs'] eqn:Ea.
    eexists _, (mkJSONLState (js_path s) fs' (tail (js_inputs s))).
    split; [by destruct (msession ops _)|]. split_and!; [done..|]. by exists a.
Qed.

(** The line one call that succeeded adds: its record, with only the digest
    and the length of an argv, ended by its only newline. *)
Definition mline_of (o : mlog_op) (i : io) (id line : string) : Prop :=
  mop_id o i = Some id
  /\ exists js, line = js +:+ str1 LF /\ count_bytes is_LF js = 0%nat
       /\ marshal_mutation (mop_record o id (now i)) = Some js.

(** C28: the administrator's log keeps every record and cannot be forged: over
    any calls, failing or not, what the log held stays as its beginning and
    no other file that was there changes; a call that succeeds adds a line of
    its own record, whatever bytes the fields hold, and calls that all
    succeed add exactly one line each, in order. *)
Theorem mutation_log_faithful ops (s : JSONLState) :
  let '(rs, s') := msession ops s in
  (exists w, log_data (js_fs s') (js_path s) = log_data (js_fs s) (js_path s) +:+ w)
  /\ (forall q n, q <> js_path s -> nodes (js_fs s) !! q = Some n -> nodes (js_fs s') !! q = Some n)
  /\ (forall ids, rs = map Ok ids -> exists lines,
        log_data (js_fs s') (js_path s) = log_data (js_fs s) (js_path s) +:+ concat_map id lines
        /\ length lines = length ops
        /\ forall n o, ops !! n = Some o -> exists rid line,
             ids !! n = Some rid /\ lines !! n = Some line
             /\ mline_of o (default (mkIO 0 None None true) (js_inputs s !! n)) rid line).
Proof.
  revert s. induction ops as [|o ops IH]; intros s.
  { cbn. split_and!; [exists ""; by rewrite append_empty_r|done|].
    intros ids _. exists []. split_and!; [by rewrite append_empty_r|done|done]. }
  destruct (msession_cons o ops s) as (res & s1 & -> & Hp & Hi & Hs).
  specialize (IH s1). destruct (msession ops s1) as [rs s'] eqn:E. cbn [fst snd].
  rewrite Hp in IH. destruct IH as ([w Hw] & Hq & Hl).
  destruct (mop_id o (next_io s)) as [rid|] eqn:Hid.
  2:{ destruct Hs as [Hf Hs]. rewrite Hs in *. split_and!; [by exists w|done|].
      intros [|? ids]; [done|]. intros [= -> _]. done. }
  destruct Hs as (a & Ha & ->). apply mutation_append_result in Ha as (Hq1 & w1 & Hw1 & Hok).
  split_and!.
  - exists (w1 +:+ w). by rewrite Hw, Hw1, append_assoc.
  - intros q n Hne Hn. auto.
  - intros [|rid' ids]; [done|]. intros [= Hres Hrs].
    destruct a as [[]|]; [|done]. injection Hres as <-.
    destruct (Hok eq_refl) as (js & Hm & -> & Hc). destruct (Hl ids Hrs) as (lines & Hlog & Hlen & Hall).
    exists ((js +:+ str1 LF) :: lines). split_and!.
    + rewrite Hlog, Hw1. unfold concat_map; simpl. by rewrite !append_assoc.
    + simpl. by rewrite Hlen.
    + intros [|n] o' Ho; simpl in *.
      * injection Ho as <-. eexists _, _. split_and!; [done..|].
        unfold next_io in *. split.
        { by destruct (js_inputs s). }
        exists js. split_and!; [done|done|]. by destruct (js_inputs s).
      * destruct (Hall n o' Ho) as (rid' & line & ? & ? & Hline).
        eexists _, _. split_and!; [done..|]. rewrite Hi in Hline. by destruct (js_inputs s).
Qed.
