(* ===== verification/AdminAudit.v ===== *)
(** * AdminAudit: audited policy editing (internal/admin/audit.go, AuditedEditor)

    The administrator's front ends edit through an [AuditedEditor]: an
    operation that can change the policy is recorded before it starts and
    again when it ends, and does not start unless the first record was
    written.  The editor's operations are calls; [edit_program] is what they
    are made of. *)

From S2P Require Import Prelude GoStrings Effects Io Config Recovery PolicyEditor AdminPath AdminLog.

#[local] Open Scope Z_scope.

Definition MutationCreateProject : string := "create_project".
Definition MutationUpdateProjectMetadata : string := "update_project_metadata".
Definition MutationSetApproval : string := "set_approval".
Definition MutationAddAllowlist : string := "add_allowlist".
Definition MutationRemoveAllowlist : string := "remove_allowlist".
Definition MutationRemoveProject : string := "remove_project".
Definition MutationRestoreProject : string := "restore_project".

Definition MutationChanged : string := "changed".
Definition MutationNoChange : string := "no_change".
Definition MutationFailed : string := "failed".

(** ** ProjectEditor, as calls *)

Inductive editor_op : Type :=
| OpListProjects
| OpGetProject (alias : string)
| OpCheckProjectPath (alias : string)
| OpListAllowlist (alias : string)
| OpCreateProject (input : ProjectInput)
| OpUpdateProjectMetadata (alias : string) (input : ProjectMetadataUpdate)
| OpSetApproval (alias mode : string)
| OpAddAllowlist (alias : string) (argv : list string)
| OpRemoveAllowlist (alias : string) (argv : list string)
| OpRemoveProject (alias confirmation recoveryID : string)
| OpListRecoveries
| OpRestoreProject (recoveryID confirmation : string).

#[export] Instance editor_interface : Interface editor_op := fun op =>
  match op with
  | OpListProjects => result editor_error (list ProjectSummary)
  | OpGetProject _ => result editor_error ProjectDetail
  | OpCheckProjectPath _ => result path_error PathCheckResult
  | OpListAllowlist _ => result editor_error (list (list string))
  | OpListRecoveries => result editor_error (list RecoverySummary)
  | OpRemoveProject _ _ _ | OpRestoreProject _ _ => RecoveryResult * option editor_error
  | _ => bool * option editor_error
  end%type.

(** [(bool, error)] from a method that returns false with an error. *)
Definition changed_of (r : result editor_error bool) : bool * option editor_error :=
  match r with Ok b => (b, None) | Err e => (false, Some e) end.

(** What each operation of an [Editor] is. *)
Definition edit_program (url_Parse : string -> option URL) (toml_Unmarshal : string -> option Config)
    (e : Editor) (op : editor_op) : prog (policy_call + path_call) (answer op) :=
  let on {A} (p : prog policy_call A) : prog (policy_call + path_call) A := on_left p in
  let change (p : prog policy_call (result editor_error bool)) :=
    on_left (r ← p; mret (changed_of r)) in
  match op with
  | OpListProjects => on (ListProjects url_Parse toml_Unmarshal e)
  | OpGetProject alias => on (GetProject url_Parse toml_Unmarshal e alias)
  | OpCheckProjectPath alias => CheckProjectPath url_Parse toml_Unmarshal e alias
  | OpListAllowlist alias => on (ListAllowlist url_Parse toml_Unmarshal e alias)
  | OpCreateProject input => change (CreateProject url_Parse toml_Unmarshal e input)
  | OpUpdateProjectMetadata alias u => change (UpdateProjectMetadata url_Parse toml_Unmarshal e alias u)
  | OpSetApproval alias mode => change (SetApproval url_Parse toml_Unmarshal e alias mode)
  | OpAddAllowlist alias argv => change (AddAllowlist url_Parse toml_Unmarshal e alias argv)
  | OpRemoveAllowlist alias argv => change (RemoveAllowlist url_Parse toml_Unmarshal e alias argv)
  | OpRemoveProject alias confirmation id => on (RemoveProject url_Parse toml_Unmarshal e alias confirmation id)
  | OpListRecoveries => on (ListRecoveries e)
  | OpRestoreProject id confirmation => on (RestoreProject url_Parse toml_Unmarshal e id confirmation)
  end.

(** ** AuditedEditor *)

(** The logger's calls and the random recovery ID. *)
Inductive log_call : Type :=
| LStart (r : MutationStart)
| LFinish (id : string) (r : MutationFinish)
| LNewRecoveryID.

#[export] Instance log_interface : Interface log_call := fun c =>
  match c with
  | LStart _ => result mutation_log_error string
  | LFinish _ _ => result mutation_log_error unit
  | LNewRecoveryID => option string
  end.

Inductive audited_error : Type :=
| AGeneratingRecoveryID
| AStarting (e : mutation_log_error)
| AUpdate (e : editor_error)
| AFinishing (update : option editor_error) (changed : bool) (e : mutation_log_error).

(** [errors.Is(err, target)] for an error of the editor. *)
Definition audited_is (target : editor_error -> bool) (e : audited_error) : bool :=
  match e with
  | AUpdate e | AFinishing (Some e) _ _ => target e
  | _ => false
  end.

Notation audited A := (prog (log_call + editor_op) A).

(** [mutate] and [mutateRecovery]: the update's result is a [bool] in one and
    a [RecoveryResult] in the other. *)
Definition mutate_with {R} (zero : R) (changed : R -> bool) (start : MutationStart)
    (update : audited (R * option editor_error)) : audited (R * option audited_error) :=
  m ← call (inl (LStart start));
  match (m : result mutation_log_error string) with
  | Err err => mret (zero, Some (AStarting err))
  | Ok mutationID =>
      u ← update;
      let '(res, updateErr) := u in
      let outcome :=
        match updateErr with
        | Some _ => MutationFailed
        | None => if changed res then MutationChanged else MutationNoChange
        end in
      f ← call (inl (LFinish mutationID (mkMutationFinish outcome "")));
      mret (res,
            match (f : result mutation_log_error unit) with
            | Err err => Some (AFinishing updateErr (changed res) err)
            | Ok _ => AUpdate <$> updateErr
            end)
  end.

Definition mutate : MutationStart -> audited (bool * option editor_error)
    -> audited (bool * option audited_error) := mutate_with false id.

Definition mutateRecovery : MutationStart -> audited (RecoveryResult * option editor_error)
    -> audited (RecoveryResult * option audited_error) :=
  mutate_with (mkRecoveryResult false "") Changed.

Section AuditedEditor.
Context (actorUID : Z).

Definition start_for (project operation approval : string) (argv : list string) (recoveryID : string)
    (fields : list string) : MutationStart :=
  mkMutationStart actorUID "" project operation approval argv recoveryID fields.

Definition update_fields_of (input : ProjectMetadataUpdate) : list string :=
  (if bool_decide (is_Some (pu_BWSProjectID input)) then ["bws_project_id"] else [])
  ++ (if bool_decide (is_Some (pu_TokenEntry input)) then ["token_entry"] else [])
  ++ (if bool_decide (is_Some (pu_WorkingDir input)) then ["working_dir"] else []).

Definition Audited_CreateProject (input : ProjectInput) : audited (bool * option audited_error) :=
  mutate (start_for (pi_Alias input) MutationCreateProject ModeConfirm [] "" [])
    (call (inr (OpCreateProject input))).

Definition Audited_UpdateProjectMetadata (alias : string) (input : ProjectMetadataUpdate)
    : audited (bool * option audited_error) :=
  mutate (start_for alias MutationUpdateProjectMetadata "" [] "" (update_fields_of input))
    (call (inr (OpUpdateProjectMetadata alias input))).

Definition Audited_SetApproval (alias mode : string) : audited (bool * option audited_error) :=
  mutate (start_for alias MutationSetApproval mode [] "" []) (call (inr (OpSetApproval alias mode))).

Definition Audited_AddAllowlist (alias : string) (argv : list string)
    : audited (bool * option audited_error) :=
  mutate (start_for alias MutationAddAllowlist "" argv "" []) (call (inr (OpAddAllowlist alias argv))).

Definition Audited_RemoveAllowlist (alias : string) (argv : list string)
    : audited (bool * option audited_error) :=
  mutate (start_for alias MutationRemoveAllowlist "" argv "" [])
    (call (inr (OpRemoveAllowlist alias argv))).

Definition Audited_RemoveProject (alias confirmation : string)
    : audited (RecoveryResult * option audited_error) :=
  id ← call (inl LNewRecoveryID);
  match (id : option string) with
  | None => mret (mkRecoveryResult false "", Some AGeneratingRecoveryID)
  | Some recoveryID =>
      mutateRecovery (start_for alias MutationRemoveProject "" [] recoveryID [])
        (call (inr (OpRemoveProject alias confirmation recoveryID)))
  end.

Definition Audited_RestoreProject (recoveryID confirmation : string)
    : audited (RecoveryResult * option audited_error) :=
  mutateRecovery (start_for confirmation MutationRestoreProject "" [] recoveryID [])
    (call (inr (OpRestoreProject recoveryID confirmation))).

(** The other methods pass on the call. *)
Definition Audited_read (op : editor_op) : audited (answer op) := call (inr op).

End AuditedEditor.

(** ** What a mutating method does *)

(** The method for an edit, and for the two recovery operations. *)
Inductive change : Type :=
| ChEdit (m : mutation)
| ChRemove (alias confirmation recoveryID : string)
| ChRestore (recoveryID confirmation : string).

Definition op_of (c : change) : editor_op :=
  match c with
  | ChEdit (MCreateProject i) => OpCreateProject i
  | ChEdit (MUpdateProjectMetadata a u) => OpUpdateProjectMetadata a u
  | ChEdit (MSetApproval a mode) => OpSetApproval a mode
  | ChEdit (MAddAllowlist a argv) => OpAddAllowlist a argv
  | ChEdit (MRemoveAllowlist a argv) => OpRemoveAllowlist a argv
  | ChRemove a conf id => OpRemoveProject a conf id
  | ChRestore id conf => OpRestoreProject id conf
  end.

(** Who, what and on which project: the record that must be on disk before
    the operation starts. *)
Definition announced (uid : Z) (c : change) : MutationStart :=
  match c with
  | ChEdit (MCreateProject i) => start_for uid (pi_Alias i) "create_project" "confirm" [] "" []
  | ChEdit (MUpdateProjectMetadata a u) =>
      start_for uid a "update_project_metadata" "" [] "" (update_fields_of u)
  | ChEdit (MSetApproval a mode) => start_for uid a "set_approval" mode [] "" []
  | ChEdit (MAddAllowlist a argv) => start_for uid a "add_allowlist" "" argv "" []
  | ChEdit (MRemoveAllowlist a argv) => start_for uid a "remove_allowlist" "" argv "" []
  | ChRemove a _ id => start_for uid a "remove_project" "" [] id []
  | ChRestore id conf => start_for uid conf "restore_project" "" [] id []
  end.

(** What the operation answered, as [mutate] and [mutateRecovery] see it. *)
Definition verdict (c : change) : answer (op_of c) -> bool * option editor_error :=
  match c with
  | ChEdit m => match m with
                | MCreateProject _ | MUpdateProjectMetadata _ _ | MSetApproval _ _
                | MAddAllowlist _ _ | MRemoveAllowlist _ _ => fun a => a
                end
  | ChRemove _ _ _ | ChRestore _ _ => fun a => (Changed a.1, a.2)
  end.

Definition outcome_of (v : bool * option editor_error) : string :=
  match v with
  | (_, Some _) => "failed"
  | (true, None) => "changed"
  | (false, None) => "no_change"
  end.

Definition audited_result (v : bool * option editor_error) (f : result mutation_log_error unit)
    : bool * option audited_error :=
  (v.1, match f with Err err => Some (AFinishing v.2 v.1 err) | Ok _ => AUpdate <$> v.2 end).

(** The requests a front end can make that change something. *)
Inductive request : Type :=
| RqEdit (m : mutation)
| RqRemove (alias confirmation : string)
| RqRestore (recoveryID confirmation : string).

Definition perform (uid : Z) (rq : request) : audited (bool * option audited_error) :=
  let flat (p : audited (RecoveryResult * option audited_error)) : audited (bool * option audited_error) :=
    r ← p; mret (Changed r.1, r.2) in
  match rq with
  | RqEdit (MCreateProject i) => Audited_CreateProject uid i
  | RqEdit (MUpdateProjectMetadata a u) => Audited_UpdateProjectMetadata uid a u
  | RqEdit (MSetApproval a mode) => Audited_SetApproval uid a mode
  | RqEdit (MAddAllowlist a argv) => Audited_AddAllowlist uid a argv
  | RqEdit (MRemoveAllowlist a argv) => Audited_RemoveAllowlist uid a argv
  | RqRemove a conf => flat (Audited_RemoveProject uid a conf)
  | RqRestore id conf => flat (Audited_RestoreProject uid id conf)
  end.

(** The change a request becomes, with the calls made to find that out. *)
Inductive becomes : request -> list (event (log_call + editor_op)) -> change -> Prop :=
| BecomesEdit m : becomes (RqEdit m) [] (ChEdit m)
| BecomesRemove a conf id :
    becomes (RqRemove a conf) [ev (inl LNewRecoveryID : log_call + editor_op) (Some id)] (ChRemove a conf id)
| BecomesRestore id conf : becomes (RqRestore id conf) [] (ChRestore id conf).

(** The operations that can change the policy. *)
Definition changes_policy (op : editor_op) : bool :=
  match op with
  | OpListProjects | OpGetProject _ | OpCheckProjectPath _ | OpListAllowlist _ | OpListRecoveries => false
  | _ => true
  end.

Lemma mutates_change m : changes_policy (op_of (ChEdit m)) = true.
Proof. by destruct m. Qed.

Lemma mutate_with_behaves {R} (zero : R) changed start (update : audited (R * option editor_error)) t r :
  behaves (mutate_with zero changed start update) t r ->
  (exists err, t = [ev (inl (LStart start) : log_call + editor_op) (Err err)] /\ r = (zero, Some (AStarting err)))
  \/ exists id t1 u f,
       t = ev (inl (LStart start) : log_call + editor_op) (Ok id) :: t1
           ++ [ev (inl (LFinish id (mkMutationFinish (outcome_of (changed u.1, u.2)) "")) : log_call + editor_op) f]
       /\ behaves update t1 u
       /\ r = (u.1, (audited_result (changed u.1, u.2) f).2).
Proof.
  unfold mutate_with. intros (m & t1 & -> & H)%(behaves_call_inv (inl (LStart start) : log_call + editor_op)).
  destruct m as [id|err]; [right|left; destruct H as [-> ->]; by exists err].
  apply (proj1 (behaves_bind _ _ _ _)) in H as (t2 & t3 & [res err] & -> & Hu & H).
  apply (behaves_call_inv (inl (LFinish _ _) : log_call + editor_op)) in H as (f & t4 & -> & [-> ->]).
  exists id, t2, (res, err), f. split_and!; [|done|by destruct f].
  unfold outcome_of, MutationFailed, MutationChanged, MutationNoChange. cbn. by destruct err, (changed res).
Qed.

(** A recorded attempt at a change: nothing but its start record, which could
    not be written; or the start record, the operation, and the finish record
    with the operation's outcome. *)
Inductive attempt (uid : Z) (c : change)
    : list (event (log_call + editor_op)) -> bool * option audited_error -> Prop :=
| NotStarted err :
    attempt uid c [ev (inl (LStart (announced uid c)) : log_call + editor_op) (Err err)]
      (false, Some (AStarting err))
| Started id (a : answer (op_of c)) f :
    attempt uid c
      [ ev (inl (LStart (announced uid c)) : log_call + editor_op) (Ok id);
        ev (inr (op_of c) : log_call + editor_op) a;
        ev (inl (LFinish id (mkMutationFinish (outcome_of (verdict c a)) "")) : log_call + editor_op) f ]
      (audited_result (verdict c a) f).

Lemma perform_flat (p : audited (RecoveryResult * option audited_error)) t r :
  behaves (r ← p; mret (Changed r.1, r.2) : audited (bool * option audited_error)) t r ->
  exists r', behaves p t r' /\ r = (Changed r'.1, r'.2).
Proof.
  intros (t1 & t2 & r' & -> & H & [-> ->])%(behaves_bind _ _ _ _). exists r'. by rewrite app_nil_r.
Qed.

Lemma perform_attempts uid rq t r :
  behaves (perform uid rq) t r ->
  (exists a conf, rq = RqRemove a conf /\ t = [ev (inl LNewRecoveryID : log_call + editor_op) None]
     /\ r = (false, Some AGeneratingRecoveryID))
  \/ exists pre c t', becomes rq pre c /\ t = pre ++ t' /\ attempt uid c t' r.
Proof.
  destruct rq as [m|a conf|id conf]; cbn [perform].
  - intros H. right. exists [], (ChEdit m), t. split; [constructor|]. split; [done|].
    destruct m; apply mutate_with_behaves in H as [(err & -> & ->)|(mid & t1 & [b e] & f & -> & Hu & ->)];
      try constructor; destruct Hu as (x & t2 & -> & [-> ->]); cbn [app];
      destruct x as [b' e'].
    all: match goal with |- attempt _ ?c (_ :: ev (inr _) ?x :: _) _ =>
      exact (Started uid c mid x f) end.
  - intros (r' & H & ->)%perform_flat.
    apply (behaves_call_inv (inl LNewRecoveryID : log_call + editor_op)) in H as (o & t1 & -> & H).
    destruct o as [rid|]; [|left; exists a, conf; by destruct H as [-> ->]].
    right. exists [ev (inl LNewRecoveryID : log_call + editor_op) (Some rid)], (ChRemove a conf rid), t1.
    split; [constructor|]. split; [done|].
    apply mutate_with_behaves in H as [(err & -> & ->)|(mid & t2 & [b e] & f & -> & Hu & ->)];
      [constructor|]. destruct Hu as (x & t3 & -> & [-> ->]).
    exact (Started uid (ChRemove a conf rid) mid x f).
  - intros (r' & H & ->)%perform_flat. right.
    exists [], (ChRestore id conf), t. split; [constructor|]. split; [done|].
    apply mutate_with_behaves in H as [(err & -> & ->)|(mid & t2 & [b e] & f & -> & Hu & ->)];
      [constructor|]. destruct Hu as (x & t3 & -> & [-> ->]).
    exact (Started uid (ChRestore id conf) mid x f).
Qed.

(** No change without a record: for every environment, each request of an
    administrator's front end that can change something makes one attempt: it
    announces who does what to which project, and if that record could not be
    written it does nothing more; otherwise it performs exactly the announced
    operation, once, and records its outcome, which is also what it answers. *)
Theorem mutation_bracketed uid rq t r :
  behaves (perform uid rq) t r ->
  (exists a conf, rq = RqRemove a conf /\ t = [ev (inl LNewRecoveryID : log_call + editor_op) None]
     /\ r = (false, Some AGeneratingRecoveryID))
  \/ exists pre c t', becomes rq pre c /\ t = pre ++ t' /\ attempt uid c t' r.
Proof. apply perform_attempts. Qed.
