(* ===== verification/AdminSystem.v ===== *)
(** * AdminSystem: the administrator's editor as a whole

    The audited editor over the policy editor over the file system, with the
    JSONL log as the logger: [admin_program] is what one request of a front
    end does, as calls of the operating system and of the log. *)

From S2P Require Import Prelude GoStrings GoText GoJson Effects Io Config SecureFile AuditLog.
From S2P Require Import Recovery PolicyText PolicyEditor PolicyWorld AdminPath AdminLog AdminAudit.

#[local] Open Scope Z_scope.

Notation os_call := (policy_call + path_call)%type.

Section System.
Context (url_Parse : string -> option URL) (toml_Unmarshal : string -> option Config).
Context (e : Editor) (uid : Z).

Definition serve_call (c : log_call + editor_op) : prog (log_call + os_call) (answer c) :=
  match c with
  | inl l => call (inl l : log_call + os_call)
  | inr op => on_right (edit_program url_Parse toml_Unmarshal e op)
  end.

(** One request, down to the system calls. *)
Definition admin_program (rq : request) : prog (log_call + os_call) (bool * option audited_error) :=
  interp serve_call (perform uid rq).

(** ** What a change is meant to do *)

(** The configuration before and after. *)
Definition intended (c : change) (cfg cfg' : Config) : Prop :=
  match c with
  | ChEdit m => edited m cfg = Some cfg'
  | ChRemove alias confirmation _ =>
      confirmation = alias
      /\ exists i, find_index alias (cfg_Projects cfg) = Some i /\ cfg' = without cfg i
  | ChRestore _ alias =>
      exists i, find_index alias (cfg_Projects cfg') = Some i /\ cfg = without cfg' i
  end.

(** The policy was replaced by a text that parses to what the change intends
    from the text that was read; under the lock the file was then found to be
    the one that was read, and the new one renamed into place. *)
Definition policy_replaced (c : change) (tp : list (event policy_call)) : Prop :=
  exists t0 t1 tm t2 data cfg meta updated cfg' b,
    tp = t0 ++ t1 ++ tm ++ t2 /\ no_rename t0 /\ no_rename tm
    /\ policy_read e url_Parse toml_Unmarshal t1 data cfg meta
    /\ intended c cfg cfg' /\ Parse url_Parse toml_Unmarshal updated = Ok cfg'
    /\ ValidateWorker cfg' = Ok tt /\ replaced e t2 updated meta b.

(** A change at the level of the policy's calls: whether the policy changed,
    and the error. *)
Definition act (c : change) : prog policy_call (bool * option editor_error) :=
  match c with
  | ChEdit m => r ← PolicyEditor.mutate url_Parse toml_Unmarshal e m; mret (changed_of r)
  | ChRemove alias confirmation id =>
      r ← RemoveProject url_Parse toml_Unmarshal e alias confirmation id; mret (Changed r.1, r.2)
  | ChRestore id confirmation =>
      r ← RestoreProject url_Parse toml_Unmarshal e id confirmation; mret (Changed r.1, r.2)
  end.

(** What is left of a change in the trace of its system calls: no rename and
    no success, or a replaced policy. *)
Definition acted (c : change) (tp : list (event policy_call)) (changed : bool) : Prop :=
  (no_rename tp /\ changed = false)
  \/ exists t0 t1 tm t2 data cfg meta updated cfg' b,
       tp = t0 ++ t1 ++ tm ++ t2 /\ no_rename t0 /\ no_rename tm
       /\ policy_read e url_Parse toml_Unmarshal t1 data cfg meta
       /\ intended c cfg cfg' /\ Parse url_Parse toml_Unmarshal updated = Ok cfg'
       /\ ValidateWorker cfg' = Ok tt /\ replaced e t2 updated meta b
       /\ (changed = true -> b = true).

Lemma policy_read_no_rename t data cfg meta :
  policy_read e url_Parse toml_Unmarshal t data cfg meta -> no_rename t.
Proof. intros H. by eapply looks_no_rename, policy_read_looks. Qed.

(** The end of every change: a text given to [writeAtomic]. *)
Lemma written_acted c t0 t1 tm t2 data cfg meta updated cfg' w changed :
  no_rename t0 -> no_rename tm ->
  policy_read e url_Parse toml_Unmarshal t1 data cfg meta ->
  intended c cfg cfg' -> Parse url_Parse toml_Unmarshal updated = Ok cfg' -> ValidateWorker cfg' = Ok tt ->
  behaves (writeAtomic e updated meta) t2 w -> (changed = true -> w = Ok tt) ->
  acted c (t0 ++ t1 ++ tm ++ t2) changed.
Proof.
  intros H0 Hm Hr Hi Hp Hv Hw Hch.
  apply writeAtomic_behaves in Hw as [_ [[Hn Hne]|(temp & t3 & b & t4 & -> & Hready & Hn & _ & Hok & _)]].
  - left. split; [|apply not_true_iff_false; intros H; by apply Hne, Hch].
    rewrite !no_rename_app. split_and!; try done. by eapply policy_read_no_rename.
  - right. exists t0, t1, tm, (t3 ++ ev (Rename temp (path e)) b :: t4), data, cfg, meta, updated, cfg', b.
    split_and!; try done; [by exists temp, t3, t4|]. intros H. by apply Hok, Hch.
Qed.

Lemma act_behaves c tp r : behaves (act c) tp r -> acted c tp r.1.
Proof.
  destruct c as [m|alias conf id|id conf]; cbn [act]; intros (t1 & t2 & r' & -> & H & [-> ->])%behaves_bind;
    rewrite app_nil_r.
  - apply mutate_behaves in H as
      [err Hl ->|data cfg meta Hr _ ->|t3 t4 data cfg meta updated cfg' w -> Hr He Hp Hv Hw ->].
    + left. by split; [apply looks_no_rename|].
    + left. by split; [eapply policy_read_no_rename|].
    + apply (written_acted _ [] t3 [] t4 data cfg meta updated cfg' w); try done; try by_calls.
      by destruct w as [[]|].
  - apply RemoveProject_behaves in H as
      [(Hn & -> & _)|(-> & _ & t3 & t4 & data & cfg & meta & updated & i & w & -> & Hr & Hrm & Hw & ->)].
    { left. by split. }
    destruct Hrm as (Hi & _ & _ & Hp & Hv).
    apply (written_acted _ [] t3 [_] t4 data cfg meta updated (without cfg i) w); try done; try by_calls.
    + split; [done|]. by exists i.
    + by destruct w as [[]|].
  - apply RestoreProject_behaves in H as
      [[Hn ->]|(ar & t3 & t4 & data & cfg & meta & w & -> & Hc & Hr & Hchk & Hw & ->)].
    { left. by split. }
    apply check_artifact_Ok in Hchk as (_ & stored & i & Hp & Hv & Hi & Hwi & _).
    apply (written_acted _ [_] t3 [] t4 data cfg meta (Policy ar) stored w); try done; try by_calls.
    + exists i. by subst.
    + by destruct w as [[]|].
Qed.

Definition policy_ev (x : event policy_call) : event (log_call + os_call) := right_ev (left_ev x).

Lemma calls_left_ev (t : list (event policy_call)) :
  calls (left_ev <$> t : list (event os_call)) = inl <$> calls t.
Proof. unfold calls. rewrite <- !list_fmap_compose. apply list_fmap_ext. by intros i [c r] _. Qed.

Lemma calls_policy_ev (t : list (event policy_call)) :
  calls (policy_ev <$> t) = (fun c => inr (inl c)) <$> calls t.
Proof. unfold calls. rewrite <- !list_fmap_compose. apply list_fmap_ext. by intros i [c r] _. Qed.

Lemma policy_ev_compose (t : list (event policy_call)) :
  right_ev <$> (left_ev <$> t : list (event os_call)) = policy_ev <$> t.
Proof. unfold policy_ev. rewrite <- list_fmap_compose. by apply list_fmap_ext. Qed.

(** The program of a change works on the policy alone. *)
Lemma change_acts c te (a : answer (op_of c)) :
  behaves (edit_program url_Parse toml_Unmarshal e (op_of c)) te a ->
  exists tp, te = left_ev <$> tp /\ behaves (act c) tp (verdict c a).
Proof.
  destruct c as [m|alias conf id|id conf].
  - destruct m; cbn [edit_program op_of]; by intros (tp & -> & H)%behaves_on_left; exists tp.
  - cbn [edit_program op_of]. intros (tp & -> & H)%behaves_on_left. exists tp. split; [done|].
    cbn [act verdict]. apply behaves_bind. exists tp, [], a. by rewrite app_nil_r.
  - cbn [edit_program op_of]. intros (tp & -> & H)%behaves_on_left. exists tp. split; [done|].
    cbn [act verdict]. apply behaves_bind. exists tp, [], a. by rewrite app_nil_r.
Qed.

Lemma change_behaves c te (a : answer (op_of c)) :
  behaves (edit_program url_Parse toml_Unmarshal e (op_of c)) te a ->
  exists tp, te = left_ev <$> tp
    /\ forall from to, Rename from to ∈ calls tp -> to = path e /\ policy_replaced c tp.
Proof.
  intros (tp & -> & H)%change_acts. exists tp. split; [done|]. intros from to Hin.
  destruct (act_behaves _ _ _ H) as
    [[Hn _]|(t0 & t1 & tm & t2 & data & cfg & meta & updated & cfg' & b & -> & H0 & Hm & Hr & Hi & Hp & Hv & Hrep & _)].
  { by apply (renamed_in _ from to) in Hn. }
  split.
  - destruct Hrep as (temp & t3 & t4 & -> & Hready & Hn4).
    rewrite !calls_app, calls_cons, !elem_of_app, elem_of_cons in Hin.
    destruct Hin as [Hin|[Hin|[Hin|[Hin|[Hin|Hin]]]]]; try by apply renamed_in in Hin.
    + by apply policy_read_no_rename, (renamed_in _ from to) in Hr.
    + exfalso. destruct Hready as (i1 & i2 & u & g & -> & _). revert Hin. apply renamed_in.
      destruct (_ || _); by_calls.
    + cbn in Hin. by injection Hin as -> ->.
  - by exists t0, t1, tm, t2, data, cfg, meta, updated, cfg', b.
Qed.

Lemma behaves_serve_log l t r :
  behaves (serve_call (inl l)) t r -> t = [ev (inl l : log_call + os_call) r].
Proof. by intros (x & t' & -> & [-> ->]). Qed.

(** A request, as a trace of system calls. *)
Lemma admin_behaves rq t r from to :
  behaves (admin_program rq) t r -> inr (inl (Rename from to)) ∈ calls t ->
  to = path e
  /\ exists pre c id tp (a : answer (op_of c)) f,
       t = pre ++ ev (inl (LStart (announced uid c)) : log_call + os_call) (Ok id)
             :: (policy_ev <$> tp)
             ++ [ev (inl (LFinish id (mkMutationFinish (outcome_of (verdict c a)) ""))
                     : log_call + os_call) f]
       /\ Forall (fun c => c = inl LNewRecoveryID) (calls pre)
       /\ (exists pre', becomes rq pre' c)
       /\ behaves (edit_program url_Parse toml_Unmarshal e (op_of c)) (left_ev <$> tp) a
       /\ policy_replaced c tp
       /\ r = audited_result (verdict c a) f.
Proof.
  unfold admin_program. intros (es & ts & H & -> & Hx)%behaves_interp Hin.
  apply perform_attempts in H as [(al & conf & -> & -> & ->)|(pre & c & es' & Hb & -> & Hatt)].
  { apply Forall2_cons_inv_l in Hx as (t1 & ts1 & H1 & Hn%Forall2_nil_inv_l & ->). subst.
    apply behaves_serve_log in H1 as ->. cbn in Hin. set_solver. }
  apply Forall2_app_inv_l in Hx as (ts1 & ts2 & Hx1 & Hx2 & ->). rewrite concat_app in *.
  assert (Hpre : Forall (fun c => c = inl LNewRecoveryID) (calls (List.concat ts1))).
  { destruct Hb; [apply Forall2_nil_inv_l in Hx1 as ->; constructor| |
      apply Forall2_nil_inv_l in Hx1 as ->; constructor].
    apply Forall2_cons_inv_l in Hx1 as (t1 & ts' & H1 & Hn%Forall2_nil_inv_l & ->). subst.
    apply behaves_serve_log in H1 as ->. by repeat constructor. }
  rewrite calls_app, elem_of_app in Hin. destruct Hin as [Hin|Hin].
  { rewrite Forall_forall in Hpre. by apply Hpre in Hin. }
  destruct Hatt as [err|id a f].
  - apply Forall2_cons_inv_l in Hx2 as (t1 & ts' & H1 & Hn%Forall2_nil_inv_l & ->). subst.
    apply behaves_serve_log in H1 as ->. cbn in Hin. set_solver.
  - apply Forall2_cons_inv_l in Hx2 as (t1 & ts3 & H1 & Hx3 & ->).
    apply Forall2_cons_inv_l in Hx3 as (t2 & ts4 & H2 & Hx4 & ->).
    apply Forall2_cons_inv_l in Hx4 as (t3 & ts' & H3 & Hn%Forall2_nil_inv_l & ->). subst.
    cbn [projT1 projT2 ev] in *. apply behaves_serve_log in H1 as ->. apply behaves_serve_log in H3 as ->.
    apply behaves_on_right in H2 as (te & -> & H2).
    destruct (change_behaves c te a H2) as (tp & -> & Hren).
    pose proof (policy_ev_compose tp) as Hc.
    cbn [List.concat app] in *. rewrite Hc in Hin |- *.
    assert (Hp : Rename from to ∈ calls tp).
    { rewrite calls_cons, calls_app, calls_policy_ev, elem_of_cons, elem_of_app in Hin.
      destruct Hin as [Hin|[Hin|Hin]]; [done| |cbn in Hin; set_solver].
      apply list_elem_of_fmap in Hin as (c' & [= <-] & Hin). done. }
    destruct (Hren _ _ Hp) as [-> Hrep]. split; [done|].
    exists (List.concat ts1), c, id, tp, a, f. split_and!; try done. by exists pre.
Qed.

End System.

(** ** Reading operations do not rename *)

Definition stays (c : os_call) : Prop := match c with inl (Rename _ _) => False | _ => True end.

Section Stays.
Context (url_Parse : string -> option URL) (toml_Unmarshal : string -> option Config) (e : Editor).

Definition keeps (c : policy_call) : Prop := match c with Rename _ _ => False | _ => True end.

Lemma only_on_left {A} (p : prog policy_call A) : only keeps p -> only stays (on_left p : prog os_call A).
Proof. induction p as [a|c k IH]; [done|]. intros [Hc Hk]. split; [by destruct c|]. intros r. by apply IH. Qed.

Lemma only_metadata : only keeps (metadata e).
Proof. by split. Qed.

Lemma only_readPolicy : only keeps (readPolicy url_Parse toml_Unmarshal e).
Proof.
  unfold readPolicy. apply only_bind; [by apply only_call|]. intros d.
  apply only_and_then; [done|]. intros _. apply only_and_then; [apply only_metadata|]. intros before.
  apply only_bind; [by apply only_call|]. intros r. apply only_and_then; [done|]. intros data.
  apply only_and_then; [apply only_metadata|]. intros m.
  destruct (negb _); [done|]. destruct (_ && _); [done|]. by apply only_and_then.
Qed.

Lemma only_Revision : only keeps (Revision url_Parse toml_Unmarshal e).
Proof. by apply only_and_then; [apply only_readPolicy|]. Qed.

Lemma only_GetProject alias : only keeps (GetProject url_Parse toml_Unmarshal e alias).
Proof. unfold GetProject. apply only_and_then; [apply only_readPolicy|]. intros p. by apply only_and_then. Qed.

Lemma only_on_right {A} (p : prog path_call A) : only stays (on_right p : prog os_call A).
Proof. induction p as [a|c k IH]; [done|]. by split. Qed.

Lemma only_reads op : changes_policy op = false -> only stays (edit_program url_Parse toml_Unmarshal e op).
Proof.
  destruct op; try done; intros _; cbn [edit_program]; try apply only_on_left.
  - by apply only_and_then; [apply only_readPolicy|].
  - apply only_GetProject.
  - apply only_bind; [apply only_on_left, only_GetProject|]. intros [d|err]; [apply only_on_right|done].
  - unfold ListAllowlist. apply only_and_then; [apply only_readPolicy|]. intros p. by apply only_and_then.
  - unfold ListRecoveries. destruct (negb _); [done|]. by apply only_bind; [apply only_call|].
Qed.
End Stays.

(** ** The log on disk *)

Section Logged.
Context {S : Type} (rng : S -> option string * S) (h : handler os_call S).

(** The environment [h], with [MutationJSONLLogger] as the logger and [rng]
    for the random recovery IDs. *)
Definition logged_handler : handler (log_call + os_call) (JSONLState * S) := fun c ws =>
  let '(w, s) := ws in
  match c return answer c * (JSONLState * S) with
  | inl (LStart r) => let '(x, w') := MStart w r in (x, (w', s))
  | inl (LFinish id r) => let '(x, w') := MFinish w id r in (x, (w', s))
  | inl LNewRecoveryID => let '(x, s') := rng s in (x, (w, s'))
  | inr c => let '(x, s') := h c s in (x, (w, s'))
  end.

(** The start records a trace holds, with the IDs they were given. *)
Definition start_of (x : event (log_call + os_call)) : option (MutationStart * string) :=
  let 'existT c a := x in
  match c return answer c -> option (MutationStart * string) with
  | inl (LStart r) => fun a => match a with Ok id => Some (r, id) | Err _ => None end
  | _ => fun _ => None
  end a.

Definition log_of (w : JSONLState) : string := log_data (js_fs w) (js_path w).

(** The log holds the line of a start record. *)
Definition on_record (w w' : JSONLState) (r : MutationStart) (id : string) : Prop :=
  exists x js y t, log_of w' = log_of w +:+ x +:+ js +:+ str1 LF +:+ y
    /\ marshal_mutation (start_record id t r) = Some js /\ count_bytes is_LF js = 0%nat.

Lemma logged_step c w s :
  let '(a, (w', _)) := logged_handler c (w, s) in
  js_path w' = js_path w /\ exists y, log_of w' = log_of w +:+ y
  /\ forall r id, start_of (ev c a) = Some (r, id) -> on_record w w' r id.
Proof.
  assert (Hquiet : exists y, log_of w = log_of w +:+ y) by (exists ""; by rewrite append_empty_r).
  destruct c as [[r|id r|]|c]; cbn [logged_handler MStart MFinish MutationJSONLLogger].
  - unfold MutationJSONLLogger_Start. destruct (newRandomHexID _) as [id|].
    2:{ split; [done|]. destruct Hquiet as [y Hy]. by exists y. }
    destruct (mutation_append _ _ _ _) as [res fs'] eqn:Ea. split; [done|].
    apply mutation_append_result in Ea as (_ & y & Hy & Hok). exists y. split; [done|].
    intros r' id'. cbn. destruct res as [[]|]; [|done]. intros [= <- <-].
    destruct (Hok eq_refl) as (js & Hm & -> & Hc).
    exists "", js, "", (now (next_io w)). split_and!; [exact Hy|done|done].
  - unfold MutationJSONLLogger_Finish. destruct (mutation_append _ _ _ _) as [res fs'] eqn:Ea.
    split; [done|]. apply mutation_append_result in Ea as (_ & y & Hy & _). by exists y.
  - destruct (rng s) as [x s']. split; [done|]. destruct Hquiet as [y Hy]. by exists y.
  - destruct (h c s) as [x s']. split; [done|]. destruct Hquiet as [y Hy]. exists y. by destruct c.
Qed.

Lemma logged_run {A} (p : prog (log_call + os_call) A) w s :
  let '(_, (w', _), t) := run logged_handler p (w, s) in
  js_path w' = js_path w /\ (exists y, log_of w' = log_of w +:+ y)
  /\ forall r id, (r, id) ∈ omap start_of t -> on_record w w' r id.
Proof.
  revert w s. induction p as [a|c k IH]; intros w s.
  { cbn. split_and!; [done|exists ""; by rewrite append_empty_r|by inversion 1]. }
  cbn [run]. pose proof (logged_step c w s) as Hs.
  destruct (logged_handler c (w, s)) as [a [w1 s1]]. specialize (IH a w1 s1).
  destruct (run logged_handler (k a) (w1, s1)) as [[r [w2 s2]] t].
  destruct Hs as (Hp1 & y1 & Hy1 & Hst), IH as (Hp2 & [y2 Hy2] & Hall). split_and!.
  - congruence.
  - exists (y1 +:+ y2). by rewrite Hy2, Hy1, append_assoc.
  - intros r' id Hin. assert (Hc : start_of (ev c a) = Some (r', id) \/ (r', id) ∈ omap start_of t).
    { cbn [omap list_omap] in Hin. destruct (start_of (ev c a)) as [q|]; [|by right].
      apply elem_of_cons in Hin as [->|?]; [by left|by right]. }
    destruct Hc as [Hc|Hc].
    + destruct (Hst _ _ Hc) as (x & js & y & t0 & Hl & Hm & Hn).
      exists x, js, (y +:+ y2), t0. split_and!; [|done|done].
      rewrite Hy2, Hl. by rewrite !append_assoc.
    + destruct (Hall _ _ Hc) as (x & js & y & t0 & Hl & Hm & Hn).
      exists (y1 +:+ x), js, y, t0. split_and!; [|done|done]. rewrite Hl, Hy1. by rewrite !append_assoc.
Qed.
End Logged.

(** C12: the policy never changes without a trace: in every environment, if a
    request of a front end renames a file at all, the file is the policy and
    the request became one announced change; the announcement, with the
    actor, the operation and the project, was accepted by the log before the
    first system call of the change, and its line is in the log file; the
    rename puts in place a text that parses to the configuration the
    announced change is meant to produce from the one that was read; and a
    finish record with the change's outcome follows. *)
Theorem policy_change_on_record {S} url_Parse toml_Unmarshal e uid rq
    (rng : S -> option string * S) (h : handler os_call S) w s from to :
  let '(r, (w', _), t) := run (logged_handler rng h) (admin_program url_Parse toml_Unmarshal e uid rq) (w, s) in
  inr (inl (Rename from to)) ∈ calls t ->
  to = path e
  /\ exists pre c id tp v f,
       t = pre ++ ev (inl (LStart (announced uid c)) : log_call + os_call) (Ok id)
             :: (policy_ev <$> tp)
             ++ [ev (inl (LFinish id (mkMutationFinish (outcome_of v) "")) : log_call + os_call) f]
       /\ Forall (fun c => c = inl LNewRecoveryID) (calls pre)
       /\ (exists pre', becomes rq pre' c)
       /\ policy_replaced url_Parse toml_Unmarshal e c tp
       /\ on_record w w' (announced uid c) id
       /\ r = audited_result v f.
Proof.
  pose proof (run_behaves (logged_handler rng h) (admin_program url_Parse toml_Unmarshal e uid rq) (w, s)) as Hb.
  pose proof (logged_run rng h (admin_program url_Parse toml_Unmarshal e uid rq) w s) as Hl.
  unfold trace_of, result_of in Hb.
  destruct (run _ _ _) as [[r [w' s']] t]. cbn [fst snd] in Hb. intros Hin.
  destruct (admin_behaves _ _ _ _ _ _ _ _ _ Hb Hin) as
    (-> & pre & c & id & tp & a & f & -> & Hpre & Hrq & _ & Hrep & ->).
  split; [done|]. exists pre, c, id, tp, (verdict c a), f. split_and!; try done.
  apply Hl. rewrite omap_app, elem_of_app. right. by left.
Qed.

(** ** A request on the example world *)

Module Logged_example.

Definition os_step_on (files : handler policy_call World.World) : handler os_call World.World := fun c w =>
  match c return answer c * World.World with
  | inl c => files c w
  | inr (PEvalSymlinks p) => (Ok p, w)
  | inr (PStat _) => (Ok true, w)
  | inr (PExec (Exec.ExecRun _ _ _)) => (Err "unavailable", w)
  | inr (PExec (Exec.ExecRunPassthrough _ _ _ _)) => (Exec.mkPassthrough [] (Err "unavailable"), w)
  end.

Definition os_step : handler os_call World.World := os_step_on (World.step World.file).

Definition log : JSONLState :=
  mkJSONLState "/log/admin.jsonl" (mkFS {[ "/log" := mkNode Directory 448 0 "" ]} 0 18 (fun _ => false))
    [mkIO 0 (Some "abcdefgh") None false; mkIO 1000000000 None None false].

Definition ran : (bool * option audited_error) * (JSONLState * World.World) * list (event (log_call + os_call)) :=
  run (logged_handler (fun s => (None, s)) os_step)
    (admin_program World.parse_url World.decode (NewEditor World.file 0) 0 (RqEdit (MSetApproval "web" "automatic")))
    (log, World.start).

(** The directory cannot be synced. *)
Definition unsynced_step : handler policy_call World.World := fun c w =>
  let '(a, w') := World.step World.file c w in
  (match c return answer c -> answer c with SyncDir => fun _ => false | _ => fun a => a end a, w').

Definition unsynced : (bool * option audited_error) * (JSONLState * World.World) * list (event (log_call + os_call)) :=
  run (logged_handler (fun s => (None, s)) (os_step_on unsynced_step))
    (admin_program World.parse_url World.decode (NewEditor World.file 0) 0 (RqEdit (MSetApproval "web" "automatic")))
    (log, World.start).
End Logged_example.

Import Logged_example.

Lemma policy_change_on_record_witness :
  inr (inl (Rename ".policy.toml.tmp-1" World.file)) ∈ calls ran.2 /\ exists r id, on_record log ran.1.2.1 r id.
Proof.
  assert (Hin : inr (inl (Rename ".policy.toml.tmp-1" World.file)) ∈ calls ran.2).
  { apply (list_elem_of_lookup_2 _ 15). vm_compute. reflexivity. }
  split; [exact Hin|]. revert Hin. unfold ran.
  pose proof (policy_change_on_record World.parse_url World.decode (NewEditor World.file 0) 0
    (RqEdit (MSetApproval "web" "automatic")) (fun s => (None, s)) os_step log World.start
    ".policy.toml.tmp-1" World.file) as H.
  destruct (run _ _ _) as [[r [w' s']] t]. intros Hin.
  destruct (H Hin) as (_ & pre & c & id & tp & v & f & _ & _ & _ & _ & Hrec & _).
  eexists _, id. exact Hrec.
Defined.

(** A limit of the record: when the directory cannot be synced after the
    rename, the policy has changed, and both the answer and the finish record
    say that the change failed. *)
Lemma unsynced_change_recorded_failed :
  unsynced.1.1 = (false, Some (AUpdate ESyncingDir))
  /\ World.text unsynced.1.2.2 = World.policy_text ApprovalNever
  /\ World.text World.start <> World.policy_text ApprovalNever
  /\ List.last (calls unsynced.2) (inl (LStart (announced 0 (ChEdit (MSetApproval "web" "automatic")))))
     = inl (LFinish "6162636465666768" (mkMutationFinish MutationFailed "")).
Proof. vm_compute. split_and!; try reflexivity. discriminate. Qed.
