(* ===== verification/AdminAccess.v ===== *)
(** * AdminAccess: the access diagnosis of the administrator (internal/admin/access.go)

    The diagnosis runs the deployed worker as its own user and reads its one
    JSON result.  The decoder, with unknown fields disallowed, gives the first
    value and what follows it. *)

From S2P Require Import Prelude GoStrings GoJson Effects Io BoundedIO Config SecureFile Exec AccessDiag ProjectList.
From S2P Require Import Worker Cli Recovery AdminPath AdminLog AdminAudit.

#[local] Open Scope Z_scope.

Definition accessWorkerPath : string := "/usr/local/libexec/secrets-broker-worker".
Definition accessWorkerUser : string := "secrets-broker".
Definition accessOutputLimit : Z := 2097152.

Definition OperationCheckProjectAccess : string := "check_project_access".
Definition OperationListAvailableProjects : string := "list_available_projects".
Definition OutcomeFailed : string := "failed".

Inductive access_error : Type :=
| EDiagnosticFailed
| EDiagnosticInvalid
| EListFailed
| EListInvalid.

(** The two captured streams of a child. *)
Definition captured (st : stream) (p : passthrough) : Buffer :=
  WriteAll (NewBuffer accessOutputLimit) (written st (pt_writes p)).

(** The guards on how the child ended: its standard output, if nothing was
    lost and nothing was written to standard error. *)
Definition worker_output (p : passthrough) : option (Z * string) :=
  let stdout := captured StdoutStream p in
  let stderr := captured StderrStream p in
  match pt_exit p with
  | Err _ => None
  | Ok code =>
      if Exceeded stdout || Exceeded stderr || negb (len (Bytes stderr) =? 0) then None
      else Some (code, Bytes stdout)
  end.

Definition worker_args (rest : list string) : list string :=
  ["-u"; accessWorkerUser; "--"; accessWorkerPath] ++ rest.

Section Checker.
Context (unicode_print : Z -> bool).
(** [decoder.Decode] into the result, and what a second one finds. *)
Context (decode_access : string -> option (AccessDiag.Result * json_tail)).
Context (decode_projects : string -> option (ProjectList.Result * json_tail)).

(** [WorkerAccessChecker.CheckAccess] *)
Definition check_args (alias : string) : list string :=
  worker_args (["access-check"] ++ (if String.eqb alias "" then [] else [alias])).

Definition access_result (p : passthrough) : result access_error AccessDiag.Result :=
  match worker_output p with
  | None => Err EDiagnosticFailed
  | Some (exitCode, out) =>
      fail_if negb (exitCode =? 0) && negb (exitCode =? 1) with EDiagnosticFailed;
      match decode_access out with
      | Some (res, JsonEOF) =>
          match AccessDiag.Validate unicode_print res with
          | Err _ => Err EDiagnosticInvalid
          | Ok _ =>
              let wantExitCode := if String.eqb (r_Outcome res) OutcomeAllAccessible then 0 else 1 in
              fail_if negb (exitCode =? wantExitCode) with EDiagnosticInvalid;
              Ok res
          end
      | _ => Err EDiagnosticInvalid
      end
  end.

Definition CheckAccess (alias : string) : prog exec_call (result access_error AccessDiag.Result) :=
  p ← call (ExecRunPassthrough accessRunuserPath (check_args alias) None "/");
  mret (access_result p).

(** [WorkerAccessChecker.ListAvailable] *)
Definition projects_result (p : passthrough) : result access_error ProjectList.Result :=
  match worker_output p with
  | None => Err EListFailed
  | Some (exitCode, out) =>
      fail_if negb (exitCode =? 0) with EListFailed;
      match decode_projects out with
      | Some (res, JsonEOF) =>
          match ProjectList.Validate unicode_print res with
          | Err _ => Err EListInvalid
          | Ok _ => Ok res
          end
      | _ => Err EListInvalid
      end
  end.

Definition ListAvailable : prog exec_call (result access_error ProjectList.Result) :=
  p ← call (ExecRunPassthrough accessRunuserPath (worker_args ["projects-list"]) None "/");
  mret (projects_result p).

End Checker.

(** ** AuditedAccessDiagnostic

    [AccessChecker] and the consumer of the result are calls; the consumer is
    the front end's, with an interface [D] and errors [F] of its own. *)

Inductive check_call : Type :=
| CCheckAccess (alias : string)
| CListAvailable.

#[export] Instance check_interface : Interface check_call := fun c =>
  match c with
  | CCheckAccess _ => result access_error AccessDiag.Result
  | CListAvailable => result access_error ProjectList.Result
  end.

(** [errors.Join] of the errors of the check, the consumer and the log. *)
Inductive diagnostic_error (F : Type) : Type :=
| DStarting (e : mutation_log_error)
| DJoined (check : option access_error) (consume : option F) (finish : option mutation_log_error).
Arguments DStarting {F} e.
Arguments DJoined {F} check consume finish.

Definition joined {F} (check : option access_error) (consume : option F)
    (finish : option mutation_log_error) : option (diagnostic_error F) :=
  match check, consume, finish with
  | None, None, None => None
  | _, _, _ => Some (DJoined check consume finish)
  end.

Section Diagnostic.
Context {D F : Type} `{Interface D} (actorUID : Z).

Notation dprog A := (prog (log_call + (check_call + D)) A).

(** Both operations: log, check, hand the result over, log the outcome. *)
Definition diagnose {R} (start : MutationStart) (check : dprog (result access_error R))
    (consume : R -> prog D (option F)) (outcome : R -> string)
    : dprog (option R * option (diagnostic_error F)) :=
  m ← call (inl (LStart start));
  match (m : result mutation_log_error string) with
  | Err err => mret (None, Some (DStarting err))
  | Ok mutationID =>
      r ← check;
      c ← match r with
          | Ok res => on_right (on_right (consume res))
          | Err _ => mret None
          end;
      let logged :=
        match r, c with
        | Ok res, None => outcome res
        | _, _ => OutcomeFailed
        end in
      f ← call (inl (LFinish mutationID (mkMutationFinish logged "")));
      mret (match r with Ok res => Some res | Err _ => None end,
            joined (match r with Ok _ => None | Err err => Some err end) c
              (match (f : result mutation_log_error unit) with Ok _ => None | Err err => Some err end))
  end.

(** [Run] and [ListAvailable], with the result they gave to the consumer. *)
Definition run_diagnosis (alias : string) (consume : AccessDiag.Result -> prog D (option F))
    : dprog (option AccessDiag.Result * option (diagnostic_error F)) :=
  diagnose (start_for actorUID alias OperationCheckProjectAccess "" [] "" [])
    (call (inr (inl (CCheckAccess alias)))) consume r_Outcome.

Definition list_diagnosis (consume : ProjectList.Result -> prog D (option F))
    : dprog (option ProjectList.Result * option (diagnostic_error F)) :=
  diagnose (start_for actorUID "" OperationListAvailableProjects "" [] "" [])
    (call (inr (inl CListAvailable))) consume (fun _ => "listed").

(** What the methods return: the outcome is that of the result, empty without
    one. *)
Definition Diagnostic_Run (alias : string) (consume : AccessDiag.Result -> prog D (option F))
    : dprog (string * option (diagnostic_error F)) :=
  r ← run_diagnosis alias consume;
  mret (match r.1 with Some res => r_Outcome res | None => "" end, r.2).

Definition Diagnostic_ListAvailable (consume : ProjectList.Result -> prog D (option F))
    : dprog (option (diagnostic_error F)) :=
  r ← list_diagnosis consume; mret r.2.

End Diagnostic.

(** ** Specification *)

(** The child ended by itself with [code], said [out] and nothing else. *)
Definition said (p : passthrough) (code : Z) (out : string) : Prop :=
  pt_exit p = Ok code
  /\ total (written StdoutStream (pt_writes p)) = out /\ len out <= accessOutputLimit
  /\ total (written StderrStream (pt_writes p)) = "".

Lemma accessOutputLimit_nonneg : 0 <= accessOutputLimit.
Proof. done. Qed.
#[local] Opaque accessOutputLimit.

Lemma worker_output_spec p code out : worker_output p = Some (code, out) <-> said p code out.
Proof.
  unfold worker_output, said, captured.
  destruct (WriteAll_new accessOutputLimit (written StdoutStream (pt_writes p))) as [Hb He]; [apply accessOutputLimit_nonneg|].
  destruct (WriteAll_new accessOutputLimit (written StderrStream (pt_writes p))) as [Hb' He']; [apply accessOutputLimit_nonneg|].
  rewrite Hb, He, Hb', He'. destruct (pt_exit p) as [c|]; [|by split; [|intros (? & _)]].
  set (o := total (written StdoutStream _)). set (r := total (written StderrStream _)).
  assert (Hfit : forall x, len x <= accessOutputLimit -> Strings.take (Z.to_nat accessOutputLimit) x = x).
  { intros x Hx. apply take_ge. unfold len in Hx. lia. }
  split.
  - case_match; [done|]. intros [= <- <-]. boolP. rewrite Hfit in * by done. split_and!; try done.
    destruct r; [done|]. unfold len in *. simpl in *. lia.
  - intros ([= ->] & <- & Ho & Hr). rewrite Hr, (Hfit _ Ho).
    assert (Hn : Strings.take (Z.to_nat accessOutputLimit) "" = "") by (by destruct (Z.to_nat _)).
    pose proof accessOutputLimit_nonneg as H0.
    rewrite Hn, (proj2 (Z.ltb_ge _ _) Ho), (proj2 (Z.ltb_ge accessOutputLimit (len ""))) by done.
    done.
Qed.

Section CheckerSpec.
Context (unicode_print : Z -> bool).
Context (decode_access : string -> option (AccessDiag.Result * json_tail)).
Context (decode_projects : string -> option (ProjectList.Result * json_tail)).

Lemma access_result_Ok p r :
  access_result unicode_print decode_access p = Ok r <->
  exists out, said p (if String.eqb (r_Outcome r) OutcomeAllAccessible then 0 else 1) out
    /\ decode_access out = Some (r, JsonEOF) /\ AccessDiag.Validate unicode_print r = Ok tt.
Proof.
  unfold access_result. setoid_rewrite <- worker_output_spec.
  destruct (worker_output p) as [[code out]|]; [|by split; [|intros (? & [=] & _)]]. split.
  - intros H. inv_ok. destruct (decode_access out) as [[r' []]|] eqn:E; try done.
    destruct (AccessDiag.Validate unicode_print r') as [[]|] eqn:Ev; [|done]. inv_ok. boolP. subst.
    by exists out.
  - intros (out' & [= -> <-] & -> & ->). rewrite Z.eqb_refl. by destruct (String.eqb _ _).
Qed.

Lemma projects_result_Ok p r :
  projects_result unicode_print decode_projects p = Ok r <->
  exists out, said p 0 out
    /\ decode_projects out = Some (r, JsonEOF) /\ ProjectList.Validate unicode_print r = Ok tt.
Proof.
  unfold projects_result. setoid_rewrite <- worker_output_spec.
  destruct (worker_output p) as [[code out]|]; [|by split; [|intros (? & [=] & _)]]. split.
  - intros H. inv_ok. destruct (decode_projects out) as [[r' []]|] eqn:E; try done.
    destruct (ProjectList.Validate unicode_print r') as [[]|] eqn:Ev; [|done]. inv_ok. boolP. subst.
    by exists out.
  - intros (out' & [= -> <-] & -> & ->). done.
Qed.

(** A diagnosis is believed only if the worker's answer is whole and
    consistent: for every environment, each of the two checks runs exactly one
    command, the worker under its own user and with no other argument than a
    named alias; and it returns a result exactly when the child printed, within
    the limit and with nothing on standard error, one JSON value and no
    more that passes validation, and exited with the code that the result
    calls for. *)
Theorem worker_answers_exact alias t t' :
  (forall r, behaves (CheckAccess unicode_print decode_access alias) t (Ok r) <->
     exists p out, t = [ev (ExecRunPassthrough accessRunuserPath
         (["-u"; "secrets-broker"; "--"; "/usr/local/libexec/secrets-broker-worker"; "access-check"]
          ++ (if String.eqb alias "" then [] else [alias])) None "/") p]
       /\ said p (if String.eqb (r_Outcome r) OutcomeAllAccessible then 0 else 1) out
       /\ decode_access out = Some (r, JsonEOF) /\ AccessDiag.Validate unicode_print r = Ok tt)
  /\ (forall r, behaves (ListAvailable unicode_print decode_projects) t' (Ok r) <->
     exists p out, t' = [ev (ExecRunPassthrough accessRunuserPath
         ["-u"; "secrets-broker"; "--"; "/usr/local/libexec/secrets-broker-worker"; "projects-list"]
         None "/") p]
       /\ said p 0 out
       /\ decode_projects out = Some (r, JsonEOF) /\ ProjectList.Validate unicode_print r = Ok tt).
Proof.
  split; intros r.
  - split.
    + intros (p & t1 & -> & [-> H]). symmetry in H. apply access_result_Ok in H as (out & H). by exists p, out.
    + intros (p & out & -> & H). exists p, []. split; [done|]. split; [done|].
      symmetry. apply access_result_Ok. by exists out.
  - split.
    + intros (p & t1 & -> & [-> H]). symmetry in H. apply projects_result_Ok in H as (out & H). by exists p, out.
    + intros (p & out & -> & H). exists p, []. split; [done|]. split; [done|].
      symmetry. apply projects_result_Ok. by exists out.
Qed.

End CheckerSpec.

(** ** The two ends of the diagnosis *)

Section BothEnds.
Context (url_Parse : string -> option URL) (toml_Unmarshal : string -> option Config).
Context (unicode_print : Z -> bool) (unicode_lower : Z -> Z).
Context (json_items : string -> option (list ProjectList.item)).
Context (decode_access : string -> option (AccessDiag.Result * json_tail)).
Context (decode_projects : string -> option (ProjectList.Result * json_tail)).
Context (error_text : Worker.worker_error -> string).

(** The worker's process, as the administrator's side sees it. *)
Definition worker_process (args : list string) (o : WorkerMain.outcomes) : passthrough :=
  mkPassthrough (WorkerMain.output error_text args o) (Ok (WorkerMain.run args o)).

(** [runuser] starts the deployed worker, and nothing else is installed. *)
Definition deployed (o : WorkerMain.outcomes) : handler exec_call unit := fun c u =>
  match c return answer c * unit with
  | ExecRun _ _ _ => (Err "not installed", u)
  | ExecRunPassthrough name args _ _ =>
      (if String.eqb name accessRunuserPath && bool_decide (take 4 args = worker_args [])
       then worker_process (drop 4 args) o else mkPassthrough [] (Err "not installed"), u)
  end.

(** What the two diagnostic methods of the worker's server return. *)
Definition worker_outcomes {S} (h : handler diag_call S) (fs : FS) (srv : Server) (s : S)
    (serve : result string unit) (check : result worker_error CheckResult) (out : bool) : WorkerMain.outcomes :=
  WorkerMain.mkOutcomes
    (result_of h (Worker.ListProjects url_Parse toml_Unmarshal unicode_print json_items fs srv) s)
    (fun alias => result_of h (Worker.CheckAccess url_Parse toml_Unmarshal unicode_lower fs srv alias) s)
    serve check out.

Lemma written_one st s : total (written st [(st, s)]) = s.
Proof.
  unfold written. rewrite filter_cons_True by done. rewrite filter_nil. cbn. by rewrite append_empty_r.
Qed.

Notation admin_access o alias := (result_of (deployed o) (CheckAccess unicode_print decode_access alias) tt).
Notation admin_list o := (result_of (deployed o) (ListAvailable unicode_print decode_projects) tt).

Definition access_args (alias : string) : list string :=
  ["access-check"] ++ (if String.eqb alias "" then [] else [alias]).

Lemma dispatch_access alias : WorkerMain.dispatch (access_args alias) = WorkerMain.CheckAccessAction alias.
Proof. unfold access_args. by destruct (String.eqb_spec alias "") as [->|]. Qed.

Lemma admin_access_eq o alias :
  admin_access o alias = access_result unicode_print decode_access (worker_process (access_args alias) o).
Proof. done. Qed.

Lemma admin_list_eq o :
  admin_list o = projects_result unicode_print decode_projects (worker_process ["projects-list"] o).
Proof. done. Qed.

(** A process that printed one line, within the limit or over it. *)
Lemma worker_line line code :
  worker_output (mkPassthrough [(StdoutStream, line +:+ str1 LF)] (Ok code))
  = if accessOutputLimit <=? len line then None else Some (code, line +:+ str1 LF).
Proof.
  destruct (worker_output _) as [[c out]|] eqn:E.
  - apply worker_output_spec in E as (Hc & Hs & Hl & _). cbn [pt_writes pt_exit] in *.
    rewrite written_one in Hs. subst out. injection Hc as <-. rewrite len_append in Hl. change (len (str1 LF)) with 1 in Hl.
    by destruct (Z.leb_spec accessOutputLimit (len line)); [lia|].
  - destruct (Z.leb_spec accessOutputLimit (len line)) as [|Hl]; [done|]. exfalso.
    assert (Hs : said (mkPassthrough [(StdoutStream, line +:+ str1 LF)] (Ok code)) code (line +:+ str1 LF)).
    { unfold said. cbn [pt_writes pt_exit]. rewrite written_one, len_append. change (len (str1 LF)) with 1.
      split_and!; [done|done|lia|done]. }
    apply worker_output_spec in Hs. congruence.
Qed.

(** A process that wrote to standard error. *)
Lemma worker_complaint line code :
  line <> "" -> worker_output (mkPassthrough [(StderrStream, line)] (Ok code)) = None.
Proof.
  intros Hne. destruct (worker_output _) as [[x out]|] eqn:E; [|done].
  apply worker_output_spec in E as (_ & _ & _ & He). cbn [pt_writes] in He. by rewrite written_one in He.
Qed.

Definition safe_identifiers (r : AccessDiag.Result) : bool :=
  forallb (fun x => AccessDiag.safeIdentifier unicode_print (AccessDiag.pr_Alias x)
                    && AccessDiag.safeIdentifier unicode_print (AccessDiag.pr_BWSProjectID x)) (AccessDiag.r_Projects r).

Lemma safe_identifiers_spec r :
  safe_identifiers r = true <->
  Forall (fun x => AccessDiag.safeIdentifier unicode_print x.1 = true /\ AccessDiag.safeIdentifier unicode_print x.2 = true)
    (map (fun x => (AccessDiag.pr_Alias x, AccessDiag.pr_BWSProjectID x)) (AccessDiag.r_Projects r)).
Proof.
  unfold safe_identifiers. rewrite forallb_forall, Forall_map, Forall_forall. cbn.
  setoid_rewrite andb_true_iff. by setoid_rewrite <- list_elem_of_In.
Qed.

(** What the worker's access check returns is a result the administrator
    accepts, if the identifiers in it are printable. *)
Lemma worker_result_valid {S} (h : handler diag_call S) fs srv alias s r :
  result_of h (Worker.CheckAccess url_Parse toml_Unmarshal unicode_lower fs srv alias) s = Ok r ->
  AccessDiag.Validate unicode_print r = Ok tt <-> safe_identifiers r = true.
Proof.
  intros H. destruct (CheckAccess_sound url_Parse toml_Unmarshal unicode_print unicode_lower h fs srv alias s r H)
    as (cfg & ps & tok & _ & _ & _ & _ & Hm & Hv).
  rewrite safe_identifiers_spec, Hm, Forall_map. split; [|exact Hv].
  intros [_ _ Hr _ _]%AccessDiag.Validate_Ok.
  assert (Hs : safe_identifiers r = true).
  { unfold safe_identifiers. apply forallb_forall. intros x Hx%list_elem_of_In. rewrite Forall_forall in Hr.
    destruct (Hr x Hx) as (H1 & H2 & _). by rewrite H1, H2. }
  rewrite safe_identifiers_spec, Hm, Forall_map in Hs. exact Hs.
Qed.

(** A list of projects always fits: 256 of them, with names and IDs as long as
    they may be and every byte escaped, take less than a third of the limit. *)
Lemma len_encode_project p :
  len (ProjectList.ID p) <= 128 -> len (ProjectList.Name p) <= 256 -> len (WorkerMain.encode_project p) <= 2323.
Proof.
  intros Hi Hn. pose proof (Json.len_encode_string (ProjectList.ID p)).
  pose proof (Json.len_encode_string (ProjectList.Name p)).
  unfold WorkerMain.encode_project, Json.encode_object, Json.member.
  cbn -[len Json.encode_string]. rewrite ?len_append, ?len_cons, ?len_append, ?len_cons, ?len_append.
  change (len "}") with 1. change (len "") with 0. lia.
Qed.

Lemma projects_fit items r :
  ProjectList.FromBWS unicode_print items = Ok r -> len (WorkerMain.encode_projects r) < accessOutputLimit.
Proof.
  intros (source & _ & _ & Hl & Hs & _ & ->)%(proj1 (ProjectList.FromBWS_exact unicode_print items r)).
  set (ps := map ProjectList.project_of source) in *.
  assert (Hlen : (length ps <= 256)%nat) by (subst ps; by rewrite length_map).
  assert (Hj : len (Strings.Join (map WorkerMain.encode_project ps) ",") <= 2324 * Z.of_nat (length ps)).
  { rewrite <- (length_map WorkerMain.encode_project ps). apply (Json.len_Join _ 2323), Forall_map.
    eapply Forall_impl; [exact Hs|]. intros p [Hi Hn]. cbn.
    apply len_encode_project; [apply (ProjectList.safeText_len _ _ _ Hi)|apply (ProjectList.safeText_len _ _ _ Hn)]. }
  unfold WorkerMain.encode_projects, Json.encode_object, Json.encode_array, Json.member.
  cbn [ProjectList.Version_ ProjectList.Projects]. change (Itoa.Itoa ProjectList.Version) with "1".
  set (j := Strings.Join _ ",") in *. clearbody ps j.
  cbn -[len]. rewrite ?len_cons, ?len_append.
  change (len "}") with 1. change (len "]") with 1. change (len "") with 0.
  change accessOutputLimit with 2097152. lia.
Qed.

(** C31: what the worker finds is what the administrator is told, with the
    worker's server, its command line and the administrator's side put
    together.  Where encoding/json reads back the one line the worker prints:
    a list of projects always arrives as it is; a result of the access check
    arrives as it is if its identifiers are printable and the line is shorter
    than 2 MiB, and is otherwise refused, as invalid or as a failure.  And
    whenever the worker failed, or could not print, the administrator's side
    reports a failure. *)
Theorem diagnosis_end_to_end {S} (h : handler diag_call S) fs srv s serve check out alias :
  let o := worker_outcomes h fs srv s serve check out in
  (forall r, WorkerMain.access_result o alias = Ok r -> out = true ->
     decode_access (WorkerMain.encode_access r +:+ str1 LF) = Some (r, JsonEOF) ->
     admin_access o alias
     = if 2097152 <=? len (WorkerMain.encode_access r) then Err EDiagnosticFailed
       else if safe_identifiers r then Ok r else Err EDiagnosticInvalid)
  /\ (forall r, WorkerMain.list_result o = Ok r -> out = true ->
     decode_projects (WorkerMain.encode_projects r +:+ str1 LF) = Some (r, JsonEOF) ->
     admin_list o = Ok r)
  /\ (is_ok (WorkerMain.access_result o alias) && out = false -> admin_access o alias = Err EDiagnosticFailed)
  /\ (is_ok (WorkerMain.list_result o) && out = false -> admin_list o = Err EListFailed).
Proof.
  cbv zeta. set (o := worker_outcomes h fs srv s serve check out). rewrite admin_access_eq, admin_list_eq.
  unfold access_result, projects_result, worker_process, WorkerMain.run, WorkerMain.output.
  rewrite dispatch_access. change (WorkerMain.dispatch ["projects-list"]) with WorkerMain.ListProjectsAction.
  cbv iota. split_and!.
  - intros r Hr Hout Hd. assert (Ho : WorkerMain.out_ok o = true) by exact Hout.
    pose proof (worker_result_valid h fs srv alias s r Hr) as Hv. rewrite Hr, Ho. cbn [negb].
    rewrite worker_line. change accessOutputLimit with 2097152. destruct (_ <=? _); [done|].
    rewrite Hd. destruct (safe_identifiers r).
    + rewrite (proj2 Hv Logic.eq_refl). by destruct (String.eqb _ _).
    + destruct (AccessDiag.Validate unicode_print r) as [[]|e]; [by discriminate (proj1 Hv Logic.eq_refl)|].
      by destruct (String.eqb _ _).
  - intros r Hr Hout Hd. assert (Ho : WorkerMain.out_ok o = true) by exact Hout.
    destruct (ListProjects_sound url_Parse toml_Unmarshal unicode_print json_items h fs srv s r Hr)
      as (cfg & tok & p & _ & _ & _ & _ & _ & _ & Hf). rewrite Hr, Ho.
    rewrite worker_line. pose proof (projects_fit _ _ Hf).
    destruct (Z.leb_spec accessOutputLimit (len (WorkerMain.encode_projects r))); [lia|].
    rewrite Hd. cbn. by rewrite (proj2 (ProjectList.FromBWS_exact _ _ _) Hf).
  - intros H. assert (Ho : WorkerMain.out_ok o = out) by done. rewrite <- Ho in H. destruct (WorkerMain.access_result o alias) as [r|e].
    + change (WorkerMain.out_ok o = false) in H. rewrite H. by rewrite worker_complaint.
    + by rewrite worker_complaint.
  - intros H. assert (Ho : WorkerMain.out_ok o = out) by done. rewrite <- Ho in H. destruct (WorkerMain.list_result o) as [r|e].
    + change (WorkerMain.out_ok o = false) in H. rewrite H. by rewrite worker_complaint.
    + by rewrite worker_complaint.
Qed.
End BothEnds.

(** ** The audited diagnosis *)

Section DiagnosticSpec.
Context {D F : Type} `{Interface D} (actorUID : Z).

Notation dcall := (log_call + (check_call + D))%type.

Definition consumer_ev (x : event D) : event dcall := right_ev (right_ev x).

(** What a check leaves behind after its start record: the check, the
    consumer if there is a result, and a finish record with what came of it. *)
Inductive diagnosed {R} (mid : string) (check : prog dcall (result access_error R))
    (consume : R -> prog D (option F)) (outcome : R -> string)
    : list (event dcall) -> option R -> option (diagnostic_error F) -> Prop :=
| DiagFailed tk err f :
    behaves check tk (Err err) ->
    diagnosed mid check consume outcome
      (tk ++ [ev (inl (LFinish mid (mkMutationFinish "failed" "")) : dcall) f])
      None (Some (DJoined (Some err) None (match f with Ok _ => None | Err e => Some e end)))
| DiagConsumed tk res tc c f :
    behaves check tk (Ok res) -> behaves (consume res) tc c ->
    diagnosed mid check consume outcome
      (tk ++ (consumer_ev <$> tc)
       ++ [ev (inl (LFinish mid (mkMutationFinish
                (match c with None => outcome res | Some _ => "failed" end) "")) : dcall) f])
      (Some res) (joined None c (match f with Ok _ => None | Err e => Some e end)).

Lemma consumer_ev_compose (t : list (event D)) :
  right_ev <$> (right_ev <$> t : list (event (check_call + D))) = consumer_ev <$> t.
Proof. unfold consumer_ev. rewrite <- list_fmap_compose. by apply list_fmap_ext. Qed.

Lemma diagnose_behaves {R} start (check : prog dcall (result access_error R)) consume outcome t x :
  behaves (diagnose (D:=D) (F:=F) start check consume outcome) t x ->
  (exists err, t = [ev (inl (LStart start) : dcall) (Err err)] /\ x = (None, Some (DStarting err)))
  \/ exists mid t', t = ev (inl (LStart start) : dcall) (Ok mid) :: t'
       /\ diagnosed mid check consume outcome t' x.1 x.2.
Proof.
  unfold diagnose. intros (m & t1 & -> & Hm)%(behaves_call_inv (inl (LStart start) : dcall)).
  destruct m as [mid|err]; [right|left; destruct Hm as [-> ->]; by exists err].
  exists mid, t1. split; [done|].
  apply (proj1 (behaves_bind _ _ _ _)) in Hm as (tk & t2 & r & -> & Hk & Hm).
  apply (proj1 (behaves_bind _ _ _ _)) in Hm as (tc & t3 & c & -> & Hc & Hm).
  apply (behaves_call_inv (inl (LFinish _ _) : dcall)) in Hm as (f & t4 & -> & [-> ->]).
  destruct r as [res|err].
  - apply behaves_on_right in Hc as (tc1 & -> & (tc2 & -> & Hc)%behaves_on_right).
    rewrite consumer_ev_compose. cbn [fst snd].
    replace (match c with Some _ => OutcomeFailed | None => outcome res end)
      with (match c with Some _ => "failed" | None => outcome res end) by done.
    by constructor.
  - destruct Hc as [-> ->]. by apply DiagFailed.
Qed.

(** Every diagnosis is on record: for every environment and every consumer
    of the result, neither diagnosis contacts the worker unless its start
    record was written; it then asks the worker once, hands a result to the
    consumer exactly when there is one, and ends with one finish record that
    says "failed" unless both the check and the consumer succeeded; an error
    of the check, of the consumer or of the log is reported. *)
Theorem diagnosis_recorded t :
  (forall alias consume out e,
    behaves (Diagnostic_Run (D:=D) (F:=F) actorUID alias consume) t (out, e) ->
    (exists err, t = [ev (inl (LStart (start_for actorUID alias "check_project_access" "" [] "" [])) : dcall) (Err err)]
       /\ out = "" /\ e = Some (DStarting err))
    \/ exists mid t' r,
         t = ev (inl (LStart (start_for actorUID alias "check_project_access" "" [] "" [])) : dcall) (Ok mid) :: t'
         /\ diagnosed mid (call (inr (inl (CCheckAccess alias)) : dcall)) consume r_Outcome t' r e
         /\ out = match r with Some res => r_Outcome res | None => "" end)
  /\ (forall consume e,
    behaves (Diagnostic_ListAvailable (D:=D) (F:=F) actorUID consume) t e ->
    (exists err, t = [ev (inl (LStart (start_for actorUID "" "list_available_projects" "" [] "" [])) : dcall) (Err err)]
       /\ e = Some (DStarting err))
    \/ exists mid t' r,
         t = ev (inl (LStart (start_for actorUID "" "list_available_projects" "" [] "" [])) : dcall) (Ok mid) :: t'
         /\ diagnosed mid (call (inr (inl CListAvailable) : dcall)) consume (fun _ => "listed") t' r e).
Proof.
  split.
  - intros alias consume out e (t1 & t2 & r & -> & Hr & [-> [= -> ->]])%(behaves_bind _ _ _ _).
    rewrite app_nil_r. apply diagnose_behaves in Hr as [(err & -> & ->)|(mid & t' & -> & Hd)];
      [left; by exists err|right]. by exists mid, t', r.1.
  - intros consume e (t1 & t2 & r & -> & Hr & [-> ->])%(behaves_bind _ _ _ _).
    rewrite app_nil_r. apply diagnose_behaves in Hr as [(err & -> & ->)|(mid & t' & -> & Hd)];
      [left; by exists err|right]. by exists mid, t', r.1.
Qed.

End DiagnosticSpec.

(** *** The two ends, on the demonstration worker *)

Definition demo_access : AccessDiag.Result :=
  AccessDiag.mkResult 1 "all_accessible" [AccessDiag.mkProjectResult "p" "id" "accessible"].

Definition demo_list : ProjectList.Result := ProjectList.mkResult 1 (Some []).

(** Decoders that read one line each. *)
Definition read_access (s : string) : option (AccessDiag.Result * json_tail) :=
  if String.eqb s (WorkerMain.encode_access demo_access +:+ str1 LF) then Some (demo_access, JsonEOF) else None.

Definition read_list (s : string) : option (ProjectList.Result * json_tail) :=
  if String.eqb s (WorkerMain.encode_projects demo_list +:+ str1 LF) then Some (demo_list, JsonEOF) else None.

Definition demo_outcomes : WorkerMain.outcomes :=
  worker_outcomes demo_url demo_toml (fun _ => false) (fun r => r) (fun _ => Some []) demo_handler demo_fs NewServer tt
    (Ok tt) (Err EUnknownAlias) true.

Lemma diagnosis_end_to_end_witness :
  result_of (deployed (fun _ => "") demo_outcomes) (CheckAccess (fun _ => false) read_access "") tt = Ok demo_access
  /\ result_of (deployed (fun _ => "") demo_outcomes) (ListAvailable (fun _ => false) read_list) tt = Ok demo_list.
Proof.
  destruct (diagnosis_end_to_end demo_url demo_toml (fun _ => false) (fun r => r) (fun _ => Some [])
    read_access read_list (fun _ => "") demo_handler demo_fs NewServer tt (Ok tt) (Err EUnknownAlias) true "")
    as (Ha & Hl & _ & _). split.
  - refine (eq_trans (Ha demo_access _ _ _) _); vm_compute; reflexivity.
  - apply Hl; [vm_compute; reflexivity|reflexivity|vm_compute; reflexivity].
Defined.
