(* ===== verification/AdminWorld.v ===== *)
(** * AdminWorld: the policy file under the administrator's operations

    [PolicyFS] is what the editor relies on of the operating system: which
    calls can change the policy's text, and how; nothing is said about which
    calls fail.  Over it, the editor's operations are transitions of the
    configuration that the file holds.  [Healthy] adds that no call fails.
    [PolicyWorld.World.step] keeps the laws of both. *)

From S2P Require Import Prelude GoStrings GoSha256 Effects Io Config SecureFile Recovery PolicyText PolicyEditor PolicyWorld.
From S2P Require Import AdminPath AdminLog AdminAudit AdminSystem.

#[local] Open Scope Z_scope.

(** The text of the file [file], and of the temporary file being written. *)
Class PolicyFS {S : Type} (h : handler policy_call S) (file : string) := {
  content : S -> string;
  staged : S -> string;
  fs_read s max forbidden root d :
    (h (ReadFile file max forbidden root) s).1 = Ok d -> d = content s;
  fs_create s dir pattern temp :
    (h (CreateTemp dir pattern) s).1 = Some temp -> staged (h (CreateTemp dir pattern) s).2 = "";
  fs_write s d :
    (h (TempWrite d) s).1 = true -> staged (h (TempWrite d) s).2 = staged s +:+ d;
  fs_rename s from :
    content (h (Rename from file) s).2 = if (h (Rename from file) s).1 then staged s else content s;
  fs_content_kept c s : is_rename c = false -> content (h c s).2 = content s;
  fs_staged_kept c s :
    match c with CreateTemp _ _ | TempWrite _ => True | _ => staged (h c s).2 = staged s end;
}.

(** ** Following a trace *)

(** What is known of the two texts after an event. *)
Definition track_event (file : string) (x : event policy_call) (k : option string * option string)
    : option string * option string :=
  let 'existT c a := x in
  match c return answer c -> option string * option string with
  | Rename _ to => fun b =>
      if String.eqb to file then (if (b : bool) then (k.2, k.2) else k) else (None, k.2)
  | CreateTemp _ _ => fun a => (k.1, match a with Some _ => Some "" | None => None end)
  | TempWrite d => fun b => (k.1, if (b : bool) then (fun t => t +:+ d) <$> k.2 else None)
  | _ => fun _ => k
  end a.

Definition track (file : string) (t : list (event policy_call)) (k : option string * option string)
    : option string * option string :=
  foldl (fun k x => track_event file x k) k t.

Section Track.
Context {S : Type} (h : handler policy_call S) (file : string) `{!PolicyFS h file}.

Definition agrees (k : option string * option string) (s : S) : Prop :=
  (forall d, k.1 = Some d -> content s = d) /\ (forall d, k.2 = Some d -> staged s = d).

Lemma agrees_start s st : agrees (Some (content s), st) s <-> forall d, st = Some d -> staged s = d.
Proof. unfold agrees. cbn. naive_solver. Qed.

Lemma track_step c s k : agrees k s -> agrees (track_event file (ev c (h c s).1) k) (h c s).2.
Proof.
  intros [Hc Hs]. pose proof (fs_staged_kept c s) as Hsk. pose proof (fs_content_kept c s) as Hck.
  destruct c; cbn [track_event ev] in *; try (rewrite <- Hsk in Hs; rewrite <- Hck in Hc by done; by split).
  - specialize (Hck eq_refl). split; cbn [fst snd]; [rewrite Hck; exact Hc|].
    destruct (h _ s).1 as [temp|] eqn:E; [|done]. intros d [= <-]. by eapply fs_create.
  - specialize (Hck eq_refl). split; cbn [fst snd]; [rewrite Hck; exact Hc|].
    destruct (h _ s).1 eqn:E; [|done]. intros d. destruct (k.2) as [d'|] eqn:Ek; [|done]. intros [= <-].
    rewrite (fs_write _ _ E). by rewrite (Hs d').
  - rewrite <- Hsk in Hs. destruct (String.eqb to file) eqn:E; [|by split].
    apply String.eqb_eq in E as ->. pose proof (fs_rename s from) as Hr.
    destruct (h (Rename from file) s).1; (split; [|done]); rewrite Hr; [|done].
    rewrite Hsk in Hs. exact Hs.
Qed.

Lemma track_run {A} (p : prog policy_call A) s k :
  agrees k s -> agrees (track file (trace_of h p s) k) (state_of h p s).
Proof.
  unfold trace_of, state_of. revert s k. induction p as [a|c q IH]; intros s k Hk; [done|].
  cbn [run]. pose proof (track_step c s k Hk) as Hs. destruct (h c s) as [r s1]. cbn [fst snd] in Hs.
  specialize (IH r s1 _ Hs). by destruct (run h (q r) s1) as [[a s2] t].
Qed.

(** What is read before a rename is the text at the start. *)
Lemma run_read {A} (p : prog policy_call A) s t1 t2 max forbidden root d :
  trace_of h p s = t1 ++ ev (ReadFile file max forbidden root) (Ok d) :: t2 -> no_rename t1 -> d = content s.
Proof.
  unfold trace_of. revert s t1. induction p as [a|c q IH]; intros s t1; [by destruct t1|].
  cbn [run]. pose proof (fs_content_kept c s) as Hck. pose proof (fun m f rt => fs_read s m f rt d) as Hr.
  destruct (h c s) as [r s1] eqn:E. specialize (IH r s1).
  destruct (run h (q r) s1) as [[a s2] t]. cbn [fst snd] in *. intros Ht Hn.
  destruct t1 as [|x t1].
  - apply cons_eq_inv in Ht as [Hev _]. apply (Hr max forbidden root).
    assert (Hc : c = ReadFile file max forbidden root) by exact (f_equal (@projT1 _ _) Hev). subst c.
    rewrite E. cbn.
    apply (f_equal (fun x : event policy_call =>
      match x return option (result securefile_error string) with
      | existT (ReadFile _ _ _ _) a => Some a | _ => None end)) in Hev. cbn in Hev. by injection Hev.
  - apply cons_eq_inv in Ht as [<- Ht]. unfold no_rename in Hn. rewrite calls_cons in Hn.
    apply Forall_cons in Hn as [Hc Hn]. rewrite <- Hck by by destruct c.
    by apply (IH t1).
Qed.

End Track.

(** ** One change *)

Lemma track_app file t1 t2 k : track file (t1 ++ t2) k = track file t2 (track file t1 k).
Proof. apply foldl_app. Qed.

Lemma track_no_rename file t k : no_rename t -> (track file t k).1 = k.1.
Proof.
  revert k. induction t as [|[c a] t IH]; intros k; [done|]. unfold no_rename. rewrite calls_cons.
  intros [Hc Hn]%Forall_cons. cbn [track foldl]. change (foldl _ _ t) with (track file t (track_event file (ev c a) k)).
  rewrite IH by done. by destruct c.
Qed.

Lemma track_replaced file e t updated m b k : path e = file -> replaced e t updated m b ->
  (track file t k).1 = if b then Some updated else k.1.
Proof.
  intros <- (temp & t1 & t2 & -> & Hready & Hn). rewrite track_app. cbn [track foldl].
  change (foldl _ ?k t2) with (track (path e) t2 k). rewrite (track_no_rename _ _ _ Hn).
  cbn [track_event ev]. rewrite String.eqb_refl.
  destruct Hready as (i1 & i2 & uid & gid & -> & _).
  destruct b; destruct (negb _ || negb _); cbn; by rewrite ?String.eqb_refl.
Qed.

Section Change.
Context (url_Parse : string -> option URL) (toml_Unmarshal : string -> option Config).
Context {S : Type} (h : handler policy_call S) (e : Editor) `{!PolicyFS h (path e)}.

Notation Parse := (Parse url_Parse toml_Unmarshal).
Notation act := (act url_Parse toml_Unmarshal e).

(** The text is what it was, or is replaced as the change intends. *)
Definition evolves (c : change) (before after : string) : Prop :=
  exists cfg cfg',
    Parse before = Ok cfg /\ ValidateWorker cfg = Ok tt /\ intended c cfg cfg'
    /\ Parse after = Ok cfg' /\ ValidateWorker cfg' = Ok tt
    /\ (expectedRevision e = "" \/ digestBytes before = expectedRevision e).

Lemma act_content c s :
  (content (state_of h (act c) s) = content s /\ (result_of h (act c) s).1 = false)
  \/ evolves c (content s) (content (state_of h (act c) s)).
Proof.
  pose proof (act_behaves _ _ _ _ _ _ (run_behaves h (act c) s)) as Hb.
  assert (Hstart : agrees h (path e) (Some (content s), None) s) by (by apply agrees_start).
  pose proof (track_run h (path e) (act c) s _ Hstart) as [Hc _].
  destruct Hb as [[Hn Hch]|(t0 & t1 & tm & t2 & data & cfg & meta & updated & cfg' & b & Ht & H0 & Hm & Hr & Hi & Hp & Hv & Hrep & Hch)].
  { left. split; [|done]. apply Hc. by rewrite track_no_rename. }
  assert (Hfin : (track (path e) (trace_of h (act c) s) (Some (content s), None)).1
                 = if b then Some updated else Some (content s)).
  { rewrite Ht, !track_app, (track_replaced (path e) e t2 updated meta b) by done.
    destruct b; [done|]. rewrite !track_no_rename; try done. by eapply policy_read_no_rename. }
  rewrite Hfin in Hc. destruct b.
  2:{ left. split; [by apply Hc|]. by destruct (result_of h (act c) s).1; [specialize (Hch eq_refl)|]. }
  right. rewrite (Hc _ eq_refl). destruct Hr as (i1 & i2 & -> & _ & _ & Hrv & Hpd & Hvd).
  assert (Hd : data = content s).
  { eapply (run_read h (path e) (act c) s (t0 ++ [_; _])).
    - rewrite Ht. rewrite <- app_assoc. cbn [app]. reflexivity.
    - apply no_rename_app. split; [done|by_calls]. }
  subst data. by exists cfg, cfg'.
Qed.
End Change.

(** ** Sessions *)

Section Session.
Context (url_Parse : string -> option URL) (toml_Unmarshal : string -> option Config).

Notation Parse := (Parse url_Parse toml_Unmarshal).
Notation act := (act url_Parse toml_Unmarshal).

(** Changes one after the other, each with the editor it is made through. *)
Fixpoint session (l : list (Editor * change)) : prog policy_call (list (bool * option editor_error)) :=
  match l with
  | [] => mret []
  | (e, c) :: l => r ← act e c; rs ← session l; mret (r :: rs)
  end.

(** The abstract system: a configuration, and changes that happen as intended
    or not at all. *)
Inductive config_steps : Config -> list change -> Config -> Prop :=
| StepsDone cfg : config_steps cfg [] cfg
| StepsRefused cfg c cs cfg' : config_steps cfg cs cfg' -> config_steps cfg (c :: cs) cfg'
| StepsChanged cfg c cfg1 cs cfg' :
    intended c cfg cfg1 -> config_steps cfg1 cs cfg' -> config_steps cfg (c :: cs) cfg'.

Definition holds (text : string) (cfg : Config) : Prop := Parse text = Ok cfg /\ ValidateWorker cfg = Ok tt.

(** A text that a broker and a worker load. *)
Definition well_formed (text : string) : Prop :=
  exists cfg, Parse text = Ok cfg /\ wf_config url_Parse cfg /\ worker_ready cfg.

Context {S : Type} (h : handler policy_call S) (file : string) `{!PolicyFS h file}.

Lemma evolves_holds e c before after cfg :
  evolves url_Parse toml_Unmarshal e c before after -> holds before cfg ->
  exists cfg', holds after cfg' /\ intended c cfg cfg'.
Proof.
  intros (cfg0 & cfg' & Hp & _ & Hi & Hp' & Hv' & _) [Hb _]. rewrite Hp in Hb. injection Hb as ->. by exists cfg'.
Qed.

Lemma session_holds l s cfg :
  Forall (fun ec => path ec.1 = file) l -> holds (content s) cfg ->
  exists cfg', holds (content (state_of h (session l) s)) cfg' /\ config_steps cfg (map snd l) cfg'.
Proof.
  revert s cfg. induction l as [|[e c] l IH]; intros s cfg Hp Hs.
  { exists cfg. split; [done|constructor]. }
  apply Forall_cons in Hp as [He Hp]. cbn in He. subst file.
  cbn [session map snd]. rewrite state_of_bind, state_of_bind.
  change (state_of h (mret ?a) ?x) with x. set (s1 := state_of h (act e c) s).
  destruct (act_content url_Parse toml_Unmarshal h e c s) as [[Hc _]|He].
  - destruct (IH s1 cfg Hp) as (cfg' & Hh & Hst); [unfold s1; by rewrite Hc|].
    exists cfg'. split; [exact Hh|by apply StepsRefused].
  - destruct (evolves_holds _ _ _ _ _ He Hs) as (cfg1 & Hs1 & Hi).
    destruct (IH s1 cfg1 Hp Hs1) as (cfg' & Hh & Hst).
    exists cfg'. split; [exact Hh|by eapply StepsChanged].
Qed.

(** C6: the editor implements the abstract system: on every file system that
    keeps the laws of [PolicyFS], whichever calls fail, however many changes
    are asked for, in any order and through any editors of the file, the
    configuration in the file at the end is reached from the one at the start
    by steps that each do exactly what the change is meant to do, or nothing. *)
Theorem editor_refines_configuration l s cfg :
  Forall (fun ec => path ec.1 = file) l -> holds (content s) cfg ->
  exists cfg', holds (content (state_of h (session l) s)) cfg' /\ config_steps cfg (map snd l) cfg'.
Proof. apply session_holds. Qed.

(** C14: the policy file stays well formed: whichever calls fail and whatever is
    asked for, a policy that a broker and a worker accept is still one they
    accept after any session of changes. *)
Theorem policy_stays_well_formed l s :
  Forall (fun ec => path ec.1 = file) l -> well_formed (content s) ->
  well_formed (content (state_of h (session l) s)).
Proof.
  intros Hp (cfg & Hparse & _ & Hw). apply ValidateWorker_spec in Hw.
  destruct (session_holds l s cfg Hp (conj Hparse Hw)) as (cfg' & [Hp' Hw'] & _).
  exists cfg'. split; [done|]. split; [|by apply ValidateWorker_spec].
  by apply Parse_Ok in Hp' as (_ & _ & _ & ?).
Qed.
End Session.

(** ** When nothing fails *)

Definition succeeds (c : policy_call) : answer c -> Prop :=
  match c with
  | TrustedDir _ => fun a => a = Ok tt
  | Flock _ => fun a => a = Ok tt
  | CreateTemp _ _ => fun a => is_Some a
  | TempStat => fun a => is_Some a
  | OpenPolicy _ | TempChown _ _ | TempChmod _ | TempWrite _ | TempSync | TempClose | Rename _ _ | OpenDir _
  | SyncDir => fun a => a = true
  | _ => fun _ => True
  end.

(** No call fails, the policy is a regular file of the owner, and the recovery
    store keeps what is published in it. *)
Class Healthy {S : Type} (h : handler policy_call S) (e : Editor) `{!PolicyFS h (path e)} := {
  meta : S -> fileMetadata;
  stored : S -> string -> option RecoveryArtifact;
  hl_succeeds c s : succeeds c (h c s).1;
  hl_stat s : (h (Lstat (path e)) s).1 = Some (mkFileInfo true (meta s));
  hl_mode s : Z.land (fm_mode (meta s)) 18 = 0 /\ fm_uid (meta s) = expectedOwner e;
  hl_meta_kept c s : is_rename c = false -> meta (h c s).2 = meta s;
  hl_read s : len (content s) <= maxPolicyBytes ->
    (h (ReadFile (path e) maxPolicyBytes 18 true) s).1 = Ok (content s);
  hl_publish i s : (h (Publish i) s).1 = Ok tt ->
    exists created, stored (h (Publish i) s).2 (ri_RecoveryID i) = Some (artifact_of i created);
  hl_artifact id s a : stored s id = Some a -> (h (ReadArtifact id) s).1 = Ok a;
  hl_stored_kept c s : (forall i, c <> Publish i) -> stored (h c s).2 = stored s;
}.

Section Health.
Context (url_Parse : string -> option URL) (toml_Unmarshal : string -> option Config).
Context {S : Type} (h : handler policy_call S) (e : Editor) `{!PolicyFS h (path e)} `{!Healthy h e}.

Notation Parse := (Parse url_Parse toml_Unmarshal).

(** A program that does not rename keeps the file. *)
Lemma keeps_file {A} (p : prog policy_call A) s :
  only (fun c => is_rename c = false) p ->
  content (state_of h p s) = content s /\ meta (state_of h p s) = meta s.
Proof.
  unfold state_of. revert s. induction p as [a|c k IH]; intros s; [done|]. intros [Hc Hk]. cbn [run].
  pose proof (fs_content_kept c s Hc) as H1. pose proof (hl_meta_kept c s Hc) as H2.
  destruct (h c s) as [r s1]. cbn [fst snd] in *. specialize (IH r s1 (Hk r)).
  destruct (run h (k r) s1) as [[a s2] t]. cbn in *. rewrite <- H1, <- H2. exact IH.
Qed.

(** A program that succeeds and keeps the file. *)
Definition runs_ok {A} (m : io A) (s : S) (a : A) : Prop :=
  result_of h m s = Ok a /\ content (state_of h m s) = content s /\ meta (state_of h m s) = meta s.

Lemma ok_ok {A} (a : A) s : runs_ok (ok a) s a.
Proof. done. Qed.

Lemma ok_lift {A} (r : result editor_error A) s a : r = Ok a -> runs_ok (lift r) s a.
Proof. by intros ->. Qed.

Lemma ok_and_then {A B} (m : io A) (f : A -> io B) s a b :
  runs_ok m s a -> runs_ok (f a) (state_of h m s) b -> runs_ok (and_then m f) s b.
Proof.
  intros (H1 & Hc & Hm) (H2 & Hc' & Hm'). unfold runs_ok, and_then.
  rewrite result_of_bind, state_of_bind, H1. by rewrite <- Hc, <- Hm.
Qed.

(** A call whose answer is used at once. *)
Lemma ok_call {A} c (f : answer c -> io A) s a :
  is_rename c = false -> runs_ok (f (h c s).1) (h c s).2 a -> runs_ok (call c ≫= f) s a.
Proof.
  intros Hc (H2 & Hc' & Hm'). unfold runs_ok. rewrite result_of_bind, state_of_bind, result_of_call, state_of_call.
  rewrite Hc', Hm', (fs_content_kept c s Hc), (hl_meta_kept c s Hc). by split_and!.
Qed.

Lemma ok_call_as {A} c (f : answer c -> io A) s x a :
  is_rename c = false -> (h c s).1 = x -> runs_ok (f x) (h c s).2 a -> runs_ok (call c ≫= f) s a.
Proof. intros Hc <-. by apply ok_call. Qed.

Lemma ok_require err c (to_bool : answer c -> bool) s :
  is_rename c = false -> to_bool (h c s).1 = true ->
  runs_ok (b ← call c; if to_bool b then ok tt else fail err) s tt.
Proof. intros Hc Hb. apply ok_call; [done|]. by rewrite Hb. Qed.

(** A deferred call. *)
Lemma ok_finally {A} (m : io A) c s a :
  is_rename c = false -> runs_ok m s a -> runs_ok (r ← m; _ ← call c; mret r) s a.
Proof.
  intros Hc (H1 & H2 & H3). unfold runs_ok. rewrite !result_of_bind, !state_of_bind, state_of_call, H1.
  change (state_of h (mret ?x) ?y) with y. rewrite (fs_content_kept c _ Hc), (hl_meta_kept c _ Hc). by split_and!.
Qed.

Ltac good_call c := apply (ok_require _ c (fun b => b)); [done|exact (hl_succeeds c _)].

Lemma ok_metadata s : runs_ok (metadata e) s (meta s).
Proof.
  apply (ok_call (Lstat (path e))); [done|]. apply ok_lift. rewrite hl_stat.
  destruct (hl_mode s) as [Hm Ho]. cbn [fi_regular fi_meta negb]. by rewrite Hm, Ho, !Z.eqb_refl.
Qed.

Lemma ok_unchanged err s m : m = meta s -> runs_ok (unchanged e m err) s tt.
Proof.
  intros ->. eapply ok_and_then; [apply ok_metadata|]. cbn beta.
  by rewrite (proj2 (sameFile_spec _ _) eq_refl).
Qed.

Lemma ok_lock s : runs_ok (lockPolicy e) s tt.
Proof.
  unfold lockPolicy. eapply ok_and_then; [good_call (OpenPolicy (path e))|].
  apply (ok_call (Flock _)); [done|]. by rewrite (hl_succeeds (Flock _)).
Qed.

Lemma ok_fill data m s : runs_ok (fill_temp data m) s tt.
Proof.
  unfold fill_temp. apply (ok_call TempStat); [done|].
  destruct (hl_succeeds TempStat s) as [[uid gid] ->].
  eapply ok_and_then.
  { destruct (_ || _); [|apply ok_ok].
    good_call (TempChown (fm_uid m) (fm_gid m)). }
  eapply ok_and_then; [good_call (TempChmod (fm_mode m))|].
  eapply ok_and_then; [good_call (TempWrite data)|].
  eapply ok_and_then; [good_call TempSync|].
  good_call TempClose.
Qed.

Lemma ok_sync s : runs_ok (sync_dir e) s tt.
Proof.
  unfold sync_dir. eapply ok_and_then; [good_call (OpenDir (Filepath.Dir (path e)))|].
  apply (ok_finally _ CloseDir); [done|]. good_call SyncDir.
Qed.

Lemma then_Ok {A B} (m : io A) (f : A -> io B) s a :
  result_of h m s = Ok a ->
  result_of h (and_then m f) s = result_of h (f a) (state_of h m s)
  /\ state_of h (and_then m f) s = state_of h (f a) (state_of h m s).
Proof. intros H. unfold and_then. by rewrite result_of_bind, state_of_bind, H. Qed.

Lemma result_call_bind {A} c (f : answer c -> prog policy_call A) s :
  result_of h (call c ≫= f) s = result_of h (f (h c s).1) (h c s).2.
Proof. by rewrite result_of_bind, result_of_call, state_of_call. Qed.

Lemma run_call_bind {A} c (f : answer c -> prog policy_call A) s x s' :
  (h c s).1 = x -> (h c s).2 = s' ->
  result_of h (call c ≫= f) s = result_of h (f x) s' /\ state_of h (call c ≫= f) s = state_of h (f x) s'.
Proof. intros <- <-. by rewrite result_of_bind, state_of_bind, result_of_call, state_of_call. Qed.

Lemma result_replace_file data s :
  result_of h (replace_file e data (meta s)) s = Ok tt.
Proof.
  unfold replace_file. etransitivity; [apply (result_call_bind (CreateTemp _ _))|]. cbn beta.
  pose proof (hl_succeeds (CreateTemp (Filepath.Dir (path e)) ".policy.toml.tmp-*") s) as [temp Ht].
  pose proof (hl_meta_kept (CreateTemp (Filepath.Dir (path e)) ".policy.toml.tmp-*") s eq_refl) as Hm0.
  rewrite Ht. set (s1 := (h _ s).2) in *.
  rewrite result_of_bind. destruct (ok_fill data (meta s) s1) as (H1 & _ & Hm1).
  destruct (ok_unchanged EChangedBeforeRename (state_of h (fill_temp data (meta s)) s1) (meta s))
    as (H2 & _ & _); [by rewrite Hm1, Hm0|].
  match goal with |- result_of h (match result_of h ?m s1 with _ => _ end) _ = _ =>
    assert (Hr : result_of h m s1 = Ok tt) end.
  { rewrite (proj1 (then_Ok _ _ _ _ H1)), (proj1 (then_Ok _ _ _ _ H2)). unfold require.
    etransitivity; [apply (result_call_bind (Rename _ _))|]. by rewrite (hl_succeeds (Rename temp (path e))). }
  rewrite Hr, !result_of_bind. change (result_of h (mret ?x) _) with x. apply ok_sync.
Qed.

Lemma result_writeAtomic data s :
  len data <= maxPolicyBytes -> result_of h (writeAtomic e data (meta s)) s = Ok tt.
Proof.
  intros Hlen. unfold writeAtomic. rewrite (proj2 (Z.ltb_ge _ _) Hlen).
  destruct (ok_lock s) as (H1 & _ & Hm1). rewrite (proj1 (then_Ok _ _ _ _ H1)), !result_of_bind.
  change (result_of h (mret ?x) _) with x.
  destruct (ok_unchanged EChangedBeforeReplace (state_of h (lockPolicy e) s) (meta s)) as (H2 & _ & Hm2); [done|].
  rewrite (proj1 (then_Ok _ _ _ _ H2)).
  replace (meta s) with (meta (state_of h (unchanged e (meta s) EChangedBeforeReplace) (state_of h (lockPolicy e) s)))
    at 1 by congruence.
  apply result_replace_file.
Qed.

(** A policy that can be read is read. *)
Lemma ok_readPolicy s cfg :
  expectedRevision e = "" -> len (content s) <= maxPolicyBytes ->
  Parse (content s) = Ok cfg -> ValidateWorker cfg = Ok tt ->
  runs_ok (readPolicy url_Parse toml_Unmarshal e) s (content s, cfg, meta s).
Proof.
  intros Hrev Hlen Hp Hv. unfold readPolicy.
  eapply (ok_call_as (TrustedDir _)); [done|exact (hl_succeeds (TrustedDir _) _)|].
  pose proof (fs_content_kept (TrustedDir (Filepath.Dir (path e))) s eq_refl) as Hc1.
  pose proof (hl_meta_kept (TrustedDir (Filepath.Dir (path e))) s eq_refl) as Hm1.
  set (s1 := (h _ s).2) in *. eapply ok_and_then; [by apply ok_lift|].
  change (state_of h (lift ?x) ?y) with y. eapply ok_and_then; [apply ok_metadata|].
  destruct (ok_metadata s1) as (_ & Hc2 & Hm2). set (s2 := state_of h (metadata e) s1) in *.
  eapply (ok_call_as (ReadFile _ _ _ _)); [done|by apply hl_read; rewrite Hc2, Hc1|].
  pose proof (fs_content_kept (ReadFile (path e) maxPolicyBytes 18 true) s2 eq_refl) as Hc3.
  pose proof (hl_meta_kept (ReadFile (path e) maxPolicyBytes 18 true) s2 eq_refl) as Hm3.
  set (s3 := (h _ s2).2) in *. eapply ok_and_then; [by apply ok_lift|].
  change (state_of h (lift ?x) ?y) with y. eapply ok_and_then; [apply ok_metadata|]. cbn beta.
  rewrite (proj2 (sameFile_spec _ _)) by congruence. rewrite Hrev. cbn [negb andb String.eqb].
  unfold parse_current. rewrite Hc2, Hc1, Hp. cbn [wrap_err mbind result_bind]. rewrite Hv. cbn.
  rewrite Hm3, Hm2, Hm1. apply (ok_ok (content s, cfg, meta s)).
Qed.
Lemma written_content data m s :
  result_of h (writeAtomic e data m) s = Ok tt -> content (state_of h (writeAtomic e data m) s) = data.
Proof.
  intros Hr. pose proof (run_behaves h (writeAtomic e data m) s) as Hb. rewrite Hr in Hb.
  assert (Hstart : agrees h (path e) (Some (content s), None) s) by (by apply agrees_start).
  pose proof (track_run h (path e) (writeAtomic e data m) s _ Hstart) as [Hc _]. apply Hc.
  apply writeAtomic_behaves in Hb as [_ [[_ ?]|(temp & t1 & b & t2 & -> & Hready & Hn & _ & Hok & _)]]; [done|].
  rewrite (track_replaced _ e _ data m b); [by rewrite (Hok eq_refl)|done|by exists temp, t1, t2].
Qed.

(** *** The recovery store *)

Definition publishes (c : policy_call) : bool := match c with Publish _ => true | _ => false end.

Lemma keeps_stored {A} (p : prog policy_call A) s :
  Forall (fun c => publishes c = false) (calls (trace_of h p s)) -> stored (state_of h p s) = stored s.
Proof.
  unfold state_of, trace_of. revert s. induction p as [a|c k IH]; intros s; [done|]. cbn [run].
  pose proof (hl_stored_kept c s) as Hk. destruct (h c s) as [r s1]. cbn [fst snd] in *.
  specialize (IH r s1). destruct (run h (k r) s1) as [[a s2] t]. cbn [fst snd].
  change (calls (ev c r :: t)) with (c :: calls t).
  intros [Hc Ht]%Forall_cons. cbn in *. rewrite (IH Ht). apply Hk. by intros i ->.
Qed.

Lemma published_stays {A} (p : prog policy_call A) s t1 i t2 :
  trace_of h p s = t1 ++ ev (Publish i) (Ok tt) :: t2 ->
  Forall (fun c => publishes c = false) (calls t2) ->
  exists created, stored (state_of h p s) (ri_RecoveryID i) = Some (artifact_of i created).
Proof.
  unfold trace_of, state_of. revert s t1. induction p as [a|c k IH]; intros s t1; [by destruct t1|].
  cbn [run]. pose proof (hl_publish i s) as Hp. destruct (h c s) as [r s1] eqn:E.
  pose proof (keeps_stored (k r) s1) as Hk. unfold trace_of, state_of in Hk. specialize (IH r s1).
  destruct (run h (k r) s1) as [[a s2] t]. cbn [fst snd] in *. intros Ht Hn.
  destruct t1 as [|x t1]; apply cons_eq_inv in Ht as [Hev ->].
  - assert (Hc : c = Publish i) by exact (f_equal (@projT1 _ _) Hev). subst c.
    rewrite E in Hp. rewrite (Hk Hn). apply Hp. cbn.
    apply (f_equal (fun x : event policy_call =>
      match x return option (result recovery_error unit) with
      | existT (Publish _) a => Some a | _ => None end)) in Hev. cbn in Hev. by injection Hev.
  - by apply (IH t1).
Qed.

Ltac only_calls :=
  repeat first
    [ exact I
    | apply only_and_then; [|intros ?]
    | apply only_bind; [|intros ?]
    | apply only_call; reflexivity
    | match goal with |- only _ (match ?x with _ => _ end) => destruct x end ].

Lemma only_writeAtomic data m : only (fun c => publishes c = false) (writeAtomic e data m).
Proof. unfold writeAtomic, lockPolicy, unchanged, metadata, replace_file, fill_temp, sync_dir, require, lift. only_calls. Qed.

(** *** Removal and restoration *)

Notation RemoveProject := (RemoveProject url_Parse toml_Unmarshal e).
Notation RestoreProject := (RestoreProject url_Parse toml_Unmarshal e).

(** What a removal leaves. *)
Lemma removed_state id alias conf s :
  (result_of h (RemoveProject alias conf id) s).1 = mkRecoveryResult true id ->
  conf = alias /\ recovery e = true /\ conf <> ""
  /\ exists cfg updated i created,
       Parse (content s) = Ok cfg /\ ValidateWorker cfg = Ok tt
       /\ removes url_Parse toml_Unmarshal alias (content s) cfg updated i
       /\ content (state_of h (RemoveProject alias conf id) s) = updated
       /\ len updated <= maxPolicyBytes
       /\ stored (state_of h (RemoveProject alias conf id) s) id
          = Some (artifact_of (mkRecoveryArtifactInput id alias (content s) updated) created).
Proof.
  intros Hr. pose proof (run_behaves h (RemoveProject alias conf id) s) as Hb.
  assert (Hg : recovery e = true /\ conf <> "").
  { revert Hr. unfold PolicyEditor.RemoveProject. cbv zeta. destruct (recovery e); [|done]. cbn [negb].
    by destruct (String.eqb_spec conf ""). }
  apply RemoveProject_behaves in Hb as
    [(_ & Hc & _)|(-> & _ & t1 & t2 & data & cfg & m & updated & i & w & Ht & Hread & Hrm & Hw & Hres)].
  { by rewrite Hr in Hc. }
  rewrite Hres in Hr. destruct w as [[]|]; [|done]. destruct Hg as [Hrec Hne]. do 3 (split; [done|]).
  assert (Hd : data = content s).
  { destruct Hread as (i1 & i2 & -> & _). eapply (run_read h (path e) _ s [_; _]); [rewrite Ht; reflexivity|by_calls]. }
  subst data. pose proof (only_behaves _ _ _ _ (only_writeAtomic updated m) Hw) as Hno.
  destruct (published_stays _ _ _ _ _ Ht Hno) as [created Hst].
  assert (Hstart : agrees h (path e) (Some (content s), None) s) by (by apply agrees_start).
  pose proof (track_run h (path e) (RemoveProject alias alias id) s _ Hstart) as [Hc _].
  apply writeAtomic_behaves in Hw as [_ [[_ ?]|(temp & t3 & b & t4 & -> & Hready & Hn & Hlen & Hok & _)]]; [done|].
  specialize (Hok eq_refl). subst b.
  exists cfg, updated, i, created. destruct Hread as (i1 & i2 & -> & _ & _ & _ & Hp & Hv).
  split_and!; try done. apply Hc. rewrite Ht, track_app.
  change (track (path e) (?x :: ?l) ?k) with (track (path e) l (track_event (path e) x k)).
  by rewrite (track_replaced _ e _ updated m true) by (by exists temp, t3, t4 || done).
Qed.
(** C15: what was removed comes back: on a system where no call fails, a project
    that was removed can be restored with its recovery ID and its alias as the
    confirmation: the restoration is not refused, it reports a change, and it
    leaves the policy byte for byte what it was before the removal.  Anything
    may happen in between, as long as the policy and the stored artifact are
    what the removal left. *)
Theorem removed_project_comes_back id alias conf s s2 :
  expectedRevision e = "" -> len (content s) <= maxPolicyBytes ->
  let s1 := state_of h (RemoveProject alias conf id) s in
  (result_of h (RemoveProject alias conf id) s).1 = mkRecoveryResult true id ->
  content s2 = content s1 -> stored s2 id = stored s1 id ->
  result_of h (RestoreProject id alias) s2 = (mkRecoveryResult true id, None)
  /\ content (state_of h (RestoreProject id alias) s2) = content s.
Proof.
  intros Hrev Hlen s1 Hr Hc2 Hst2.
  destruct (removed_state id alias conf s Hr)
    as (-> & Hrec & Hne & cfg & updated & i & created & Hp & Hv & Hrm & Hc1 & Hlu & Hst1).
  fold s1 in Hc1, Hst1. rewrite Hc1 in Hc2. rewrite Hst1 in Hst2.
  set (a := artifact_of _ created) in *.
  pose proof (hl_artifact id s2 a Hst2) as Hread.
  pose proof (fs_content_kept (ReadArtifact id) s2 eq_refl) as Hc3. set (s3 := (h (ReadArtifact id) s2).2) in *.
  assert (Hpu : Parse (content s3) = Ok (without cfg i) /\ ValidateWorker (without cfg i) = Ok tt).
  { rewrite Hc3, Hc2. by destruct Hrm as (_ & _ & _ & ? & ?). }
  destruct Hpu as [Hpu Hvu].
  destruct (ok_readPolicy s3 _ Hrev (eq_ind_r (fun d => len d <= _) (eq_ind_r (fun d => len d <= _) Hlu Hc2) Hc3) Hpu Hvu)
    as (H1 & Hcr & Hmr).
  pose proof (fresh_artifact_passes _ _ id alias (content s) cfg updated i created Hp Hv Hrm) as Hchk.
  fold a in Hchk.
  set (s4 := state_of h (readPolicy url_Parse toml_Unmarshal e) s3) in *.
  assert (Hw : result_of h (writeAtomic e (Policy a) (meta s3)) s4 = Ok tt).
  { rewrite <- Hmr. by apply result_writeAtomic. }
  pose proof (written_content _ _ _ Hw) as Hcw.
  set (again := fun p : string * Config * fileMetadata => let '(currentData, currentConfig, m) := p in
         and_then (lift (check_artifact url_Parse toml_Unmarshal a currentData currentConfig))
           (fun _ => writeAtomic e (Policy a) m)).
  assert (Hin : result_of h (and_then (readPolicy url_Parse toml_Unmarshal e) again) s3 = Ok tt
          /\ content (state_of h (and_then (readPolicy url_Parse toml_Unmarshal e) again) s3) = content s).
  { destruct (then_Ok _ again _ _ H1) as [-> ->]. unfold again. fold s4. rewrite Hc3, Hc2, Hchk.
    destruct (then_Ok (lift (Ok tt)) (fun _ => writeAtomic e (Policy a) (meta s3)) s4 tt eq_refl) as [-> ->].
    by split. }
  unfold PolicyEditor.RestoreProject. cbv zeta. rewrite Hrec. apply String.eqb_neq in Hne. rewrite Hne. cbn [negb].
  match goal with |- result_of h (@mbind _ _ _ _ ?f _) s2 = _ /\ _ =>
    destruct (run_call_bind (ReadArtifact id) f s2 (Ok a) s3 Hread eq_refl) as [E1 E2] end.
  split; [etransitivity; [exact E1|]|etransitivity; [exact (f_equal content E2)|]];
    cbn beta iota; change (ra_Project a) with alias; rewrite (String.eqb_refl alias); cbn [negb]; fold again.
  - rewrite result_of_bind, (proj1 Hin). done.
  - rewrite state_of_bind, (proj1 Hin). exact (proj2 Hin).
Qed.
End Health.

(** ** On the example world *)

#[export] Instance world_fs file : PolicyFS (World.step file) file.
Proof.
  refine {| content := World.text; staged := World.temp |}; try done; cbn.
  - intros s max forbidden root d H. cbn in H. by injection H.
  - intros s from. cbn. by rewrite String.eqb_refl.
  - intros [] s; done.
  - intros [] s; try done; cbn; by destruct (String.eqb to file).
Defined.

#[export] Instance world_healthy file :
  Healthy (World.step file) (newEditorWithRecovery file 0).
Proof.
  refine {| meta := World.meta; stored w id := World.stored_in (World.artifacts w) id |}.
  - intros [] s; cbn; try done; by eexists.
  - done.
  - done.
  - intros [] s; done.
  - done.
  - intros i s _. exists 0. cbn. by rewrite String.eqb_refl.
  - intros id s a H. cbn in *. by rewrite H.
  - intros [] s Hp; try done; cbn; [by destruct (String.eqb to file)|by destruct (Hp input)].
Defined.

Import World.

Lemma editor_refines_configuration_witness :
  exists cfg', holds parse_url decode
      (text (state_of (step file) (session parse_url decode
         [(NewEditor file 0, ChEdit (MSetApproval "web" "automatic"))]) start)) cfg'
    /\ config_steps (config_of [project_of "api" ApprovalNever; project_of "web" ApprovalAllowlistedPrompt])
         [ChEdit (MSetApproval "web" "automatic")] cfg'.
Proof.
  apply (editor_refines_configuration parse_url decode (step file) file (PolicyFS0 := world_fs file)
           [(NewEditor file 0, ChEdit (MSetApproval "web" "automatic"))] start (config_of _)).
  - by repeat constructor.
  - split; vm_compute; reflexivity.
Defined.

Lemma policy_stays_well_formed_witness :
  well_formed parse_url decode
    (text (state_of (step file) (session parse_url decode
       [(NewEditor file 0, ChEdit (MSetApproval "web" "automatic"));
        (newEditorWithRecovery file 0, ChRemove "api" "api" "0123456789abcdef0123456789abcdef")]) start)).
Proof.
  apply (policy_stays_well_formed parse_url decode (step file) file (PolicyFS0 := world_fs file) _ start).
  - by repeat constructor.
  - assert (Hp : Parse parse_url decode (text start)
            = Ok (config_of [project_of "api" ApprovalNever; project_of "web" ApprovalAllowlistedPrompt]))
      by (vm_compute; reflexivity).
    eexists. split; [exact Hp|]. split; [by apply Parse_Ok in Hp as (_ & _ & _ & ?)|].
    apply ValidateWorker_spec. vm_compute. reflexivity.
Defined.

Lemma removed_project_comes_back_witness :
  let e := newEditorWithRecovery file 0 in
  let id := "0123456789abcdef0123456789abcdef" in
  let s1 := state_of (step file) (RemoveProject parse_url decode e "web" "web" id) start in
  text s1 <> text start
  /\ result_of (step file) (RestoreProject parse_url decode e id "web") s1 = (mkRecoveryResult true id, None)
  /\ text (state_of (step file) (RestoreProject parse_url decode e id "web") s1) = text start.
Proof.
  split; [vm_compute; congruence|].
  apply (removed_project_comes_back parse_url decode (step file) (newEditorWithRecovery file 0)
           (PolicyFS0 := world_fs file) (Healthy0 := world_healthy file)
           "0123456789abcdef0123456789abcdef" "web" "web" start); try reflexivity.
  - vm_compute. congruence.
Defined.
