(* ===== verification/AdminCli.v ===== *)
(** * AdminCli: secrets-broker-admin (internal/admincli/root.go)

    The commands of the administrator as programs over the calls they make:
    the effective user, the editor's operations, the log and the worker's
    checks of [AdminAudit] and [AdminAccess], standard output and error, and
    the tabwriter over standard output.  cobra turns the arguments into a
    command with its flags and validated arguments, which is an argument here;
    so is the text of an error. *)

From S2P Require Import Prelude GoStrings GoText GoJson Effects Io Config Recovery PolicyText PolicyEditor.
From S2P Require Import AdminPath AdminLog AdminAudit AdminSystem AdminAccess.
From S2P Require AccessDiag ProjectList.

#[local] Open Scope Z_scope.

Definition policyPath : string := "/etc/secrets-broker/policy.toml".
Definition adminAuditPath : string := "/var/log/secrets-broker-admin/audit.jsonl".
Definition recoveryPath : string := "/var/lib/secrets-broker-admin/recovery".

(** ** Commands *)

Inductive command : Type :=
| CmdList
| CmdShow (alias : string)
| CmdCreate (alias bwsProjectID tokenEntry workingDir : string)
| CmdUpdate (alias : string) (bwsProjectID tokenEntry workingDir : option string)  (** [Flags().Changed] *)
| CmdRemove (alias confirmation : string)
| CmdAccessCheck (alias : option string)
| CmdAvailable
| CmdPathCheck (alias : string)
| CmdRecoveryList
| CmdRestore (recoveryID confirmation : string)
| CmdSetApproval (alias mode : string)
| CmdAllowlistList (alias : string)
| CmdAllowlistAdd (alias : string) (argv : list string)
| CmdAllowlistRemove (alias : string) (argv : list string).

(** What cobra does with the arguments before the root's pre-run: run a
    command, print help, or reject them; its completion scripts are printed
    after the pre-run. *)
Inductive parsed : Type :=
| Runs (c : command)
| ShowsHelp (text : string)
| ShowsScript (text : string)
| Rejects (message : string).

(** ** Calls *)

Inductive cli_op : Type :=
| KEuid
| KEditor (op : editor_op)
| KOut (text : string)         (** [fmt.Fprintf(stdout, ...)] *)
| KErr (text : string)
| KTab (text : string)         (** [fmt.Fprintf(writer, ...)] on a tabwriter *)
| KFlush.                      (** [writer.Flush()] *)

#[export] Instance cli_interface : Interface cli_op := fun c =>
  match c with
  | KEuid => Z
  | KEditor op => answer op
  | KOut _ | KErr _ | KTab _ | KFlush => bool
  end.

Notation cli_call := (log_call + (check_call + cli_op))%type.

Definition ask (o : cli_op) : prog cli_call (answer o) := call (inr (inr o) : cli_call).

Inductive cli_error : Type :=
| KCobra (message : string)
| KNotRoot
| KRead (e : editor_error)
| KPath (e : path_error)
| KAudited (e : audited_error)
| KRecovery (e : audited_error) (recoveryID : string)
| KDiagnostic (e : diagnostic_error unit)
| KFlagRequired (flag : string)
| KNotCreated (alias : string)
| KNoMetadataField
| KNotRemoved (alias : string)
| KNotRestored (recoveryID : string)
| KPathInvalid
| KWritingPath
| KFlushing.

(** A command fails, or returns: [true] after [onDiagnosticFailure]. *)
Notation cli A := (prog cli_call (result cli_error A)).

Definition print (text : string) : cli unit := _ ← ask (KOut text); ok tt.
Definition println (text : string) : cli unit := print (text +:+ str1 LF).
Definition done_ : cli bool := ok false.

(** [if err := load(); err != nil { return err }] *)
Definition reading (op : editor_op) {A} (f : answer op -> result cli_error A) : cli A :=
  x ← ask (KEditor op); lift (f x).

(** The audited editor, over the calls of a command. *)
Definition audited_call (c : log_call + editor_op) : prog cli_call (answer c) :=
  match c with
  | inl l => call (inl l : cli_call)
  | inr op => ask (KEditor op)
  end.

Definition audited_editor {A} (p : audited A) : prog cli_call A := interp audited_call p.

(** [changed, err := editor.Method(...); if err != nil { return err }] *)
Definition changing {R} (error : audited_error -> R -> cli_error)
    (p : audited (R * option audited_error)) : cli R :=
  r ← audited_editor p;
  match r.2 with Some e => fail (error e r.1) | None => ok r.1 end.

Definition recoveryMutationError (e : audited_error) (r : RecoveryResult) : cli_error :=
  if String.eqb (rr_RecoveryID r) "" then KAudited e else KRecovery e (rr_RecoveryID r).

(** Rows on a tabwriter whose write errors are dropped. *)
Fixpoint table (rows : list string) : cli unit :=
  match rows with
  | [] => ok tt
  | row :: rows => _ ← ask (KTab (row +:+ str1 LF)); table rows
  end.

Definition flush : cli unit := require KFlushing (ask KFlush).

(** The same, where the first error ends it: the consumers of a diagnosis. *)
Fixpoint table_or_error (rows : list string) : prog cli_op (option unit) :=
  match rows with
  | [] => b ← call KFlush; mret (if (b : bool) then None else Some tt)
  | row :: rows =>
      b ← call (KTab (row +:+ str1 LF));
      if (b : bool) then table_or_error rows else mret (Some tt)
  end.

Definition row (cells : list string) : string := Strings.Join cells (str1 TAB).

(** ** The commands *)

Section Commands.
Context (unicode_print : Z -> bool) (uid checker_uid : Z).

Definition q (s : string) : string := Strconv.Quote unicode_print s.

Definition projects_list : cli bool :=
  try! items := reading OpListProjects (wrap_err KRead);
  try! _ := table (row ["ALIAS"; "MODE"; "BEHAVIOR"]
              :: map (fun i => row [ps_Alias i; ps_Mode i; ps_Behavior i]) items);
  try! _ := flush; done_.

Fixpoint print_allowed (allow : list (list string)) : cli unit :=
  match allow with
  | [] => ok tt
  | argv :: allow => try! _ := println ("ALLOW: " +:+ Json.encode_strings argv); print_allowed allow
  end.

Definition projects_show (alias : string) : cli bool :=
  try! d := reading (OpGetProject alias) (wrap_err KRead);
  try! _ := println (Strings.Join
    ["ALIAS: " +:+ pd_Alias d; "BWS_PROJECT_ID: " +:+ pd_BWSProjectID d;
     "TOKEN_ENTRY: " +:+ pd_TokenEntry d; "WORKING_DIR: " +:+ pd_WorkingDir d;
     "MODE: " +:+ pd_Mode d; "BEHAVIOR: " +:+ pd_Behavior d] (str1 LF));
  try! _ := print_allowed (pd_Allow d);
  done_.

Definition projects_create (alias bwsProjectID tokenEntry workingDir : string) : cli bool :=
  if String.eqb bwsProjectID "" then fail (KFlagRequired "--bws-project-id") else
  if String.eqb tokenEntry "" then fail (KFlagRequired "--token-entry") else
  if String.eqb workingDir "" then fail (KFlagRequired "--working-dir") else
  try! changed := changing (fun e _ => KAudited e)
    (Audited_CreateProject uid (mkProjectInput alias bwsProjectID tokenEntry workingDir));
  if negb changed then fail (KNotCreated alias) else
  try! _ := println ("Project " +:+ q alias +:+ " created in confirm mode with an empty allowlist.");
  done_.

Definition projects_update (alias : string) (bwsProjectID tokenEntry workingDir : option string) : cli bool :=
  if negb (bool_decide (is_Some bwsProjectID) || bool_decide (is_Some tokenEntry)
           || bool_decide (is_Some workingDir)) then fail KNoMetadataField else
  try! changed := changing (fun e _ => KAudited e)
    (Audited_UpdateProjectMetadata uid alias (mkProjectMetadataUpdate bwsProjectID tokenEntry workingDir));
  try! _ := println ("Project " +:+ q alias +:+
    if (changed : bool) then " metadata updated." else " already has the requested metadata.");
  done_.

Definition projects_remove (alias confirmation : string) : cli bool :=
  try! r := changing recoveryMutationError (Audited_RemoveProject uid alias confirmation);
  if negb (Changed r) || String.eqb (rr_RecoveryID r) "" then fail (KNotRemoved alias) else
  try! _ := println ("Project " +:+ q alias +:+ " removed. Recovery ID: " +:+ rr_RecoveryID r);
  done_.

Definition access_rows (r : AccessDiag.Result) : list string :=
  row ["ALIAS"; "BWS_PROJECT_ID"; "STATUS"]
  :: map (fun p => row [AccessDiag.pr_Alias p; AccessDiag.pr_BWSProjectID p; AccessDiag.pr_Status p])
       (AccessDiag.r_Projects r).

Definition access_check (alias : option string) : cli bool :=
  r ← Diagnostic_Run checker_uid (default "" alias) (fun r => table_or_error (access_rows r));
  match r.2 with
  | Some e => fail (KDiagnostic e)
  | None => ok (negb (String.eqb r.1 AccessDiag.OutcomeAllAccessible))
  end.

Definition available_rows (r : ProjectList.Result) : list string :=
  row ["BWS_PROJECT_ID"; "NAME"]
  :: map (fun p => row [ProjectList.ID p; ProjectList.Name p]) (default [] (ProjectList.Projects r)).

Definition projects_available : cli bool :=
  e ← Diagnostic_ListAvailable checker_uid (fun r => table_or_error (available_rows r));
  match e with Some e => fail (KDiagnostic e) | None => done_ end.

(** What a path check says of the path, the worker, the runner and writing. *)
Definition path_words (r : PathCheckResult) : option (string * string * string * string) :=
  let unchecked (s : string) := Some (s, "not checked", "not checked", "not checked") in
  if String.eqb (Resolution r) PathResolved then
    Some ("resolved to " +:+ q (ResolvedPath r),
          if WorkerCanEnter r then "can enter" else "cannot enter",
          if RunnerCanEnter r then "can enter" else "cannot enter",
          if RunnerCanWrite r then "can write (advisory)" else "cannot write (advisory)")
  else if String.eqb (Resolution r) PathMissing then unchecked "missing or dangling symlink"
  else if String.eqb (Resolution r) PathNotDirectory then unchecked "not a directory"
  else if String.eqb (Resolution r) PathUnresolvable then unchecked "could not resolve"
  else None.

Definition path_check (alias : string) : cli bool :=
  try! r := reading (OpCheckProjectPath alias) (wrap_err KPath);
  match path_words r with
  | None => fail KPathInvalid
  | Some (path, worker, runner, write) =>
      try! _ := require KWritingPath (ask (KOut (Strings.Join
        ["Project: " +:+ q (pc_Alias r); "Configured path: " +:+ q (ConfiguredPath r);
         "Path: " +:+ path; "Worker: " +:+ worker; "Runner: " +:+ runner; "Runner write: " +:+ write]
        (str1 LF) +:+ str1 LF)));
      ok (negb (Ready r))
  end.

Definition recovery_list : cli bool :=
  try! items := reading OpListRecoveries (wrap_err KRead);
  try! _ := table (row ["RECOVERY_ID"; "ALIAS"; "CREATED_AT"]
              :: map (fun i => row [rs_RecoveryID i; rs_Project i; Time.FormatRFC3339Nano (rs_CreatedAt i)]) items);
  try! _ := flush; done_.

Definition recovery_restore (recoveryID confirmation : string) : cli bool :=
  try! r := changing recoveryMutationError (Audited_RestoreProject uid recoveryID confirmation);
  if negb (Changed r) then fail (KNotRestored recoveryID) else
  try! _ := println ("Project " +:+ q confirmation +:+ " restored from recovery ID " +:+ recoveryID +:+ ".");
  done_.

Definition set_approval (alias mode : string) : cli bool :=
  try! changed := changing (fun e _ => KAudited e) (Audited_SetApproval uid alias mode);
  try! _ := println ("Project " +:+ q alias +:+ (if (changed : bool) then " now" else " already") +:+ " uses "
                     +:+ mode +:+ " approval.");
  done_.

Fixpoint numbered (i : Z) (entries : list (list string)) : list string :=
  match entries with
  | [] => []
  | argv :: entries => row [Itoa.Itoa i; Json.encode_strings argv] :: numbered (i + 1) entries
  end.

Definition allowlist_list (alias : string) : cli bool :=
  try! entries := reading (OpListAllowlist alias) (wrap_err KRead);
  try! _ := table (row ["INDEX"; "ARGV"] :: numbered 1 entries);
  try! _ := flush; done_.

Definition allowlist_add (alias : string) (argv : list string) : cli bool :=
  try! changed := changing (fun e _ => KAudited e) (Audited_AddAllowlist uid alias argv);
  try! _ := println ("Project " +:+ q alias +:+ (if (changed : bool) then " now" else " already") +:+ " allows "
                     +:+ Json.encode_strings argv +:+ ".");
  done_.

Definition allowlist_remove (alias : string) (argv : list string) : cli bool :=
  try! changed := changing (fun e _ => KAudited e) (Audited_RemoveAllowlist uid alias argv);
  try! _ := println ("Project " +:+ q alias +:+ (if (changed : bool) then " no longer allows " else " did not allow ")
                     +:+ Json.encode_strings argv +:+ ".");
  done_.

(** [RunE] of each command. *)
Definition RunE (c : command) : cli bool :=
  match c with
  | CmdList => projects_list
  | CmdShow alias => projects_show alias
  | CmdCreate alias id token dir => projects_create alias id token dir
  | CmdUpdate alias id token dir => projects_update alias id token dir
  | CmdRemove alias confirmation => projects_remove alias confirmation
  | CmdAccessCheck alias => access_check alias
  | CmdAvailable => projects_available
  | CmdPathCheck alias => path_check alias
  | CmdRecoveryList => recovery_list
  | CmdRestore id confirmation => recovery_restore id confirmation
  | CmdSetApproval alias mode => set_approval alias mode
  | CmdAllowlistList alias => allowlist_list alias
  | CmdAllowlistAdd alias argv => allowlist_add alias argv
  | CmdAllowlistRemove alias argv => allowlist_remove alias argv
  end.

Context (cobra : list string -> parsed) (error_text : cli_error -> string).

(** The root's [PersistentPreRunE]. *)
Definition must_be_root : cli unit :=
  u ← ask KEuid;
  if negb ((u : Z) =? 0) then fail KNotRoot else ok tt.

(** [root.ExecuteContext] *)
Definition ExecuteContext (args : list string) : cli bool :=
  match cobra args with
  | Rejects message => fail (KCobra message)
  | ShowsHelp text => try! _ := print text; done_
  | ShowsScript text => try! _ := must_be_root; try! _ := print text; done_
  | Runs c => try! _ := must_be_root; RunE c
  end.

(** The exit code. *)
Definition executeWithAccess (args : list string) : prog cli_call Z :=
  r ← ExecuteContext args;
  match r with
  | Err e => _ ← ask (KErr ("secrets-broker-admin: " +:+ error_text e +:+ str1 LF)); mret 2
  | Ok diagnosticFailed => mret (if (diagnosticFailed : bool) then 1 else 0)
  end.
End Commands.

(** [Execute]: both the editor and the diagnostic are made for the caller. *)
Definition Execute (unicode_print : Z -> bool) (cobra : list string -> parsed)
    (error_text : cli_error -> string) (args : list string) : prog cli_call Z :=
  uid ← ask KEuid;
  checker_uid ← ask KEuid;
  executeWithAccess unicode_print uid checker_uid cobra error_text args.
