(* ===== verification/AdminCliSpec.v ===== *)
(** * AdminCliSpec: what the administrator's commands guarantee

    Nothing is done for anyone but root; a change reaches the policy only
    after it was announced to the log; and an exit status of zero means that
    it was carried out and recorded. *)

From S2P Require Import Prelude GoStrings GoText GoJson Effects Io Config SecureFile Recovery PolicyText PolicyEditor.
From S2P Require Import PolicyWorld AdminPath AdminLog AdminAudit AdminSystem AdminAccess AdminCli.
From S2P Require AccessDiag ProjectList.

#[local] Open Scope Z_scope.

(** The change a command asks for. *)
Definition request_of (c : command) : option request :=
  match c with
  | CmdCreate alias id token dir => Some (RqEdit (MCreateProject (mkProjectInput alias id token dir)))
  | CmdUpdate alias id token dir =>
      Some (RqEdit (MUpdateProjectMetadata alias (mkProjectMetadataUpdate id token dir)))
  | CmdRemove alias confirmation => Some (RqRemove alias confirmation)
  | CmdRestore id confirmation => Some (RqRestore id confirmation)
  | CmdSetApproval alias mode => Some (RqEdit (MSetApproval alias mode))
  | CmdAllowlistAdd alias argv => Some (RqEdit (MAddAllowlist alias argv))
  | CmdAllowlistRemove alias argv => Some (RqEdit (MRemoveAllowlist alias argv))
  | _ => None
  end.

(** Calls that only print. *)
Definition prints (c : cli_call) : Prop :=
  match c with inr (inr (KOut _ | KErr _ | KTab _ | KFlush)) => True | _ => False end.

(** Calls that leave the policy alone. *)
Definition calm (c : cli_call) : Prop :=
  match c with inr (inr (KEditor op)) => changes_policy op = false | _ => True end.

Definition cli_ev (x : event (log_call + editor_op)) : event cli_call :=
  let 'existT c a := x in
  match c return answer c -> event cli_call with
  | inl l => fun a => ev (inl l : cli_call) a
  | inr op => fun a => ev (inr (inr (KEditor op)) : cli_call) a
  end a.

Lemma audited_call_behaves c t a : behaves (audited_call c) t a <-> t = [cli_ev (ev c a)].
Proof.
  destruct c as [l|op].
  - exact (behaves_of_call (inl l : cli_call) t a).
  - exact (behaves_of_call (inr (inr (KEditor op)) : cli_call) t a).
Qed.

Lemma audited_editor_behaves {A} (p : audited A) t a :
  behaves (audited_editor p) t a <-> exists t0, behaves p t0 a /\ t = cli_ev <$> t0.
Proof. apply behaves_interp_map. apply audited_call_behaves. Qed.

Lemma changing_behaves {R} error (p : audited (R * option audited_error)) t r :
  behaves (changing error p) t r ->
  exists t0 x o, behaves p t0 (x, o) /\ t = cli_ev <$> t0
    /\ r = match o with Some e => Err (error e x) | None => Ok x end.
Proof.
  intros (t1 & t2 & [x o] & -> & (t0 & H & ->)%audited_editor_behaves & H2)%behaves_bind.
  exists t0, x, o. cbn in H2. destruct o; destruct H2 as [-> ->]; by rewrite app_nil_r.
Qed.

Lemma println_behaves s t r : behaves (println s) t r -> Forall prints (calls t) /\ r = Ok tt.
Proof. intros (x & t' & -> & [-> ->]). split; [|done]. by constructor. Qed.

(** ** The changing commands *)

Section Spec.
Context (unicode_print : Z -> bool) (uid checker_uid : Z).
Context (cobra : list string -> parsed) (error_text : cli_error -> string).

Notation RunE := (RunE unicode_print uid checker_uid).
Notation executeWithAccess := (executeWithAccess unicode_print uid checker_uid cobra error_text).

(** What a changing command does: refused before any call, or the request's
    attempt, and then a line on success. *)
Definition requested (rq : request) (t : list (event cli_call)) (r : result cli_error bool) : Prop :=
  (t = [] /\ r <> Ok false /\ r <> Ok true)
  \/ exists t0 t1 v, t = (cli_ev <$> t0) ++ t1 /\ behaves (perform uid rq) t0 v
       /\ Forall prints (calls t1)
       /\ (forall b, r = Ok b -> b = false /\ v.2 = None
             /\ match rq with RqEdit (MCreateProject _) | RqRemove _ _ | RqRestore _ _ => v.1 = true | _ => True end).

(** A changing call and the line after it. *)
Lemma changing_then {R} error (p : audited (R * option audited_error)) (k : R -> cli bool) rq (flat : R -> bool) t r :
  (forall t0 x o, behaves p t0 (x, o) -> behaves (perform uid rq) t0 (flat x, o)) ->
  (forall x t r, behaves (k x) t r -> Forall prints (calls t)
     /\ forall b, r = Ok b -> b = false
          /\ match rq with RqEdit (MCreateProject _) | RqRemove _ _ | RqRestore _ _ => flat x = true | _ => True end) ->
  behaves (and_then (changing error p) k) t r -> requested rq t r.
Proof.
  intros Hp Hk [(t1 & t2 & x & -> & H1 & H2)|(err & H & ->)]%behaves_and_then; right.
  - apply changing_behaves in H1 as (t0 & y & [e|] & H & -> & Hy); [done|]. injection Hy as <-.
    destruct (Hk _ _ _ H2) as [Hpr Hb]. exists t0, t2, (flat x, None). split_and!; [done|by apply Hp|done|].
    intros b Hr. destruct (Hb b Hr) as [-> ?]. done.
  - apply changing_behaves in H as (t0 & y & o & H & -> & Hy). exists t0, [], (flat y, o).
    rewrite app_nil_r. split_and!; [done|by apply Hp|constructor|done].
Qed.

Lemma line_then s t r : behaves (and_then (println s) (fun _ => done_)) t r ->
  Forall prints (calls t) /\ r = Ok false.
Proof.
  intros [(t1 & t2 & [] & -> & [H1 _]%println_behaves & [-> ->])|(err & [_ ?]%println_behaves & _)]%behaves_and_then;
    [|done]. by rewrite app_nil_r.
Qed.

Lemma perform_recovery rq (p : audited (RecoveryResult * option audited_error)) t0 x o :
  perform uid rq = (r ← p; mret (Changed r.1, r.2)) ->
  behaves p t0 (x, o) -> behaves (perform uid rq) t0 (Changed x, o).
Proof. intros -> H. apply behaves_bind. exists t0, [], (x, o). by rewrite app_nil_r. Qed.

Lemma RunE_changes c rq t r : request_of c = Some rq -> behaves (RunE c) t r -> requested rq t r.
Proof.
  destruct c as [| |alias bws token dir|alias bws token dir|alias conf| | | | |rid conf|alias mode| |alias argv|alias argv];
    try done; intros [= <-]; cbn [AdminCli.RunE].
  - unfold projects_create. do 3 (destruct (String.eqb _ ""); [intros [-> ->]; by left|]).
    apply changing_then with (flat := id); [done|].
    intros [] t0 r0 H; cbn [negb] in H; [|destruct H as [-> ->]; split; [constructor|done]].
    apply line_then in H as [Hp ->]. split; [done|]. by intros b [= <-].
  - unfold projects_update. destruct (negb _); [intros [-> ->]; by left|].
    apply changing_then with (flat := id); [done|].
    intros x t0 r0 [Hp ->]%line_then. split; [done|]. by intros b [= <-].
  - unfold projects_remove. apply changing_then with (flat := Changed).
    { intros t0 x o. by apply perform_recovery. }
    intros x t0 r0. destruct (negb _ || _) eqn:E; [intros [-> ->]; split; [constructor|done]|].
    apply orb_false_iff in E as [E _]. apply negb_false_iff in E.
    intros [Hp ->]%line_then. split; [done|]. by intros b [= <-].
  - unfold recovery_restore. apply changing_then with (flat := Changed).
    { intros t0 x o. by apply perform_recovery. }
    intros x t0 r0. destruct (negb _) eqn:E; [intros [-> ->]; split; [constructor|done]|].
    apply negb_false_iff in E. intros [Hp ->]%line_then. split; [done|]. by intros b [= <-].
  - apply changing_then with (flat := id); [done|].
    intros x t0 r0 [Hp ->]%line_then. split; [done|]. by intros b [= <-].
  - apply changing_then with (flat := id); [done|].
    intros x t0 r0 [Hp ->]%line_then. split; [done|]. by intros b [= <-].
  - apply changing_then with (flat := id); [done|].
    intros x t0 r0 [Hp ->]%line_then. split; [done|]. by intros b [= <-].
Qed.
(** ** The other commands *)

Lemma only_table rows : only calm (table rows).
Proof. induction rows as [|x rows IH]; [done|]. split; [done|]. intros b. exact IH. Qed.

Lemma only_reading {A} op (f : answer op -> result cli_error A) :
  changes_policy op = false -> only calm (reading op f).
Proof. by split. Qed.

Lemma only_consumer {A} (p : prog cli_op A) : only (fun o => match o with KEditor _ => False | _ => True end) p ->
  only calm (on_right (on_right p : prog (check_call + cli_op) A)).
Proof. induction p as [a|c k IH]; [done|]. intros [Hc Hk]. split; [by destruct c|]. intros r. by apply IH. Qed.

Lemma only_rows rows : only (fun o => match o with KEditor _ => False | _ => True end) (table_or_error rows).
Proof. induction rows as [|x rows IH]; [by repeat split|]. split; [done|]. by intros []. Qed.

Lemma only_diagnose {R} start (check : prog cli_call (result access_error R)) consume outcome :
  only calm check -> (forall x, only (fun o => match o with KEditor _ => False | _ => True end) (consume x)) ->
  only calm (diagnose (F := unit) start check consume outcome).
Proof.
  intros Hc Hk. split; [done|]. intros [id|err]; [|done]. apply only_bind; [done|]. intros r.
  apply only_bind; [|intros c; by split]. destruct r; [|done]. by apply only_consumer.
Qed.

#[local] Hint Resolve only_table only_reading : only.

Lemma RunE_reads c : request_of c = None -> only calm (RunE c).
Proof.
  destruct c; try done; intros _; cbn [AdminCli.RunE].
  - apply only_and_then; [by apply only_reading|]. intros items.
    apply only_and_then; [apply only_table|]. intros _. by repeat split; intros [].
  - apply only_and_then; [by apply only_reading|]. intros d.
    apply only_and_then; [by repeat split|]. intros _. apply only_and_then; [|done].
    induction (pd_Allow d) as [|a l IH]; [done|]. apply only_and_then; [by repeat split|]. by intros _.
  - unfold access_check, Diagnostic_Run. apply only_bind; [|by intros [? []]].
    apply only_bind; [|done]. apply only_diagnose; [by split|]. intros x. apply only_rows.
  - unfold projects_available, Diagnostic_ListAvailable. apply only_bind; [|by intros []].
    apply only_bind; [|done]. apply only_diagnose; [by split|]. intros x. apply only_rows.
  - apply only_and_then; [by apply only_reading|]. intros r.
    destruct (path_words _ _) as [[[[? ?] ?] ?]|]; [|done]. by repeat split; intros [].
  - apply only_and_then; [by apply only_reading|]. intros items.
    apply only_and_then; [apply only_table|]. intros _. by repeat split; intros [].
  - apply only_and_then; [by apply only_reading|]. intros items.
    apply only_and_then; [apply only_table|]. intros _. by repeat split; intros [].
Qed.

(** ** A whole invocation *)

Notation euid_ev u := (ev (inr (inr KEuid) : cli_call) u).

Lemma must_be_root_behaves t r :
  behaves must_be_root t r -> exists u : Z, t = [euid_ev u] /\ r = if u =? 0 then Ok tt else Err KNotRoot.
Proof.
  intros (u & t' & -> & H). exists u. cbn in H. destruct (u =? 0); destruct H as [-> ->]; done.
Qed.

(** What an invocation does: what cobra answers by itself, a refusal, or the
    command and, if it failed, a message. *)
Definition invoked (args : list string) (t : list (event cli_call)) (code : Z) : Prop :=
  (Forall prints (calls t) /\ forall c, cobra args <> Runs c)
  \/ (exists u t', t = euid_ev u :: t' /\ u <> 0 /\ Forall prints (calls t') /\ code = 2)
  \/ (exists t', t = euid_ev 0 :: t' /\ Forall prints (calls t') /\ forall c, cobra args <> Runs c)
  \/ exists c t1 t2 r, cobra args = Runs c /\ t = euid_ev 0 :: t1 ++ t2 /\ behaves (RunE c) t1 r
       /\ match r with
          | Ok failed => t2 = [] /\ code = if failed : bool then 1 else 0
          | Err _ => Forall prints (calls t2) /\ code = 2
          end.

Lemma print_script s t r : behaves (and_then (print s) (fun _ => done_)) t r -> Forall prints (calls t) /\ r = Ok false.
Proof.
  intros [(t1 & t2 & [] & -> & (x & t' & -> & [-> _]) & [-> ->])|(err & (x & t' & -> & [_ ?]) & _)]%behaves_and_then; [|done].
  split; [|done]. by repeat constructor.
Qed.

Lemma invocation args t code : behaves (executeWithAccess args) t code -> invoked args t code.
Proof.
  intros (t1 & t2 & r & -> & H & Hend)%behaves_bind.
  assert (He : match r with
               | Ok failed => t2 = [] /\ code = if failed : bool then 1 else 0
               | Err _ => Forall prints (calls t2) /\ code = 2 end).
  { destruct r as [[]|e]; try by destruct Hend as [-> ->].
    destruct Hend as (b & t' & -> & [-> ->]). split; [|done]. by repeat constructor. }
  clear Hend. unfold ExecuteContext in H. destruct (cobra args) as [c|text|text|msg] eqn:E.
  - apply behaves_and_then in H as [(t3 & t4 & [] & -> & H1 & H2)|(err & H & ->)].
    + apply must_be_root_behaves in H1 as (u & -> & Hu). destruct (u =? 0) eqn:Eu; [apply Z.eqb_eq in Eu; subst u|done].
      right; right; right. by exists c, t4, t2, r.
    + apply must_be_root_behaves in H as (u & -> & Hu). destruct (u =? 0) eqn:Eu; [done|apply Z.eqb_neq in Eu].
      right; left. exists u, t2. destruct He as [Hp ->]. by split_and!.
  - apply print_script in H as [Hp ->]. destruct He as [-> ->]. rewrite app_nil_r. left. split; [done|by rewrite E].
  - apply behaves_and_then in H as [(t3 & t4 & [] & -> & H1 & H2)|(err & H & ->)].
    + apply must_be_root_behaves in H1 as (u & -> & Hu). destruct (u =? 0) eqn:Eu; [apply Z.eqb_eq in Eu; subst u|done].
      apply print_script in H2 as [Hp ->]. destruct He as [-> ->].
      right; right; left. exists t4. rewrite app_nil_r. split_and!; [done|done|by rewrite E].
    + apply must_be_root_behaves in H as (u & -> & Hu). destruct (u =? 0) eqn:Eu; [done|apply Z.eqb_neq in Eu].
      right; left. exists u, t2. destruct He as [Hp ->]. by split_and!.
  - destruct H as [-> ->]. destruct He as [Hp ->]. left. split; [done|by rewrite E].
Qed.
Lemma euid_inj u v t t' : euid_ev u :: t = euid_ev v :: t' -> u = v /\ t = t'.
Proof.
  intros [H ->]%cons_eq_inv. split; [|done].
  apply (f_equal (fun x : event cli_call =>
    match x return option Z with existT (inr (inr KEuid)) a => Some a | _ => None end)) in H. by injection H.
Qed.

(** C26: nobody but root gets anything done: in every environment an invocation
    either prints something of cobra's own, or begins by asking for the
    effective user; if that is not root it fails with status 2 and does
    nothing but print. *)
Theorem nothing_without_root args t code :
  behaves (executeWithAccess args) t code ->
  ((exists t', t = euid_ev 0 :: t') \/ Forall (fun c => prints c \/ c = inr (inr KEuid)) (calls t))
  /\ (forall u t', t = euid_ev u :: t' -> u <> 0 -> code = 2 /\ Forall prints (calls t')).
Proof.
  intros [[Hp _]|[(u & t' & -> & Hu & Hp & ->)|[(t' & -> & Hp & _)|(c & t1 & t2 & r & _ & -> & _)]]]%invocation.
  - split.
    + right. eapply Forall_impl; [exact Hp|]. by left.
    + intros u t' -> _. by apply (proj1 (Forall_cons _ _ _)) in Hp as [[] _].
  - split.
    + right. constructor; [by right|]. eapply Forall_impl; [exact Hp|]. by left.
    + intros v t'' [_ <-]%euid_inj _. by split.
  - split; [left; by exists t'|]. intros v t'' [<- _]%euid_inj Hv. by destruct Hv.
  - split; [left; by exists (t1 ++ t2)|]. intros v t'' [<- _]%euid_inj Hv. by destruct Hv.
Qed.

Lemma attempt_done rq t0 v :
  behaves (perform uid rq) t0 v -> v.2 = None ->
  exists pre ch id (a : answer (op_of ch)), becomes rq pre ch
    /\ t0 = pre ++ [ ev (inl (LStart (announced uid ch)) : log_call + editor_op) (Ok id);
                     ev (inr (op_of ch) : log_call + editor_op) a;
                     ev (inl (LFinish id (mkMutationFinish (outcome_of (v.1, None)) "")) : log_call + editor_op) (Ok tt) ]
    /\ verdict ch a = (v.1, None).
Proof.
  intros [(a & conf & _ & _ & ->)|(pre & ch & t' & Hb & -> & Hatt)]%perform_attempts Hv; [done|].
  destruct Hatt as [err|id a f]; [done|]. destruct (verdict ch a) as [b o] eqn:Ev. cbn in Hv.
  destruct f as [[]|]; [|done]. destruct o as [e|]; [done|].
  exists pre, ch, id, a. by split_and!.
Qed.

(** C25: an exit status of zero tells the truth: a command that asks for a change
    ends with 0 or 2, and with 0 only if the caller was root, the change was
    announced to the log, the editor carried it out without an error (and did
    create, remove or restore the project, for those commands), and its
    outcome is on record; nothing else was done but to print. *)
Theorem exit_zero_means_done args c rq t code :
  cobra args = Runs c -> request_of c = Some rq -> behaves (executeWithAccess args) t code ->
  code = 2
  \/ code = 0 /\ exists pre ch id (a : answer (op_of ch)) b t2,
       becomes rq pre ch
       /\ t = euid_ev 0 :: (cli_ev <$> pre ++
            [ ev (inl (LStart (announced uid ch)) : log_call + editor_op) (Ok id);
              ev (inr (op_of ch) : log_call + editor_op) a;
              ev (inl (LFinish id (mkMutationFinish (outcome_of (b, None)) "")) : log_call + editor_op) (Ok tt) ]) ++ t2
       /\ verdict ch a = (b, None) /\ Forall prints (calls t2)
       /\ match rq with RqEdit (MCreateProject _) | RqRemove _ _ | RqRestore _ _ => b = true | _ => True end.
Proof.
  intros Hc Hrq [[_ Hn]|[(u & t' & _ & _ & _ & ->)|[(t' & _ & _ & Hn)|(c' & t1 & t2 & r & Hc' & -> & H & He)]]]%invocation;
    [by destruct (Hn c)|by left|by destruct (Hn c)|].
  rewrite Hc in Hc'. injection Hc' as <-.
  destruct r as [failed|err]; [|by left; destruct He]. right. destruct He as [-> ->].
  apply (RunE_changes _ _ _ _ Hrq) in H as [(_ & H1 & H2)|(t0 & t3 & v & -> & Hp & Hpr & Hv)].
  { by destruct failed. }
  destruct (Hv failed eq_refl) as (-> & Hnone & Hm). split; [done|].
  destruct (attempt_done _ _ _ Hp Hnone) as (pre & ch & id & a & Hb & -> & Hver).
  exists pre, ch, id, a, v.1, t3. by rewrite app_nil_r.
Qed.

Lemma prints_calm t : Forall prints (calls t) -> Forall calm (calls t).
Proof. intros H. eapply Forall_impl; [exact H|]. by intros [|[|[]]]. Qed.

(** Every call of an invocation leaves the policy alone, but the one operation
    of a recorded attempt. *)
Lemma invocation_edits args t code :
  behaves (executeWithAccess args) t code ->
  Forall calm (calls t)
  \/ exists c rq pre ch id (a : answer (op_of ch)) (f : result mutation_log_error unit) t1 t2,
       cobra args = Runs c /\ request_of c = Some rq /\ becomes rq pre ch
       /\ t = euid_ev 0 :: t1
            ++ [ ev (inl (LStart (announced uid ch)) : cli_call) (Ok id);
                 ev (inr (inr (KEditor (op_of ch))) : cli_call) a;
                 ev (inl (LFinish id (mkMutationFinish (outcome_of (verdict ch a)) "")) : cli_call) f ] ++ t2
       /\ Forall calm (calls t1) /\ Forall calm (calls t2).
Proof.
  intros [[Hp%prints_calm _]|[(u & t' & -> & _ & Hp%prints_calm & _)|[(t' & -> & Hp%prints_calm & _)
    |(c & t1 & t2 & r & Hc & -> & H & He)]]]%invocation; try (left; first [done | by constructor]).
  assert (Hcalm : Forall calm (calls t2)).
  { apply prints_calm. destruct r; destruct He as [H2 _]; [by rewrite H2|done]. }
  destruct (request_of c) as [rq|] eqn:Hrq.
  2:{ left. rewrite calls_cons, calls_app, Forall_cons, Forall_app. split_and!; [done| |done].
      exact (only_behaves _ _ _ _ (RunE_reads c Hrq) H). }
  apply (RunE_changes _ _ _ _ Hrq) in H as [(-> & _)|(t0 & t3 & v & -> & Hp & Hpr%prints_calm & _)].
  { left. by constructor. }
  apply perform_attempts in Hp as [(al & conf & -> & -> & ->)|(pre & ch & t' & Hb & -> & Hatt)].
  { left. constructor; [done|]. constructor; [done|].
    change (Forall calm (calls (t3 ++ t2))). rewrite calls_app. by apply Forall_app. }
  assert (Hpre : Forall calm (calls (cli_ev <$> pre))) by (destruct Hb; by repeat constructor).
  destruct Hatt as [err|id a f].
  - left. rewrite fmap_app, calls_cons, !calls_app, Forall_cons, !Forall_app. by repeat constructor.
  - right. exists c, rq, pre, ch, id, a, f, (cli_ev <$> pre), (t3 ++ t2).
    split_and!; [done|done|done| |done|by rewrite calls_app, Forall_app].
    rewrite fmap_app, <- !app_assoc. done.
Qed.

(** ** The access check *)

Definition tab_ev (row : string) : event cli_call := ev (inr (inr (KTab (row +:+ str1 LF))) : cli_call) true.
Definition flush_ev : event cli_call := ev (inr (inr KFlush) : cli_call) true.

Lemma table_or_error_shown rows t :
  behaves (on_right (on_right (table_or_error rows) : prog (check_call + cli_op) _) : prog cli_call _) t None ->
  t = (tab_ev <$> rows) ++ [flush_ev].
Proof.
  revert t. induction rows as [|x rows IH]; intros t (b & t' & -> & H); destruct b; try (by destruct H).
  - by destruct H as [-> _].
  - by rewrite (IH _ H).
Qed.

(** The status of an access check is the worker's verdict: `access check`
    exits with 0 or 1 only if the caller was root, the check was announced,
    the worker's result was accepted, all of it was printed, and the log was
    told its outcome; then 0 means that every project asked for is
    accessible. *)
Theorem access_check_exit args alias t code :
  cobra args = Runs (CmdAccessCheck alias) -> behaves (executeWithAccess args) t code -> code <> 2 ->
  exists id res,
    t = [ euid_ev 0;
          ev (inl (LStart (start_for checker_uid (default "" alias) OperationCheckProjectAccess "" [] "" [])) : cli_call)
            (Ok id);
          ev (inr (inl (CCheckAccess (default "" alias))) : cli_call) (Ok res) ]
        ++ (tab_ev <$> access_rows res) ++ [flush_ev]
        ++ [ev (inl (LFinish id (mkMutationFinish (AccessDiag.r_Outcome res) "")) : cli_call) (Ok tt)]
    /\ code = if String.eqb (AccessDiag.r_Outcome res) AccessDiag.OutcomeAllAccessible then 0 else 1.
Proof.
  intros Hc [[_ Hn]|[(u & t' & _ & _ & _ & ->)|[(t' & _ & _ & Hn)|(c' & t1 & t2 & r & Hc' & -> & H & He)]]]%invocation Hne;
    [by destruct (Hn (CmdAccessCheck alias))|done|by destruct (Hn (CmdAccessCheck alias))|].
  rewrite Hc in Hc'. injection Hc' as <-.
  destruct r as [failed|err]; [|by destruct He]. destruct He as [-> ->]. rewrite app_nil_r.
  apply behaves_bind in H as (t3 & t4 & [outcome o] & -> & H & H2).
  destruct o as [e|]; cbn [snd fst] in H2; [by destruct H2|]. destruct H2 as [-> [= ->]]. rewrite app_nil_r.
  apply behaves_bind in H as (t5 & t6 & [ores o] & -> & H & [-> E]). cbn [fst snd] in E.
  injection E as -> <-. rewrite app_nil_r.
  apply (behaves_call_inv (inl (LStart _) : cli_call)) in H as ([id|err] & t7 & -> & H); [|by destruct H].
  apply behaves_bind in H as (t8 & t9 & x & -> & (x' & ? & -> & [-> ->]) & H).
  apply behaves_bind in H as (t10 & t11 & cons & -> & Hcons & H).
  destruct H as (f & t12 & -> & [-> E]).
  destruct x' as [res|err]; [|by destruct cons, f].
  destruct cons as [[]|]; [by destruct f|]. destruct f as [[]|]; [|done]. injection E as ->.
  apply table_or_error_shown in Hcons as ->.
  exists id, res. split; [by rewrite <- app_assoc|]. by destruct (String.eqb _ _).
Qed.
End Spec.

(** ** The commands and the policy file *)

Section System.
Context (unicode_print : Z -> bool) (uid checker_uid : Z).
Context (cobra : list string -> parsed) (error_text : cli_error -> string).
Context (url_Parse : string -> option URL) (toml_Unmarshal : string -> option Config).

Notation sys_call := (cli_call + os_call)%type.

(** [admin.NewRecoveryEditor(policyPath, recoveryPath, 0, 0)] *)
Definition cli_editor : Editor := newEditorWithRecovery policyPath 0.

Definition serve_cli (c : cli_call) : prog sys_call (answer c) :=
  match c return prog sys_call (answer c) with
  | inr (inr (KEditor op)) => on_right (edit_program url_Parse toml_Unmarshal cli_editor op)
  | c => call (inl c : sys_call)
  end.

Definition cli_system (args : list string) : prog sys_call Z :=
  interp serve_cli (executeWithAccess unicode_print uid checker_uid cobra error_text args).

Definition os_ev (x : event policy_call) : event sys_call := right_ev (left_ev x).

Lemma os_ev_compose (t : list (event policy_call)) :
  right_ev <$> (left_ev <$> t : list (event os_call)) = os_ev <$> t.
Proof. unfold os_ev. rewrite <- list_fmap_compose. by apply list_fmap_ext. Qed.

Lemma calls_os_ev (t : list (event policy_call)) : calls (os_ev <$> t) = (fun c => inr (inl c)) <$> calls t.
Proof. unfold calls. rewrite <- !list_fmap_compose. apply list_fmap_ext. by intros i [c r] _. Qed.

(** Where a rename comes from. *)
Lemma serve_cli_renames c a t from to :
  behaves (serve_cli c) t a -> inr (inl (Rename from to)) ∈ calls t ->
  exists op, c = inr (inr (KEditor op)).
Proof.
  intros H Hin. destruct c as [l|[k|[|op|s|s|s|]]]; try (destruct H as (x & t' & -> & [-> _]);
    apply list_elem_of_singleton in Hin; discriminate Hin). by exists op.
Qed.

Lemma calm_expansion es ts from to :
  expands serve_cli es ts -> Forall calm (calls es) -> inr (inl (Rename from to)) ∉ calls (List.concat ts).
Proof.
  intros Hx. induction Hx as [|[c a] te es ts Hc _ IH]; intros Hp Hin; [by inversion Hin|].
  apply Forall_cons in Hp as [Hc' Hp]. cbn [List.concat] in Hin. rewrite calls_app, elem_of_app in Hin.
  destruct Hin as [Hin|Hin]; [|by apply IH].
  destruct (serve_cli_renames _ _ _ _ _ Hc Hin) as [op E]. cbn in E. subst c.
  apply behaves_on_right in Hc as (t' & -> & Hc).
  pose proof (only_behaves _ _ _ _ (only_reads url_Parse toml_Unmarshal cli_editor op Hc') Hc) as Hs.
  unfold calls in Hin. rewrite <- list_fmap_compose in Hin.
  apply list_elem_of_fmap in Hin as ([c' x] & E & Hx'). cbn in E. injection E as <-.
  rewrite Forall_forall in Hs. apply (Hs (inl (Rename from to))), list_elem_of_fmap. by exists (existT (inl (Rename from to)) x).
Qed.

Lemma serve_log l t r : behaves (serve_cli (inl l)) t r -> t = [ev (inl (inl l) : sys_call) r].
Proof. by intros (x & t' & -> & [-> ->]). Qed.

(** C4: from the command line to the policy file: whatever the operating system,
    the log and the worker answer, if an invocation renames a file at all,
    then the caller is root, the arguments are one command that asks for a
    change, and the file is the policy; the change was announced, as the
    caller's, to the log before its first system call; what was put in place
    parses to the configuration that the announced change is meant to produce
    from the one that was read, the file having been found unchanged under the
    lock; and the log is then asked to record the outcome. *)
Theorem cli_change_on_record args t code from to :
  behaves (cli_system args) t code -> inr (inl (Rename from to)) ∈ calls t ->
  to = policyPath
  /\ exists c rq pre ch id tp (a : answer (op_of ch)) (f : result mutation_log_error unit) t1 t2,
       cobra args = Runs c /\ request_of c = Some rq /\ becomes rq pre ch
       /\ t = ev (inl (inr (inr KEuid)) : sys_call) 0 :: t1
              ++ ev (inl (inl (LStart (announced uid ch))) : sys_call) (Ok id)
              :: (os_ev <$> tp)
              ++ ev (inl (inl (LFinish id (mkMutationFinish (outcome_of (verdict ch a)) ""))) : sys_call) f :: t2
       /\ policy_replaced url_Parse toml_Unmarshal cli_editor ch tp.
Proof.
  intros (es & ts & H & -> & Hx)%behaves_interp Hin.
  apply invocation_edits in H as [Hc|(c & rq & pre & ch & id & a & f & t1 & t2 & Hc & Hrq & Hb & -> & H1 & H2)].
  { by destruct (calm_expansion _ _ from to Hx Hc). }
  apply Forall2_cons_inv_l in Hx as (u1 & ts1 & Hu1 & Hx & ->).
  apply Forall2_app_inv_l in Hx as (ts2 & ts3 & Hx2 & Hx3 & ->).
  apply Forall2_app_inv_l in Hx3 as (ts4 & ts5 & Hx4 & Hx5 & ->).
  apply Forall2_cons_inv_l in Hx4 as (u2 & ts6 & Hu2 & Hx6 & ->).
  apply Forall2_cons_inv_l in Hx6 as (u3 & ts7 & Hu3 & Hx7 & ->).
  apply Forall2_cons_inv_l in Hx7 as (u4 & ts8 & Hu4 & Hn%Forall2_nil_inv_l & ->). subst ts8.
  pose proof (calm_expansion _ _ from to Hx2 H1) as Hn2. pose proof (calm_expansion _ _ from to Hx5 H2) as Hn5.
  cbn [projT1 projT2 ev] in *. destruct Hu1 as (x & t' & -> & [-> <-]).
  apply serve_log in Hu2 as ->. apply serve_log in Hu4 as ->.
  apply behaves_on_right in Hu3 as (te & -> & Hu3).
  destruct (change_behaves _ _ _ _ _ _ Hu3) as (tp & -> & Hren). rewrite os_ev_compose in *.
  assert (Hp : Rename from to ∈ calls tp).
  { cbn [List.concat] in Hin. rewrite !concat_app in Hin. cbn [List.concat app] in Hin.
    rewrite !calls_cons, !calls_app, calls_cons, !calls_app, calls_cons in Hin.
    rewrite calls_os_ev in Hin. repeat first [rewrite elem_of_cons in Hin | rewrite elem_of_app in Hin].
    destruct Hin as [Hin|[Hin|[Hin|[[Hin|[Hin|Hin]]|Hin]]]]; try done; try by inversion Hin.
    by apply list_elem_of_fmap in Hin as (c' & [= <-] & Hin). }
  destruct (Hren _ _ Hp) as [-> Hrep]. split; [done|].
  exists c, rq, pre, ch, id, tp, a, f, (List.concat ts2), (List.concat ts5). split_and!; try done.
  cbn [List.concat]. rewrite !concat_app. cbn [List.concat app]. by rewrite <- !app_assoc.
Qed.
End System.

(** ** Two invocations on the example world *)

Module Cli_example.

Definition parse (args : list string) : parsed :=
  if bool_decide (args = ["projects"; "set-approval"; "web"; "automatic"]) then Runs (CmdSetApproval "web" "automatic")
  else if bool_decide (args = ["projects"; "access"; "check"; "web"]) then Runs (CmdAccessCheck (Some "web"))
  else ShowsHelp "help".

Definition access : AccessDiag.Result :=
  AccessDiag.mkResult 1 AccessDiag.OutcomeAllAccessible
    [AccessDiag.mkProjectResult "web" "id-web" AccessDiag.StatusAccessible].

(** The log, the worker and the terminal work; an edit changes something. *)
Definition cli_step : handler cli_call World.World := fun c w =>
  match c return answer c * World.World with
  | inl (LStart _) => (Ok "id", w)
  | inl (LFinish _ _) => (Ok tt, w)
  | inl LNewRecoveryID => (None, w)
  | inr (inl (CCheckAccess _)) => (Ok access, w)
  | inr (inl CListAvailable) => (Err EListFailed, w)
  | inr (inr KEuid) => (0, w)
  | inr (inr (KEditor op)) =>
      (match op return answer op with
       | OpListProjects => Ok []
       | OpGetProject _ => Err EStatingPolicy
       | OpCheckProjectPath _ => Err EWorkerProbe
       | OpListAllowlist _ => Ok []
       | OpListRecoveries => Ok []
       | OpRemoveProject _ _ _ | OpRestoreProject _ _ => (mkRecoveryResult true "", None)
       | _ => (true, None)
       end, w)
  | inr (inr (KOut _ | KErr _ | KTab _ | KFlush)) => (true, w)
  end.

Definition sys_step : handler (cli_call + os_call) World.World := fun c =>
  match c with inl c => cli_step c | inr c => Logged_example.os_step c end.

Definition invocation_of (args : list string) : prog cli_call Z :=
  executeWithAccess (fun _ => true) 0 0 parse (fun _ => "failed") args.

Definition set_args : list string := ["projects"; "set-approval"; "web"; "automatic"].
Definition check_args : list string := ["projects"; "access"; "check"; "web"].

Definition system_of (args : list string) : prog (cli_call + os_call) Z :=
  cli_system (fun _ => true) 0 0 parse (fun _ => "failed") World.parse_url World.decode args.
End Cli_example.

Import Cli_example.

Lemma nothing_without_root_witness :
  exists t', trace_of cli_step (invocation_of set_args) World.start = ev (inr (inr KEuid) : cli_call) 0 :: t'.
Proof.
  destruct (proj1 (nothing_without_root _ _ _ _ _ set_args _ _ (run_behaves cli_step (invocation_of set_args) World.start)))
    as [H|H]; [exact H|].
  apply Forall_inv_tail, Forall_inv in H. by destruct H.
Defined.

Lemma exit_zero_means_done_witness :
  exists id (f : result mutation_log_error unit),
    ev (inl (LStart (announced 0 (ChEdit (MSetApproval "web" "automatic")))) : cli_call) (Ok id)
      ∈ trace_of cli_step (invocation_of set_args) World.start.
Proof.
  destruct (exit_zero_means_done _ _ _ _ _ set_args (CmdSetApproval "web" "automatic")
    (RqEdit (MSetApproval "web" "automatic")) _ _ eq_refl eq_refl
    (run_behaves cli_step (invocation_of set_args) World.start)) as [H|(_ & pre & ch & id & a & b & t2 & Hb & Ht & _)].
  - vm_compute in H. discriminate H.
  - inversion Hb; subst. exists id, (Ok tt). rewrite Ht. right. left.
Defined.

Lemma access_check_exit_witness :
  exists id res, result_of cli_step (invocation_of check_args) World.start = 0
    /\ ev (inl (LFinish id (mkMutationFinish (AccessDiag.r_Outcome res) "")) : cli_call) (Ok tt)
         ∈ trace_of cli_step (invocation_of check_args) World.start.
Proof.
  destruct (access_check_exit _ _ _ _ _ check_args (Some "web") _ _ eq_refl
    (run_behaves cli_step (invocation_of check_args) World.start)) as (id & res & Ht & _).
  { vm_compute. discriminate. }
  exists id, res. split; [vm_compute; reflexivity|]. rewrite Ht. rewrite !elem_of_app.
  right; right; right. left.
Defined.

Lemma cli_change_on_record_witness :
  World.text (state_of sys_step (system_of set_args) World.start) = World.policy_text ApprovalNever
  /\ exists id, ev (inl (inl (LStart (announced 0 (ChEdit (MSetApproval "web" "automatic"))))) : cli_call + os_call)
       (Ok id) ∈ trace_of sys_step (system_of set_args) World.start.
Proof.
  split; [vm_compute; reflexivity|].
  destruct (cli_change_on_record _ _ _ _ _ World.parse_url World.decode set_args _ _ ".policy.toml.tmp-1" World.file
    (run_behaves sys_step (system_of set_args) World.start))
    as (_ & c & rq & pre & ch & id & tp & a & f & t1 & t2 & Hc & Hrq & Hb & Ht & _).
  { apply (list_elem_of_lookup_2 _ 16). vm_compute. reflexivity. }
  vm_compute in Hc. injection Hc as <-. injection Hrq as <-. inversion Hb; subst.
  exists id. rewrite Ht. right. apply elem_of_app. right. left.
Defined.
