(* ===== verification/AdminForms.v ===== *)
(** * AdminForms: the state of the administrator's web server
    (internal/adminweb/server.go and checks.go)

    The server keeps one-time form tokens, the last project discovery and the
    last checks of each project, all under one mutex.  Every critical section
    is an operation [form_op]; requests run concurrently, so an execution of
    the server is a sequence of whole operations.  [Reading] is what an
    operation gets from its environment: the clock (read once for each key of
    a map it goes through, and once more), random bytes, and which key comes
    first when a map is ranged over. *)

From S2P Require Import Prelude GoStrings GoJson Effects AccessDiag ProjectList PolicyEditor Recovery AdminPath.

#[local] Open Scope Z_scope.

Record policyChange := mkPolicyChange {
  pc_Kind : string;
  pc_Alias : string;
  pc_ProjectName : string;
  pc_Input : ProjectInput;
  pc_Mode : string;
  pc_Argv : list string;
  pc_Widen : bool;
}.

Record formToken := mkFormToken {
  ft_action : string;
  ft_login : string;
  ft_revision : string;
  ft_target : string;
  ft_expires : Z;
  ft_change : option policyChange;
}.

Definition zero_token : formToken := mkFormToken "" "" "" "" zero_time None.

Record projectChecks := mkProjectChecks {
  ck_revision : string;
  ck_pathExpires : Z;
  ck_accessExpires : Z;
  ck_path : option PathCheckResult;
  ck_access : option AccessDiag.Result;
  ck_pathMessage : string;
  ck_accessMessage : string;
  ck_pathWarning : bool;
  ck_accessWarning : bool;
}.

Definition zero_checks : projectChecks :=
  mkProjectChecks "" zero_time zero_time None None "" "" false false.

(** The fields of [Server] that the mutex guards. *)
Record Forms := mkForms {
  tokens : gmap string formToken;
  available : list ProjectList.Project;
  availableUntil : Z;
  checks : gmap string projectChecks;
}.

(** [NewServer] *)
Definition NewForms : Forms := mkForms ∅ [] zero_time ∅.

Record Reading := mkReading {
  at_key : string -> Z;
  now : Z;
  random : option string;      (** 32 random bytes, unless [rand.Read] fails *)
  pick : nat;
}.

Definition with_tokens (st : Forms) (ts : gmap string formToken) : Forms :=
  mkForms ts (available st) (availableUntil st) (checks st).

Definition with_checks (st : Forms) (cs : gmap string projectChecks) : Forms :=
  mkForms (tokens st) (available st) (availableUntil st) cs.

Definition ten_minutes : Z := 10 * Time.Minute.

(** ** Tokens *)

Section Tokens.
Context (login : string).

Definition pruneTokens (clock : string -> Z) (ts : gmap string formToken) : gmap string formToken :=
  filter (fun kv => Time.Before (clock kv.1) (ft_expires kv.2) = true) ts.

Definition issueTargetToken (rd : Reading) (action revision target : string) (st : Forms)
    : option string * Forms :=
  let ts := pruneTokens (at_key rd) (tokens st) in
  if (128 <=? size ts)%nat then (None, with_tokens st ts)
  else match random rd with
       | None => (None, with_tokens st ts)
       | Some bytes =>
           let token := Hex.EncodeToString bytes in
           (Some token,
            with_tokens st
              (<[token := mkFormToken action login revision target (Time.Add (now rd) ten_minutes) None]> ts))
       end.

Definition issueToken (rd : Reading) (action revision : string) : Forms -> option string * Forms :=
  issueTargetToken rd action revision "".

(** The entry when it is good for the action. *)
Definition takeToken (rd : Reading) (token action : string) (st : Forms) : option formToken * Forms :=
  let ts := pruneTokens (at_key rd) (tokens st) in
  (match ts !! token with
   | Some entry =>
       if String.eqb (ft_action entry) action && String.eqb (ft_login entry) login then Some entry else None
   | None => None
   end,
   with_tokens st (delete token ts)).

(** The section of [review] that ties the reviewed change to its form. *)
Definition attach (token : string) (change : policyChange) (st : Forms) : Forms :=
  let entry := default zero_token (tokens st !! token) in
  with_tokens st
    (<[token := mkFormToken (ft_action entry) (ft_login entry) (ft_revision entry) (ft_target entry)
                  (ft_expires entry) (Some change)]> (tokens st)).

(** ** Discovered projects *)

Definition set_available (rd : Reading) (projects : list ProjectList.Project) (st : Forms) : Forms :=
  mkForms (tokens st) projects (Time.Add (now rd) ten_minutes) (checks st).

Definition clear_available (st : Forms) : Forms := mkForms (tokens st) [] zero_time (checks st).

Definition current_available (rd : Reading) (st : Forms) : list ProjectList.Project :=
  if Time.Before (now rd) (availableUntil st) then available st else [].

(** The name of the first available project with the ID. *)
Fixpoint name_of (id : string) (ps : list ProjectList.Project) : string :=
  match ps with
  | [] => ""
  | p :: ps => if String.eqb (ID p) id then Name p else name_of id ps
  end.

Definition available_name (rd : Reading) (id : string) (st : Forms) : string :=
  name_of id (current_available rd st).

(** ** Checks *)

Record check_report := mkReport {
  rep_path : option PathCheckResult;
  rep_access : option AccessDiag.Result;
  rep_message : string;
  rep_warning : bool;
  rep_bitwarden : bool;
}.

Definition storeCheck (rd : Reading) (revision alias : string) (r : check_report) (st : Forms) : Forms :=
  let cs := filter (fun kv : string * projectChecks =>
              negb (negb (String.eqb (ck_revision kv.2) revision)
                    || (negb (Time.Before (at_key rd kv.1) (ck_pathExpires kv.2))
                        && negb (Time.Before (at_key rd kv.1) (ck_accessExpires kv.2)))) = true)
              (checks st) in
  let check := default zero_checks (cs !! alias) in
  let keys := (map_to_list cs).*1 in
  let cs :=
    if negb (bool_decide (is_Some (cs !! alias))) && (128 <=? size cs)%nat
    then match keys !! (pick rd mod length keys)%nat with Some key => delete key cs | None => cs end
    else cs in
  let expires := Time.Add (now rd) ten_minutes in
  let check :=
    if rep_bitwarden r
    then mkProjectChecks revision (ck_pathExpires check) expires (ck_path check) (rep_access r)
           (ck_pathMessage check) (rep_message r) (ck_pathWarning check) (rep_warning r)
    else mkProjectChecks revision expires (ck_accessExpires check) (rep_path r) (ck_access check)
           (rep_message r) (ck_accessMessage check) (rep_warning r) (ck_accessWarning check) in
  with_checks st (<[alias := check]> cs).

(** The section of [renderProject] that reads them back: result, message and
    warning of each kind, where one is fresh. *)
Definition shown_checks (rd : Reading) (alias revision : string) (st : Forms)
    : option (option PathCheckResult * string * bool) * option (option AccessDiag.Result * string * bool) :=
  let check := default zero_checks (checks st !! alias) in
  if String.eqb (ck_revision check) revision then
    (if Time.Before (now rd) (ck_pathExpires check)
     then Some (ck_path check, ck_pathMessage check, ck_pathWarning check) else None,
     if Time.Before (now rd) (ck_accessExpires check)
     then Some (ck_access check, ck_accessMessage check, ck_accessWarning check) else None)
  else (None, None).

(** ** The operations *)

Inductive form_op : Type :=
| FIssue (action revision target : string)
| FTake (token action : string)
| FAttach (token : string) (change : policyChange)
| FSetAvailable (projects : list ProjectList.Project)
| FClearAvailable
| FAvailable
| FProjectName (id : string)
| FStoreCheck (revision alias : string) (r : check_report)
| FShownChecks (alias revision : string).

#[export] Instance form_interface : Interface form_op := fun o =>
  match o with
  | FIssue _ _ _ => option string
  | FTake _ _ => option formToken
  | FAttach _ _ | FSetAvailable _ | FClearAvailable | FStoreCheck _ _ _ => unit
  | FAvailable => list ProjectList.Project
  | FProjectName _ => string
  | FShownChecks _ _ =>
      option (option PathCheckResult * string * bool) * option (option AccessDiag.Result * string * bool)
  end%type.

Definition form_step (rd : Reading) (o : form_op) (st : Forms) : answer o * Forms :=
  match o with
  | FIssue action revision target => issueTargetToken rd action revision target st
  | FTake token action => takeToken rd token action st
  | FAttach token change => (tt, attach token change st)
  | FSetAvailable projects => (tt, set_available rd projects st)
  | FClearAvailable => (tt, clear_available st)
  | FAvailable => (current_available rd st, st)
  | FProjectName id => (available_name rd id st, st)
  | FStoreCheck revision alias r => (tt, storeCheck rd revision alias r st)
  | FShownChecks alias revision => (shown_checks rd alias revision st, st)
  end.

End Tokens.

(** ** Histories

    A history of the server's critical sections, in the order the mutex
    imposed, with what each read and answered. *)

Section History.
Context (login : string).

Notation entry := (Reading * event form_op)%type.

Inductive fsteps : Forms -> list entry -> Forms -> Prop :=
| FNil st : fsteps st [] st
| FCons st rd o a st' h st'' :
    form_step login rd o st = (a, st') -> fsteps st' h st'' ->
    fsteps st ((rd, ev o a) :: h) st''.

Lemma fsteps_app st h1 h2 st'' :
  fsteps st (h1 ++ h2) st'' <-> exists st', fsteps st h1 st' /\ fsteps st' h2 st''.
Proof.
  split.
  - revert st. induction h1 as [|[rd x] h1 IH]; intros st H.
    { exists st. by split; [constructor|]. }
    inversion H as [|? ? o a st1 ? ? Hs Hh]; subst. apply IH in Hh as (st' & H1 & H2).
    exists st'. split; [by econstructor|done].
  - intros (st' & H1 & H2). induction H1; [done|]. econstructor; [done|by apply IHfsteps].
Qed.

Lemma fsteps_cons st rd x h st'' :
  fsteps st ((rd, x) :: h) st'' ->
  exists st', form_step login rd (projT1 x) st = (projT2 x, st') /\ fsteps st' h st''.
Proof. intros H. inversion H; subst. by eexists. Qed.

(** *** What an event did *)

Definition accepted (x : event form_op) : option formToken :=
  let 'existT o a := x in
  match o return answer o -> option formToken with FTake _ _ => fun a => a | _ => fun _ => None end a.

Definition attached (x : event form_op) : option policyChange :=
  match projT1 x with FAttach _ c => Some c | _ => None end.

Definition issued (x : event form_op) : option string :=
  let 'existT o a := x in
  match o return answer o -> option string with FIssue _ _ _ => fun a => a | _ => fun _ => None end a.

Definition takes (token : string) (x : event form_op) : Prop :=
  exists action, projT1 x = FTake token action.

Definition carries (c : policyChange) (e : formToken) : Prop := ft_change e = Some c.

#[export] Instance policyChange_eq_dec : EqDecision policyChange.
Proof.
  assert (EqDecision ProjectInput) by solve_decision. solve_decision.
Defined.

#[export] Instance carries_dec c e : Decision (carries c e).
Proof. unfold carries. apply _. Defined.

(** How many stored tokens carry the change. *)
Definition carrying (c : policyChange) (ts : gmap string formToken) : nat :=
  size (filter (fun kv => carries c kv.2) ts).

Lemma carrying_mono c ts ts' : ts ⊆ ts' -> (carrying c ts <= carrying c ts')%nat.
Proof. intros H. by apply map_subseteq_size, map_filter_subseteq_mono. Qed.

Lemma pruned_subseteq clock ts : pruneTokens clock ts ⊆ ts.
Proof. apply map_filter_subseteq. Qed.

Lemma carrying_insert c k e ts :
  (carrying c (<[k := e]> ts) <= carrying c ts + if bool_decide (carries c e) then 1 else 0)%nat.
Proof.
  unfold carrying. rewrite map_filter_insert. case_decide as Hc; simpl in Hc.
  - rewrite bool_decide_true by done. rewrite map_size_insert. case_match; unfold id; lia.
  - rewrite bool_decide_false by done. rewrite Nat.add_0_r.
    apply map_subseteq_size, map_filter_subseteq_mono, delete_subseteq.
Qed.

Lemma carrying_delete c k e ts :
  ts !! k = Some e ->
  (carrying c (delete k ts) + (if bool_decide (carries c e) then 1 else 0) <= carrying c ts)%nat.
Proof.
  intros Hk. case_bool_decide as Hc.
  - unfold carrying. rewrite map_filter_delete.
    assert (Hf : filter (fun kv => carries c kv.2) ts !! k = Some e) by (by apply map_lookup_filter_Some).
    rewrite map_size_delete_Some by (by exists e).
    pose proof (map_size_ne_0_lookup_2 _ k (mk_is_Some _ _ Hf)). lia.
  - rewrite Nat.add_0_r. apply carrying_mono, delete_subseteq.
Qed.

Definition uses (c : policyChange) (x : event form_op) : Prop := exists e, accepted x = Some e /\ carries c e.

#[export] Instance uses_dec c x : Decision (uses c x).
Proof.
  refine (cast_if (decide (exists e, accepted x = Some e /\ carries c e))); try done.
  destruct (accepted x) as [e|]; [|right; by intros (? & ? & ?)].
  destruct (decide (carries c e)); [left; by exists e|right; by intros (? & [= <-] & ?)].
Defined.

Definition reviews (c : policyChange) (x : event form_op) : Prop := attached x = Some c.

#[export] Instance reviews_dec c x : Decision (reviews c x).
Proof. unfold reviews. apply _. Defined.

Definition occurrences (P : event form_op -> Prop) `{!forall x, Decision (P x)} (h : list entry) : nat :=
  length (filter P h.*2).

Lemma form_step_budget c rd o st a st' :
  form_step login rd o st = (a, st') ->
  (carrying c (tokens st') + (if decide (uses c (ev o a)) then 1 else 0)
   <= carrying c (tokens st) + (if decide (reviews c (ev o a)) then 1 else 0))%nat.
Proof.
  assert (Hno : forall x, accepted x = None -> ~ uses c x) by (intros x Hx (e & He & _); congruence).
  destruct o as [action revision target|token action|token change| | | | | |]; cbn [form_step];
    try (intros [= <- <-]; rewrite decide_False by (by apply Hno); cbn; lia).
  - unfold issueTargetToken. rewrite (decide_False (P := uses _ _)) by (apply Hno; done).
    pose proof (carrying_mono c _ _ (pruned_subseteq (at_key rd) (tokens st))).
    rewrite (decide_False (P := reviews _ _)) by done.
    destruct (128 <=? _)%nat; [|destruct (random rd)]; intros [= <- <-]; cbn [with_tokens tokens]; try lia.
    etrans; [apply Nat.add_le_mono_r, carrying_insert|]. rewrite bool_decide_false by (by intros ?). lia.
  - unfold takeToken. intros H. injection H as <- <-. cbn [with_tokens tokens].
    rewrite (decide_False (P := reviews _ _)) by done.
    pose proof (carrying_mono c _ _ (pruned_subseteq (at_key rd) (tokens st))) as Hm.
    destruct (pruneTokens (at_key rd) (tokens st) !! token) as [e|] eqn:E.
    + pose proof (carrying_delete c _ _ _ E) as Hd.
      destruct (_ && _).
      * case_decide as Hu; [|by lia]. destruct Hu as (e' & [= <-] & Hc).
        rewrite bool_decide_true in Hd by done. lia.
      * rewrite decide_False by (by apply Hno). lia.
    + rewrite decide_False by (by apply Hno). rewrite delete_id by done. lia.
  - intros [= <- <-]. rewrite decide_False by (by apply Hno). cbn [attach with_tokens tokens].
    pose proof (carrying_insert c token
      (mkFormToken (ft_action (default zero_token (tokens st !! token)))
        (ft_login (default zero_token (tokens st !! token)))
        (ft_revision (default zero_token (tokens st !! token)))
        (ft_target (default zero_token (tokens st !! token)))
        (ft_expires (default zero_token (tokens st !! token))) (Some change)) (tokens st)) as Hi.
    case_bool_decide as Hc.
    + rewrite decide_True; [unfold attach; cbn; lia|]. injection Hc as ->. done.
    + unfold attach; cbn. case_decide; lia.
Qed.

Lemma occurrences_cons P `{!forall x, Decision (P x)} x h :
  occurrences P (x :: h) = ((if decide (P x.2) then 1 else 0) + occurrences P h)%nat.
Proof. unfold occurrences. cbn [fmap list_fmap]. rewrite filter_cons. by case_decide. Qed.

Lemma uses_within_reviews c st h st' :
  fsteps st h st' ->
  (carrying c (tokens st') + occurrences (uses c) h <= carrying c (tokens st) + occurrences (reviews c) h)%nat.
Proof.
  induction 1 as [|st rd o a st' h st'' Hs _ IH]; [cbn; lia|].
  apply (form_step_budget c) in Hs. rewrite !occurrences_cons. cbn [snd]. lia.
Qed.

(** *** Where a stored token comes from *)

(** The token was issued as [e] in the last part of the history in which it
    was not submitted, and its change was attached since. *)
Definition live_since (h : list entry) (token : string) (e : formToken) : Prop :=
  exists h1 rd h2,
    h = h1 ++ (rd, ev (FIssue (ft_action e) (ft_revision e) (ft_target e)) (Some token)) :: h2
    /\ ft_expires e = now rd + ten_minutes
    /\ Forall (fun x => ~ takes token x.2) h2
    /\ forall c, ft_change e = Some c -> exists rd', (rd', ev (FAttach token c) tt) ∈ h2.

Definition provenance (h : list entry) (st : Forms) : Prop :=
  forall token e, tokens st !! token = Some e -> ft_action e <> "" ->
    ft_login e = login /\ live_since h token e.

Definition set_change (c : policyChange) (e : formToken) : formToken :=
  mkFormToken (ft_action e) (ft_login e) (ft_revision e) (ft_target e) (ft_expires e) (Some c).

Lemma live_since_snoc h token e x :
  live_since h token e -> ~ takes token x.2 -> live_since (h ++ [x]) token e.
Proof.
  intros (h1 & rd & h2 & -> & He & Hno & Hc) Hx. exists h1, rd, (h2 ++ [x]).
  rewrite <- app_assoc. split_and!; [done|done|apply Forall_app; by repeat constructor|].
  intros c Hcc. destruct (Hc c Hcc) as [rd' Hin]. exists rd'. apply elem_of_app. by left.
Qed.

(** What can have put an entry under a token. *)
Lemma form_step_lookup rd o st a st' token e :
  form_step login rd o st = (a, st') -> tokens st' !! token = Some e ->
  (tokens st !! token = Some e /\ ~ takes token (ev o a))
  \/ (existT o a = ev (FIssue (ft_action e) (ft_revision e) (ft_target e)) (Some token)
      /\ ft_login e = login /\ ft_expires e = now rd + ten_minutes /\ ft_change e = None)
  \/ (exists c, existT o a = ev (FAttach token c) tt
      /\ e = set_change c (default zero_token (tokens st !! token))).
Proof.
  assert (Hkeep : forall clock, pruneTokens clock (tokens st) !! token = Some e -> tokens st !! token = Some e)
    by (intros clock H; apply (lookup_weaken _ _ _ _ H), pruned_subseteq).
  destruct o as [action revision target|token' action|token' change| | | | | |]; cbn [form_step];
    try (intros [= <- <-] H; left; split; [done|by intros [? ?]]).
  - unfold issueTargetToken. intros Hs H.
    destruct (128 <=? _)%nat; [|destruct (random rd) as [bytes|]]; injection Hs as <- <-; cbn in H;
      try (left; split; [by eapply Hkeep|by intros [? ?]]).
    apply lookup_insert_Some in H as [[<- <-]|[_ H]]; [right; left; by split_and!|].
    left; split; [by eapply Hkeep|by intros [? ?]].
  - unfold takeToken. intros Hs H. injection Hs as <- <-. cbn in H. left.
    apply lookup_delete_Some in H as [Hne H]. split; [by eapply Hkeep|]. intros [? [= ? ?]]. done.
  - intros Hs H. injection Hs as <- <-. cbn in H.
    apply lookup_insert_Some in H as [[<- <-]|[_ H]]; [right; right; by exists change|].
    left; split; [done|by intros [? ?]].
Qed.

Lemma provenance_step h st rd o a st' :
  provenance h st -> form_step login rd o st = (a, st') -> provenance (h ++ [(rd, ev o a)]) st'.
Proof.
  intros Hp Hs token e He Ha.
  destruct (form_step_lookup _ _ _ _ _ _ _ Hs He) as [[He' Hnt]|[(Hi & Hl & Hx & Hc)|(c & Hc & ->)]].
  - destruct (Hp _ _ He' Ha) as [Hl Hlive]. split; [done|by apply live_since_snoc].
  - split; [done|]. exists h, rd, []. change (existT o a) with (ev o a) in Hi. rewrite Hi.
    split_and!; [done|done|constructor|]. intros c. by rewrite Hc.
  - change (existT o a) with (ev o a) in Hc. rewrite Hc. cbn [set_change ft_action] in Ha.
    destruct (tokens st !! token) as [e'|] eqn:E; [|done]. cbn [default from_option] in *.
    destruct (Hp _ _ E Ha) as [Hl (h1 & rd0 & h2 & -> & Hx & Hno & Hch)]. split; [done|].
    exists h1, rd0, (h2 ++ [(rd, ev (FAttach token c) tt)]). rewrite <- app_assoc. split_and!; [done|done| |].
    + apply Forall_app. split; [done|]. constructor; [by intros [? ?]|constructor].
    + intros c' [= <-]. exists rd. apply elem_of_app. right. by left.
Qed.

Lemma provenance_history h st : fsteps NewForms h st -> provenance h st.
Proof.
  revert st. induction h as [|[rd [o a]] h IH] using rev_ind; intros st H.
  { inversion H; subst. intros token e He. by cbn in He. }
  apply fsteps_app in H as (st1 & H1 & (st2 & Hs & Hn)%fsteps_cons). inversion Hn; subst.
  eapply provenance_step; [by apply IH|exact Hs].
Qed.

End History.

(** ** Results *)

Section Results.
Context (login : string).

Lemma takeToken_Some rd token action st e st' :
  takeToken login rd token action st = (Some e, st') ->
  tokens st !! token = Some e /\ ft_action e = action /\ ft_login e = login
  /\ at_key rd token < ft_expires e /\ tokens st' !! token = None.
Proof.
  unfold takeToken. intros H. injection H as H <-.
  destruct (pruneTokens (at_key rd) (tokens st) !! token) as [e'|] eqn:E; [|done].
  destruct (_ && _) eqn:Hg; [|done]. injection H as ->.
  apply map_lookup_filter_Some in E as [E Hx]. cbn in Hx. unfold Time.Before in Hx. boolP.
  split_and!; try done. cbn. apply lookup_delete_eq.
Qed.

(** A form is accepted once, in time, for what it was issued for: in any
    history of the server, whatever other requests did in between, a submitted
    token passes only if it was issued less than ten minutes before, for the
    same action and the configured administrator, and has not been submitted
    since; and the change it carries was attached to it after it was issued. *)
Theorem form_accepted_once h st rd token action e st' :
  fsteps login NewForms h st -> action <> "" ->
  takeToken login rd token action st = (Some e, st') ->
  ft_action e = action /\ ft_login e = login
  /\ exists h1 rd0 h2,
       h = h1 ++ (rd0, ev (FIssue action (ft_revision e) (ft_target e)) (Some token)) :: h2
       /\ at_key rd token < now rd0 + ten_minutes
       /\ Forall (fun x => ~ takes token x.2) h2
       /\ forall c, ft_change e = Some c -> exists rd', (rd', ev (FAttach token c) tt) ∈ h2.
Proof.
  intros Hh Ha (Ht & <- & Hl & Hx & _)%takeToken_Some.
  destruct (provenance_history _ _ _ Hh _ _ Ht Ha) as [_ (h1 & rd0 & h2 & -> & He & Hno & Hc)].
  split_and!; [done|done|]. exists h1, rd0, h2. rewrite <- He. by split_and!.
Qed.

(** A review is good for one use: in any history of the server, a change
    is taken from a submitted form at most as many times as a review attached
    it to one. *)
Theorem change_used_once_per_review c h st :
  fsteps login NewForms h st -> (occurrences (uses c) h <= occurrences (reviews c) h)%nat.
Proof.
  intros H%(uses_within_reviews login c). cbn in H. unfold carrying in H.
  rewrite map_filter_empty, map_size_empty in H. lia.
Qed.

(** A form keeps its place until it expires or is submitted. *)
Definition undisturbed (token : string) (until : Z) (x : Reading * event form_op) : Prop :=
  ~ takes token x.2 /\ issued x.2 <> Some token /\ at_key x.1 token < until.

Definition holds_form (token action revision target : string) (until : Z) (st : Forms) : Prop :=
  exists c, tokens st !! token = Some (mkFormToken action login revision target until c).

Lemma undisturbed_step token action revision target until rd o a st st' :
  form_step login rd o st = (a, st') -> undisturbed token until (rd, ev o a) ->
  holds_form token action revision target until st -> holds_form token action revision target until st'.
Proof.
  intros Hs (Hnt & Hni & Hc) [c Ht]. cbn [fst snd] in *. unfold holds_form.
  assert (Hp : pruneTokens (at_key rd) (tokens st) !! token
               = Some (mkFormToken action login revision target until c)).
  { apply map_lookup_filter_Some. split; [done|]. cbn. unfold Time.Before. lia. }
  destruct o as [action' revision' target'|token' action'|token' change| | | | | |]; cbn [form_step] in Hs;
    try (injection Hs as <- <-; by exists c).
  - unfold issueTargetToken in Hs.
    destruct (128 <=? _)%nat; [|destruct (random rd) as [bytes|]]; injection Hs as <- <-; exists c; cbn; try done.
    rewrite lookup_insert_ne; [done|]. intros E. apply Hni. cbn. by rewrite E.
  - unfold takeToken in Hs. injection Hs as <- <-. exists c. cbn.
    rewrite lookup_delete_ne; [done|]. intros ->. apply Hnt. by exists action'.
  - injection Hs as <- <-. cbn. destruct (decide (token' = token)) as [->|Hne].
    + exists (Some change). rewrite lookup_insert_eq, Ht. done.
    + exists c. by rewrite lookup_insert_ne.
Qed.

(** C22: a form that is submitted in time is accepted: whatever the other
    requests of the server do after it was issued, the form's first
    submission within ten minutes, for its action, passes, with the revision
    and the target it was issued for. *)
Theorem form_in_time_accepted rd0 action revision target st token st1 h st2 rd :
  issueTargetToken login rd0 action revision target st = (Some token, st1) ->
  fsteps login st1 h st2 ->
  Forall (undisturbed token (now rd0 + ten_minutes)) h ->
  at_key rd token < now rd0 + ten_minutes ->
  exists e st3, takeToken login rd token action st2 = (Some e, st3)
    /\ ft_revision e = revision /\ ft_target e = target.
Proof.
  intros Hi Hh Hu Hx.
  assert (H1 : holds_form token action revision target (now rd0 + ten_minutes) st1).
  { unfold issueTargetToken in Hi.
    destruct (128 <=? _)%nat; [done|destruct (random rd0) as [bytes|]; [|done]]. injection Hi as <- <-.
    exists None. cbn. by rewrite lookup_insert_eq. }
  assert (H2 : holds_form token action revision target (now rd0 + ten_minutes) st2).
  { clear Hi. revert H1 Hu. induction Hh as [|? ? ? ? ? ? ? Hs _ IH]; intros H1 Hu; [done|].
    apply Forall_cons in Hu as [Hu Hus]. apply IH; [|done]. by eapply undisturbed_step. }
  destruct H2 as [c Ht].
  set (e := mkFormToken action login revision target (now rd0 + ten_minutes) c) in *.
  assert (Hp : pruneTokens (at_key rd) (tokens st2) !! token = Some e).
  { apply map_lookup_filter_Some. split; [done|]. cbn. unfold Time.Before. lia. }
  exists e. eexists. split; [|done]. unfold takeToken. rewrite Hp. cbn. by rewrite !String.eqb_refl.
Qed.

(** *** Bounds *)

Definition forms_bounded (st : Forms) : Prop :=
  (size (filter (fun kv => ft_action kv.2 <> "") (tokens st)) <= 128)%nat /\ (size (checks st) <= 128)%nat.

Lemma storeCheck_bounded rd revision alias r st :
  (size (checks st) <= 128)%nat -> (size (checks (storeCheck rd revision alias r st)) <= 128)%nat.
Proof.
  intros Hb. unfold storeCheck. cbn [with_checks checks].
  set (cs := filter _ (checks st)).
  assert (Hcs : (size cs <= 128)%nat).
  { etrans; [|exact Hb]. apply map_subseteq_size, map_filter_subseteq. }
  clearbody cs. rewrite map_size_insert. case_bool_decide as Hin; cbn [negb andb].
  { destruct Hin as [x Hx]. rewrite Hx. unfold id. done. }
  destruct (128 <=? size cs)%nat eqn:Hsz; [|boolP; case_match; unfold id; lia].
  boolP. set (keys := (map_to_list cs).*1).
  assert (Hlen : length keys = size cs) by (unfold keys; by rewrite length_fmap, length_map_to_list).
  destruct (keys !! (pick rd mod length keys)%nat) as [key|] eqn:Ek.
  2:{ apply lookup_ge_None in Ek. pose proof (Nat.mod_upper_bound (pick rd) (length keys)). lia. }
  assert (Hkey : is_Some (cs !! key)).
  { apply list_elem_of_lookup_2, list_elem_of_fmap in Ek as ([k x] & -> & Hkx).
    apply elem_of_map_to_list in Hkx. by exists x. }
  rewrite (map_size_delete_Some key cs Hkey). destruct (delete key cs !! alias) as [x|]; unfold id; lia.
Qed.

Lemma form_step_bounded rd o st a st' :
  form_step login rd o st = (a, st') -> forms_bounded st -> forms_bounded st'.
Proof.
  intros Hs [Ht Hc].
  assert (Hsub : forall ts : gmap string formToken, ts ⊆ tokens st ->
    (size (filter (fun kv => ft_action kv.2 <> "") ts) <= 128)%nat).
  { intros ts H. etrans; [|exact Ht]. by apply map_subseteq_size, map_filter_subseteq_mono. }
  destruct o as [action revision target|token action|token change| | | | | |]; cbn [form_step] in Hs;
    try (injection Hs as <- <-; by split; [apply Hsub|]).
  - unfold issueTargetToken in Hs.
    destruct (128 <=? size (pruneTokens (at_key rd) (tokens st)))%nat eqn:Hsz; [|destruct (random rd) as [bytes|]];
      injection Hs as <- <-; (split; [|done]); try apply Hsub, pruned_subseteq.
    cbn [with_tokens tokens]. boolP. etrans; [apply map_subseteq_size, map_filter_subseteq|].
    rewrite map_size_insert. case_match; unfold id; lia.
  - unfold takeToken in Hs. injection Hs as <- <-. split; [|done]. apply Hsub.
    etrans; [apply delete_subseteq|apply pruned_subseteq].
  - injection Hs as <- <-. split; [|done]. cbn [attach with_tokens tokens].
    rewrite map_filter_insert. cbn [fst snd ft_action].
    destruct (tokens st !! token) as [e|] eqn:E; cbn [default from_option].
    + case_decide as Ha; [|by apply Hsub, delete_subseteq].
      rewrite map_size_insert_Some; [done|]. exists e. by apply map_lookup_filter_Some.
    + rewrite decide_False by (intros H; by apply H). by apply Hsub, delete_subseteq.
  - injection Hs as <- <-. split; [done|]. by apply storeCheck_bounded.
Qed.

(** The server's memory is bounded: in any history it holds at most 128
    form tokens and the checks of at most 128 projects. *)
Theorem forms_stay_bounded h st : fsteps login NewForms h st -> forms_bounded st.
Proof.
  intros H. assert (H0 : forms_bounded NewForms).
  { split; cbn; [rewrite map_filter_empty|]; rewrite map_size_empty; lia. }
  induction H; [done|]. apply IHfsteps. by eapply form_step_bounded.
Qed.

End Results.

(** ** An example *)

(** A form is issued at time 0 and used a second later, after another form was
    issued. *)
Definition reading_at (t : Z) (bytes : string) : Reading := mkReading (fun _ => t) t (Some bytes) 0.

Lemma form_in_time_accepted_witness :
  let h := [(reading_at 1000000000 "b", ev (FIssue "mode" "rev" "p") (Some "62"))] in
  exists st1 st2 e st3,
    issueTargetToken "ann" (reading_at 0 "a") "commit" "rev" "p" NewForms = (Some "61", st1)
    /\ fsteps "ann" st1 h st2
    /\ takeToken "ann" (reading_at 2000000000 "c") "61" "commit" st2 = (Some e, st3) /\ ft_target e = "p".
Proof.
  intros h. set (st1 := (issueTargetToken "ann" (reading_at 0 "a") "commit" "rev" "p" NewForms).2).
  set (st2 := (form_step "ann" (reading_at 1000000000 "b") (FIssue "mode" "rev" "p") st1).2).
  assert (Hi : issueTargetToken "ann" (reading_at 0 "a") "commit" "rev" "p" NewForms = (Some "61", st1))
    by reflexivity.
  assert (Hf : fsteps "ann" st1 h st2) by (eapply FCons; [reflexivity|apply FNil]).
  destruct (form_in_time_accepted "ann" (reading_at 0 "a") "commit" "rev" "p" NewForms "61" st1 h st2
              (reading_at 2000000000 "c") Hi Hf) as (e & st3 & Ht & _ & Hp).
  - apply Forall_cons. split; [|constructor]. unfold undisturbed. split_and!; [intros [action H]; discriminate H|discriminate|reflexivity].
  - reflexivity.
  - exists st1, st2, e, st3. split; [exact Hi|]. split; [exact Hf|]. split; [exact Ht|exact Hp].
Defined.
