(* ===== verification/AdminWebConfig.v ===== *)
(** * AdminWebConfig: what the administrator's web server trusts
    (internal/adminweb/config.go)

    Its configuration, and the check that Tailscale Serve forwards to the
    private socket and to nothing else.  The TOML decoder (with unknown fields
    disallowed), [url.Parse] and the JSON decoder are arguments. *)

From S2P Require Import Prelude GoStrings GoText Effects Io BoundedIO Exec SecureFile Config.

#[local] Open Scope Z_scope.

Definition ConfigPath : string := "/etc/secrets-broker-admin/web.toml".
Definition SocketPath : string := "/run/secrets-broker-admin.sock".
Definition PolicyPath : string := "/etc/secrets-broker/policy.toml".

Record WebConfig := mkWebConfig {
  web_Host : string;
  web_Login : string;
  web_ApprovalURL : string;
}.

Inductive web_error : Type :=
| EWebTooLarge
| EWebInvalid
| EWebHost
| EWebLogin
| EWebLoginCharacters
| EWebApprovalURL
| EWebReading (e : securefile_error)
| EBoundaryCheck
| EOperator
| EServeInvalid
| EServeExpected
| EServeConflict.

(** ** Host names *)

(** [a-z0-9] *)
Definition alnum (c : ascii) : bool :=
  let b := byte_val c in ((97 <=? b) && (b <=? 122)) || ((48 <=? b) && (b <=? 57)).

(** [[a-z0-9](?:[a-z0-9-]*[a-z0-9])?] *)
Definition is_label (s : string) : bool :=
  match s with
  | EmptyString => false
  | String c _ =>
      alnum c && all_bytes (fun c => alnum c || Ascii.eqb c "-") s && negb (Strings.HasSuffix s "-")
  end.

(** [hostPattern.MatchString]: two labels before ".ts.net". *)
Definition hostPattern_MatchString (s : string) : bool :=
  match Strings.Split s "." with
  | [a; b; ts; net] => is_label a && is_label b && String.eqb ts "ts" && String.eqb net "net"
  | _ => false
  end.

(** [url.URL.Hostname] and [Port]: split at the last colon if only digits
    follow it, and drop the brackets of an IPv6 address. *)
Fixpoint last_colon (s : string) : option (string * string) :=
  match s with
  | EmptyString => None
  | String c r =>
      match last_colon r with
      | Some (a, b) => Some (String c a, b)
      | None => if Ascii.eqb c ":" then Some ("", r) else None
      end
  end.

Definition decimal (c : ascii) : bool := (48 <=? byte_val c) && (byte_val c <=? 57).

Definition unbracket (host : string) : string :=
  if Strings.HasPrefix host "[" && Strings.HasSuffix host "]"
  then Strings.take (String.length host - 2) (Strings.drop 1 host) else host.

Definition splitHostPort (hostPort : string) : string * string :=
  match last_colon hostPort with
  | Some (host, port) => if all_bytes decimal port then (unbracket host, port) else (unbracket hostPort, "")
  | None => (unbracket hostPort, "")
  end.

(** ** ParseConfig *)

Section Parse.
Context (toml_Decode : string -> option WebConfig) (url_Parse : string -> option URL).

Definition login_rune (r : Z) : bool := negb ((r <? 33) || (126 <? r) || (r =? byte_val ",")).

Definition approval_link (s : string) : bool :=
  match url_Parse s with
  | None => false
  | Some link =>
      let '(hostname, port) := splitHostPort (Host link) in
      String.eqb (Scheme link) "http" && hostPattern_MatchString hostname && String.eqb port "7621"
      && negb (User link) && String.eqb (RawQuery link) "" && String.eqb (Fragment link) ""
      && (String.eqb (URLPath link) "" || String.eqb (URLPath link) "/")
  end.

Definition ParseConfig (data : string) : result web_error WebConfig :=
  fail_if 4096 <? len data with EWebTooLarge;
  match toml_Decode data with
  | None => Err EWebInvalid
  | Some cfg =>
      fail_if (253 <? len (web_Host cfg)) || negb (hostPattern_MatchString (web_Host cfg)) with EWebHost;
      fail_if (len (web_Login cfg) =? 0) || (256 <? len (web_Login cfg)) with EWebLogin;
      fail_if negb (forallb login_rune (Utf8.runes (web_Login cfg))) with EWebLoginCharacters;
      fail_if negb (String.eqb (web_ApprovalURL cfg) "") && negb (approval_link (web_ApprovalURL cfg))
        with EWebApprovalURL;
      Ok cfg
  end.

Definition LoadConfig (fs : FS) : result web_error WebConfig :=
  data ← wrap_err EWebReading (Read fs ConfigPath 4096 63 false);
  ParseConfig data.

End Parse.

(** ** The Serve configuration *)

(** A decoded JSON value; the members of an object have different names. *)
Inductive any : Type :=
| ANull
| ABool (b : bool)
| ANumber (text : string)
| AString (s : string)
| AArray (l : list any)
| AObject (m : list (string * any)).

Fixpoint member_of (k : string) (m : list (string * any)) : option any :=
  match m with
  | [] => None
  | (k', v) :: m => if String.eqb k k' then Some v else member_of k m
  end.

(** [reflect.DeepEqual] *)
Fixpoint DeepEqual (a b : any) {struct a} : bool :=
  match a, b with
  | ANull, ANull => true
  | ABool x, ABool y => Bool.eqb x y
  | ANumber x, ANumber y => String.eqb x y
  | AString x, AString y => String.eqb x y
  | AArray l, AArray l' =>
      (fix go (l l' : list any) : bool :=
         match l, l' with
         | [], [] => true
         | x :: l, y :: l' => DeepEqual x y && go l l'
         | _, _ => false
         end) l l'
  | AObject m, AObject m' =>
      Nat.eqb (length m) (length m')
      && (fix go (m : list (string * any)) : bool :=
            match m with
            | [] => true
            | (k, v) :: m => match member_of k m' with Some v' => DeepEqual v v' | None => false end && go m
            end) m
  | _, _ => false
  end.

Section Serve.
Context (unicode_print : Z -> bool).
(** [json.Unmarshal] into a [map[string]any]: null leaves the map nil. *)
Context (json_Unmarshal : string -> option (option (list (string * any)))).

Definition expected_serve (host : string) : string :=
  dq "{`TCP`:{`443`:{`HTTPS`:true}},`Web`:{" +:+ Strconv.Quote unicode_print (host +:+ ":443")
  +:+ dq ":{`Handlers`:{`/`:{`Proxy`:" +:+ Strconv.Quote unicode_print ("unix:" +:+ SocketPath)
  +:+ "}}}}}".

Definition validateServe (data host : string) : result web_error unit :=
  match json_Unmarshal data with
  | None | Some None => Err EServeInvalid
  | Some (Some got) =>
      match got with
      | [] => Ok tt
      | _ =>
          match json_Unmarshal (expected_serve host) with
          | None => Err EServeExpected
          | Some want =>
              fail_if negb (match want with Some want => DeepEqual (AObject got) (AObject want) | None => false end)
                with EServeConflict;
              Ok tt
          end
      end
  end.

(** [unicode.IsSpace] *)
Definition IsSpace (r : Z) : bool :=
  ((9 <=? r) && (r <=? 13)) || ((8192 <=? r) && (r <=? 8202))
  || existsb (Z.eqb r) [32; 133; 160; 5760; 8232; 8233; 8239; 8287; 12288].

(** [strings.TrimSpace(s) == ""] *)
Definition blank (s : string) : bool := forallb IsSpace (Utf8.runes s).

Definition tailscale_call (args : list string) : exec_call :=
  ExecRunPassthrough "/usr/bin/tailscale" args (Some ["PATH=/usr/bin:/bin"; "LC_ALL=C"]) "/".

Definition tailscale_stdout_limit : Z := 65536.
Definition tailscale_stderr_limit : Z := 4096.

(** What the command printed, if it succeeded and printed no error. *)
Definition tailscale_output (p : passthrough) : option string :=
  let stdout := WriteAll (NewBuffer tailscale_stdout_limit) (written StdoutStream (pt_writes p)) in
  let stderr := WriteAll (NewBuffer tailscale_stderr_limit) (written StderrStream (pt_writes p)) in
  match pt_exit p with
  | Err _ => None
  | Ok code =>
      if negb (code =? 0) || Exceeded stdout || Exceeded stderr || negb (len (Bytes stderr) =? 0)
      then None else Some (Bytes stdout)
  end.

Definition tailscale_run (args : list string) : prog exec_call (result web_error string) :=
  p ← call (tailscale_call args);
  lift (match tailscale_output p with Some out => Ok out | None => Err EBoundaryCheck end).

Definition CheckTailscale (cfg : WebConfig) : prog exec_call (result web_error unit) :=
  try! operator := tailscale_run ["get"; "operator"];
  if negb (blank operator) then fail EOperator else
  try! data := tailscale_run ["serve"; "status"; "--json"];
  lift (validateServe data (web_Host cfg)).

End Serve.

(** ** What is accepted *)

Definition host_name (s : string) : Prop :=
  exists a b, s = a +:+ "." +:+ b +:+ ".ts.net" /\ is_label a = true /\ is_label b = true.

Lemma is_label_no_dot s : is_label s = true -> all_bytes (fun c => negb (Ascii.eqb c ".")) s = true.
Proof.
  intros H. destruct s as [|c s]; [done|]. unfold is_label in H. rewrite !andb_true_iff in H.
  destruct H as [[_ H] _]. eapply all_bytes_impl; [|exact H]. intros x Hx.
  destruct (Ascii.eqb_spec x ".") as [->|]; [|done]. vm_compute in Hx. done.
Qed.

Lemma Split_word sep w s : all_bytes (fun c => negb (Ascii.eqb c sep)) w = true ->
  Strings.Split (w +:+ String sep s) sep = w :: Strings.Split s sep.
Proof.
  induction w as [|c w IH]; simpl; [by rewrite Ascii.eqb_refl|].
  intros [Hc Hw]%andb_true_iff. rewrite (proj1 (negb_true_iff _) Hc). by rewrite (IH Hw).
Qed.

Lemma hostPattern_spec s : hostPattern_MatchString s = true <-> host_name s.
Proof.
  unfold hostPattern_MatchString, host_name. split.
  - pose proof (Strings.Join_Split s ".") as Hj.
    destruct (Strings.Split s ".") as [|a [|b [|ts [|net [|]]]]]; try done.
    rewrite !andb_true_iff, !String.eqb_eq. intros [[[Ha Hb] ->] ->]. exists a, b. by subst s.
  - intros (a & b & -> & Ha & Hb).
    change ("." +:+ b +:+ ".ts.net") with (String "." (b +:+ String "." "ts.net")).
    rewrite Split_word by by apply is_label_no_dot.
    rewrite (Split_word "." b "ts.net") by by apply is_label_no_dot.
    simpl. by rewrite Ha, Hb.
Qed.

(** The link to the separate relay: HTTP, on a private host name, at its
    decision port, with nothing else in it. *)
Definition relay_link (url_Parse : string -> option URL) (s : string) : Prop :=
  exists link host, url_Parse s = Some link /\ splitHostPort (Host link) = (host, "7621")
    /\ Scheme link = "http" /\ host_name host /\ User link = false /\ RawQuery link = ""
    /\ Fragment link = "" /\ (URLPath link = "" \/ URLPath link = "/").

Lemma approval_link_spec url_Parse s : approval_link url_Parse s = true <-> relay_link url_Parse s.
Proof.
  unfold approval_link, relay_link. destruct (url_Parse s) as [link|]; [|naive_solver].
  destruct (splitHostPort (Host link)) as [host port] eqn:E.
  rewrite !andb_true_iff, orb_true_iff, !String.eqb_eq, negb_true_iff, hostPattern_spec. split.
  - intros [[[[[[? ?] ->] ?] ?] ?] ?]. exists link, host. by split_and!.
  - intros (l & h & [= <-] & Hh & ? & ? & ? & ? & ? & ?). rewrite E in Hh. injection Hh as <- ->. by split_and!.
Qed.

(** The configuration is accepted exactly when it is whole and safe: it
    has at most 4096 bytes, decodes without unknown fields, names one host of
    the tailnet's form, a login of 1 to 256 visible ASCII characters without a
    comma, and no link or one to the separate relay; it is then returned
    unchanged. *)
Theorem ParseConfig_exact toml_Decode url_Parse data cfg :
  ParseConfig toml_Decode url_Parse data = Ok cfg <->
  len data <= 4096 /\ toml_Decode data = Some cfg
  /\ len (web_Host cfg) <= 253 /\ host_name (web_Host cfg)
  /\ 1 <= len (web_Login cfg) <= 256
  /\ Forall (fun r => 33 <= r <= 126 /\ r <> byte_val ",") (Utf8.runes (web_Login cfg))
  /\ (web_ApprovalURL cfg = "" \/ relay_link url_Parse (web_ApprovalURL cfg)).
Proof.
  unfold ParseConfig. rewrite fail_if_Ok. destruct (toml_Decode data) as [cfg'|]; [|naive_solver].
  assert (Hr : forall s, forallb login_rune (Utf8.runes s) = true
      <-> Forall (fun r => 33 <= r <= 126 /\ r <> byte_val ",") (Utf8.runes s)).
  { intros s. rewrite <- Is_true_true, forallb_True. apply Forall_iff. intros r.
    rewrite Is_true_true. unfold login_rune.
    rewrite negb_true_iff, !orb_false_iff, !Z.ltb_ge, Z.eqb_neq. lia. }
  assert (Hlen : forall s, 0 <= len s) by (intros s; unfold len; lia).
  specialize (Hlen (web_Login cfg')).
  rewrite !fail_if_Ok, !orb_false_iff, andb_false_iff, !negb_false_iff, !Z.ltb_ge, Z.eqb_neq,
    hostPattern_spec, Hr, approval_link_spec, String.eqb_eq.
  split.
  - intros (? & [? ?] & [? ?] & ? & ? & [= <-]). by split_and!; try lia.
  - intros (? & [= <-] & ? & ? & [? ?] & ? & ?). by split_and!; try lia.
Qed.

(** The only configuration of Serve that may be there. *)
Definition private_serve (host : string) : list (string * any) :=
  [("TCP", AObject [("443", AObject [("HTTPS", ABool true)])]);
   ("Web", AObject [(host +:+ ":443",
      AObject [("Handlers", AObject [("/", AObject [("Proxy", AString ("unix:" +:+ SocketPath))])])])])].

Lemma DeepEqual_object_one m k v :
  DeepEqual (AObject m) (AObject [(k, v)]) = true <-> exists v', m = [(k, v')] /\ DeepEqual v' v = true.
Proof.
  split.
  - destruct m as [|[k' v'] [|]]; try done. simpl.
    destruct (String.eqb_spec k' k) as [->|]; [|done]. rewrite andb_true_r. by exists v'.
  - intros (v' & -> & H). simpl. by rewrite String.eqb_refl, H.
Qed.

Lemma DeepEqual_string v s : DeepEqual v (AString s) = true <-> v = AString s.
Proof. destruct v; simpl; try (by split). rewrite String.eqb_eq. naive_solver. Qed.

Lemma DeepEqual_bool v b : DeepEqual v (ABool b) = true <-> v = ABool b.
Proof. destruct v; simpl; try (by split). rewrite eqb_true_iff. naive_solver. Qed.

Lemma DeepEqual_chain v k w :
  DeepEqual v (AObject [(k, w)]) = true <-> exists v', v = AObject [(k, v')] /\ DeepEqual v' w = true.
Proof.
  destruct v as [| | | | |m]; try (by split; [|intros (? & ? & ?)]).
  rewrite DeepEqual_object_one. split; intros (v' & H & ?); exists v'; by simplify_eq.
Qed.

Lemma DeepEqual_object m m' :
  DeepEqual (AObject m) (AObject m') =
    Nat.eqb (length m) (length m')
    && forallb (fun kv => match member_of kv.1 m' with
                          | Some v' => DeepEqual kv.2 v' | None => false end) m.
Proof.
  cbn [DeepEqual]. f_equal. induction m as [|[k v] m IH]; [done|]. cbn [forallb fst snd]. by rewrite IH.
Qed.

Lemma DeepEqual_private_serve host got : NoDup got.*1 ->
  DeepEqual (AObject got) (AObject (private_serve host)) = true <-> got ≡ₚ private_serve host.
Proof.
  intros Hnd. unfold private_serve.
  set (tcp := AObject [("443", _)]). set (web := AObject [(host +:+ ":443", _)]).
  assert (Htcp : forall v, DeepEqual v tcp = true <-> v = tcp).
  { intros v. unfold tcp. rewrite !DeepEqual_chain. split.
    - intros (? & -> & (? & -> & ->%DeepEqual_bool)%DeepEqual_chain). done.
    - intros ->. eexists. split; [done|]. by apply DeepEqual_chain; eexists. }
  assert (Hweb : forall v, DeepEqual v web = true <-> v = web).
  { intros v. unfold web. rewrite DeepEqual_chain. split.
    - intros (? & -> & (? & -> & (? & -> & (? & -> & ->%DeepEqual_string)%DeepEqual_chain)%DeepEqual_chain)%DeepEqual_chain).
      done.
    - intros ->. eexists. split; [done|].
      repeat (apply DeepEqual_chain; eexists; split; [done|]). by apply DeepEqual_string. }
  clearbody tcp web. split.
  - destruct got as [|[k1 v1] [|[k2 v2] [|]]]; try done.
    rewrite DeepEqual_object. cbn -[DeepEqual]. intros H.
    destruct (String.eqb_spec k1 "TCP") as [->|]; [|destruct (String.eqb_spec k1 "Web") as [->|]; [|done]];
      (destruct (String.eqb_spec k2 "TCP") as [->|]; [|destruct (String.eqb_spec k2 "Web") as [->|]]);
      cbn -[DeepEqual] in H; rewrite ?andb_true_r, ?andb_true_iff in H;
      try (destruct H as [_ H]; rewrite ?andb_false_r in H; done).
    + apply NoDup_cons in Hnd as [Hn _]. cbn in Hn. set_solver.
    + by destruct H as [->%Htcp ->%Hweb].
    + destruct H as [->%Hweb ->%Htcp]. apply perm_swap.
    + apply NoDup_cons in Hnd as [Hn _]. cbn in Hn. set_solver.
  - intros H. assert (Hgot : got = [("TCP", tcp); ("Web", web)] \/ got = [("Web", web); ("TCP", tcp)]).
    { pose proof (Permutation_length H) as Hl. destruct got as [|x [|y [|]]]; try done.
      apply Permutation_length_2 in H as [[-> ->]|[-> ->]]; auto. }
    pose proof (proj2 (Htcp tcp) eq_refl) as Ht. pose proof (proj2 (Hweb web) eq_refl) as Hw.
    destruct Hgot as [-> | ->]; rewrite DeepEqual_object; cbn -[DeepEqual]; by rewrite Ht, Hw.
Qed.

Lemma tailscale_limits : 0 <= tailscale_stdout_limit /\ 0 <= tailscale_stderr_limit.
Proof. by split. Qed.

(** The command succeeded, printed [out] and nothing on standard error. *)
Definition printed (p : passthrough) (out : string) : Prop :=
  pt_exit p = Ok 0
  /\ total (written StdoutStream (pt_writes p)) = out /\ len out <= tailscale_stdout_limit
  /\ total (written StderrStream (pt_writes p)) = "".

#[local] Opaque tailscale_stdout_limit tailscale_stderr_limit.

Lemma tailscale_output_spec p out : tailscale_output p = Some out <-> printed p out.
Proof.
  unfold tailscale_output, printed. destruct tailscale_limits as [L1 L2].
  destruct (WriteAll_new _ (written StdoutStream (pt_writes p)) L1) as [-> ->].
  destruct (WriteAll_new _ (written StderrStream (pt_writes p)) L2) as [-> ->].
  destruct (pt_exit p) as [code|]; [|by split; [|intros (? & _)]].
  set (o := total (written StdoutStream _)). set (r := total (written StderrStream _)).
  assert (Hfit : forall x n, len x <= n -> Strings.take (Z.to_nat n) x = x).
  { intros x n Hx. apply take_ge. unfold len in Hx. lia. }
  split.
  - destruct (_ || _) eqn:Hg; [done|]. intros [= <-].
    rewrite !orb_false_iff, !Z.ltb_ge, !negb_false_iff, !Z.eqb_eq in Hg. destruct Hg as [[[-> Ho] He] Hr].
    rewrite (Hfit o) by done. rewrite (Hfit r) in Hr by done. split_and!; try done.
    destruct r; [done|]. unfold len in Hr. simpl in Hr. lia.
  - intros ([= ->] & <- & Ho & Hr). rewrite Hr, (Hfit o), (Hfit "") by done.
    rewrite (proj2 (Z.ltb_ge _ _) Ho), (proj2 (Z.ltb_ge _ (len "")) L2). done.
Qed.

Lemma CheckTailscale_spec unicode_print json_Unmarshal cfg t :
  (forall data got, json_Unmarshal data = Some (Some got) -> NoDup got.*1) ->
  json_Unmarshal (expected_serve unicode_print (web_Host cfg)) = Some (Some (private_serve (web_Host cfg))) ->
  behaves (CheckTailscale unicode_print json_Unmarshal cfg) t (Ok tt) <->
  exists p1 p2 operator status got,
    t = [ ev (ExecRunPassthrough "/usr/bin/tailscale" ["get"; "operator"]
                (Some ["PATH=/usr/bin:/bin"; "LC_ALL=C"]) "/") p1;
          ev (ExecRunPassthrough "/usr/bin/tailscale" ["serve"; "status"; "--json"]
                (Some ["PATH=/usr/bin:/bin"; "LC_ALL=C"]) "/") p2 ]
    /\ printed p1 operator /\ blank operator = true
    /\ printed p2 status /\ json_Unmarshal status = Some (Some got)
    /\ (got = [] \/ got ≡ₚ private_serve (web_Host cfg)).
Proof.
  intros Hnd Hexp.
  assert (Hv : forall data, validateServe unicode_print json_Unmarshal data (web_Host cfg) = Ok tt <->
    exists got, json_Unmarshal data = Some (Some got) /\ (got = [] \/ got ≡ₚ private_serve (web_Host cfg))).
  { intros data. unfold validateServe. rewrite Hexp.
    destruct (json_Unmarshal data) as [[got|]|] eqn:E; [|by split; [|intros (? & ? & _)]..].
    destruct got as [|x got]; [split; [|done]; intros _; exists []; auto|].
    rewrite fail_if_Ok, negb_false_iff, (DeepEqual_private_serve _ _ (Hnd _ _ E)). split.
    - intros [H _]. exists (x :: got). auto.
    - intros (? & [= <-] & [?|?]); [done|auto]. }
  unfold CheckTailscale, tailscale_run. split.
  - intros H. inv_io.
    all: repeat match goal with
      | H : Ok _ = match ?o with Some _ => _ | None => _ end |- _ => destruct o eqn:?; [|discriminate H]
      end; simplify_eq/=.
    match goal with H : Ok tt = validateServe _ _ _ _ |- _ => symmetry in H; apply Hv in H as (got & Hj & Hg) end.
    rewrite !tailscale_output_spec in *.
    exists x5, x13, s0, s, got. split_and!; try done. by apply negb_false_iff.
  - intros (p1 & p2 & operator & status & got & -> & H1 & Hb & H2 & Hj & Hg).
    apply (behaves_then _ _ [_] [_] operator); [apply behaves_call_bind; by rewrite (proj2 (tailscale_output_spec _ _) H1)|].
    rewrite Hb. cbn [negb].
    apply (behaves_then _ _ [_] [] status); [apply behaves_call_bind; by rewrite (proj2 (tailscale_output_spec _ _) H2)|].
    split; [done|]. symmetry. apply Hv. by exists got.
Qed.

(** C32: the server trusts Tailscale only while Serve is private: the check
    makes at most two calls and succeeds exactly when no operator is set and
    the status is empty or forwards the configured host's root over HTTPS to
    the private socket, with no other member anywhere in it. *)
Theorem CheckTailscale_exact unicode_print json_Unmarshal cfg t :
  (forall data got, json_Unmarshal data = Some (Some got) -> NoDup got.*1) ->
  json_Unmarshal (expected_serve unicode_print (web_Host cfg)) = Some (Some (private_serve (web_Host cfg))) ->
  behaves (CheckTailscale unicode_print json_Unmarshal cfg) t (Ok tt) <->
  exists p1 p2 operator status got,
    t = [ ev (ExecRunPassthrough "/usr/bin/tailscale" ["get"; "operator"]
                (Some ["PATH=/usr/bin:/bin"; "LC_ALL=C"]) "/") p1;
          ev (ExecRunPassthrough "/usr/bin/tailscale" ["serve"; "status"; "--json"]
                (Some ["PATH=/usr/bin:/bin"; "LC_ALL=C"]) "/") p2 ]
    /\ printed p1 operator /\ blank operator = true
    /\ printed p2 status /\ json_Unmarshal status = Some (Some got)
    /\ (got = [] \/ got ≡ₚ private_serve (web_Host cfg)).
Proof. apply CheckTailscale_spec. Qed.

(** ** An example *)

Module Serve_example.

Definition cfg : WebConfig := mkWebConfig "host.tail.ts.net" "ann@example.org" "".

(** A decoder that knows two texts. *)
Definition decode (s : string) : option (option (list (string * any))) :=
  if String.eqb s "{}" then Some (Some [])
  else if String.eqb s (expected_serve (fun _ => true) "host.tail.ts.net")
  then Some (Some (private_serve "host.tail.ts.net")) else None.

Definition says (s : string) : passthrough := mkPassthrough [(StdoutStream, s)] (Ok 0).

Definition events : list (event exec_call) :=
  [ ev (ExecRunPassthrough "/usr/bin/tailscale" ["get"; "operator"]
          (Some ["PATH=/usr/bin:/bin"; "LC_ALL=C"]) "/") (says "");
    ev (ExecRunPassthrough "/usr/bin/tailscale" ["serve"; "status"; "--json"]
          (Some ["PATH=/usr/bin:/bin"; "LC_ALL=C"]) "/")
       (says (expected_serve (fun _ => true) "host.tail.ts.net")) ].
End Serve_example.

Lemma CheckTailscale_exact_witness :
  behaves (CheckTailscale (fun _ => true) Serve_example.decode Serve_example.cfg) Serve_example.events (Ok tt).
Proof.
  apply CheckTailscale_exact.
  - intros data got. unfold Serve_example.decode. destruct (String.eqb data "{}"); [intros [= <-]; apply NoDup_nil_2|].
    destruct (String.eqb data _); [|discriminate]. intros [= <-].
    refine (bool_decide_unpack _ _). vm_compute. exact I.
  - vm_compute. reflexivity.
  - eexists _, _, "", _, (private_serve "host.tail.ts.net"). split; [reflexivity|].
    split; [split; [reflexivity|]; split; [reflexivity|]; split; [vm_compute; discriminate|reflexivity]|].
    split; [reflexivity|].
    split; [split; [reflexivity|]; split; [reflexivity|]; split; [vm_compute; discriminate|reflexivity]|].
    split; [vm_compute; reflexivity|]. right. reflexivity.
Defined.
