(* ===== verification/AdminWebRun.v ===== *)
(** * AdminWebRun: the web server's start and its listener
    (internal/adminweb/run.go and listener_linux.go)

    [Run] checks the configuration, Tailscale and the socket before it serves.
    The listener lets in one trusted peer after another, eight at a time: its
    slots are a buffered channel, so an execution is a sequence of the steps
    of the accepting goroutine and of the connections that are closed. *)

From S2P Require Import Prelude GoStrings GoText Effects Io Exec Config SecureFile AdminPath AdminWebConfig.

#[local] Open Scope Z_scope.

(** ** Starting *)

(** What [os.Lstat] reports of the socket. *)
Record SocketInfo := mkSocketInfo { so_socket : bool; so_perm : Z; so_uid : Z; so_gid : Z }.

Inductive run_op : Type :=
| RGeteuid
| RReadStdin (limit : Z)                 (** [io.ReadAll(io.LimitReader(os.Stdin, limit))] *)
| RReadFile (path : string) (maxBytes forbidden : Z) (allowRoot : bool)
| RLstat (path : string)
| RGetenv (name : string)
| RGetpid
| RFileListener (fd : Z)                 (** [net.FileListener]: the network and address *)
| RCloseFile
| RCloseListener
| RServe (cfg : WebConfig).              (** [server.Serve], until a signal shuts it down *)

Inductive serve_end : Type :=
| ServerClosed                           (** [http.ErrServerClosed] *)
| ServeFailed.

#[export] Instance run_interface : Interface run_op := fun c =>
  match c with
  | RGeteuid | RGetpid => Z
  | RReadStdin _ => option string
  | RReadFile _ _ _ _ => result securefile_error string
  | RLstat _ => result lookup_error SocketInfo
  | RGetenv _ => string
  | RFileListener _ => option (string * string)
  | RCloseFile | RCloseListener => unit
  | RServe _ => serve_end
  end.

Notation run_call := (exec_call + run_op)%type.

Inductive run_error : Type :=
| ENotRoot
| EReadingStdin
| EConfig (e : web_error)
| ELstat
| ESocket
| EUsage
| ENoActivation
| EFileListener
| EUnexpectedListener
| EServe.

Notation start A := (prog run_call (result run_error A)).

Definition run_ask (o : run_op) : prog run_call (answer o) := call (inr o : run_call).

(** [info.Mode()&os.ModeSocket == 0 || ...] *)
Definition private_socket (i : SocketInfo) : bool :=
  negb (negb (so_socket i) || negb (so_perm i =? 384) || negb (so_uid i =? 0) || negb (so_gid i =? 0)).

Definition checkSocket : start unit :=
  i ← run_ask (RLstat SocketPath);
  lift (match (i : result lookup_error SocketInfo) with
        | Err NotExist => Ok tt
        | Err OtherFailure => Err ELstat
        | Ok i => fail_if negb (private_socket i) with ESocket; Ok tt
        end).

Definition activatedListener : start unit :=
  listen_pid ← run_ask (RGetenv "LISTEN_PID");
  pid ← run_ask RGetpid;
  if negb (String.eqb listen_pid (Itoa.Itoa pid)) then fail ENoActivation else
  fds ← run_ask (RGetenv "LISTEN_FDS");
  if negb (String.eqb fds "1") then fail ENoActivation else
  try! _ := checkSocket;
  l ← run_ask (RFileListener 3);
  match (l : option (string * string)) with
  | None => _ ← run_ask RCloseFile; fail EFileListener
  | Some (network, address) =>
      if negb (String.eqb network "unix") || negb (String.eqb address SocketPath)
      then _ ← run_ask RCloseListener; _ ← run_ask RCloseFile; fail EUnexpectedListener
      else _ ← run_ask RCloseFile; ok tt
  end.

Section Run.
Context (toml_Decode : string -> option WebConfig) (url_Parse : string -> option URL).
Context (unicode_print : Z -> bool) (json_Unmarshal : string -> option (option (list (string * any)))).

Definition parse_config (data : string) : result run_error WebConfig :=
  wrap_err EConfig (ParseConfig toml_Decode url_Parse data).

Definition check_tailscale (cfg : WebConfig) : start unit :=
  r ← on_left (CheckTailscale unicode_print json_Unmarshal cfg); lift (wrap_err EConfig r).

Definition Run (args : list string) : start unit :=
  euid ← run_ask RGeteuid;
  if negb ((euid : Z) =? 0) then fail ENotRoot else
  if bool_decide (args = ["validate"]) then
    d ← run_ask (RReadStdin 4097);
    try! data := lift (match (d : option string) with Some s => Ok s | None => Err EReadingStdin end);
    try! cfg := lift (parse_config data);
    try! _ := check_tailscale cfg;
    checkSocket
  else if negb (bool_decide (args = [])) && negb (bool_decide (args = ["check"])) then fail EUsage
  else
    d ← run_ask (RReadFile ConfigPath 4096 63 false);
    try! data := lift (wrap_err EConfig (wrap_err EWebReading (d : result securefile_error string)));
    try! cfg := lift (parse_config data);
    try! _ := check_tailscale cfg;
    try! _ := checkSocket;
    if Nat.eqb (length args) 1 then ok tt else
    try! _ := activatedListener;
    e ← run_ask (RServe cfg);
    _ ← run_ask RCloseListener;
    match (e : serve_end) with ServerClosed => ok tt | ServeFailed => fail EServe end.

(** ** What was checked before the server serves *)

Definition run_ev (o : run_op) (a : answer o) : event run_call := ev (inr o : run_call) a.

Definition socket_ok (a : result lookup_error SocketInfo) : Prop :=
  a = Err NotExist \/ exists i, a = Ok i /\ so_socket i = true /\ so_perm i = 384 /\ so_uid i = 0 /\ so_gid i = 0.

Lemma private_socket_spec i :
  private_socket i = true <-> so_socket i = true /\ so_perm i = 384 /\ so_uid i = 0 /\ so_gid i = 0.
Proof.
  unfold private_socket. rewrite negb_true_iff, !orb_false_iff, !negb_false_iff, !Z.eqb_eq. tauto.
Qed.

Lemma checkSocket_Ok t : behaves checkSocket t (Ok tt) <-> exists a, t = [run_ev (RLstat SocketPath) a] /\ socket_ok a.
Proof.
  split.
  - intros (a & t' & -> & [-> E]). exists a. split; [done|]. destruct a as [i|[]]; [|by left|done].
    right. exists i. split; [done|]. apply private_socket_spec. by destruct (private_socket i).
  - intros (a & -> & Ha). exists a, []. split; [done|]. split; [done|].
    destruct Ha as [->|(i & -> & H)]; [done|]. apply private_socket_spec in H. by rewrite H.
Qed.

(** *** Reaching [RServe] *)

Definition quiet (c : run_call) : Prop := match c with inr (RServe _) => False | _ => True end.

Lemma quiet_no_serve t cfg : Forall quiet (calls t) -> inr (RServe cfg) ∉ calls t.
Proof. rewrite Forall_forall. intros H Hin. by apply H in Hin. Qed.

Lemma serve_later {A B} (m : start A) (k : A -> start B) t r cfg :
  only quiet m -> behaves (and_then m k) t r -> inr (RServe cfg) ∈ calls t ->
  exists t1 t2 a, t = t1 ++ t2 /\ behaves m t1 (Ok a) /\ behaves (k a) t2 r /\ inr (RServe cfg) ∈ calls t2.
Proof.
  intros Hm [(t1 & t2 & a & -> & H1 & H2)|(err & H & _)]%behaves_and_then Hin.
  - exists t1, t2, a. split_and!; try done. rewrite calls_app, elem_of_app in Hin. destruct Hin as [Hin|?]; [|done].
    by destruct (quiet_no_serve _ cfg (only_behaves _ _ _ _ Hm H1)).
  - by destruct (quiet_no_serve _ cfg (only_behaves _ _ _ _ Hm H)).
Qed.

Lemma ask_later {A} o (k : answer o -> prog run_call A) t r cfg :
  quiet (inr o) -> behaves (run_ask o ≫= k) t r -> inr (RServe cfg) ∈ calls t ->
  exists a t2, t = run_ev o a :: t2 /\ behaves (k a) t2 r /\ inr (RServe cfg) ∈ calls t2.
Proof.
  intros Ho (a & t2 & -> & H) Hin. exists a, t2. split_and!; try done.
  rewrite calls_cons in Hin. apply elem_of_cons in Hin as [E|?]; [|done]. cbn in E. injection E as E. by subst o.
Qed.

Lemma only_on_left_quiet {A} (p : prog exec_call A) : only quiet (on_left p : prog run_call A).
Proof. induction p as [a|c k IH]; [done|]. by split. Qed.

Lemma only_checkSocket : only quiet checkSocket.
Proof. by split. Qed.

Lemma only_check_tailscale cfg : only quiet (check_tailscale cfg).
Proof. apply only_bind; [apply only_on_left_quiet|done]. Qed.

Lemma check_tailscale_Ok cfg t :
  behaves (check_tailscale cfg) t (Ok tt) ->
  exists tc, t = left_ev <$> tc /\ behaves (CheckTailscale unicode_print json_Unmarshal cfg) tc (Ok tt).
Proof.
  intros (t1 & t2 & x & -> & (tc & -> & H)%behaves_on_left & [-> E])%behaves_bind. rewrite app_nil_r.
  exists tc. split; [done|]. by destruct x as [[]|].
Qed.

Lemma ask_inv {A} o (k : answer o -> prog run_call A) t r :
  behaves (run_ask o ≫= k) t r -> exists a t', t = run_ev o a :: t' /\ behaves (k a) t' r.
Proof. intros (a & t' & -> & H). by exists a, t'. Qed.

Lemma activatedListener_Ok t :
  behaves activatedListener t (Ok tt) ->
  exists pid a,
    t = [ run_ev (RGetenv "LISTEN_PID") (Itoa.Itoa pid); run_ev RGetpid pid; run_ev (RGetenv "LISTEN_FDS") "1";
          run_ev (RLstat SocketPath) a; run_ev (RFileListener 3) (Some ("unix", SocketPath)); run_ev RCloseFile tt ]
    /\ socket_ok a.
Proof.
  intros H. apply (ask_inv (RGetenv _)) in H as (lp & t1 & -> & H).
  apply (ask_inv RGetpid) in H as (pid & t2 & -> & H).
  destruct (String.eqb lp (Itoa.Itoa pid)) eqn:E1 in H; cbn [negb] in H; [apply String.eqb_eq in E1; subst lp|by destruct H].
  apply (ask_inv (RGetenv _)) in H as (fds & t3 & -> & H).
  destruct (String.eqb fds "1") eqn:E2 in H; cbn [negb] in H; [apply String.eqb_eq in E2; subst fds|by destruct H].
  apply behaves_and_then in H as [(t4 & t5 & [] & -> & (a & -> & Ha)%checkSocket_Ok & H)|(? & _ & ?)]; [|done].
  apply (ask_inv (RFileListener 3)) in H as (l & t6 & -> & H). destruct l as [[network address]|].
  2:{ apply (ask_inv RCloseFile) in H as (? & ? & -> & H). by destruct H. }
  destruct (negb (String.eqb network "unix") || negb (String.eqb address SocketPath)) eqn:E3 in H.
  { apply (ask_inv RCloseListener) in H as (? & ? & -> & H). apply (ask_inv RCloseFile) in H as (? & ? & -> & H). by destruct H. }
  apply orb_false_iff in E3. rewrite !negb_false_iff, !String.eqb_eq in E3. destruct E3 as [-> ->].
  apply (ask_inv RCloseFile) in H as ([] & t7 & -> & [-> _]). by exists pid, a.
Qed.

Lemma only_activatedListener : only quiet activatedListener.
Proof.
  apply only_bind; [by split|]. intros lp. apply only_bind; [by split|]. intros pid.
  match goal with |- only _ (if ?b then _ else _) => destruct b end; [done|].
  apply only_bind; [by split|]. intros fds.
  match goal with |- only _ (if ?b then _ else _) => destruct b end; [done|].
  apply only_and_then; [apply only_checkSocket|]. intros _. apply only_bind; [by split|].
  intros [[network address]|]; [|by split].
  match goal with |- only _ (if ?b then _ else _) => destruct b end; by repeat split.
Qed.

(** C23: the server never serves a connection that it did not check for: if
    [Run] serves at all, then it runs as root with no argument; the
    configuration it serves was read from the private file and accepted; the
    Tailscale check accepted it; the socket was looked at, alone and again
    after systemd's hand-over of exactly one descriptor to this very process,
    and was absent or root's own with mode 0600; and the listener is the one at
    that path.  The listener is closed at the end. *)
Theorem serves_only_when_private args t r cfg :
  behaves (Run args) t r -> inr (RServe cfg) ∈ calls t ->
  args = [] /\ exists data tc a1 pid a2 e,
    t = [run_ev RGeteuid 0; run_ev (RReadFile ConfigPath 4096 63 false) (Ok data)]
        ++ (left_ev <$> tc)
        ++ [ run_ev (RLstat SocketPath) a1;
             run_ev (RGetenv "LISTEN_PID") (Itoa.Itoa pid); run_ev RGetpid pid; run_ev (RGetenv "LISTEN_FDS") "1";
             run_ev (RLstat SocketPath) a2; run_ev (RFileListener 3) (Some ("unix", SocketPath)); run_ev RCloseFile tt;
             run_ev (RServe cfg) e; run_ev RCloseListener tt ]
    /\ ParseConfig toml_Decode url_Parse data = Ok cfg
    /\ behaves (CheckTailscale unicode_print json_Unmarshal cfg) tc (Ok tt)
    /\ socket_ok a1 /\ socket_ok a2
    /\ (r = Ok tt <-> e = ServerClosed).
Proof.
  intros H Hin. unfold Run in H.
  apply (ask_later RGeteuid _ _ _ cfg) in H as (euid & t1 & -> & H & Hi); [|done..]. cbn beta in H.
  destruct (euid =? 0) eqn:Eu in H; cbn [negb] in H; [apply Z.eqb_eq in Eu; subst euid|destruct H as [-> _]; by apply no_calls in Hi].
  destruct (bool_decide (args = ["validate"])) eqn:Hv in H.
  { exfalso. revert Hi. apply quiet_no_serve. eapply only_behaves; [|exact H].
    split; [done|]. intros d. apply only_and_then; [done|]. intros data. apply only_and_then; [done|]. intros c.
    apply only_and_then; [apply only_check_tailscale|]. intros _. apply only_checkSocket. }
  destruct (negb _ && negb _) eqn:Eg in H; [destruct H as [-> _]; by apply no_calls in Hi|].
  apply (ask_later (RReadFile _ _ _ _) _ _ _ cfg) in H as (d & t2 & -> & H & Hi2); [|done..]. cbn beta in H.
  apply (serve_later _ _ _ _ cfg) in H as (t3 & t4 & data & -> & [-> Hd] & H & Hi4); [|done..].
  apply (serve_later _ _ _ _ cfg) in H as (t5 & t6 & c & -> & [-> Hp] & H & Hi6); [|done..].
  apply (serve_later _ _ _ _ cfg) in H as (t7 & t8 & [] & -> & (tc & -> & Hts)%check_tailscale_Ok & H & Hi8);
    [|apply only_check_tailscale|done].
  apply (serve_later _ _ _ _ cfg) in H as (t9 & t10 & [] & -> & (a1 & -> & Ha1)%checkSocket_Ok & H & Hi10);
    [|apply only_checkSocket|done].
  destruct (Nat.eqb (length args) 1) eqn:Ea in H; [destruct H as [-> _]; by apply no_calls in Hi10|].
  apply (serve_later _ _ _ _ cfg) in H as (t11 & t12 & [] & -> & (pid & a2 & -> & Ha2)%activatedListener_Ok & H & Hi12);
    [|apply only_activatedListener|done].
  apply (ask_inv (RServe c)) in H as (e & t13 & -> & H). apply (ask_inv RCloseListener) in H as ([] & t14 & -> & H).
  assert (Hc : c = cfg).
  { apply elem_of_cons in Hi12 as [[= ->]|Hi12]; [done|]. cbn in Hi12.
    apply elem_of_cons in Hi12 as [?|Hi12]; [done|]. destruct e; destruct H as [-> _]; by apply no_calls in Hi12. }
  subst c. symmetry in Hd, Hp. apply wrap_err_Ok in Hd, Hp. apply wrap_err_Ok in Hd. subst d.
  split.
  { apply andb_false_iff in Eg. rewrite !negb_false_iff, !bool_decide_eq_true in Eg. by destruct Eg as [->| ->]. }
  exists data, tc, a1, pid, a2, e. cbn [app] in *.
  destruct e; destruct H as [-> ->]; split_and!; done.
Qed.
End Run.

(** ** Peers *)

Inductive peer_op : Type :=
| PIsUnix                       (** [conn.( *net.UnixConn)] *)
| PSyscallConn
| PControl                      (** [GetsockoptUcred] inside [raw.Control]: the process and the user *)
| PReadlink (path : string)
| PValidateExecutable (path : string).

#[export] Instance peer_interface : Interface peer_op := fun c =>
  match c with
  | PIsUnix | PSyscallConn => bool
  | PControl => option (option (Z * Z))   (** [None]: [Control] itself failed *)
  | PReadlink _ => option string
  | PValidateExecutable _ => result securefile_error unit
  end.

Inductive peer_error : Type :=
| ENotUnix
| ESyscallConn
| EControl
| ENotRootPeer
| ENotTailscaled
| EExecutable (e : securefile_error).

Definition tailscaled : string := "/usr/sbin/tailscaled".
Definition exe_path (pid : Z) : string := "/proc/" +:+ Itoa.Itoa pid +:+ "/exe".

Definition trustedPeer : prog peer_op (result peer_error unit) :=
  try! _ := require ENotUnix (call PIsUnix);
  try! _ := require ESyscallConn (call PSyscallConn);
  c ← call PControl;
  match (c : option (option (Z * Z))) with
  | None => fail EControl
  | Some None => fail ENotRootPeer
  | Some (Some (pid, uid)) =>
      if negb (uid =? 0) then fail ENotRootPeer else
      executable ← call (PReadlink (exe_path pid));
      match (executable : option string) with
      | None => fail ENotTailscaled
      | Some exe =>
          if negb (String.eqb exe tailscaled) then fail ENotTailscaled else
          v ← call (PValidateExecutable exe);
          lift (wrap_err EExecutable (v : result securefile_error unit))
      end
  end.

(** A trusted peer is root's tailscaled: a connection is accepted exactly
    when it is a Unix connection whose peer, as the kernel names it, runs as
    root from /usr/sbin/tailscaled, and that file passed the check of a trusted
    executable; the checks are made in this order and none is skipped. *)
Theorem trustedPeer_exact t :
  behaves trustedPeer t (Ok tt) <->
  exists pid, t = [ ev PIsUnix true; ev PSyscallConn true; ev PControl (Some (Some (pid, 0)));
                    ev (PReadlink ("/proc/" +:+ Itoa.Itoa pid +:+ "/exe")) (Some "/usr/sbin/tailscaled");
                    ev (PValidateExecutable "/usr/sbin/tailscaled") (Ok tt) ].
Proof.
  split.
  - unfold trustedPeer.
    intros [(t1 & t2 & [] & -> & (b & (x & ? & -> & [-> <-]) & E)%behaves_require & H)|(? & _ & ?)]%behaves_and_then; [|done].
    destruct b; [clear E|done].
    apply behaves_and_then in H as [(t3 & t4 & [] & -> & (b & (x & ? & -> & [-> <-]) & E)%behaves_require & H)|(? & _ & ?)]; [|done].
    destruct b; [clear E|done].
    apply (behaves_call_inv PControl) in H as ([[[pid uid]|]|] & t5 & -> & H); [|by destruct H..].
    destruct (Z.eqb_spec uid 0) as [->|] in H; cbn [negb] in H; [|by destruct H].
    apply (behaves_call_inv (PReadlink _)) in H as ([exe|] & t6 & -> & H); [|by destruct H].
    destruct (String.eqb exe tailscaled) eqn:E in H; cbn [negb] in H; [apply String.eqb_eq in E; subst exe|by destruct H].
    apply (behaves_call_inv (PValidateExecutable _)) in H as ([[]|] & t7 & -> & [-> E]); [|done].
    by exists pid.
  - intros (pid & ->).
    apply (behaves_then _ _ [_] _ tt); [by apply behaves_require; exists true; split; [by eexists _, []|]|].
    apply (behaves_then _ _ [_] _ tt); [by apply behaves_require; exists true; split; [by eexists _, []|]|].
    by apply behaves_call_bind, behaves_call_bind, behaves_call_bind.
Qed.

(** ** The listener *)

Module Listener.

(** Where the goroutine that calls [Accept] is. *)
Inductive position : Type :=
| Outside                  (** not in [Accept] *)
| Selecting                (** at the [select] *)
| Accepting                (** in [l.Listener.Accept()], with a slot taken *)
| Checking (conn : nat).   (** in [l.check(conn)] *)

#[export] Instance position_eq_dec : EqDecision position. Proof. solve_decision. Defined.

Record peerListener := mkPeerListener {
  slots : nat;             (** how many values the channel holds *)
  done : bool;             (** [l.done] is closed *)
  at_ : position;
  unreleased : gset nat;   (** connections handed over whose [once] has not run *)
  handed : gset nat;       (** connections [Accept] has returned *)
}.

Definition capacity : nat := 8.

(** [newPeerListener] *)
Definition newPeerListener : peerListener := mkPeerListener 0 false Outside ∅ ∅.

Inductive label : Type :=
| CallAccept
| TakeSlot
| SeeDone                  (** the other case of the [select]: [net.ErrClosed] *)
| AcceptFails
| AcceptConn (conn : nat)
| Refuse                   (** the check failed: close, give the slot back, go on *)
| HandOver
| CloseConn (conn : nat)
| CloseListener.

Section Steps.
(** [l.check(conn) == nil], for each connection of the kernel's. *)
Context (check : nat -> bool).

(** [<-l.slots]: receiving blocks while the channel is empty. *)
Definition receive (s : peerListener) : option nat := match slots s with O => None | S n => Some n end.

(** One step, [None] where the code blocks or is elsewhere. *)
Definition step (l : label) (s : peerListener) : option peerListener :=
  let go n p u h := Some (mkPeerListener n (done s) p u h) in
  match l, at_ s with
  | CallAccept, Outside => go (slots s) Selecting (unreleased s) (handed s)
  | TakeSlot, Selecting =>
      if (slots s <? capacity)%nat then go (S (slots s)) Accepting (unreleased s) (handed s) else None
  | SeeDone, Selecting => if done s then go (slots s) Outside (unreleased s) (handed s) else None
  | AcceptFails, Accepting => n ← receive s; go n Outside (unreleased s) (handed s)
  | AcceptConn c, Accepting =>
      if bool_decide (c ∈ handed s) then None else go (slots s) (Checking c) (unreleased s) (handed s)
  | Refuse, Checking c => if check c then None else n ← receive s; go n Selecting (unreleased s) (handed s)
  | HandOver, Checking c =>
      if check c then go (slots s) Outside ({[c]} ∪ unreleased s) ({[c]} ∪ handed s) else None
  | CloseConn c, p =>
      if negb (bool_decide (c ∈ handed s)) then None
      else if bool_decide (c ∈ unreleased s) then n ← receive s; go n p (unreleased s ∖ {[c]}) (handed s)
      else Some s
  | CloseListener, p => Some (mkPeerListener (slots s) true p (unreleased s) (handed s))
  | _, _ => None
  end.

Inductive reachable : peerListener -> Prop :=
| ReachNew : reachable newPeerListener
| ReachStep l s s' : reachable s -> step l s = Some s' -> reachable s'.

(** A sequence of steps, if it is one. *)
Fixpoint steps (ls : list label) (s : peerListener) : option peerListener :=
  match ls with [] => Some s | l :: ls => s ← step l s; steps ls s end.

Lemma steps_reachable ls s s' : reachable s -> steps ls s = Some s' -> reachable s'.
Proof.
  revert s. induction ls as [|l ls IH]; intros s Hr H; cbn in H; [by injection H as <-|].
  destruct (step l s) as [s1|] eqn:E; [|done]. by apply (IH s1); [eapply ReachStep|].
Qed.

(** The slot of a connection that is being accepted or checked. *)
Definition holding (p : position) : nat := match p with Accepting | Checking _ => 1 | _ => 0 end.

Record listener_ok (s : peerListener) : Prop := {
  lo_slots : slots s = (size (unreleased s) + holding (at_ s))%nat;
  lo_bound : (slots s <= capacity)%nat;
  lo_handed : unreleased s ⊆ handed s;
  lo_checked : forall c, c ∈ handed s -> check c = true;
  lo_fresh : forall c, at_ s = Checking c -> c ∉ handed s;
}.

Lemma receive_Some s n : receive s = Some n <-> slots s = S n.
Proof. unfold receive. destruct (slots s) as [|m]; split; congruence. Qed.

Lemma step_ok l s s' : listener_ok s -> step l s = Some s' -> listener_ok s'.
Proof.
  intros [Hs Hb Hh Hc Hf] H. destruct s as [n d p u h]. cbn in *. unfold capacity in *.
  destruct l, p; try discriminate H; cbn in H;
    repeat match type of H with
    | (if ?b then _ else _) = _ => destruct b eqn:?; try discriminate H
    | mbind _ (receive ?s) = _ => destruct (receive s) as [m|] eqn:Er; [apply receive_Some in Er; cbn in Er|discriminate H]
    end; cbn in H; injection H as <-; split; cbn in *; unfold capacity; try done; try lia; boolP; try lia; try set_solver.
  all: try (rewrite size_union, size_singleton by (specialize (Hf _ eq_refl); set_solver); lia).
  all: assert (size u <> 0%nat) by (rewrite size_non_empty_iff; set_solver).
  all: rewrite size_difference, size_singleton by set_solver; lia.
Qed.

Lemma new_ok : listener_ok newPeerListener.
Proof. split; cbn; unfold capacity; first [done | lia]. Qed.

Lemma reachable_ok s : reachable s -> listener_ok s.
Proof. induction 1; [apply new_ok|by eapply step_ok]. Qed.

(** C24: at most eight peers, all of them trusted, and no slot is lost: in every
    execution at most eight connections that were handed over are still open,
    each connection that was handed over passed the check, the channel holds
    exactly one value for each of them and one for a connection being
    accepted, so giving a slot back never blocks, whoever closes a connection,
    however often; and the acceptor waits for a slot only while eight
    connections are open. *)
Theorem peers_limited s : reachable s ->
  (size (unreleased s) <= 8)%nat /\ unreleased s ⊆ handed s
  /\ (forall c, c ∈ handed s -> check c = true)
  /\ slots s = (size (unreleased s) + holding (at_ s))%nat
  /\ (forall c, c ∈ handed s -> exists s', step (CloseConn c) s = Some s' /\ c ∉ unreleased s')
  /\ (at_ s = Accepting -> exists s', step AcceptFails s = Some s')
  /\ (forall c, at_ s = Checking c -> exists s', step (if check c then HandOver else Refuse) s = Some s')
  /\ (at_ s = Selecting -> step TakeSlot s = None -> size (unreleased s) = 8%nat).
Proof.
  intros [Hs Hb Hh Hc Hf]%reachable_ok. unfold capacity in Hb. split_and!; try done; [lia|..].
  - intros c Hin. unfold step. rewrite (bool_decide_true _ Hin). cbn [negb].
    destruct (bool_decide (c ∈ unreleased s)) eqn:Eu; boolP.
    + assert (size (unreleased s) <> 0%nat) by (rewrite size_non_empty_iff; set_solver).
      destruct (slots s) as [|m] eqn:Em; [lia|]. rewrite (proj2 (receive_Some s m) Em). cbn.
      destruct (at_ s); (eexists; split; [done|cbn; set_solver]).
    + destruct (at_ s); (eexists; split; [done|done]).
  - intros Ha. unfold step. rewrite Ha in *. cbn in Hs. destruct (slots s) as [|m] eqn:Em; [lia|].
    rewrite (proj2 (receive_Some s m) Em). by eexists.
  - intros c Ha. unfold step. rewrite Ha in *. cbn in Hs. destruct (check c) eqn:Ec; rewrite ?Ec.
    + by eexists.
    + destruct (slots s) as [|m] eqn:Em; [lia|]. rewrite (proj2 (receive_Some s m) Em). by eexists.
  - intros Ha. unfold step. rewrite Ha in *. cbn in Hs. unfold capacity.
    destruct (Nat.ltb_spec (slots s) 8); [done|]. lia.
Qed.
End Steps.
End Listener.

(** ** Examples *)

Module Run_example.

Definition cfg : WebConfig := mkWebConfig "host.tail.ts.net" "ann@example.org" "".

Definition step : handler run_call unit := fun c s =>
  match c return answer c * unit with
  | inl (ExecRun _ _ _) => (Err "unavailable", s)
  | inl (ExecRunPassthrough _ args _ _) =>
      (mkPassthrough (if bool_decide (args = ["get"; "operator"]) then [] else [(StdoutStream, "{}")]) (Ok 0), s)
  | inr RGeteuid => (0, s)
  | inr (RReadStdin _) => (None, s)
  | inr (RReadFile _ _ _ _) => (Ok "host", s)
  | inr (RLstat _) => (Ok (mkSocketInfo true 384 0 0), s)
  | inr (RGetenv name) => (if String.eqb name "LISTEN_PID" then "42" else "1", s)
  | inr RGetpid => (42, s)
  | inr (RFileListener _) => (Some ("unix", SocketPath), s)
  | inr RCloseFile | inr RCloseListener => (tt, s)
  | inr (RServe _) => (ServerClosed, s)
  end.

Definition started : prog run_call (result run_error unit) :=
  Run (fun _ => Some cfg) (fun _ => None) (fun _ => true) (fun _ => Some (Some [])) [].
End Run_example.

Lemma serves_only_when_private_witness :
  exists data, ParseConfig (fun _ => Some Run_example.cfg) (fun _ => None) data = Ok Run_example.cfg.
Proof.
  destruct (serves_only_when_private (fun _ => Some Run_example.cfg) (fun _ => None) (fun _ => true)
    (fun _ => Some (Some [])) [] _ _ Run_example.cfg (run_behaves Run_example.step Run_example.started tt))
    as (_ & data & tc & a1 & pid & a2 & e & _ & H & _).
  { apply (list_elem_of_lookup_2 _ 11). vm_compute. reflexivity. }
  by exists data.
Defined.

Import Listener.

Lemma peers_limited_witness :
  exists s, steps (fun c => Nat.eqb c 0)
      [CallAccept; TakeSlot; AcceptConn 1; Refuse; TakeSlot; AcceptConn 0; HandOver] newPeerListener = Some s
    /\ (size (unreleased s) <= 8)%nat.
Proof.
  eexists. split; [reflexivity|]. refine (proj1 (peers_limited (fun c => Nat.eqb c 0) _ _)).
  refine (steps_reachable _ [CallAccept; TakeSlot; AcceptConn 1; Refuse; TakeSlot; AcceptConn 0; HandOver] _ _
    (ReachNew _) _). reflexivity.
Defined.
