(* ===== verification/AdminWeb.v ===== *)
(** * AdminWeb: the administrator's web server (internal/adminweb/server.go,
    controls.go, pages.go and checks.go)

    A handler is a program over the log, the access checks and [web_op]: the
    critical sections of [AdminForms], the policy's revision and the editor's
    operations.  Where the code writes a response and returns, the program
    [fail]s with that response.  [ParseMediaType], [ParseForm] and the
    execution of the page template are arguments ([AdminPages] has the
    template); the operation deadline of
    30 seconds is not modelled. *)

From S2P Require Import Prelude GoStrings GoText Effects Io Http AccessDiag ProjectList Config PolicyEditor Recovery.
From S2P Require Import AdminPath AdminLog AdminAudit AdminAccess AdminForms AdminWebConfig.

#[local] Open Scope Z_scope.

(** ** The environment *)

Inductive web_op : Type :=
| WForm (o : form_op)
| WRevision                                      (** [s.revision] *)
| WEditor (revision : string) (op : editor_op)   (** on [NewEditor(PolicyPath, 0).WithRevision(revision)] *)
| WMapOrder.                                     (** the order of a range over a map *)

#[export] Instance web_interface : Interface web_op := fun o =>
  match o with
  | WForm o => answer o
  | WRevision => result editor_error string
  | WEditor _ op => answer op
  | WMapOrder => nat
  end.

Notation web_call := (log_call + (check_call + web_op))%type.

Definition ask (o : web_op) : prog web_call (answer o) := call (inr (inr o) : web_call).
Definition critical (o : form_op) : prog web_call (answer o) := ask (WForm o).

(** ** Requests and pages *)

Record WebRequest := mkWebRequest {
  http : Http.Request;
  peer : bool;              (** [peerKey] of the connection's context *)
  URLHost : string;         (** [r.URL.Host] *)
  URLRawQuery : string;     (** [r.URL.RawQuery] *)
}.

(** [r.PostForm], its fields in order. *)
Notation Form := (list (string * string)).

Record projectRow := mkProjectRow { row_Index : Z; row_Summary : ProjectSummary }.

Record pageData := mkPageData {
  pg_Login : string; pg_ApprovalURL : string; pg_Message : string;
  pg_Warning : bool;
  pg_Projects : list projectRow;
  pg_Detail : option ProjectDetail;
  pg_Index : Z;
  pg_Available : list ProjectList.Project;
  pg_DiscoveryToken : string; pg_PathToken : string; pg_AccessToken : string;
  pg_Path : option PathCheckResult;
  pg_Access : option AccessDiag.Result;
  pg_CreateToken : string; pg_MetadataToken : string; pg_ModeToken : string;
  pg_AddToken : string; pg_RemoveToken : string;
  pg_Change : option policyChange;
  pg_CommitToken : string;
  pg_Current : option ProjectDetail;
  pg_PathMessage : string; pg_AccessMessage : string;
  pg_PathWarning : bool; pg_AccessWarning : bool;
}.

Definition pageCSS : string := "body{font:1rem/1.5 system-ui,sans-serif;max-width:60rem;margin:auto;padding:1rem;color:#17202a;background:#f5f7f9}a{color:#174a8b}header{display:flex;flex-wrap:wrap;justify-content:space-between;gap:1rem}section{background:white;border:1px solid #d5dce4;border-radius:.5rem;padding:1rem;margin:1rem 0}button{font:inherit;min-height:44px;padding:.5rem 1rem;background:#174a8b;color:white;border:0;border-radius:.3rem;cursor:pointer}table{border-collapse:collapse;width:100%;text-align:left}td,th{padding:.5rem;border-bottom:1px solid #d5dce4}code{overflow-wrap:anywhere;white-space:pre-wrap}dt{font-weight:600;margin-top:.7rem}dd{margin:0;overflow-wrap:anywhere}.notice{padding:1rem;border-left:4px solid #207448;background:#eaf6ef}.warning{border-color:#9f5a14;background:#fff4e7}.scroll{overflow:auto}.muted{color:#526171}form{margin:.7rem 0}ol{padding-left:1.5rem}input:not([type=hidden]):not([type=checkbox]),select{font:inherit;box-sizing:border-box;min-height:44px;width:100%;padding:.5rem;margin:.3rem 0 1rem}label{display:block}li{margin:.5rem 0}.secondary{background:#526171}input[type=checkbox]{width:1.3rem;height:1.3rem;vertical-align:middle}".

Definition pageJS : string := dq "`use strict`;
const list = document.getElementById(`arguments`);
const add = document.getElementById(`add-argument`);
if (list && add) {
  add.hidden = false;
  add.addEventListener(`click`, () => {
    if (list.children.length >= 256) return;
    const item = document.createElement(`li`);
    const input = document.createElement(`input`);
    input.name = `argv`; input.type = `text`; input.maxLength = 4096;
    input.setAttribute(`aria-label`, `Argument`);
    const remove = document.createElement(`button`);
    remove.type = `button`; remove.className = `secondary`; remove.textContent = `Remove argument`;
    remove.addEventListener(`click`, () => item.remove());
    item.append(input, remove); list.append(item); input.focus();
  });
}".

(** What [ServeHTTP] sets first. *)
Definition web_headers : Header :=
  [("Cache-Control", "no-store");
   ("X-Content-Type-Options", "nosniff");
   ("Referrer-Policy", "same-origin");
   ("X-Frame-Options", "DENY");
   ("Content-Security-Policy", "default-src 'none'; style-src 'self'; script-src 'self'; form-action 'self'; frame-ancestors 'none'; base-uri 'none'")].

Definition reply (msg : string) (code : Z) : Response := Error web_headers msg code.

Definition static (kind body : string) : Response :=
  mkResponse StatusOK (Set_ web_headers "Content-Type" kind) body.

(** The multiplexer's own answers. *)
Definition web_NotFound : Response := reply "404 page not found" StatusNotFound.
Definition web_MethodNotAllowed : Response :=
  Error (Set_ web_headers "Allow" "GET, HEAD") "Method Not Allowed" StatusMethodNotAllowed.

Notation web A := (prog web_call (result Response A)).

Definition reply_if (b : bool) (r : Response) : web unit := if b then fail r else ok tt.

(** [if err != nil { http.Error(...); return }] *)
Definition or_reply {E A} (m : prog web_call (result E A)) (r : Response) : web A :=
  x ← m; lift (match x with Ok a => Ok a | Err _ => Err r end).

Definition or_none {A} (m : prog web_call (option A)) (r : Response) : web A :=
  x ← m; lift (match x with Some a => Ok a | None => Err r end).

(** ** Form fields *)

Section Fields.
Context (unicode_print : Z -> bool).

Definition validFields (form : Form) (names : list string) : bool :=
  forallb (fun kv : string * string =>
      bool_decide (kv.1 ∈ ["csrf"; "alias"] ++ names)
      && (String.eqb kv.1 "argv" || Nat.eqb (length (Values form kv.1)) 1)) form.

Definition printable (value : string) (limit : Z) (empty : bool) : bool :=
  if (negb empty && String.eqb value "") || (limit <? len value) || negb (Utf8.ValidString value)
  then false
  else forallb (Strconv.IsPrint unicode_print) (Utf8.runes value).

Definition validInput (input : ProjectInput) : bool :=
  printable (pi_Alias input) 256 false && printable (pi_BWSProjectID input) 128 false
  && printable (pi_TokenEntry input) 256 false && printable (pi_WorkingDir input) 4096 false
  && Filepath.IsAbs (pi_WorkingDir input).

Fixpoint valid_argv_from (first : bool) (argv : list string) : bool :=
  match argv with
  | [] => true
  | arg :: argv => printable arg 4096 (negb first) && valid_argv_from false argv
  end.

End Fields.

Definition metadataChange (current : ProjectDetail) (input : ProjectInput) : ProjectMetadataUpdate :=
  let changed (a b : string) := if String.eqb a b then None else Some a in
  let u := mkProjectMetadataUpdate (changed (pi_BWSProjectID input) (pd_BWSProjectID current))
             (changed (pi_TokenEntry input) (pd_TokenEntry current))
             (changed (pi_WorkingDir input) (pd_WorkingDir current)) in
  match u with
  | mkProjectMetadataUpdate None None None => mkProjectMetadataUpdate None None (Some (pi_WorkingDir input))
  | _ => u
  end.

(** [projectIndex] and [projectPage] number the projects in the policy's order. *)
Fixpoint index_of (alias : string) (ps : list ProjectSummary) : option Z :=
  match ps with
  | [] => None
  | p :: ps => if String.eqb (ps_Alias p) alias then Some 0 else Z.succ <$> index_of alias ps
  end.

Fixpoint rows (i : Z) (ps : list ProjectSummary) : list projectRow :=
  match ps with
  | [] => []
  | p :: ps => mkProjectRow i p :: rows (i + 1) ps
  end.

Definition accessMessage (outcome : string) : string :=
  if String.eqb outcome OutcomeAllAccessible then "The worker can access this Bitwarden project."
  else if String.eqb outcome OutcomeInaccessible
  then "The worker cannot access this project. Review the machine account's project grant in Bitwarden."
  else if String.eqb outcome OutcomeAuthenticationError
  then "Bitwarden rejected the worker token. Review it from a trusted terminal."
  else if String.eqb outcome OutcomeNetworkError
  then "The worker could not reach Bitwarden. Check the network, then retry."
  else "Bitwarden returned an unsuccessful check. Use the root CLI to inspect the diagnostic status.".

Definition with_login (login : string) (r : MutationStart) : MutationStart :=
  mkMutationStart (ActorUID r) login (ms_Project r) (Operation r) (ApprovalMode r) (ms_Argv r)
    (ms_RecoveryID r) (Fields r).

(** [actorLogger]: the configured login goes on every record. *)
Definition actorLogger (login : string) (c : web_call) : prog web_call (answer c) :=
  match c return prog web_call (answer c) with
  | inl (LStart r) => call (inl (LStart (with_login login r)) : web_call)
  | inl (LFinish id r) => call (inl (LFinish id (mkMutationFinish (mf_Outcome r) login)) : web_call)
  | c => call c
  end.

(** ** Handlers *)

Section Handlers.
Context (cfg : WebConfig) (unicode_print : Z -> bool).
(** [mime.ParseMediaType], the type alone; [r.ParseForm] with the bounded
    body, giving [r.PostForm]; [pageTemplate.Execute]. *)
Context (ParseMediaType : string -> option string).
Context (ParseForm : WebRequest -> Reader -> option Form).
Context (Execute : pageData -> option string).

Definition too_many_forms : Response :=
  reply "Too many open forms. Wait ten minutes and reload." StatusServiceUnavailable.

Definition issueForm (action revision target : string) : web string :=
  or_none (critical (FIssue action revision target)) too_many_forms.

Definition revision_now (r : Response) : web string := or_reply (ask WRevision) r.

(** A method of [s.reader]. *)
Definition reader (op : editor_op) : prog web_call (answer op) := ask (WEditor "" op).

Definition renderPage (status : Z) (data : pageData) : Response :=
  match Execute data with
  | None => reply "Page could not be rendered." StatusInternalServerError
  | Some body => mkResponse status (Set_ web_headers "Content-Type" "text/html; charset=utf-8") body
  end.

(** *** pages.go *)

(** [view]; no caller tells its errors apart. *)
Definition view {A} (load : prog web_call (result editor_error A))
    : prog web_call (result editor_error (string * A)) :=
  try! before := ask WRevision;
  try! x := load;
  try! after := ask WRevision;
  if negb (String.eqb before after) then fail ErrPolicyChanged else ok (before, x).

Definition renderOverview (status : Z) (message : string) (warning : bool) : web Response :=
  try! v := or_reply (view (reader OpListProjects))
    (reply "Local policy cannot be read. Check the administrator CLI on the broker host." StatusServiceUnavailable);
  let '(revision, projects) := v in
  try! token := issueForm "discover" revision "";
  available ← critical FAvailable;
  try! createToken :=
    (if (0 <? length available)%nat then issueForm "create" revision "" else ok "");
  ok (renderPage status
        (mkPageData (web_Login cfg) (web_ApprovalURL cfg) message warning (rows 0 projects) None 0
           available token "" "" None None createToken "" "" "" "" None "" None "" "" false false)).

(** The forms of the project page: the order of the map is not determined. *)
Definition action_order (n : nat) : list string :=
  let orders := permutations ["metadata"; "mode"; "add"; "remove"] in
  default [] (orders !! (n mod length orders)%nat).

Fixpoint issue_each (revision alias : string) (actions : list string) : web (list (string * string)) :=
  match actions with
  | [] => ok []
  | action :: actions =>
      try! token := issueForm action revision alias;
      try! rest := issue_each revision alias actions;
      ok ((action, token) :: rest)
  end.

Definition renderProject (status index : Z) (alias message : string) (warning : bool)
    (path : option PathCheckResult) (access : option AccessDiag.Result) : web Response :=
  try! v := or_reply (view (reader (OpGetProject alias)))
    (reply "Local project cannot be read. Reload the project list." StatusServiceUnavailable);
  let '(revision, detail) := v in
  try! pathToken := issueForm "path" revision alias;
  try! accessToken := issueForm "access" revision alias;
  shown ← critical (FShownChecks alias revision);
  let '(path, pathMessage, pathWarning) := default (path, "", false) shown.1 in
  let '(access, accessMessage, accessWarning) := default (access, "", false) shown.2 in
  n ← ask WMapOrder;
  try! forms := issue_each revision alias (action_order n);
  ok (renderPage status
        (mkPageData (web_Login cfg) (web_ApprovalURL cfg) message warning [] (Some detail) index []
           "" pathToken accessToken path access "" (Header_Get forms "metadata") (Header_Get forms "mode")
           (Header_Get forms "add") (Header_Get forms "remove") None "" None
           pathMessage accessMessage pathWarning accessWarning)).

Definition home : web Response := renderOverview StatusOK "" false.

Definition projectPage (index : string) : web Response :=
  try! projects := or_reply (reader OpListProjects)
    (reply "Local policy cannot be read." StatusServiceUnavailable);
  match Atoi.Atoi index with
  | None => fail web_NotFound
  | Some i =>
      if i <? 0 then fail web_NotFound else
      match projects !! Z.to_nat i with
      | None => fail web_NotFound
      | Some p => renderProject StatusOK i (ps_Alias p) "" false None None
      end
  end.

(** [projectIndex], with the reply of its caller. *)
Definition projectIndex (alias : string) (r : Response) : web Z :=
  try! projects := or_reply (reader OpListProjects) r;
  lift (match index_of alias projects with Some i => Ok i | None => Err r end).

(** The consumers of the diagnoses make no call. *)
Definition consume_list (found : ProjectList.Result) : prog web_op (option unit) :=
  mret (match ProjectList.Validate unicode_print found with Ok _ => None | Err _ => Some tt end).

Definition consume_access (alias : string) (found : AccessDiag.Result) : prog web_op (option unit) :=
  mret (match AccessDiag.Validate unicode_print found, r_Projects found with
        | Ok _, [p] => if String.eqb (pr_Alias p) alias then None else Some tt
        | _, _ => Some tt
        end).

(** The result that was handed over, unless there was an error. *)
Definition handed_over {R} (r : option R * option (diagnostic_error unit)) : option R :=
  match r.2 with None => r.1 | Some _ => None end.

Definition discover : web Response :=
  r ← list_diagnosis 0 consume_list;
  match handed_over r with
  | None =>
      _ ← critical FClearAvailable;
      renderOverview StatusServiceUnavailable
        "Bitwarden discovery did not complete. Check the worker and administrator audit with the root CLI, then retry."
        true
  | Some found =>
      _ ← critical (FSetAvailable (default [] (ProjectList.Projects found)));
      renderOverview StatusOK
        "Bitwarden project list refreshed. This list expires after ten minutes." false
  end.

Definition project_changed : Response :=
  reply "Project changed. Reload the project list." StatusConflict.

Definition path_outcome (r : result path_error PathCheckResult) : string :=
  match r with
  | Err _ => OutcomeFailed
  | Ok res => if Ready res then "ready" else "not_ready"
  end.

Definition checkPath (entry : formToken) (form : Form) : web Response :=
  let alias := Header_Get form "alias" in
  let store := fun r => critical (FStoreCheck (ft_revision entry) alias r) in
  try! index := projectIndex alias project_changed;
  m ← call (inl (LStart (start_for 0 alias "check_project_path" "" [] "" [])) : web_call);
  res ← match (m : result mutation_log_error string) with
        | Err _ => mret None
        | Ok id =>
            r ← reader (OpCheckProjectPath alias);
            f ← call (inl (LFinish id (mkMutationFinish (path_outcome r) "")) : web_call);
            mret (match (r : result path_error PathCheckResult), (f : result mutation_log_error unit) with
                  | Ok res, Ok _ => Some res
                  | _, _ => None
                  end)
        end;
  match (res : option PathCheckResult) with
  | None =>
      _ ← store (mkReport None None
            "Path check did not complete. Check the local accounts and administrator audit with the root CLI."
            true false);
      renderProject StatusServiceUnavailable index alias "" false None None
  | Some res =>
      _ ← store (mkReport (Some res) None "Path check completed. It does not contact Bitwarden."
                   (negb (Ready res)) false);
      renderProject StatusOK index alias "" false None None
  end.

Definition checkAccess (entry : formToken) (form : Form) : web Response :=
  let alias := Header_Get form "alias" in
  let store := fun r => critical (FStoreCheck (ft_revision entry) alias r) in
  try! index := projectIndex alias project_changed;
  r ← run_diagnosis 0 alias (consume_access alias);
  match handed_over r with
  | None =>
      _ ← store (mkReport None None
            "Bitwarden check did not complete. Check the worker and administrator audit with the root CLI."
            true true);
      renderProject StatusServiceUnavailable index alias "" false None None
  | Some res =>
      _ ← store (mkReport None (Some res) (accessMessage (r_Outcome res))
                   (negb (String.eqb (r_Outcome res) OutcomeAllAccessible)) true);
      renderProject StatusOK index alias "" false None None
  end.

(** *** controls.go *)

Definition bad (message : string) : Response :=
  reply (message +:+ " Reload the page to try again.") StatusBadRequest.

Definition project_unreadable : Response :=
  reply "Project cannot be read. Reload the project list." StatusServiceUnavailable.

Definition zero_input : ProjectInput := mkProjectInput "" "" "" "".
Definition zero_detail : ProjectDetail := mkProjectDetail "" "" "" "" "" "" [].

(** The switch of [review], one definition for each case.  [current] is nil
    for a new project only, so no other case meets the zero detail. *)

Definition review_input (form : Form) : web ProjectInput :=
  let alias := Header_Get form "alias" in
  try! _ := reply_if (negb (validFields form ["project_id"; "token_entry"; "working_dir"]))
              (bad "Invalid project form.");
  let input := mkProjectInput alias (Header_Get form "project_id") (Header_Get form "token_entry")
                 (Header_Get form "working_dir") in
  try! _ := reply_if (negb (validInput unicode_print input))
              (bad "Complete every identifier and enter an absolute working directory. Use identifiers only; keep secret values in Bitwarden.");
  ok input.

Definition review_create (form : Form) : web policyChange :=
  let alias := Header_Get form "alias" in
  try! input := review_input form;
  try! projects := or_reply (reader OpListProjects)
    (reply "Local policy cannot be read." StatusServiceUnavailable);
  try! _ := reply_if (existsb (fun p => String.eqb (ps_Alias p) alias) projects) (bad "Alias already exists.");
  name ← critical (FProjectName (pi_BWSProjectID input));
  try! _ := reply_if (String.eqb name "")
    (reply "Project discovery expired or the project is unavailable. Refresh Bitwarden projects and start again."
       StatusConflict);
  ok (mkPolicyChange "create" alias name input "" [] false).

Definition differs (current : ProjectDetail) (input : ProjectInput) : bool :=
  negb (String.eqb (pi_BWSProjectID input) (pd_BWSProjectID current))
  || negb (String.eqb (pi_TokenEntry input) (pd_TokenEntry current))
  || negb (String.eqb (pi_WorkingDir input) (pd_WorkingDir current)).

Definition review_metadata (form : Form) (current : ProjectDetail) : web policyChange :=
  try! input := review_input form;
  ok (mkPolicyChange "metadata" (Header_Get form "alias") "" input "" [] (differs current input)).

Definition review_mode (form : Form) (current : ProjectDetail) : web policyChange :=
  try! _ := reply_if (negb (validFields form ["mode"])) (bad "Invalid approval form.");
  let mode := Header_Get form "mode" in
  try! _ := reply_if (negb (String.eqb mode ModeConfirm) && negb (String.eqb mode ModeAutomatic))
              (bad "Choose confirm or automatic mode.");
  ok (mkPolicyChange "mode" (Header_Get form "alias") "" zero_input mode []
        (String.eqb mode ModeAutomatic && negb (String.eqb (pd_Mode current) ModeAutomatic))).

Definition review_add (form : Form) : web policyChange :=
  let argv := Values form "argv" in
  try! _ := reply_if (negb (validFields form ["argv"]) || (length argv =? 0)%nat || (256 <? length argv)%nat)
              (bad "Enter an ordered argument list.");
  try! _ := reply_if (negb (valid_argv_from unicode_print true argv))
              (bad "Arguments must be printable text and the first argument must be present.");
  ok (mkPolicyChange "add" (Header_Get form "alias") "" zero_input "" argv true).

Definition review_remove (form : Form) (current : ProjectDetail) : web policyChange :=
  try! _ := reply_if (negb (validFields form ["entry"])) (bad "Invalid argument removal form.");
  let choose := bad "Choose an existing argument list." in
  match Atoi.Atoi (Header_Get form "entry") with
  | None => fail choose
  | Some i =>
      if i <? 0 then fail choose else
      match pd_Allow current !! Z.to_nat i with
      | None => fail choose
      | Some argv => ok (mkPolicyChange "remove" (Header_Get form "alias") "" zero_input "" argv false)
      end
  end.

Definition reviewed_change (kind : string) (form : Form) (current : ProjectDetail) : web policyChange :=
  if String.eqb kind "create" then review_create form
  else if String.eqb kind "metadata" then review_metadata form current
  else if String.eqb kind "mode" then review_mode form current
  else if String.eqb kind "add" then review_add form
  else if String.eqb kind "remove" then review_remove form current
  else ok (mkPolicyChange kind (Header_Get form "alias") "" zero_input "" [] false).

(** The page that asks for the confirmation of a change. *)
Definition reviewPage (change : policyChange) (token : string) (current : option ProjectDetail) : pageData :=
  mkPageData (web_Login cfg) (web_ApprovalURL cfg) "" false [] None 0 [] "" "" "" None None "" "" "" "" ""
    (Some change) token current "" "" false false.

Definition review (kind : string) (entry : formToken) (form : Form) : web Response :=
  let alias := Header_Get form "alias" in
  try! current :=
    (if String.eqb kind "create" then ok None
     else try! detail := or_reply (reader (OpGetProject alias)) project_unreadable; ok (Some detail));
  try! change := reviewed_change kind form (default zero_detail current);
  try! latest := revision_now (reply "Local policy cannot be read." StatusServiceUnavailable);
  try! _ := reply_if (negb (String.eqb latest (ft_revision entry)))
              (reply "Policy changed. Reload before reviewing." StatusConflict);
  try! token := issueForm "commit" (ft_revision entry) (pc_Alias change);
  _ ← critical (FAttach token change);
  ok (renderPage StatusOK (reviewPage change token current)).

(** [s.edit(revision)]: the audited editor at the form's revision. *)
Definition audited_call (revision : string) (c : log_call + editor_op) : prog web_call (answer c) :=
  match c with
  | inl l => call (inl l : web_call)
  | inr op => ask (WEditor revision op)
  end.

Definition edit (revision : string) (m : mutation) : prog web_call (bool * option audited_error) :=
  interp (audited_call revision) (perform 0 (RqEdit m)).

(** The switch of [commit]: which method is called, and with what. *)
Definition commit_mutation (change : policyChange) : web mutation :=
  if String.eqb (pc_Kind change) "create" then ok (MCreateProject (pc_Input change))
  else if String.eqb (pc_Kind change) "metadata" then
    try! current := or_reply (reader (OpGetProject (pc_Alias change))) project_unreadable;
    ok (MUpdateProjectMetadata (pc_Alias change) (metadataChange current (pc_Input change)))
  else if String.eqb (pc_Kind change) "mode" then ok (MSetApproval (pc_Alias change) (pc_Mode change))
  else if String.eqb (pc_Kind change) "add" then ok (MAddAllowlist (pc_Alias change) (pc_Argv change))
  else if String.eqb (pc_Kind change) "remove" then ok (MRemoveAllowlist (pc_Alias change) (pc_Argv change))
  else fail (reply "Invalid reviewed change." StatusBadRequest).

Definition is_busy (e : editor_error) : bool := match e with ErrPolicyBusy => true | _ => false end.
Definition is_changed (e : editor_error) : bool := match e with ErrPolicyChanged => true | _ => false end.

(** The answer to a failed edit. *)
Definition edit_failed (changed : bool) (err : audited_error) : Response :=
  if audited_is is_busy err
  then reply "Another administrator is updating policy. Reload and retry." StatusConflict
  else if audited_is is_changed err
  then reply "Policy changed. Reload before submitting." StatusConflict
  else if changed
  then reply "Policy changed, but audit completion failed. Inspect the current policy and administrator audit with the root CLI before retrying." StatusServiceUnavailable
  else reply "Change did not complete. Inspect the current policy and administrator audit with the root CLI before retrying." StatusServiceUnavailable.

Definition saved_message (change : policyChange) (changed : bool) : string :=
  if String.eqb (pc_Kind change) "create"
  then "Local project created in confirm mode with no allowed commands. Check its working directory and Bitwarden access, then add an exact command."
  else if changed then "Policy saved." else "No change needed. The policy already has these values.".

Definition confirmed (change : policyChange) (form : Form) : bool :=
  validFields form ["confirm"] && negb (pc_Widen change && negb (String.eqb (Header_Get form "confirm") "yes")).

Definition commit (entry : formToken) (form : Form) : web Response :=
  let unconfirmed :=
    reply "Confirm the reviewed change before saving. Reload to review it again." StatusBadRequest in
  match ft_change entry with
  | None => fail unconfirmed
  | Some change =>
      try! _ := reply_if (negb (confirmed change form)) unconfirmed;
      try! m := commit_mutation change;
      r ← edit (ft_revision entry) m;
      match r.2 with
      | Some err => fail (edit_failed r.1 err)
      | None =>
          try! index := projectIndex (pc_Alias change)
            (reply "Reload the project list to inspect the saved policy." StatusServiceUnavailable);
          renderProject StatusOK index (pc_Alias change) (saved_message change r.1) false None None
      end
  end.

(** *** server.go *)

Definition protectPost (action : string) (next : formToken -> Form -> web Response) (r : WebRequest)
    : web Response :=
  let h := RHeader (http r) in
  if negb (is_POST (http r)) then fail (reply "Method not allowed." StatusMethodNotAllowed) else
  if negb (bool_decide (Values h "Origin" = ["https://" +:+ web_Host cfg]))
  then fail (reply "Form origin denied." StatusForbidden) else
  if negb (bool_decide (ParseMediaType (Header_Get h "Content-Type") = Some "application/x-www-form-urlencoded"))
  then fail (reply "Unsupported form type." StatusUnsupportedMediaType) else
  match ParseForm r (MaxBytesReader (RBody (http r)) 65536) with
  | None => fail (reply "Invalid or oversized form." StatusBadRequest)
  | Some form =>
      if negb (String.eqb (URLRawQuery r) "") || negb (Nat.eqb (length (Values form "csrf")) 1)
      then fail (reply "Invalid form token." StatusForbidden) else
      try! entry := or_none (critical (FTake (Header_Get form "csrf") action))
        (reply "Form expired or already submitted. Reload the page." StatusForbidden);
      try! _ := reply_if
        (negb (String.eqb (ft_target entry) "")
         && (negb (Nat.eqb (length (Values form "alias")) 1)
             || negb (String.eqb (Header_Get form "alias") (ft_target entry))))
        (reply "Form target changed. Reload the page." StatusForbidden);
      try! _ :=
        (if String.eqb (ft_revision entry) "" then ok tt
         else try! revision := revision_now (reply "Policy cannot be read." StatusServiceUnavailable);
              reply_if (negb (String.eqb revision (ft_revision entry)))
                (reply "Policy changed. Reload the page before submitting." StatusConflict));
      next entry form
  end.

(** The handler of a POST to "/projects/[seg]", if there is one. *)
Definition post_handler (seg : string) : option (formToken -> Form -> web Response) :=
  if bool_decide (seg ∈ ["create"; "metadata"; "mode"; "add"; "remove"]) then Some (review seg)
  else if String.eqb seg "commit" then Some commit
  else if String.eqb seg "discover" then Some (fun _ _ => discover)
  else if String.eqb seg "path" then Some checkPath
  else if String.eqb seg "access" then Some checkAccess
  else None.

(** [s.mux], with the patterns of [registerPages] and [registerControls]. *)
Definition web_mux (r : WebRequest) : web Response :=
  let get (m : web Response) := if is_POST (http r) then fail web_MethodNotAllowed else m in
  match Http.Path (http r) with
  | [] => get home
  | [seg] =>
      if String.eqb seg "style.css" then get (ok (static "text/css; charset=utf-8" pageCSS))
      else if String.eqb seg "forms.js" then get (ok (static "text/javascript; charset=utf-8" pageJS))
      else fail web_NotFound
  | [dir; seg] =>
      if negb (String.eqb dir "projects") || String.eqb seg "" then fail web_NotFound
      else if is_POST (http r) then
        match post_handler seg with
        | Some next => protectPost seg next r
        | None => fail web_MethodNotAllowed
        end
      else projectPage seg
  | _ => fail web_NotFound
  end.

(** The guard of [ServeHTTP]. *)
Definition from_administrator (r : WebRequest) : bool :=
  let h := RHeader (http r) in
  peer r && bool_decide (Values h "Tailscale-User-Login" = [web_Login cfg])
  && String.eqb (RHost (http r)) "localhost" && String.eqb (URLHost r) ""
  && bool_decide (Values h "X-Forwarded-Host" = [web_Host cfg])
  && bool_decide (Values h "X-Forwarded-Proto" = ["https"]).

Definition serve (r : WebRequest) : web Response :=
  if negb (from_administrator r) then fail (reply "Administrator access denied." StatusForbidden)
  else if negb (String.eqb (Method (http r)) "GET") && negb (String.eqb (Method (http r)) "POST")
  then fail (reply "Method not allowed." StatusMethodNotAllowed)
  else web_mux r.

(** [ServeHTTP], every log record with the login. *)
Definition ServeHTTP (r : WebRequest) : prog web_call Response :=
  interp (actorLogger (web_Login cfg))
    (x ← serve r; mret (match x with Ok resp | Err resp => resp end)).

End Handlers.
