(* ===== verification/AdminPages.v ===== *)
(** * AdminPages: the administrator's pages (internal/adminweb/templates.go)

    The page template as a list of pieces ([GoTemplate]): each action of the
    template is a piece or a list of pieces, in its place, and the [if]s and
    [range]s are those of the template.  The last theorems say what a page
    that asks for a confirmation shows: the change that its form commits. *)

From S2P Require Import Prelude GoStrings GoText GoTemplate Effects Io Http AccessDiag ProjectList Config PolicyEditor Recovery.
From S2P Require Import AdminPath AdminLog AdminAudit AdminAccess AdminForms AdminWebConfig AdminWeb.

#[local] Open Scope Z_scope.

Notation pc_Alias := AdminForms.pc_Alias.

(** ** The template *)

(** [{{range}}]s with an index, and with an [{{else}}]. *)
Definition range_i {A} (l : list A) (f : Z -> A -> list piece) : list piece :=
  List.concat (imap (fun i a => f (Z.of_nat i) a) l).
Definition if_empty {A} (l : list A) (none some : list piece) : list piece :=
  match l with [] => none | _ => some end.

(** The lines of one argument list. *)
Definition argument_line (a : string) : list piece :=
  [Lit "<li><code>";
   Text a;
   Lit "</code>"] ++
  (when (String.eqb a "") (
  [Lit (dq "<span class=`muted`>empty argument</span>")])) ++
  [Lit "</li>"].
Definition argument_lines (argv : list string) : list piece := range argv argument_line.

Definition notice (message : string) (warning : bool) : list piece :=
  when (negb (String.eqb message "")) (
  [Lit (dq "<p class=`notice ")] ++
  (when warning (
  [Lit "warning"])) ++
  [Lit (dq "` role=`status`>");
   Text message;
   Lit "</p>"]).

(** From the beginning to the message. *)
Definition page_header (d : pageData) : list piece :=
  [Lit (dq "<!doctype html>
<html lang=`en`><head><meta charset=`utf-8`><meta name=`viewport` content=`width=device-width,initial-scale=1`><title>Secrets Broker</title><link rel=`stylesheet` href=`/style.css`><script src=`/forms.js` defer></script></head>
<body><header><a href=`/`>Secrets Broker</a><span class=`muted`>");
   Text (pg_Login d);
   Lit "</span>"] ++
  (when (negb (String.eqb (pg_ApprovalURL d) "")) (
  [Lit (dq "<a href=`");
   Url (pg_ApprovalURL d);
   Lit (dq "`>Execution approvals</a>")])) ++
  [Lit "</header>
"] ++
  notice (pg_Message d) (pg_Warning d) ++
  [Lit "
"].

(** The policy as it is, in a review. *)
Definition current_section (p : ProjectDetail) : list piece :=
  [Lit "<section><h2>Current policy</h2><dl><dt>Bitwarden project ID</dt><dd><code>";
   Text (pd_BWSProjectID p);
   Lit "</code></dd><dt>Token entry identifier</dt><dd><code>";
   Text (pd_TokenEntry p);
   Lit "</code></dd><dt>Working directory</dt><dd><code>";
   Text (pd_WorkingDir p);
   Lit "</code></dd><dt>Approval mode</dt><dd>";
   Text (pd_Mode p);
   Lit ": ";
   Text (pd_Behavior p);
   Lit "</dd></dl>
"] ++
  (range (pd_Allow p) (fun argv =>
  [Lit "<ol>"] ++
  argument_lines argv ++
  [Lit "</ol>"])) ++
  [Lit "</section>"].

(** The change, in a review. *)
Definition proposed_section (c : policyChange) : list piece :=
  [Lit "
<section><h2>Proposed change</h2>
"] ++
  (when (String.eqb (pc_Kind c) "create" || String.eqb (pc_Kind c) "metadata") (
  [Lit "<dl>
"] ++
  (when (negb (String.eqb (pc_ProjectName c) "")) (
  [Lit "<dt>Bitwarden project</dt><dd>";
   Text (pc_ProjectName c);
   Lit "</dd>"])) ++
  [Lit "
<dt>Bitwarden project ID</dt><dd><code>";
   Text (pi_BWSProjectID (pc_Input c));
   Lit "</code></dd><dt>Token entry identifier</dt><dd><code>";
   Text (pi_TokenEntry (pc_Input c));
   Lit "</code></dd><dt>Working directory</dt><dd><code>";
   Text (pi_WorkingDir (pc_Input c));
   Lit "</code></dd></dl>
"] ++
  (when (String.eqb (pc_Kind c) "create") (
  [Lit "<p>Starts in confirm mode with an empty allowlist. Commands remain denied until you add an exact argument list.</p>"])))) ++
  [Lit "
"] ++
  (when (String.eqb (pc_Kind c) "mode") (
  [Lit "<p>Set approval mode to <strong>";
   Text (pc_Mode c);
   Lit "</strong>.</p>"] ++
  (if String.eqb (pc_Mode c) "automatic" then
  [Lit (dq "<p class=`notice warning`>Allowed commands will run without a separate human approval.</p>")]
  else [Lit "<p>Each allowed execution will require approval on the separate relay.</p>"]))) ++
  [Lit "
"] ++
  (when (String.eqb (pc_Kind c) "add" || String.eqb (pc_Kind c) "remove") (
  [Lit "<p>";
   Text (pc_Kind c);
   Lit " this exact argument list:</p><ol>"] ++
  argument_lines (pc_Argv c) ++
  [Lit "</ol>"])) ++
  [Lit "
"] ++
  (when (String.eqb (pc_Kind c) "add") (
  [Lit (dq "<p class=`notice warning`>Allow only an operation whose scripts, hooks, and configuration are trusted. In automatic mode it can run unattended.</p>")])) ++
  [Lit "
"] ++
  (when (String.eqb (pc_Kind c) "metadata") (
  [Lit "<p>These identifiers and the working directory determine which secrets and local files an allowed command can use.</p>"])).

Definition review_section (d : pageData) (c : policyChange) : list piece :=
  [Lit "
<h1>Review ";
   Text (pc_Kind c);
   Lit "</h1><p>Project: <strong>";
   Text (pc_Alias c);
   Lit "</strong></p>
"] ++
  from_option current_section [] (pg_Current d) ++
  proposed_section c ++
  [Lit (dq "
<form method=`post` action=`/projects/commit`><input type=`hidden` name=`csrf` value=`");
   Text (pg_CommitToken d);
   Lit (dq "`><input type=`hidden` name=`alias` value=`");
   Text (pc_Alias c);
   Lit (dq "`>
")] ++
  (when (pc_Widen c) (
  [Lit (dq "<label><input type=`checkbox` name=`confirm` value=`yes` required> I authorize this policy change.</label>")])) ++
  [Lit (dq "<button>Save reviewed change</button> <a href=`/`>Cancel</a></form></section>
")].

Definition allowed_section (d : pageData) (p : ProjectDetail) : list piece :=
  [Lit "
<h1>";
   Text (pd_Alias p);
   Lit "</h1>
<section><h2>Project policy</h2><dl>
<dt>Bitwarden project ID</dt><dd><code>";
   Text (pd_BWSProjectID p);
   Lit "</code></dd>
<dt>Token entry identifier</dt><dd><code>";
   Text (pd_TokenEntry p);
   Lit "</code></dd>
<dt>Working directory</dt><dd><code>";
   Text (pd_WorkingDir p);
   Lit "</code></dd>
<dt>Approval mode</dt><dd>";
   Text (pd_Mode p);
   Lit ": ";
   Text (pd_Behavior p);
   Lit "</dd></dl></section>
<section><h2>Exact allowed arguments</h2><p>Each numbered line preserves one exact argument.</p>
"] ++
  (if_empty (pd_Allow p) ([Lit "<p>No commands are allowed.</p>"]) (range_i (pd_Allow p) (fun i argv =>
  [Lit "<ol>"] ++
  argument_lines argv ++
  [Lit (dq "</ol>
<form method=`post` action=`/projects/remove`><input type=`hidden` name=`csrf` value=`");
   Text (pg_RemoveToken d);
   Lit (dq "`><input type=`hidden` name=`alias` value=`");
   Text (pd_Alias p);
   Lit (dq "`><input type=`hidden` name=`entry` value=`");
   Text (of_int i);
   Lit (dq "`><button class=`secondary`>Review removal</button></form>")]))).

Definition edit_section (d : pageData) (p : ProjectDetail) : list piece :=
  [Lit (dq "
<h3>Add exact arguments</h3><p>Enter one argument per field. Spaces and quotes stay inside that argument. An added blank field represents an empty argument.</p>
<form method=`post` action=`/projects/add`><input type=`hidden` name=`csrf` value=`");
   Text (pg_AddToken d);
   Lit (dq "`><input type=`hidden` name=`alias` value=`");
   Text (pd_Alias p);
   Lit (dq "`><ol id=`arguments`><li><input name=`argv` type=`text` aria-label=`First argument` maxlength=`4096` required></li></ol><button id=`add-argument` type=`button` class=`secondary` hidden>Add argument</button> <button>Review addition</button></form></section>
<section><h2>Edit metadata</h2><form method=`post` action=`/projects/metadata`><input type=`hidden` name=`csrf` value=`");
   Text (pg_MetadataToken d);
   Lit (dq "`><input type=`hidden` name=`alias` value=`");
   Text (pd_Alias p);
   Lit (dq "`>
<label>Bitwarden project ID<input name=`project_id` value=`");
   Text (pd_BWSProjectID p);
   Lit (dq "` maxlength=`128` required></label><label>Token entry identifier<input name=`token_entry` value=`");
   Text (pd_TokenEntry p);
   Lit (dq "` maxlength=`256` required></label><label>Absolute working directory<input name=`working_dir` value=`");
   Text (pd_WorkingDir p);
   Lit (dq "` maxlength=`4096` required></label><button>Review metadata</button></form>
<h2>Approval mode</h2><form method=`post` action=`/projects/mode`><input type=`hidden` name=`csrf` value=`");
   Text (pg_ModeToken d);
   Lit (dq "`><input type=`hidden` name=`alias` value=`");
   Text (pd_Alias p);
   Lit (dq "`><label>Mode<select name=`mode`><option value=`confirm` ")] ++
  (when (String.eqb (pd_Mode p) "confirm") (
  [Lit "selected"])) ++
  [Lit (dq ">Confirm each allowed execution</option><option value=`automatic` ")] ++
  (when (String.eqb (pd_Mode p) "automatic") (
  [Lit "selected"])) ++
  [Lit (dq ">Run allowed commands automatically</option></select></label><button>Review approval mode</button></form></section>
")].

Definition readiness_section (d : pageData) (p : ProjectDetail) : list piece :=
  [Lit (dq "<section><h2>Readiness checks</h2><p>Checks run when you press a button. Page loads do not contact Bitwarden.</p>
<form method=`post` action=`/projects/path`><input type=`hidden` name=`csrf` value=`");
   Text (pg_PathToken d);
   Lit (dq "`><input type=`hidden` name=`alias` value=`");
   Text (pd_Alias p);
   Lit (dq "`><button>Check working directory</button></form>
<form method=`post` action=`/projects/access`><input type=`hidden` name=`csrf` value=`");
   Text (pg_AccessToken d);
   Lit (dq "`><input type=`hidden` name=`alias` value=`");
   Text (pd_Alias p);
   Lit (dq "`><button>Check Bitwarden access</button></form>
")] ++
  (when (negb (String.eqb (pg_PathMessage d) "") || negb (String.eqb (pg_AccessMessage d) "")) (
  [Lit (dq "<p class=`muted`>Recent results expire after ten minutes or a policy change.</p>")])) ++
  [Lit "
"] ++
  notice (pg_PathMessage d) (pg_PathWarning d) ++
  [Lit "
"] ++
  notice (pg_AccessMessage d) (pg_AccessWarning d) ++
  [Lit "
"] ++
  (match pg_Path d with
  | Some r =>
  [Lit "<dl><dt>Path resolution</dt><dd>";
   Text (Resolution r);
   Lit "</dd><dt>Resolved directory</dt><dd><code>";
   Text (ResolvedPath r);
   Lit "</code></dd><dt>Worker can enter</dt><dd>";
   Text (of_bool (WorkerCanEnter r));
   Lit "</dd><dt>Runner can enter</dt><dd>";
   Text (of_bool (RunnerCanEnter r));
   Lit "</dd><dt>Runner can write</dt><dd>";
   Text (of_bool (RunnerCanWrite r));
   Lit "</dd></dl>
"] ++
  (when (negb (Ready r)) (
  [Lit "<p>Review the configured path and permissions for the worker and runner. Use the root CLI path check on the broker host for further diagnosis.</p>"]))
  | None => []
  end) ++
  [Lit "
"] ++
  (match pg_Access d with
  | Some r =>
  (range (r_Projects r) (fun g =>
  [Lit "<p>Grant status: <strong>";
   Text (pr_Status g);
   Lit "</strong></p>"]))
  | None => []
  end) ++
  [Lit "</section>
"].

Definition overview_section (d : pageData) : list piece :=
  [Lit (dq "
<h1>Projects</h1><section><h2>Local broker policy</h2><div class=`scroll`><table><thead><tr><th>Alias</th><th>Approval</th><th>Behavior</th></tr></thead><tbody>
")] ++
  (if_empty (pg_Projects d) ([Lit (dq "<tr><td colspan=`3`>No local projects.</td></tr>")]) (range (pg_Projects d) (fun w =>
  [Lit (dq "<tr><td><a href=`/projects/");
   Segment (of_int (row_Index w));
   Lit (dq "`>");
   Text (ps_Alias (row_Summary w));
   Lit "</a></td><td>";
   Text (ps_Mode (row_Summary w));
   Lit "</td><td>";
   Text (ps_Behavior (row_Summary w));
   Lit "</td></tr>"]))) ++
  [Lit (dq "</tbody></table></div></section>
<section><h2>Bitwarden projects</h2><p>In Bitwarden Secrets Manager, create the project and give the worker machine account read access. Keep the worker's runtime token read-only. Refresh to see project names and IDs available to the worker. This check is recorded in the administrator audit.</p>
<form method=`post` action=`/projects/discover`><input type=`hidden` name=`csrf` value=`");
   Text (pg_DiscoveryToken d);
   Lit (dq "`><button>Refresh Bitwarden projects</button></form>
")] ++
  (if negb (Nat.eqb (length (pg_Available d)) 0) then
  [Lit (dq "<div class=`scroll`><table><thead><tr><th>Name</th><th>Project ID</th></tr></thead><tbody>")] ++
  (range (pg_Available d) (fun q =>
  [Lit "<tr><td>";
   Text (ProjectList.Name q);
   Lit "</td><td><code>";
   Text (ProjectList.ID q);
   Lit "</code></td></tr>"])) ++
  [Lit "</tbody></table></div>"]
  else [Lit "<p>No current discovery list. Refresh it to check the worker's visible projects.</p>"]) ++
  [Lit "</section>
"] ++
  (when (negb (String.eqb (pg_CreateToken d) "")) (
  [Lit (dq "<section><h2>Create local project</h2><p>Select a worker-visible project. Creation adds local policy with confirm mode and no allowed commands.</p><form method=`post` action=`/projects/create`><input type=`hidden` name=`csrf` value=`");
   Text (pg_CreateToken d);
   Lit (dq "`>
<label>Bitwarden project<select name=`project_id` required>")] ++
  (range (pg_Available d) (fun q =>
  [Lit (dq "<option value=`");
   Text (ProjectList.ID q);
   Lit (dq "`>");
   Text (ProjectList.Name q);
   Lit " (";
   Text (ProjectList.ID q);
   Lit ")</option>"])) ++
  [Lit (dq "</select></label><label>Local alias<input name=`alias` maxlength=`256` required></label><label>Token entry identifier<input name=`token_entry` maxlength=`256` required></label><p class=`muted`>Use the identifier of an existing worker token entry. Keep secret values in Bitwarden.</p><label>Absolute working directory<input name=`working_dir` maxlength=`4096` required></label><button>Review new project</button></form></section>")])) ++
  [Lit "
"].

Definition page_footer : list piece :=
  [Lit "
</body></html>"].

Definition pageTemplate (d : pageData) : list piece :=
  page_header d
  ++ match pg_Change d with
     | Some c => review_section d c
     | None =>
         match pg_Detail d with
         | Some p => allowed_section d p ++ edit_section d p ++ readiness_section d p
         | None => overview_section d
         end
     end
  ++ page_footer.

(** [pageTemplate.Execute] into a buffer. *)
Definition Execute (d : pageData) : option string := Some (render (pageTemplate d)).

(** ** What a review shows *)

#[local] Opaque render escape dq.

(** The next piece of both pages in [H]: text of the template, or a value,
    with the equation for it. *)
Ltac read_lit H := apply render_lit in H.
Ltac read_text H E := apply render_text in H; [destruct H as [E H]|vm_compute; reflexivity|vm_compute; reflexivity].
Ltac skip_text H := let E := fresh in read_lit H; read_text H E; clear E.

Lemma range_cons {A} (f : A -> list piece) a l ps : range (a :: l) f ++ ps = f a ++ range l f ++ ps.
Proof. unfold range. cbn [fmap list_fmap List.concat]. by rewrite <- app_assoc. Qed.

Lemma range_nil {A} (f : A -> list piece) ps : range [] f ++ ps = ps.
Proof. done. Qed.

(** One argument can be read back from its line. *)
Lemma line_read a b ps qs :
  render (argument_line a ++ ps) = render (argument_line b ++ qs) ->
  escape a = escape b /\ render ps = render qs.
Proof.
  unfold argument_line. rewrite <- !app_assoc. cbn [app]. intros H.
  read_lit H. read_text H He. read_lit H. split; [exact He|].
  assert (Hab : String.eqb a "" = String.eqb b "") by (by rewrite <- (escape_empty a), <- (escape_empty b), He). rewrite Hab in H.
  destruct (String.eqb b ""); cbn [when app] in H; [apply render_lit in H|]; exact (render_lit _ _ _ H).
Qed.

(** A list of arguments, whatever comes after them. *)
Lemma lines_read argv argv' s s' ps qs :
  clash "<li><code>" s = true -> clash "<li><code>" s' = true ->
  render (argument_lines argv ++ Lit s :: ps) = render (argument_lines argv' ++ Lit s' :: qs) ->
  escape <$> argv = escape <$> argv' /\ render (Lit s :: ps) = render (Lit s' :: qs).
Proof.
  intros Hs Hs'. unfold argument_lines. revert argv'.
  induction argv as [|a argv IH]; intros [|b argv']; rewrite ?range_cons, ?range_nil.
  - intros H. split; [reflexivity|exact H].
  - intros H. symmetry in H. by destruct (render_clash _ _ _ _ Hs H).
  - intros H. by destruct (render_clash _ _ _ _ Hs' H).
  - intros [He H]%line_read. destruct (IH _ H) as [E Hr]. split; [|exact Hr].
    cbn [fmap list_fmap]. by rewrite He, <- E.
Qed.

Lemma escape_list_inj l l' :
  Forall (fun s => no_nul s = true) l -> Forall (fun s => no_nul s = true) l' ->
  escape <$> l = escape <$> l' -> l = l'.
Proof.
  intros H. revert l'. induction H as [|a l Ha _ IH]; intros [|b l']; try done.
  intros [Hb Hl]%Forall_cons [= E1 E2]. f_equal; [by apply escape_inj|by apply IH].
Qed.

(** The section on the current policy can be skipped. *)
Lemma allow_skip allow allow' s ps qs :
  clash "<ol>" s = true ->
  render (range allow (fun argv => [Lit "<ol>"] ++ argument_lines argv ++ [Lit "</ol>"]) ++ Lit s :: ps)
  = render (range allow' (fun argv => [Lit "<ol>"] ++ argument_lines argv ++ [Lit "</ol>"]) ++ Lit s :: qs) ->
  render (Lit s :: ps) = render (Lit s :: qs).
Proof.
  intros Hs. revert allow'. induction allow as [|argv l IH]; intros [|argv' l']; rewrite ?range_cons, ?range_nil, <- ?app_assoc.
  - done.
  - intros H. symmetry in H. by destruct (render_clash _ _ _ _ Hs H).
  - intros H. by destruct (render_clash _ _ _ _ Hs H).
  - cbn [app]. intros H. read_lit H. apply lines_read in H as [_ H]; [|reflexivity|reflexivity].
    read_lit H. exact (IH _ H).
Qed.

Lemma current_skip (p p' : option ProjectDetail) s ps qs :
  clash "<section><h2>Current" s = true ->
  render (from_option current_section [] p ++ Lit s :: ps)
  = render (from_option current_section [] p' ++ Lit s :: qs) ->
  render (Lit s :: ps) = render (Lit s :: qs).
Proof.
  intros Hs. assert (Hh : forall rest, clash ("<section><h2>Current" +:+ rest) s = true).
  { intros rest. revert Hs. generalize "<section><h2>Current" as a. intros a. revert s.
    induction a as [|c a IH]; intros [|d s]; cbn; try done. intros [->|H]%orb_true_iff; [done|].
    by rewrite IH, orb_true_r. }
  destruct p as [p|], p' as [p'|]; cbn [from_option app]; unfold current_section; rewrite <- ?app_assoc; cbn [app].
  - intros H. do 3 skip_text H. read_lit H. apply render_two_texts in H; [|reflexivity|reflexivity].
    read_lit H. apply allow_skip in H; [|reflexivity]. read_lit H. exact H.
  - intros H. exfalso. refine (render_clash _ _ _ _ _ H). apply Hh.
  - intros H. exfalso. symmetry in H. refine (render_clash _ _ _ _ _ H). apply Hh.
  - done.
Qed.

(** What a page says of a change, by its kind. *)
Definition kinds : list string := ["create"; "metadata"; "mode"; "add"; "remove"].

Definition same_change (c c' : policyChange) : Prop :=
  pc_Kind c = pc_Kind c' /\ pc_Alias c = pc_Alias c' /\ pc_Widen c = pc_Widen c'
  /\ (pc_Kind c = "create" \/ pc_Kind c = "metadata" ->
        pi_BWSProjectID (pc_Input c) = pi_BWSProjectID (pc_Input c')
        /\ pi_TokenEntry (pc_Input c) = pi_TokenEntry (pc_Input c')
        /\ pi_WorkingDir (pc_Input c) = pi_WorkingDir (pc_Input c'))
  /\ (pc_Kind c = "mode" -> pc_Mode c = pc_Mode c')
  /\ (pc_Kind c = "add" \/ pc_Kind c = "remove" -> pc_Argv c = pc_Argv c').

(** The texts of a change hold no zero byte, the one byte that a page does not
    tell from another character. *)
Record nul_free (c : policyChange) : Prop := {
  nul_free_alias : no_nul (pc_Alias c) = true;
  nul_free_project : no_nul (pi_BWSProjectID (pc_Input c)) = true;
  nul_free_token : no_nul (pi_TokenEntry (pc_Input c)) = true;
  nul_free_dir : no_nul (pi_WorkingDir (pc_Input c)) = true;
  nul_free_mode : no_nul (pc_Mode c) = true;
  nul_free_argv : Forall (fun s => no_nul s = true) (pc_Argv c);
}.

(** A change as [review] makes them, without a zero byte. *)
Record readable (c : policyChange) : Prop := {
  readable_kind : pc_Kind c ∈ kinds;
  readable_input : pc_Kind c = "create" \/ pc_Kind c = "metadata" -> pi_Alias (pc_Input c) = pc_Alias c;
  readable_texts : nul_free c;
}.

Lemma kinds_no_nul k : k ∈ kinds -> no_nul k = true.
Proof. intros H. repeat (apply elem_of_cons in H as [->|H]; [done|]). by apply elem_of_nil in H. Qed.

Ltac at_kind Hk Hk' H :=
  unfold proposed_section in H; rewrite Hk, Hk' in H; rewrite <- ?app_assoc in H;
  cbn [String.eqb Ascii.eqb Bool.eqb orb when app] in H; rewrite <- ?app_assoc in H; cbn [app] in H.

(** The identifiers and the directory, with the name or without it. *)
Lemma input_read name name' i i' s ps qs :
  let fields (name : string) (i : ProjectInput) (rest : list piece) :=
    when (negb (String.eqb name "")) ([Lit "<dt>Bitwarden project</dt><dd>"; Text name; Lit "</dd>"])
    ++ Lit "
<dt>Bitwarden project ID</dt><dd><code>" :: Text (pi_BWSProjectID i)
    :: Lit "</code></dd><dt>Token entry identifier</dt><dd><code>" :: Text (pi_TokenEntry i)
    :: Lit "</code></dd><dt>Working directory</dt><dd><code>" :: Text (pi_WorkingDir i) :: Lit s :: rest in
  starts_marked s = true ->
  render (fields name i ps) = render (fields name' i' qs) ->
  escape (pi_BWSProjectID i) = escape (pi_BWSProjectID i')
  /\ escape (pi_TokenEntry i) = escape (pi_TokenEntry i')
  /\ escape (pi_WorkingDir i) = escape (pi_WorkingDir i') /\ render ps = render qs.
Proof.
  cbv zeta. intros Hs H.
  assert (H' : forall k k' : list piece,
    render (when (negb (String.eqb name "")) ([Lit "<dt>Bitwarden project</dt><dd>"; Text name; Lit "</dd>"])
            ++ Lit "
<dt>Bitwarden project ID</dt><dd><code>" :: k)
    = render (when (negb (String.eqb name' "")) ([Lit "<dt>Bitwarden project</dt><dd>"; Text name'; Lit "</dd>"])
            ++ Lit "
<dt>Bitwarden project ID</dt><dd><code>" :: k') -> render k = render k').
  { clear H. intros k k' H.
    destruct (String.eqb name ""), (String.eqb name' ""); cbn [negb when app] in H.
    - read_lit H. exact H.
    - exfalso. refine (render_clash _ _ _ _ _ H). reflexivity.
    - exfalso. refine (render_clash _ _ _ _ _ H). reflexivity.
    - skip_text H. read_lit H. read_lit H. exact H. }
  apply H' in H. clear H'.
  read_text H E1. read_lit H. read_text H E2. read_lit H.
  apply render_text in H; [destruct H as [E3 H]|exact Hs|exact Hs]. read_lit H. auto.
Qed.

(** What the section on the proposed change says, read back. *)
Lemma proposed_read c c' s ps qs :
  readable c -> readable c' -> pc_Kind c = pc_Kind c' ->
  render (proposed_section c ++ Lit s :: ps) = render (proposed_section c' ++ Lit s :: qs) ->
  (pc_Kind c = "create" \/ pc_Kind c = "metadata" ->
        pi_BWSProjectID (pc_Input c) = pi_BWSProjectID (pc_Input c')
        /\ pi_TokenEntry (pc_Input c) = pi_TokenEntry (pc_Input c')
        /\ pi_WorkingDir (pc_Input c) = pi_WorkingDir (pc_Input c'))
  /\ (pc_Kind c = "mode" -> pc_Mode c = pc_Mode c')
  /\ (pc_Kind c = "add" \/ pc_Kind c = "remove" -> pc_Argv c = pc_Argv c')
  /\ render (Lit s :: ps) = render (Lit s :: qs).
Proof.
  intros [Hin _ [_ H1 H2 H3 Hm Ha]] [_ _ [_ H1' H2' H3' Hm' Ha']] Hk H.
  unfold kinds in Hin. apply elem_of_cons in Hin as [Hc|Hin].
  { pose proof Hc as Hc'. rewrite Hk in Hc'. at_kind Hc Hc' H. rewrite Hc.
    do 2 read_lit H. apply input_read in H; [|reflexivity]. destruct H as (E1 & E2 & E3 & H). do 5 read_lit H.
    apply escape_inj in E1, E2, E3; [|assumption..].
    split; [auto|]. split; [discriminate|]. split; [intros [?|?]; discriminate|exact H]. }
  apply elem_of_cons in Hin as [Hc|Hin].
  { pose proof Hc as Hc'. rewrite Hk in Hc'. at_kind Hc Hc' H. rewrite Hc.
    do 2 read_lit H. apply input_read in H; [|reflexivity]. destruct H as (E1 & E2 & E3 & H). do 5 read_lit H.
    apply escape_inj in E1, E2, E3; [|assumption..].
    split; [auto|]. split; [discriminate|]. split; [intros [?|?]; discriminate|exact H]. }
  apply elem_of_cons in Hin as [Hc|Hin].
  { pose proof Hc as Hc'. rewrite Hk in Hc'. at_kind Hc Hc' H. rewrite Hc.
    do 3 read_lit H. read_text H E. read_lit H. apply escape_inj in E; [|assumption..]. rewrite E in H.
    split; [intros [?|?]; discriminate|]. split; [auto|]. split; [intros [?|?]; discriminate|].
    destruct (String.eqb _ "automatic"); cbn [app] in H; do 4 read_lit H; exact H. }
  assert (Hargs : forall t (u v : list piece), clash "<li><code>" t = true ->
            render (argument_lines (pc_Argv c) ++ Lit t :: u) = render (argument_lines (pc_Argv c') ++ Lit t :: v) ->
            pc_Argv c = pc_Argv c' /\ render u = render v).
  { intros t u v Ht Hr. apply lines_read in Hr as [E Hr]; [|exact Ht..]. read_lit Hr.
    split; [by apply escape_list_inj|exact Hr]. }
  apply elem_of_cons in Hin as [Hc|Hin].
  { pose proof Hc as Hc'. rewrite Hk in Hc'. at_kind Hc Hc' H. rewrite Hc.
    do 4 read_lit H. apply render_same in H. read_lit H. apply Hargs in H as [E H]; [|reflexivity].
    do 3 read_lit H. split; [intros [?|?]; discriminate|]. split; [discriminate|]. split; [auto|exact H]. }
  apply list_elem_of_singleton in Hin as Hc.
  pose proof Hc as Hc'. rewrite Hk in Hc'. at_kind Hc Hc' H. rewrite Hc.
  do 4 read_lit H. apply render_same in H. read_lit H. apply Hargs in H as [E H]; [|reflexivity].
  do 2 read_lit H. split; [intros [?|?]; discriminate|]. split; [discriminate|]. split; [auto|exact H].
Qed.

(** The page that asks for a confirmation shows the change. *)
Lemma review_page_reads cfg c c' token token' current current' :
  readable c -> readable c' ->
  Execute (reviewPage cfg c token current) = Execute (reviewPage cfg c' token' current') -> same_change c c'.
Proof.
  intros Hc Hc' [= H]. unfold pageTemplate in H. cbn [pg_Change reviewPage] in H.
  change (page_header (reviewPage cfg c token current)) with (page_header (reviewPage cfg c' token' current')) in H.
  rewrite !(render_app (page_header _)) in H. apply append_inv_head in H.
  unfold review_section in H. rewrite <- !app_assoc in H. cbn [app pg_Current pg_CommitToken reviewPage] in H.
  read_lit H. read_text H Ek. read_lit H. read_text H Ea. read_lit H.
  apply escape_inj in Ek; [|by apply kinds_no_nul, readable_kind..].
  apply escape_inj in Ea; [|by apply nul_free_alias, readable_texts..].
  assert (H' : forall u v, render (from_option current_section [] current ++ proposed_section c ++ u)
      = render (from_option current_section [] current' ++ proposed_section c' ++ v) ->
      render (proposed_section c ++ u) = render (proposed_section c' ++ v)).
  { intros u v. unfold proposed_section. rewrite <- !app_assoc. cbn [app]. apply current_skip. reflexivity. }
  apply H' in H. clear H'. apply proposed_read in H; [|assumption..]. destruct H as (H1 & H2 & H3 & H).
  read_lit H. read_text H E. clear E. skip_text H. read_lit H.
  split; [exact Ek|]. split; [exact Ea|]. split; [|auto].
  destruct (pc_Widen c), (pc_Widen c'); cbn [when app] in H; try reflexivity; exfalso.
  - refine (render_clash _ _ _ _ _ H). vm_compute. reflexivity.
  - symmetry in H. refine (render_clash _ _ _ _ _ H). vm_compute. reflexivity.
Qed.
