(* ===== verification/AdminWebSpec.v ===== *)
(** * AdminWebSpec: what the administrator's web server guarantees

    A change of the policy is carried out only as an administrator reviewed
    and confirmed it; everything else the server does leaves the policy
    alone. *)

From S2P Require Import Prelude GoStrings GoText Effects Io Http AccessDiag ProjectList Config PolicyEditor Recovery.
From S2P Require Import AdminPath AdminLog AdminAudit AdminAccess AdminForms AdminWebConfig AdminWeb.
From S2P Require AdminPages.

#[local] Open Scope Z_scope.

Definition harmless (c : web_call) : Prop :=
  match c with inr (inr (WEditor _ op)) => changes_policy op = false | _ => True end.

(** Neither a change of the policy nor a change tied to a form. *)
Definition basic (c : web_call) : Prop :=
  match c with
  | inr (inr (WEditor _ op)) => changes_policy op = false
  | inr (inr (WForm (FAttach _ _))) => False
  | _ => True
  end.

Lemma basic_harmless {A} (p : prog web_call A) : only basic p -> only harmless p.
Proof. apply only_weaken. by intros [|[|[[]| | |]]]. Qed.

#[local] Hint Extern 1 (basic _) => exact I || reflexivity : only.

Section Harmless.
Context (cfg : WebConfig) (unicode_print : Z -> bool) (Execute : pageData -> option string).

Lemma only_or_reply {E A} (m : prog web_call (result E A)) r : only basic m -> only basic (or_reply m r).
Proof. intros H. apply only_bind; [done|by intros []]. Qed.

Lemma only_or_none {A} (m : prog web_call (option A)) r : only basic m -> only basic (or_none m r).
Proof. intros H. apply only_bind; [done|by intros []]. Qed.

Lemma only_reply_if b r : only basic (reply_if b r).
Proof. by destruct b. Qed.

#[local] Hint Resolve only_or_reply only_or_none only_reply_if : only.

Ltac leaf :=
  match goal with
  | |- only _ ?p =>
      lazymatch p with
      | critical ?o => exact (only_call basic (inr (inr (WForm o)) : web_call) I)
      | ask ?o => exact (only_call basic (inr (inr o) : web_call) I)
      | reader ?op => exact (only_call basic (inr (inr (WEditor "" op)) : web_call) eq_refl)
      | ok _ => exact I
      | fail _ => exact I
      | lift _ => exact I
      | mret _ => exact I
      | on_right _ => exact I
      | call ?c => exact (only_call basic c I)
      end
  end.

Ltac quiet :=
  repeat first
    [ leaf
    | progress auto with only
    | progress cbn zeta beta
    | match goal with |- only _ (let '(_, _) := ?x in _) => destruct x end
    | match goal with |- only _ (if ?x then _ else _) => destruct x end
    | match goal with |- only _ (match ?x with _ => _ end) => destruct x end
    | apply only_and_then; [|intro] | apply only_bind; [|intro] ].

Lemma only_issueForm a rev tgt : only basic (issueForm a rev tgt).
Proof. unfold issueForm. quiet. Qed.

#[local] Hint Resolve only_issueForm : only.

Lemma only_view {A} (load : prog web_call (result editor_error A)) : only basic load -> only basic (view load).
Proof. intros H. unfold view. quiet. Qed.

#[local] Hint Resolve only_view : only.

Lemma only_renderOverview st msg w : only basic (renderOverview cfg Execute st msg w).
Proof. unfold renderOverview. quiet. Qed.

Lemma only_issue_each rev alias acts : only basic (issue_each rev alias acts).
Proof. induction acts; cbn [issue_each]; quiet. Qed.

#[local] Hint Resolve only_renderOverview only_issue_each : only.

Lemma only_renderProject st i alias msg w p a : only basic (renderProject cfg Execute st i alias msg w p a).
Proof.
  unfold renderProject. apply only_and_then; [quiet|]. intros [rev d]. quiet.
Qed.

#[local] Hint Resolve only_renderProject : only.

Lemma only_projectIndex alias r : only basic (projectIndex alias r).
Proof. unfold projectIndex. quiet. Qed.

#[local] Hint Resolve only_projectIndex : only.

Lemma only_projectPage i : only basic (projectPage cfg Execute i).
Proof. unfold projectPage. quiet. Qed.

Lemma only_discover : only basic (discover cfg unicode_print Execute).
Proof.
  unfold discover, list_diagnosis, diagnose, consume_list. quiet.
Qed.

Lemma only_checkPath e f : only basic (checkPath cfg Execute e f).
Proof. unfold checkPath. quiet. Qed.

Lemma only_checkAccess e f : only basic (checkAccess cfg unicode_print Execute e f).
Proof.
  unfold checkAccess, run_diagnosis, diagnose, consume_access. quiet.
Qed.

Lemma only_reviewed_change kind f d : only basic (reviewed_change unicode_print kind f d).
Proof.
  unfold reviewed_change, review_create, review_metadata, review_mode, review_add, review_remove, review_input.
  quiet.
Qed.

Lemma only_revision_now r : only basic (revision_now r).
Proof. unfold revision_now. quiet. Qed.

Lemma only_review kind e f : only harmless (review cfg unicode_print Execute kind e f).
Proof.
  assert (Hle : forall {A} (p : prog web_call A), only basic p -> only harmless p) by apply @basic_harmless.
  unfold review. apply only_and_then; [apply Hle; destruct (String.eqb kind "create"); quiet|]. intros current.
  apply only_and_then; [apply Hle, only_reviewed_change|]. intros change.
  apply only_and_then; [apply Hle, only_revision_now|]. intros latest.
  apply only_and_then; [apply Hle, only_reply_if|]. intros _.
  apply only_and_then; [apply Hle, only_issueForm|]. intros token. by apply only_bind.
Qed.

Lemma only_commit_mutation c : only basic (commit_mutation c).
Proof. unfold commit_mutation. quiet. Qed.

End Harmless.

(** ** The actor on every record *)

Definition actor_ev (login : string) (x : event web_call) : event web_call :=
  let 'existT c a := x in
  match c return answer c -> event web_call with
  | inl (LStart r) => fun a => ev (inl (LStart (with_login login r)) : web_call) a
  | inl (LFinish id r) => fun a => ev (inl (LFinish id (mkMutationFinish (mf_Outcome r) login)) : web_call) a
  | c => fun a => ev c a
  end a.

Lemma actor_behaves login c t a : behaves (actorLogger login c) t a <-> t = [actor_ev login (ev c a)].
Proof.
  destruct c as [[r|id r|]|c].
  - exact (behaves_of_call (inl (LStart (with_login login r)) : web_call) t a).
  - exact (behaves_of_call (inl (LFinish id (mkMutationFinish (mf_Outcome r) login)) : web_call) t a).
  - exact (behaves_of_call (inl LNewRecoveryID : web_call) t a).
  - exact (behaves_of_call (inr c : web_call) t a).
Qed.

(** A program whose calls each become one event. *)
Lemma behaves_actor {A} login (p : prog web_call A) t a :
  behaves (interp (actorLogger login) p) t a <-> exists t0, behaves p t0 a /\ t = actor_ev login <$> t0.
Proof. apply behaves_interp_map. apply actor_behaves. Qed.

(** ** An edit *)

Definition audited_ev (revision : string) (x : event (log_call + editor_op)) : event web_call :=
  let 'existT c a := x in
  match c return answer c -> event web_call with
  | inl l => fun a => ev (inl l : web_call) a
  | inr op => fun a => ev (inr (inr (WEditor revision op)) : web_call) a
  end a.

Lemma audited_behaves revision c t a :
  behaves (audited_call revision c) t a <-> t = [audited_ev revision (ev c a)].
Proof.
  destruct c as [l|op].
  - exact (behaves_of_call (inl l : web_call) t a).
  - exact (behaves_of_call (inr (inr (WEditor revision op)) : web_call) t a).
Qed.

(** The three events of an edit: announced, carried out, recorded. *)
Definition edit_events (revision : string) (m : mutation) (id : string) (a : answer (op_of (ChEdit m)))
    (f : result mutation_log_error unit) : list (event web_call) :=
  [ ev (inl (LStart (announced 0 (ChEdit m))) : web_call) (Ok id);
    ev (inr (inr (WEditor revision (op_of (ChEdit m)))) : web_call) a;
    ev (inl (LFinish id (mkMutationFinish (outcome_of (verdict (ChEdit m) a)) "")) : web_call) f ].

Lemma edit_behaves revision m t r :
  behaves (edit revision m) t r ->
  (exists err, t = [ev (inl (LStart (announced 0 (ChEdit m))) : web_call) (Err err)])
  \/ exists id a f, t = edit_events revision m id a f /\ r = audited_result (verdict (ChEdit m) a) f.
Proof.
  intros (t0 & H & ->)%(behaves_interp_map _ _ _ _ _ (audited_behaves revision)).
  apply perform_attempts in H as [(a & conf & [=] & _)|(pre & c & t' & Hb & -> & Ha)].
  inversion Hb; subst. destruct Ha as [err|id a f]; [left; by exists err|right]. by exists id, a, f.
Qed.

Lemma harmless_calls t c : Forall harmless (calls t) -> c ∈ calls t -> harmless c.
Proof. rewrite Forall_forall. auto. Qed.

Lemma basic_calls t c : Forall basic (calls t) -> c ∈ calls t -> basic c.
Proof. rewrite Forall_forall. auto. Qed.

Section Server.
Context (cfg : WebConfig) (unicode_print : Z -> bool).
Context (ParseMediaType : string -> option string) (ParseForm : WebRequest -> Reader -> option Form).
Context (Execute : pageData -> option string).

Notation commit := (commit cfg Execute).
Notation serve := (serve cfg unicode_print ParseMediaType ParseForm Execute).
Notation ServeHTTP := (ServeHTTP cfg unicode_print ParseMediaType ParseForm Execute).
Notation web_mux := (web_mux cfg unicode_print ParseMediaType ParseForm Execute).
Notation protectPost := (protectPost cfg ParseMediaType ParseForm).

Definition edits (c : web_call) : Prop := ~ harmless c.

(** The submission of a reviewed change: confirmed, turned into an edit, and
    carried out at the revision of the form. *)
Lemma commit_behaves entry form t x c :
  behaves (commit entry form) t x -> c ∈ calls t -> edits c ->
  exists change m tm id a f rest,
    ft_change entry = Some change /\ confirmed change form = true
    /\ behaves (commit_mutation change) tm (Ok m)
    /\ t = tm ++ edit_events (ft_revision entry) m id a f ++ rest
    /\ Forall harmless (calls tm) /\ Forall harmless (calls rest).
Proof.
  unfold AdminWeb.commit. intros H Hin Hc. destruct (ft_change entry) as [change|]; [|by destruct H as [-> _]; apply no_calls in Hin].
  apply behaves_and_then in H as [(t1 & t2 & [] & -> & H1 & H)|(e & H & ->)].
  2:{ exfalso. apply Hc. eapply harmless_calls, Hin. eapply only_behaves, H. apply basic_harmless, only_reply_if. }
  unfold reply_if in H1. destruct (confirmed change form) eqn:Hconf; [|by destruct H1]. destruct H1 as [-> _].
  apply behaves_and_then in H as [(tm & t3 & m & -> & Hm & H)|(e & H & ->)].
  2:{ exfalso. apply Hc. eapply harmless_calls, Hin. eapply only_behaves, H. apply basic_harmless, only_commit_mutation. }
  pose proof (only_behaves harmless _ _ _ (basic_harmless _ (only_commit_mutation change)) Hm) as Hqm.
  apply (proj1 (behaves_bind _ _ _ _)) in H as (te & rest & r & -> & He & H).
  assert (Hrest : Forall harmless (calls rest)).
  { eapply only_behaves, H. destruct r.2; [done|]. apply only_and_then; [apply basic_harmless, only_projectIndex|].
    intros i. apply basic_harmless, only_renderProject. }
  cbn [app] in Hin. rewrite !calls_app, !elem_of_app in Hin.
  destruct Hin as [Hin|[Hin|Hin]]; [by destruct (Hc (harmless_calls _ _ Hqm Hin))| |by destruct (Hc (harmless_calls _ _ Hrest Hin))].
  apply edit_behaves in He as [[err ->]|(id & a & f & -> & ->)].
  { apply list_elem_of_singleton in Hin as ->. by destruct (Hc I). }
  by exists change, m, tm, id, a, f, rest.
Qed.

(** What a POST needs to reach its handler. *)
Definition admitted (r : WebRequest) (action : string) (form : Form) (entry : formToken) : Prop :=
  Method (http r) = "POST"
  /\ Values (RHeader (http r)) "Origin" = ["https://" +:+ web_Host cfg]
  /\ ParseMediaType (Header_Get (RHeader (http r)) "Content-Type") = Some "application/x-www-form-urlencoded"
  /\ ParseForm r (MaxBytesReader (RBody (http r)) 65536) = Some form
  /\ URLRawQuery r = "" /\ length (Values form "csrf") = 1%nat
  /\ (ft_target entry <> "" -> Values form "alias" = [ft_target entry]).

(** The calls of a POST before its handler. *)
Definition admission (action : string) (form : Form) (entry : formToken) : list (event web_call) :=
  ev (inr (inr (WForm (FTake (Header_Get form "csrf") action))) : web_call) (Some entry)
  :: (if String.eqb (ft_revision entry) "" then []
      else [ev (inr (inr WRevision) : web_call) (Ok (ft_revision entry))]).

Lemma Values_one (form : Form) name : length (Values form name) = 1%nat ->
  Values form name = [Header_Get form name].
Proof.
  unfold Values, Header. induction form as [|[k v] form IH]; [done|]. rewrite filter_cons. cbn [fst Header_Get].
  case_decide as Hk.
  - subst. rewrite String.eqb_refl. cbn. intros [= H]. apply length_zero_iff_nil in H. by rewrite H.
  - intros H. rewrite (proj2 (String.eqb_neq _ _) Hk). by apply IH.
Qed.

Lemma protectPost_behaves action next r t x c :
  behaves (protectPost action next r) t x -> c ∈ calls t -> ~ basic c ->
  exists form entry t',
    admitted r action form entry /\ t = admission action form entry ++ t'
    /\ behaves (next entry form) t' x /\ c ∈ calls t'.
Proof.
  unfold AdminWeb.protectPost. intros H Hin Hc.
  destruct (is_POST (http r)) eqn:Hpost; cbn [negb] in H; [|by destruct H as [-> _]; apply no_calls in Hin].
  destruct (bool_decide (Values (RHeader (http r)) "Origin" = _)) eqn:Horigin; cbn [negb] in H;
    [|by destruct H as [-> _]; apply no_calls in Hin].
  destruct (bool_decide (ParseMediaType _ = _)) eqn:Htype; cbn [negb] in H; [|by destruct H as [-> _]; apply no_calls in Hin].
  destruct (ParseForm r _) as [form|] eqn:Hform; [|by destruct H as [-> _]; apply no_calls in Hin].
  destruct (negb (String.eqb (URLRawQuery r) "") || _) eqn:Hq; [by destruct H as [-> _]; inversion Hin|].
  apply behaves_and_then in H as [(t1 & t2 & entry & -> & H1 & H)|(e & H & _)].
  2:{ exfalso. apply Hc. eapply basic_calls, Hin. eapply only_behaves, H. by apply only_or_none, only_call. }
  apply (proj1 (behaves_bind _ _ _ _)) in H1 as (ta & tb & o & -> & Hcall & H1).
  destruct Hcall as (o' & t0 & -> & -> & ->).
  destruct H1 as [-> H1]. destruct o' as [entry'|]; [|done]. injection H1 as ->.
  apply behaves_and_then in H as [(t3 & t4 & [] & -> & H1 & H)|(e & H & _)].
  2:{ exfalso. unfold reply_if in H. destruct (_ && _) in H; destruct H as [-> _]; 
      apply list_elem_of_singleton in Hin as ->; by destruct (Hc I). }
  unfold reply_if in H1. destruct (negb (String.eqb (ft_target entry') "") && _) eqn:Htgt; [by destruct H1|].
  destruct H1 as [-> _].
  apply behaves_and_then in H as [(t5 & t' & [] & -> & H1 & H)|(e & H & _)].
  2:{ exfalso. apply Hc. eapply basic_calls; [|exact Hin]. constructor; [exact I|].
      eapply only_behaves, H. destruct (String.eqb (ft_revision entry') ""); [exact I|].
      apply only_and_then; [apply only_revision_now|intros ?; apply only_reply_if]. }
  assert (Ht5 : t5 = if String.eqb (ft_revision entry') "" then []
                     else [ev (inr (inr WRevision) : web_call) (Ok (ft_revision entry'))]).
  { destruct (String.eqb (ft_revision entry') ""); [by destruct H1|].
    apply behaves_and_then in H1 as [(t6 & t7 & rev & -> & H6 & H7)|(e & ? & [=])].
    apply (proj1 (behaves_bind _ _ _ _)) in H6 as (ta & tb & o & -> & Hcall & [-> H6]).
    destruct Hcall as (o' & t0 & -> & -> & ->). destruct o' as [rev'|]; [|done]. injection H6 as ->. unfold reply_if in H7.
    destruct (String.eqb rev' (ft_revision entry')) eqn:E; [|by destruct H7].
    apply String.eqb_eq in E. destruct H7 as [-> _]. by rewrite E. }
  subst t5. exists form, entry', t'.
  assert (Hadm : [ev (inr (inr (WForm (FTake (Header_Get form "csrf") action))) : web_call) (Some entry')]
    ++ [] ++ [] ++ (if String.eqb (ft_revision entry') "" then []
                     else [ev (inr (inr WRevision) : web_call) (Ok (ft_revision entry'))]) ++ t'
    = admission action form entry' ++ t') by done.
  split_and!; [|by rewrite <- !app_assoc|done|].
  - rewrite orb_false_iff, !negb_false_iff in Hq. destruct Hq as [Hq Hcsrf%Nat.eqb_eq].
    unfold admitted. unfold is_POST in Hpost. boolP. split_and!; try done.
    intros Hne. rewrite andb_false_iff, orb_false_iff, !negb_false_iff in Htgt.
    destruct Htgt as [Htgt|[Hl%Nat.eqb_eq Ha]]; [by apply String.eqb_eq in Htgt|].
    apply String.eqb_eq in Ha. rewrite <- Ha. by apply Values_one.
  - rewrite !calls_app, !elem_of_app in Hin. destruct Hin as [[Hin|Hin]|[Hin|[Hin|Hin]]].
    + apply list_elem_of_singleton in Hin as ->. by destruct (Hc I).
    + by apply no_calls in Hin.
    + by apply no_calls in Hin.
    + destruct (String.eqb (ft_revision entry') ""); [by apply no_calls in Hin|]. apply list_elem_of_singleton in Hin as ->. by destruct (Hc I).
    + done.
Qed.

Lemma from_administrator_spec r :
  from_administrator cfg r = true <->
  peer r = true /\ Values (RHeader (http r)) "Tailscale-User-Login" = [web_Login cfg]
  /\ RHost (http r) = "localhost" /\ URLHost r = ""
  /\ Values (RHeader (http r)) "X-Forwarded-Host" = [web_Host cfg]
  /\ Values (RHeader (http r)) "X-Forwarded-Proto" = ["https"].
Proof.
  unfold from_administrator. rewrite !andb_true_iff, !bool_decide_eq_true, !String.eqb_eq.
  split; [intros [[[[[? ?] ?] ?] ?] ?]|intros (? & ? & ? & ? & ? & ?)]; by repeat split.
Qed.

Definition review_kinds : list string := ["create"; "metadata"; "mode"; "add"; "remove"].

(** Only two kinds of route lead to a call that is not basic. *)
Lemma serve_special r t x c :
  behaves (serve r) t x -> c ∈ calls t -> ~ basic c ->
  from_administrator cfg r = true
  /\ exists seg next form entry t',
       Http.Path (http r) = ["projects"; seg]
       /\ ((seg ∈ review_kinds /\ next = review cfg unicode_print Execute seg) \/ (seg = "commit" /\ next = commit))
       /\ admitted r seg form entry /\ t = admission seg form entry ++ t'
       /\ behaves (next entry form) t' x /\ c ∈ calls t'.
Proof.
  unfold AdminWeb.serve. intros H Hin Hc.
  assert (Hq : forall (m : web Response), only basic m -> behaves m t x -> False).
  { intros m Hm Hb. apply Hc. eapply basic_calls, Hin. by eapply only_behaves. }
  destruct (from_administrator cfg r); cbn [negb] in H; [|by destruct (Hq _ (only_ret _ _) H)].
  destruct (_ && _) in H; [by destruct (Hq _ (only_ret _ _) H)|].
  unfold AdminWeb.web_mux in H.
  destruct (Http.Path (http r)) as [|dir [|seg [|? ?]]].
  - destruct (is_POST (http r)); [by destruct (Hq _ (only_ret _ _) H)|].
    destruct (Hq _ (only_renderOverview _ _ _ _ _) H).
  - repeat case_match; by destruct (Hq _ (only_ret _ _) H).
  - destruct (String.eqb dir "projects") eqn:Edir; [|by destruct (Hq _ (only_ret _ _) H)].
    apply String.eqb_eq in Edir as ->. cbn [negb orb] in H.
    destruct (String.eqb seg ""); [by destruct (Hq _ (only_ret _ _) H)|].
    destruct (is_POST (http r)); [|by destruct (Hq _ (only_projectPage _ _ _) H)].
    assert (Hpost : forall next, post_handler cfg unicode_print Execute seg = Some next ->
      (forall entry form, only basic (next entry form))
      \/ (seg ∈ review_kinds /\ next = review cfg unicode_print Execute seg) \/ (seg = "commit" /\ next = commit)).
    { intros next. unfold post_handler. case_bool_decide as Hk; [intros [= <-]; right; left; done|].
      destruct (String.eqb seg "commit") eqn:E; [apply String.eqb_eq in E; intros [= <-]; right; right; done|].
      destruct (String.eqb seg "discover"); [intros [= <-]; left; intros; apply only_discover|].
      destruct (String.eqb seg "path"); [intros [= <-]; left; intros; apply only_checkPath|].
      destruct (String.eqb seg "access"); [intros [= <-]; left; intros; apply only_checkAccess|done]. }
    destruct (post_handler cfg unicode_print Execute seg) as [next|]; [|by destruct (Hq _ (only_ret _ _) H)].
    apply protectPost_behaves with (c := c) in H as (form & entry & t' & Ha & -> & Hb & Hin'); [|done..].
    destruct (Hpost next eq_refl) as [Hn|Hn].
    + destruct (Hc (basic_calls _ _ (only_behaves _ _ _ _ (Hn _ _) Hb) Hin')).
    + split; [done|]. by exists seg, next, form, entry, t'.
  - by destruct (Hq _ (only_ret _ _) H).
Qed.

(** Only one route leads to an edit. *)
Lemma serve_behaves r t x c :
  behaves (serve r) t x -> c ∈ calls t -> edits c ->
  from_administrator cfg r = true /\ Http.Path (http r) = ["projects"; "commit"]
  /\ exists form entry t', admitted r "commit" form entry /\ t = admission "commit" form entry ++ t'
       /\ behaves (commit entry form) t' x /\ c ∈ calls t'.
Proof.
  intros H Hin Hc. destruct (serve_special _ _ _ _ H Hin) as (Hg & seg & next & form & entry & t' & Hp & Hs & Ha & -> & Hb & Hin').
  { intros Hbc. apply Hc. by destruct c as [|[|[[]| | |]]]. }
  destruct Hs as [[_ ->]|[-> ->]].
  - destruct (Hc (harmless_calls _ _ (only_behaves _ _ _ _ (only_review _ _ _ _ _ _) Hb) Hin')).
  - split_and!; [done|done|]. by exists form, entry, t'.
Qed.

(** A commit ties no change to a form. *)
Definition no_attach (c : web_call) : Prop := match c with inr (inr (WForm (FAttach _ _))) => False | _ => True end.

Lemma only_commit_no_attach entry form : only no_attach (commit entry form).
Proof.
  assert (Hle : forall {A} (p : prog web_call A), only basic p -> only no_attach p).
  { intros A p. apply only_weaken. by intros [|[|[[]| | |]]]. }
  unfold AdminWeb.commit. destruct (ft_change entry) as [change|]; [|done].
  apply only_and_then; [apply Hle, only_reply_if|]. intros _.
  apply only_and_then; [apply Hle, only_commit_mutation|]. intros m.
  apply only_bind.
  - destruct m; cbn; repeat (split || intros []); done.
  - intros r. destruct r.2; [done|]. apply only_and_then; [apply Hle, only_projectIndex|].
    intros i. apply Hle, only_renderProject.
Qed.

(** How a reviewed change becomes an edit; [t] is what was read for it. *)
Definition carries_out (change : policyChange) (m : mutation) (t : list (event web_call)) : Prop :=
  (pc_Kind change = "create" /\ m = MCreateProject (pc_Input change) /\ t = [])
  \/ (pc_Kind change = "metadata" /\ exists current,
        t = [ev (inr (inr (WEditor "" (OpGetProject (pc_Alias change)))) : web_call) (Ok current)]
        /\ m = MUpdateProjectMetadata (pc_Alias change) (metadataChange current (pc_Input change)))
  \/ (pc_Kind change = "mode" /\ m = MSetApproval (pc_Alias change) (pc_Mode change) /\ t = [])
  \/ (pc_Kind change = "add" /\ m = MAddAllowlist (pc_Alias change) (pc_Argv change) /\ t = [])
  \/ (pc_Kind change = "remove" /\ m = MRemoveAllowlist (pc_Alias change) (pc_Argv change) /\ t = []).

Lemma commit_mutation_behaves change t m :
  behaves (commit_mutation change) t (Ok m) -> carries_out change m t.
Proof.
  unfold commit_mutation, carries_out. intros H.
  destruct (String.eqb_spec (pc_Kind change) "create"); [left; by destruct H as [-> [= ->]]|].
  destruct (String.eqb_spec (pc_Kind change) "metadata").
  { right; left. split; [done|].
    apply behaves_and_then in H as [(t1 & t2 & current & -> & H1 & [-> [= ->]])|(err & ? & [=])].
    apply (proj1 (behaves_bind _ _ _ _)) in H1 as (ta & tb & o & -> & Hcall & [-> H1]).
    destruct Hcall as (o' & t0 & -> & -> & ->). destruct o' as [d|]; [|done]. injection H1 as ->.
    by exists d. }
  right; right.
  destruct (String.eqb_spec (pc_Kind change) "mode"); [left; by destruct H as [-> [= ->]]|].
  destruct (String.eqb_spec (pc_Kind change) "add"); [right; left; by destruct H as [-> [= ->]]|].
  destruct (String.eqb_spec (pc_Kind change) "remove"); [right; right; by destruct H as [-> [= ->]]|].
  by destruct H.
Qed.

(** The log's events, with the administrator as the actor. *)
Definition attributed_edit (revision : string) (m : mutation) (id : string) (a : answer (op_of (ChEdit m)))
    (f : result mutation_log_error unit) : list (event web_call) :=
  [ ev (inl (LStart (with_login (web_Login cfg) (announced 0 (ChEdit m)))) : web_call) (Ok id);
    ev (inr (inr (WEditor revision (op_of (ChEdit m)))) : web_call) a;
    ev (inl (LFinish id (mkMutationFinish (outcome_of (verdict (ChEdit m) a)) (web_Login cfg))) : web_call) f ].

(** An edit as a request of the server makes it: a token was taken, the
    revision is that of the form, and the confirmed change of the form is
    carried out and recorded. *)
Definition edit_request (r : WebRequest) (form : Form) (entry : formToken) (change : policyChange)
    (m : mutation) (t : list (event web_call)) : Prop :=
  exists tm id a f rest,
    t = admission "commit" form entry ++ tm ++ attributed_edit (ft_revision entry) m id a f ++ rest
    /\ admitted r "commit" form entry
    /\ ft_change entry = Some change /\ carries_out change m tm
    /\ (pc_Widen change = true -> Header_Get form "confirm" = "yes")
    /\ Forall harmless (calls tm) /\ Forall harmless (calls rest).

Lemma calls_actor t : Forall harmless (calls t) <-> Forall harmless (calls (actor_ev (web_Login cfg) <$> t)).
Proof.
  unfold calls. rewrite <- list_fmap_compose, !Forall_fmap. apply Forall_iff.
  by intros [[[| |]|] a].
Qed.

Lemma actor_edits t c : c ∈ calls (actor_ev (web_Login cfg) <$> t) -> edits c -> c ∈ calls t.
Proof.
  unfold calls. rewrite <- list_fmap_compose. intros (x & -> & Hx)%list_elem_of_fmap Hc.
  destruct x as [[[r|id r|]|c] a]; try (by destruct (Hc I)).
  apply list_elem_of_fmap. by exists (existT (inr c) a).
Qed.

Lemma admission_actor form entry :
  actor_ev (web_Login cfg) <$> admission "commit" form entry = admission "commit" form entry.
Proof. unfold admission. by destruct (String.eqb _ _). Qed.

Lemma admission_harmless form entry : Forall harmless (calls (admission "commit" form entry)).
Proof. unfold admission. destruct (String.eqb _ _); by repeat constructor. Qed.

Lemma carries_out_actor change m tm :
  carries_out change m tm -> actor_ev (web_Login cfg) <$> tm = tm.
Proof.
  by intros [(_ & _ & ->)|[(_ & d & -> & _)|[(_ & _ & ->)|[(_ & _ & ->)|(_ & _ & ->)]]]].
Qed.

Lemma ServeHTTP_edits r t resp c :
  behaves (ServeHTTP r) t resp -> c ∈ calls t -> edits c ->
  from_administrator cfg r = true /\ Http.Path (http r) = ["projects"; "commit"]
  /\ exists form entry change m, edit_request r form entry change m t.
Proof.
  unfold AdminWeb.ServeHTTP. intros (t0 & H & ->)%behaves_actor Hin Hc.
  apply (proj1 (behaves_bind _ _ _ _)) in H as (t1 & t2 & x & -> & H & [-> _]). rewrite app_nil_r in *.
  pose proof (actor_edits _ _ Hin Hc) as Hin'.
  destruct (serve_behaves _ _ _ _ H Hin' Hc) as (Hg & Hp & form & entry & t' & Ha & -> & Hb & Hin2).
  split_and!; [done|done|].
  destruct (commit_behaves _ _ _ _ _ Hb Hin2 Hc)
    as (change & m & tm & id & a & f & rest & Hch & Hconf & Hm & -> & Hqm & Hqr).
  apply commit_mutation_behaves in Hm.
  exists form, entry, change, m, tm, id, a, f, (actor_ev (web_Login cfg) <$> rest).
  split_and!; try done.
  - rewrite !fmap_app, admission_actor, (carries_out_actor _ _ _ Hm). do 3 f_equal.
  - unfold confirmed in Hconf. intros Hw. rewrite Hw in Hconf.
    apply andb_true_iff in Hconf as [_ Hconf]. by apply negb_true_iff, negb_false_iff, String.eqb_eq in Hconf.
  - by apply (proj1 (calls_actor rest)).
Qed.

(** The policy is edited only as the administrator reviewed it: whatever
    the environment answers, if a request makes the server change the policy
    at all, it came from Serve on the private socket, with exactly the
    configured login and host, over HTTPS, as a form of the server's own
    origin; it took a form token for committing, for the project it names, and
    the policy still had the revision of that form; the form carries a
    reviewed change, which widens what agents can do only if it was confirmed;
    and the request makes exactly one edit, the reviewed one, at the form's
    revision, between the log records of its start and its end, both with the
    administrator's login. *)
Theorem edit_only_as_reviewed r t resp revision op :
  behaves (ServeHTTP r) t resp ->
  inr (inr (WEditor revision op)) ∈ calls t -> changes_policy op = true ->
  peer r = true
  /\ Values (RHeader (http r)) "Tailscale-User-Login" = [web_Login cfg]
  /\ Values (RHeader (http r)) "X-Forwarded-Host" = [web_Host cfg]
  /\ Values (RHeader (http r)) "X-Forwarded-Proto" = ["https"]
  /\ Http.Path (http r) = ["projects"; "commit"]
  /\ exists form entry change m, edit_request r form entry change m t.
Proof.
  intros H Hin Hop.
  destruct (ServeHTTP_edits _ _ _ _ H Hin) as (Hg & Hp & He); [intros Hh; cbn in Hh; congruence|].
  apply from_administrator_spec in Hg as (? & ? & _ & _ & ? & ?). by split_and!.
Qed.

(** C27: strangers get nothing: a request that does not come from Serve with
    the configured login and host is answered 403 without a single call: no
    token is issued or used, nothing is read, logged or run. *)
Theorem strangers_get_nothing r t resp :
  (behaves (ServeHTTP r) t resp /\ from_administrator cfg r = false ->
     t = [] /\ resp = reply "Administrator access denied." StatusForbidden)
  /\ (from_administrator cfg r = true <->
      peer r = true /\ Values (RHeader (http r)) "Tailscale-User-Login" = [web_Login cfg]
      /\ RHost (http r) = "localhost" /\ URLHost r = ""
      /\ Values (RHeader (http r)) "X-Forwarded-Host" = [web_Host cfg]
      /\ Values (RHeader (http r)) "X-Forwarded-Proto" = ["https"]).
Proof.
  split; [|apply from_administrator_spec]. intros [(t0 & H & ->)%behaves_actor Hg].
  apply (proj1 (behaves_bind _ _ _ _)) in H as (t1 & t2 & x & -> & H & [-> ->]). rewrite app_nil_r.
  unfold AdminWeb.serve in H. rewrite Hg in H. by destruct H as [-> ->].
Qed.

End Server.

(** ** An example: a project is made automatic

    The administrator opens the project's page, submits its approval form, and
    confirms the review. *)

Module Example.

Definition cfg : WebConfig := mkWebConfig "host.tail.ts.net" "ann@example.org" "".

Definition detail : ProjectDetail := mkProjectDetail "p" "bws" "token" "/srv/p" ModeConfirm "" [["make"]].

(** A new token for each form: the counter counts the calls. *)
Definition reading (n : nat) : Reading := mkReading (fun _ => 0) 0 (Some (Itoa.Itoa (Z.of_nat n))) 0.

Definition step : handler web_call (Forms * nat) := fun c st =>
  match c return answer c * (Forms * nat) with
  | inl (LStart _) => (Ok "id", (st.1, S st.2))
  | inl (LFinish _ _) => (Ok tt, (st.1, S st.2))
  | inl LNewRecoveryID => (None, (st.1, S st.2))
  | inr (inl (CCheckAccess _)) => (Err EDiagnosticFailed, (st.1, S st.2))
  | inr (inl CListAvailable) => (Err EListFailed, (st.1, S st.2))
  | inr (inr (WForm o)) =>
      let '(a, forms) := form_step (web_Login cfg) (reading st.2) o st.1 in (a, (forms, S st.2))
  | inr (inr WRevision) => (Ok "rev", (st.1, S st.2))
  | inr (inr (WEditor _ op)) =>
      (match op return answer op with
       | OpListProjects => Ok [mkProjectSummary "p" ModeConfirm ""]
       | OpGetProject _ => Ok detail
       | OpCheckProjectPath _ => Err EWorkerProbe
       | OpListAllowlist _ => Ok []
       | OpListRecoveries => Ok []
       | OpRemoveProject _ _ _ | OpRestoreProject _ _ => (mkRecoveryResult true "", None)
       | _ => (true, None)
       end, (st.1, S st.2))
  | inr (inr WMapOrder) => (O, (st.1, S st.2))
  end.

Definition headers : Header :=
  [("Tailscale-User-Login", "ann@example.org"); ("X-Forwarded-Host", "host.tail.ts.net");
   ("X-Forwarded-Proto", "https"); ("Origin", "https://host.tail.ts.net");
   ("Content-Type", "application/x-www-form-urlencoded")].

Definition get (path : list string) : WebRequest :=
  mkWebRequest (Http.mkRequest "GET" path "localhost" false headers "") true "" "".

Definition post (path : list string) : WebRequest :=
  mkWebRequest (Http.mkRequest "POST" path "localhost" false headers "") true "" "".

(** The fields of the two forms, with the tokens of the pages before. *)
Definition form_of (r : WebRequest) (_ : Reader) : option Form :=
  Some (if bool_decide (Http.Path (http r) = ["projects"; "mode"])
        then [("csrf", "39"); ("alias", "p"); ("mode", "automatic")]
        else [("csrf", "3136"); ("alias", "p"); ("confirm", "yes")]).

Definition page : pageData -> option string := AdminPages.Execute.
Definition media_type (s : string) : option string := Some s.

Definition requests (i : nat) : WebRequest :=
  match i with
  | 0%nat => get ["projects"; "0"]
  | 1%nat => post ["projects"; "mode"]
  | _ => post ["projects"; "commit"]
  end.

Definition answer_to (r : WebRequest) : prog web_call Response :=
  ServeHTTP cfg (fun _ => true) media_type form_of page r.

Definition after (i : nat) (st : Forms * nat) : Forms * nat := state_of step (answer_to (requests i)) st.
Definition start : Forms * nat := (NewForms, 0%nat).

(** What the third request does. *)
Definition commit_trace : list (event web_call) :=
  trace_of step (answer_to (requests 2)) (after 1 (after 0 start)).
End Example.

Lemma edit_only_as_reviewed_witness :
  exists resp,
    behaves (Example.answer_to (Example.requests 2)) Example.commit_trace resp
    /\ exists form entry change m,
         edit_request Example.cfg Example.media_type Example.form_of (Example.requests 2) form entry change m
           Example.commit_trace.
Proof.
  assert (Hb : behaves (Example.answer_to (Example.requests 2)) Example.commit_trace
                 (result_of Example.step (Example.answer_to (Example.requests 2))
                    (Example.after 1 (Example.after 0 Example.start)))) by apply run_behaves.
  eexists. split; [exact Hb|].
  refine (proj2 (proj2 (proj2 (proj2 (proj2 (edit_only_as_reviewed _ _ _ _ _ (Example.requests 2)
    Example.commit_trace _ "rev" (OpSetApproval "p" "automatic") Hb _ eq_refl)))))).
  apply (list_elem_of_lookup_2 _ 3). vm_compute. reflexivity.
Defined.
