(* ===== verification/AdminWebHistory.v ===== *)
(** * AdminWebHistory: many requests at once

    The server handles requests concurrently: a history interleaves the calls
    of its requests in any way, and the critical sections among them, in that
    order, are steps of [AdminForms]. *)

From S2P Require Import Prelude GoStrings GoText Effects Io Http AccessDiag ProjectList Config PolicyEditor Recovery.
From S2P Require Import AdminPath AdminLog AdminAudit AdminAccess AdminForms AdminWebConfig AdminWeb AdminWebSpec.

#[local] Open Scope Z_scope.

(** A request's number, what its critical section read, the call and its
    answer. *)
Notation record := (nat * (Reading * event web_call))%type.

Definition of_request (i : nat) (h : list record) : list (event web_call) :=
  omap (fun x : record => if bool_decide (x.1 = i) then Some x.2.2 else None) h.

Definition form_event (x : event web_call) : option (event form_op) :=
  let 'existT c a := x in
  match c return answer c -> option (event form_op) with
  | inr (inr (WForm o)) => fun a => Some (ev o a)
  | _ => fun _ => None
  end a.

Definition form_ev (y : event form_op) : event web_call :=
  let 'existT o a := y in ev (inr (inr (WForm o)) : web_call) a.

Lemma form_event_Some x y : form_event x = Some y <-> x = form_ev y.
Proof.
  split; [|intros ->; by destruct y]. destruct x as [[|[|[o| | |]]] a]; try done. cbn. by intros [= <-].
Qed.

Definition sections (h : list record) : list (Reading * event form_op) :=
  omap (fun x : record => (fun y => (x.2.1, y)) <$> form_event x.2.2) h.

(** ** Counting over requests *)

Section Filter.
Context {A : Type} (P Q : A -> Prop) `{!forall x, Decision (P x)} `{!forall x, Decision (Q x)}.

Lemma filter_filter_le (l : list A) : (length (filter P (filter Q l)) <= length (filter P l))%nat.
Proof.
  induction l as [|y l IH]; [done|]. rewrite !filter_cons.
  repeat (case_decide; rewrite ?filter_cons); cbn [length]; try lia; contradiction.
Qed.

(** An element that satisfies [P] and not [Q] is lost. *)
Lemma filter_filter_lt (l : list A) x :
  x ∈ l -> P x -> ~ Q x -> (S (length (filter P (filter Q l))) <= length (filter P l))%nat.
Proof.
  intros Hx HP HQ. induction Hx as [x l|x y l Hx IH].
  - rewrite !filter_cons, (decide_False (P := Q x)), (decide_True (P := P x)) by done.
    cbn [length]. pose proof (filter_filter_le l). lia.
  - specialize (IH HP HQ). rewrite !filter_cons.
    repeat (case_decide; rewrite ?filter_cons); cbn [length]; try lia; contradiction.
Qed.
End Filter.

Section Count.
Context (P : event web_call -> Prop) `{!forall x, Decision (P x)}.

Lemma of_request_elem i h x : x ∈ of_request i h <-> exists rd, (i, (rd, x)) ∈ h.
Proof.
  unfold of_request. rewrite list_elem_of_omap. split.
  - intros ([j [rd y]] & Hin & Hy). case_bool_decide as Hj; [|done]. cbn in *. simplify_eq. by exists rd.
  - intros [rd Hin]. exists (i, (rd, x)). split; [done|]. cbn. by rewrite bool_decide_true.
Qed.

(** Different requests, each with an event that satisfies [P]. *)
Lemma requests_count ids (h : list record) :
  NoDup ids -> Forall (fun i => Exists P (of_request i h)) ids ->
  (length ids <= length (filter (fun x : record => P x.2.2) h))%nat.
Proof.
  revert h. induction ids as [|i ids IH]; intros h Hnd Hall; [cbn; lia|].
  apply NoDup_cons in Hnd as [Hi Hnd]. apply Forall_cons in Hall as [Hex Hall].
  specialize (IH (filter (fun x : record => x.1 <> i) h) Hnd). cbn [length].
  assert (Hsplit : (S (length (filter (fun x : record => P x.2.2) (filter (fun x : record => x.1 <> i) h)))
                    <= length (filter (fun x : record => P x.2.2) h))%nat).
  { apply Exists_exists in Hex as (x & Hx & HP). apply of_request_elem in Hx as [rd Hx].
    eapply filter_filter_lt; [exact Hx|exact HP|]. intros Hne. by apply Hne. }
  etrans; [|exact Hsplit]. apply le_n_S, IH. rewrite Forall_forall in Hall |- *.
  intros j Hj. specialize (Hall j Hj). rewrite Exists_exists in Hall |- *.
  destruct Hall as (x & Hx & HP). exists x. split; [|done].
  apply of_request_elem in Hx as [rd Hx]. apply of_request_elem. exists rd.
  apply list_elem_of_filter. split; [|done]. cbn. by intros ->.
Qed.
End Count.

(** ** What a review attaches to a form *)

Section Review.
Context (cfg : WebConfig) (unicode_print : Z -> bool) (Execute : pageData -> option string).

Notation reader_ev op a := (ev (inr (inr (WEditor "" op)) : web_call) a).

(** The change reviewed for a form, with what was read to review it: [current]
    is the project's detail, read before. *)
Inductive reviewed (form : Form) (current : ProjectDetail) : list (event web_call) -> policyChange -> Prop :=
| ReviewedCreate input projects name :
    validInput unicode_print input = true ->
    pi_Alias input = Header_Get form "alias" ->
    Forall (fun p => ps_Alias p <> pi_Alias input) projects -> name <> "" ->
    reviewed form current
      [ reader_ev OpListProjects (Ok projects);
        ev (inr (inr (WForm (FProjectName (pi_BWSProjectID input)))) : web_call) name ]
      (mkPolicyChange "create" (pi_Alias input) name input "" [] false)
| ReviewedMetadata input :
    validInput unicode_print input = true ->
    pi_Alias input = Header_Get form "alias" ->
    reviewed form current [] (mkPolicyChange "metadata" (pi_Alias input) "" input "" [] (differs current input))
| ReviewedMode mode :
    mode = ModeConfirm \/ mode = ModeAutomatic ->
    reviewed form current []
      (mkPolicyChange "mode" (Header_Get form "alias") "" zero_input mode []
         (String.eqb mode ModeAutomatic && negb (String.eqb (pd_Mode current) ModeAutomatic)))
| ReviewedAdd argv :
    argv = Values form "argv" -> (1 <= length argv <= 256)%nat ->
    valid_argv_from unicode_print true argv = true ->
    reviewed form current [] (mkPolicyChange "add" (Header_Get form "alias") "" zero_input "" argv true)
| ReviewedRemove argv :
    argv ∈ pd_Allow current ->
    reviewed form current [] (mkPolicyChange "remove" (Header_Get form "alias") "" zero_input "" argv false).

Lemma reply_if_Ok b r t x : behaves (reply_if b r) t (Ok x) -> b = false /\ t = [].
Proof. destruct b; [by intros [_ ?]|]. by intros [-> _]. Qed.

Lemma list_Ok r t ps :
  behaves (or_reply (reader OpListProjects) r) t (Ok ps) -> t = [reader_ev OpListProjects (Ok ps)].
Proof.
  intros (t1 & t2 & y & -> & (x & t' & -> & -> & ->) & [-> H])%(behaves_bind _ _ _ _).
  destruct x as [x|]; [|done]. by injection H as ->.
Qed.

Lemma get_Ok alias r t d :
  behaves (or_reply (reader (OpGetProject alias)) r) t (Ok d) -> t = [reader_ev (OpGetProject alias) (Ok d)].
Proof.
  intros (t1 & t2 & y & -> & (x & t' & -> & -> & ->) & [-> H])%(behaves_bind _ _ _ _).
  destruct x as [x|]; [|done]. by injection H as ->.
Qed.

Lemma revision_Ok r t rev :
  behaves (revision_now r) t (Ok rev) -> t = [ev (inr (inr WRevision) : web_call) (Ok rev)].
Proof.
  intros (t1 & t2 & y & -> & (x & t' & -> & -> & ->) & [-> H])%(behaves_bind _ _ _ _).
  destruct x as [x|]; [|done]. by injection H as ->.
Qed.

Lemma issue_Ok action rev target t token :
  behaves (issueForm action rev target) t (Ok token) ->
  t = [ev (inr (inr (WForm (FIssue action rev target))) : web_call) (Some token)].
Proof.
  intros (t1 & t2 & y & -> & (x & t' & -> & -> & ->) & [-> H])%(behaves_bind _ _ _ _).
  destruct x as [x|]; [|done]. by injection H as ->.
Qed.

Lemma and_then_Ok {A B} (m : web A) (f : A -> web B) t b :
  behaves (and_then m f) t (Ok b) -> exists t1 t2 a, t = t1 ++ t2 /\ behaves m t1 (Ok a) /\ behaves (f a) t2 (Ok b).
Proof. by intros [H|(e & _ & [=])]%behaves_and_then. Qed.

Lemma review_input_Ok form t input :
  behaves (review_input unicode_print form) t (Ok input) ->
  t = [] /\ validInput unicode_print input = true /\ pi_Alias input = Header_Get form "alias".
Proof.
  unfold review_input. intros (t1 & t2 & [] & -> & [_ ->]%reply_if_Ok & H)%and_then_Ok.
  apply and_then_Ok in H as (t3 & t4 & [] & -> & [Hv ->]%reply_if_Ok & [-> [= ->]]).
  by apply negb_false_iff in Hv.
Qed.

Lemma reviewed_change_Ok kind form current t c :
  kind ∈ ["create"; "metadata"; "mode"; "add"; "remove"] ->
  behaves (reviewed_change unicode_print kind form current) t (Ok c) ->
  pc_Kind c = kind /\ reviewed form current t c.
Proof.
  intros Hk H. unfold reviewed_change in H.
  destruct (String.eqb kind "create") eqn:E1; [apply String.eqb_eq in E1 as ->|].
  { unfold review_create in H.
    apply and_then_Ok in H as (t1 & t2 & input & -> & (-> & Hv & Ha)%review_input_Ok & H).
    apply and_then_Ok in H as (t3 & t4 & ps & -> & ->%list_Ok & H).
    apply and_then_Ok in H as (t5 & t6 & [] & -> & [Hex ->]%reply_if_Ok & H).
    apply (proj1 (behaves_bind _ _ _ _)) in H as (t7 & t8 & name & -> & (x & t' & -> & -> & ->) & H).
    apply and_then_Ok in H as (t9 & t10 & [] & -> & [Hn ->]%reply_if_Ok & [-> [= ->]]).
    split; [done|]. rewrite <- Ha. apply String.eqb_neq in Hn. apply ReviewedCreate; try done.
    apply Forall_forall. intros p Hp Heq. rewrite <- not_true_iff_false, existsb_exists in Hex. apply Hex.
    exists p. split; [by apply list_elem_of_In|]. by rewrite Heq, Ha, String.eqb_refl. }
  destruct (String.eqb kind "metadata") eqn:E2; [apply String.eqb_eq in E2 as ->|].
  { unfold review_metadata in H.
    apply and_then_Ok in H as (t1 & t2 & input & -> & (-> & Hv & Ha)%review_input_Ok & [-> [= ->]]).
    split; [done|]. rewrite <- Ha. by apply ReviewedMetadata. }
  destruct (String.eqb kind "mode") eqn:E3; [apply String.eqb_eq in E3 as ->|].
  { unfold review_mode in H.
    apply and_then_Ok in H as (t1 & t2 & [] & -> & [_ ->]%reply_if_Ok & H).
    apply and_then_Ok in H as (t3 & t4 & [] & -> & [Hm ->]%reply_if_Ok & [-> [= ->]]).
    split; [done|]. apply ReviewedMode.
    apply andb_false_iff in Hm as [Hm|Hm]; apply negb_false_iff, String.eqb_eq in Hm; auto. }
  destruct (String.eqb kind "add") eqn:E4; [apply String.eqb_eq in E4 as ->|].
  { unfold review_add in H.
    apply and_then_Ok in H as (t1 & t2 & [] & -> & [Hl ->]%reply_if_Ok & H).
    apply and_then_Ok in H as (t3 & t4 & [] & -> & [Hv ->]%reply_if_Ok & [-> [= ->]]).
    split; [done|]. apply ReviewedAdd; [done| |by apply negb_false_iff].
    rewrite !orb_false_iff in Hl. destruct Hl as [[_ H1%Nat.eqb_neq] H2%Nat.ltb_ge]. lia. }
  destruct (String.eqb kind "remove") eqn:E5; [apply String.eqb_eq in E5 as ->|].
  { unfold review_remove in H.
    apply and_then_Ok in H as (t1 & t2 & [] & -> & [_ ->]%reply_if_Ok & H).
    destruct (Atoi.Atoi _) as [i|]; [|by destruct H]. destruct (i <? 0); [by destruct H|].
    destruct (pd_Allow current !! Z.to_nat i) as [argv|] eqn:El; [|by destruct H]. destruct H as [-> [= ->]].
    split; [done|]. apply ReviewedRemove. by eapply list_elem_of_lookup_2. }
  exfalso. rewrite !elem_of_cons, elem_of_nil in Hk.
  apply String.eqb_neq in E1, E2, E3, E4, E5. naive_solver.
Qed.

Lemma only_current kind alias :
  only basic (if String.eqb kind "create" then ok None
              else try! detail := or_reply (reader (OpGetProject alias)) project_unreadable; ok (Some detail)).
Proof.
  destruct (String.eqb kind "create"); [done|].
  apply only_and_then; [apply only_or_reply, only_call; done|done].
Qed.

(** A review ends by tying the change to a new form for committing it. *)
Lemma review_attaches kind entry form t x token c :
  kind ∈ ["create"; "metadata"; "mode"; "add"; "remove"] ->
  behaves (review cfg unicode_print Execute kind entry form) t x ->
  inr (inr (WForm (FAttach token c))) ∈ calls t ->
  exists current tr,
    t = (if String.eqb kind "create" then []
         else [reader_ev (OpGetProject (Header_Get form "alias")) (Ok current)])
        ++ tr
        ++ [ ev (inr (inr WRevision) : web_call) (Ok (ft_revision entry));
             ev (inr (inr (WForm (FIssue "commit" (ft_revision entry) (pc_Alias c)))) : web_call) (Some token);
             ev (inr (inr (WForm (FAttach token c))) : web_call) tt ]
    /\ pc_Kind c = kind /\ reviewed form current tr c
    /\ exists shown, x = Ok (renderPage Execute StatusOK (reviewPage cfg c token shown)).
Proof.
  intros Hk H Hin. set (att := inr (inr (WForm (FAttach token c))) : web_call) in *.
  assert (Hno : forall {A} (p : prog web_call A) t a, only basic p -> behaves p t a -> att ∈ calls t -> False).
  { intros A p t' a Hp Hb Hin'. pose proof (only_behaves _ _ _ _ Hp Hb) as Hf.
    rewrite Forall_forall in Hf. by apply (Hf _ Hin'). }
  unfold review in H. apply behaves_and_then in H as [(t1 & t2 & current & -> & H1 & H)|(e & H & _)].
  2:{ destruct (Hno _ _ _ _ (only_current _ _) H Hin). }
  pose proof (Hno _ _ _ _ (only_current _ _) H1) as N1.
  apply behaves_and_then in H as [(tr & t3 & change & -> & Hr & H)|(e & H & _)].
  2:{ rewrite calls_app, elem_of_app in Hin. destruct Hin as [Hin|Hin]; [by destruct (N1 Hin)|].
      destruct (Hno _ _ _ _ (only_reviewed_change _ _ _ _) H Hin). }
  pose proof (Hno _ _ _ _ (only_reviewed_change _ _ _ _) Hr) as N2.
  destruct (reviewed_change_Ok _ _ _ _ _ Hk Hr) as [Hkind Hrev].
  rewrite !calls_app, !elem_of_app in Hin. destruct Hin as [Hin|[Hin|Hin]]; [by destruct (N1 Hin)|by destruct (N2 Hin)|].
  apply behaves_and_then in H as [(t4 & t5 & latest & -> & ->%revision_Ok & H)|(e & H & _)].
  2:{ destruct (Hno _ _ _ _ (only_revision_now _) H Hin). }
  apply behaves_and_then in H as [(t6 & t7 & [] & -> & [Hlat ->]%reply_if_Ok & H)|(e & H & _)].
  2:{ apply elem_of_cons in Hin as [|Hin]; [done|]. destruct (Hno _ _ _ _ (only_reply_if _ _) H Hin). }
  apply negb_false_iff, String.eqb_eq in Hlat as ->.
  apply behaves_and_then in H as [(t8 & t9 & token' & -> & ->%issue_Ok & H)|(e & H & _)].
  2:{ apply elem_of_cons in Hin as [|Hin]; [done|]. destruct (Hno _ _ _ _ (only_issueForm _ _ _) H Hin). }
  apply (proj1 (behaves_bind _ _ _ _)) in H as (ta & tb & u & -> & (x' & t' & -> & -> & ->) & [-> ->]).
  destruct x'. cbn in Hin. rewrite !elem_of_cons, elem_of_nil in Hin.
  destruct Hin as [|[|[Hin|]]]; [done|done| |done]. injection Hin as <- <-.
  exists (default zero_detail current), tr. split_and!; [|done|done|by eexists].
  destruct (String.eqb kind "create").
  - by destruct H1 as [-> _].
  - apply and_then_Ok in H1 as (tc & td & d & -> & ->%get_Ok & [-> [= ->]]). done.
Qed.

End Review.

(** ** Histories *)

Section History.
Context (cfg : WebConfig) (unicode_print : Z -> bool).
Context (ParseMediaType : string -> option string) (ParseForm : WebRequest -> Reader -> option Form).
Context (Execute : pageData -> option string).

Notation ServeHTTP := (ServeHTTP cfg unicode_print ParseMediaType ParseForm Execute).
Notation edit_request := (edit_request cfg ParseMediaType ParseForm).
Notation admitted := (admitted cfg ParseMediaType ParseForm).

(** Every request of the history was answered, and the critical sections are
    steps of the shared state, from a new server. *)
Record served (reqs : nat -> WebRequest) (h : list record) : Prop := mkServed {
  served_requests i :
    of_request i h = [] \/ exists resp, behaves (ServeHTTP (reqs i)) (of_request i h) resp;
  served_forms : exists st, fsteps (web_Login cfg) NewForms (sections h) st;
}.

(** The request carried out the reviewed change. *)
Definition carried_out (reqs : nat -> WebRequest) (h : list record) (c : policyChange) (i : nat) : Prop :=
  exists form entry m, edit_request (reqs i) form entry c m (of_request i h).

Definition web_uses (c : policyChange) (x : event web_call) : Prop :=
  match form_event x with Some y => uses c y | None => False end.

#[local] Instance web_uses_dec c x : Decision (web_uses c x).
Proof. unfold web_uses. destruct (form_event x); apply _. Defined.

Lemma web_uses_sections c h :
  length (filter (fun x : record => web_uses c x.2.2) h) = occurrences (uses c) (sections h).
Proof.
  unfold occurrences, sections. induction h as [|[i [rd x]] h IH]; [done|].
  rewrite filter_cons. cbn [fst snd omap list_omap].
  case_decide as Hd; unfold web_uses in Hd; destruct (form_event x) as [y|]; try done;
    cbn [fmap option_fmap option_map list_fmap snd length]; rewrite ?filter_cons, ?IH.
  - by rewrite decide_True.
  - by rewrite decide_False.
Qed.

Lemma edit_request_uses r form entry c m t : edit_request r form entry c m t -> Exists (web_uses c) t.
Proof.
  intros (tm & id & a & f & rest & -> & _ & Hch & _). unfold admission. apply Exists_cons_hd.
  by exists entry.
Qed.

(** C19: a double submission does nothing: in any interleaving of the server's
    requests, a reviewed change is carried out by at most as many requests as
    reviews tied it to a form; without a review, by none. *)
Theorem one_edit_per_review reqs h c ids :
  served reqs h -> NoDup ids -> Forall (carried_out reqs h c) ids ->
  (length ids <= occurrences (reviews c) (sections h))%nat.
Proof.
  intros [_ [st Hst]] Hnd Hall. apply (uses_within_reviews (web_Login cfg) c) in Hst.
  rewrite <- web_uses_sections in Hst. cbn in Hst. unfold carrying in Hst.
  rewrite map_filter_empty, map_size_empty in Hst.
  enough (length ids <= length (filter (fun x : record => web_uses c x.2.2) h))%nat by lia.
  apply requests_count; [done|]. eapply Forall_impl; [exact Hall|].
  intros i (form & entry & m & H). by eapply edit_request_uses.
Qed.

(** A request that reviewed a change, and tied it to the token. *)
Definition review_request (r : WebRequest) (token : string) (c : policyChange) (form : Form) (entry : formToken)
    (current : ProjectDetail) (t : list (event web_call)) : Prop :=
  from_administrator cfg r = true /\ Http.Path (http r) = ["projects"; pc_Kind c]
  /\ admitted r (pc_Kind c) form entry
  /\ exists tr,
       t = admission (pc_Kind c) form entry
           ++ (if String.eqb (pc_Kind c) "create" then []
               else [ev (inr (inr (WEditor "" (OpGetProject (Header_Get form "alias")))) : web_call) (Ok current)])
           ++ tr
           ++ [ ev (inr (inr WRevision) : web_call) (Ok (ft_revision entry));
                ev (inr (inr (WForm (FIssue "commit" (ft_revision entry) (pc_Alias c)))) : web_call) (Some token);
                ev (inr (inr (WForm (FAttach token c))) : web_call) tt ]
       /\ reviewed unicode_print form current tr c.

Lemma reviewed_actor form current tr c login :
  reviewed unicode_print form current tr c -> actor_ev login <$> tr = tr.
Proof. by intros []. Qed.

Lemma actor_special t c login : c ∈ calls (actor_ev login <$> t) -> ~ basic c -> c ∈ calls t.
Proof.
  unfold calls. rewrite <- list_fmap_compose. intros (x & -> & Hx)%list_elem_of_fmap Hc.
  destruct x as [[[r|id r|]|c] a]; try (by destruct (Hc I)).
  apply list_elem_of_fmap. by exists (existT (inr c) a).
Qed.

Lemma ServeHTTP_attaches r t resp token c :
  behaves (ServeHTTP r) t resp -> inr (inr (WForm (FAttach token c))) ∈ calls t ->
  exists form entry current, review_request r token c form entry current t
    /\ exists shown, resp = renderPage Execute StatusOK (reviewPage cfg c token shown).
Proof.
  unfold AdminWeb.ServeHTTP. intros (t0 & H & ->)%behaves_actor Hin.
  apply (proj1 (behaves_bind _ _ _ _)) in H as (t1 & t2 & x & -> & H & [-> ->]). rewrite app_nil_r in *.
  apply actor_special in Hin; [|by intros ?].
  destruct (serve_special _ _ _ _ _ _ _ _ _ H Hin) as (Hg & seg & next & form & entry & t' & Hp & Hs & Ha & -> & Hb & Hin').
  { by intros ?. }
  destruct Hs as [[Hk ->]|[-> ->]].
  2:{ pose proof (only_behaves _ _ _ _ (only_commit_no_attach _ _ _ _) Hb) as Hf.
      rewrite Forall_forall in Hf. by destruct (Hf _ Hin'). }
  destruct (review_attaches _ _ _ _ _ _ _ _ _ _ Hk Hb Hin') as (current & tr & -> & <- & Hrev & shown & ->).
  exists form, entry, current. split; [|by exists shown]. split_and!; try done. exists tr. split; [|done].
  rewrite !fmap_app, (reviewed_actor _ _ _ _ _ Hrev). unfold admission.
  by destruct (String.eqb (ft_revision entry) ""), (String.eqb (pc_Kind c) "create").
Qed.

Lemma sections_elem h rd y : (rd, y) ∈ sections h -> exists i x, (i, (rd, x)) ∈ h /\ form_event x = Some y.
Proof.
  unfold sections. rewrite list_elem_of_omap. intros ([i [rd' x]] & Hin & Hx). cbn in Hx.
  destruct (form_event x) as [y'|] eqn:E; [|done]. injection Hx as -> ->. by exists i, x.
Qed.

Lemma sections_app h1 h2 : sections (h1 ++ h2) = sections h1 ++ sections h2.
Proof. apply omap_app. Qed.

Lemma carried_out_taken r form entry c m t :
  edit_request r form entry c m t ->
  exists token, ev (inr (inr (WForm (FTake token "commit"))) : web_call) (Some entry) ∈ t /\ ft_change entry = Some c.
Proof.
  intros (tm & id & a & f & rest & -> & _ & Hch & _). exists (Header_Get form "csrf").
  split; [|done]. apply elem_of_app. left. by left.
Qed.

Lemma review_issued r token c form entry current t :
  review_request r token c form entry current t ->
  ev (inr (inr (WForm (FIssue "commit" (ft_revision entry) (pc_Alias c)))) : web_call) (Some token) ∈ t.
Proof.
  intros (_ & _ & _ & tr & -> & _). rewrite !elem_of_app. right; right; right. right. by left.
Qed.

(** No two forms got the same 32 random bytes. *)
Definition fresh_tokens (h : list record) : Prop := NoDup (omap (fun x => issued x.2) (sections h)).

Lemma omap_NoDup_inj {A B} (f : A -> option B) l x y k :
  NoDup (omap f l) -> x ∈ l -> y ∈ l -> f x = Some k -> f y = Some k -> x = y.
Proof.
  induction l as [|z l IH]; [by inversion 2|]. intros Hnd Hx Hy Fx Fy.
  assert (Hin : forall w, w ∈ l -> f w = Some k -> k ∈ omap f l) by (intros w ? ?; apply list_elem_of_omap; by exists w).
  cbn in Hnd. apply elem_of_cons in Hx as [->|Hx], Hy as [->|Hy]; try done.
  - rewrite Fx in Hnd. apply NoDup_cons in Hnd as [Hn _]. destruct (Hn (Hin _ Hy Fy)).
  - rewrite Fy in Hnd. apply NoDup_cons in Hnd as [Hn _]. destruct (Hn (Hin _ Hx Fx)).
  - apply IH; try done. destruct (f z); [by apply NoDup_cons in Hnd as [_ ?]|done].
Qed.

(** The edit gives agents nothing that the review did not already show. *)
Definition not_widening (current : ProjectDetail) (m : mutation) : Prop :=
  match m with
  | MCreateProject _ | MRemoveAllowlist _ _ => True
  | MAddAllowlist _ _ => False
  | MSetApproval _ mode => mode = ModeConfirm \/ pd_Mode current = ModeAutomatic
  | MUpdateProjectMetadata _ u =>
      default (pd_BWSProjectID current) (pu_BWSProjectID u) = pd_BWSProjectID current
      /\ default (pd_TokenEntry current) (pu_TokenEntry u) = pd_TokenEntry current
      /\ default (pd_WorkingDir current) (pu_WorkingDir u) = pd_WorkingDir current
  end.

Lemma metadataChange_same current d input :
  differs current input = false ->
  not_widening current (MUpdateProjectMetadata (pi_Alias input) (metadataChange d input)).
Proof.
  unfold differs, metadataChange, not_widening. rewrite !orb_false_iff, !negb_false_iff, !String.eqb_eq.
  intros [[E1 E2] E3]. destruct (String.eqb (pi_BWSProjectID input) _), (String.eqb (pi_TokenEntry input) _),
    (String.eqb (pi_WorkingDir input) _); cbn; by split_and!.
Qed.

Lemma unconfirmed_not_widening form current tr c m tm :
  reviewed unicode_print form current tr c -> carries_out c m tm ->
  pc_Widen c = false -> not_widening current m.
Proof.
  intros [input ps name _ _ _ _|input _ _|mode Hm|argv _ _ _|argv _] Hc Hw; cbn in Hw;
    destruct Hc as [(Hk & -> & _)|[(Hk & d & _ & ->)|[(Hk & -> & _)|[(Hk & -> & _)|(Hk & -> & _)]]]];
    try done; cbn in Hk |- *.
  - by apply metadataChange_same.
  - destruct Hm as [->| ->]; [by left|right].
    cbn in Hw. by apply negb_false_iff, String.eqb_eq in Hw.
Qed.

(** Behind a carried out change there is its review, and the page that the
    review answered with. *)
Lemma edit_reviewed reqs h i form entry c m :
  served reqs h -> fresh_tokens h -> edit_request (reqs i) form entry c m (of_request i h) ->
  exists j token form' entry' current rd rd0 resp shown,
    review_request (reqs j) token c form' entry' current (of_request j h)
    /\ behaves (ServeHTTP (reqs j)) (of_request j h) resp
    /\ resp = renderPage Execute StatusOK (reviewPage cfg c token shown)
    /\ (i, (rd, ev (inr (inr (WForm (FTake token "commit"))) : web_call) (Some entry))) ∈ h
    /\ (rd0, ev (FIssue "commit" (ft_revision entry') (pc_Alias c)) (Some token)) ∈ sections h
    /\ at_key rd token < now rd0 + ten_minutes
    /\ ft_revision entry' = ft_revision entry /\ ft_target entry = pc_Alias c
    /\ (Header_Get form "confirm" <> "yes" -> not_widening current m).
Proof.
  intros [Hreq [st Hst]] Hfresh He.
  destruct (carried_out_taken _ _ _ _ _ _ He) as (token & Htake & Hch).
  apply of_request_elem in Htake as [rd Htake]. pose proof Htake as Htake0.
  apply list_elem_of_split in Htake as (pre & post & ->).
  rewrite sections_app in Hst. apply fsteps_app in Hst as (st1 & Hpre & Hst).
  cbn [sections omap list_omap form_event fst snd fmap option_fmap option_map] in Hst.
  apply fsteps_cons in Hst as (st3 & Htk & _). cbn [projT1 projT2 ev form_step] in Htk.
  apply takeToken_Some in Htk as (Hl & Ha & _ & Hx & _).
  assert (Hne : ft_action entry <> "") by by rewrite Ha.
  destruct (provenance_history _ _ _ Hpre _ _ Hl Hne) as [_ (h1 & rd0 & h2 & Heq & Hexp & _ & Hatt)].
  destruct (Hatt _ Hch) as [rd1 Hatt1]. rewrite Ha in Heq.
  assert (Hin : forall y, y ∈ sections pre -> y ∈ sections (pre ++ (i, (rd, ev (inr (inr (WForm (FTake token "commit"))) : web_call) (Some entry))) :: post)).
  { intros y Hy. rewrite sections_app. apply elem_of_app. by left. }
  assert (Hatt2 : (rd1, ev (FAttach token c) tt) ∈ sections pre).
  { rewrite Heq. apply elem_of_app. right. by right. }
  assert (Hiss2 : (rd0, ev (FIssue "commit" (ft_revision entry) (ft_target entry)) (Some token)) ∈ sections pre).
  { rewrite Heq. apply elem_of_app. right. by left. }
  destruct (sections_elem _ _ _ Hatt2) as (j & x & Hj & ->%form_event_Some). cbn [form_ev ev] in Hj.
  set (h := pre ++ _) in *.
  assert (Hjh : ev (inr (inr (WForm (FAttach token c))) : web_call) tt ∈ of_request j h).
  { apply of_request_elem. exists rd1. apply elem_of_app. by left. }
  destruct (Hreq j) as [Hnil|[resp Hb]]; [rewrite Hnil in Hjh; by inversion Hjh|].
  destruct (ServeHTTP_attaches _ _ _ token c Hb) as (form' & entry' & current & Hrev & shown & Hshown).
  { apply list_elem_of_fmap. eexists. split; [|exact Hjh]. done. }
  pose proof (review_issued _ _ _ _ _ _ _ Hrev) as Hi2. apply of_request_elem in Hi2 as [rd2 Hi2].
  assert (Hi3 : (rd2, ev (FIssue "commit" (ft_revision entry') (pc_Alias c)) (Some token)) ∈ sections h).
  { apply list_elem_of_omap. eexists. split; [exact Hi2|]. done. }
  pose proof (omap_NoDup_inj _ _ _ _ token Hfresh (Hin _ Hiss2) Hi3 eq_refl eq_refl) as Hsame.
  assert (Hs : FIssue "commit" (ft_revision entry) (ft_target entry) = FIssue "commit" (ft_revision entry') (pc_Alias c)).
  { exact (f_equal (fun y => projT1 y.2) Hsame). }
  injection Hs as Hrev_eq Htgt_eq.
  exists j, token, form', entry', current, rd, rd0, resp, shown.
  assert (Hrd : rd0 = rd2) by exact (f_equal fst Hsame). rewrite Hrd in Hexp |- *.
  split_and!; try done.
  - by rewrite <- Hexp.
  - intros Hconf. destruct Hrev as (_ & _ & _ & tr & _ & Hrv).
    destruct He as (tm & id & a' & f & rest & _ & _ & Hch' & Hco & Hcf & _).
    eapply unconfirmed_not_widening; [exact Hrv|exact Hco|]. destruct (pc_Widen c); [|done]. by destruct Hconf; apply Hcf.
Qed.

(** C8: no change is saved that was not reviewed: in any interleaving of the
    server's requests in which no form token is issued twice, if a request
    carries out a change, then a request of the administrator reviewed exactly
    that change, issued the very token the first one submitted less than ten
    minutes later, for the same project and the same revision of the policy;
    the change is what [reviewed] makes of that request's form and of the
    project's detail it read; and unless the form says "yes" to it, the edit
    adds no command, does not make a project automatic that was not, and moves
    no project to another identifier or directory. *)
Theorem edits_were_reviewed reqs h i form entry c m :
  served reqs h -> fresh_tokens h -> edit_request (reqs i) form entry c m (of_request i h) ->
  exists j token form' entry' current rd rd0,
    review_request (reqs j) token c form' entry' current (of_request j h)
    /\ (i, (rd, ev (inr (inr (WForm (FTake token "commit"))) : web_call) (Some entry))) ∈ h
    /\ (rd0, ev (FIssue "commit" (ft_revision entry') (pc_Alias c)) (Some token)) ∈ sections h
    /\ at_key rd token < now rd0 + ten_minutes
    /\ ft_revision entry' = ft_revision entry /\ ft_target entry = pc_Alias c
    /\ (Header_Get form "confirm" <> "yes" -> not_widening current m).
Proof.
  intros Hs Hf He. destruct (edit_reviewed _ _ _ _ _ _ _ Hs Hf He)
    as (j & token & form' & entry' & current & rd & rd0 & resp & shown & Hr & _ & _ & Hrest).
  by exists j, token, form', entry', current, rd, rd0.
Qed.

End History.

(** ** The example as a history *)

Module History_example.
Import Example.

(** The calls of a request, with the readings of [step]. *)
Fixpoint tag (i n : nat) (t : list (event web_call)) : list record :=
  match t with
  | [] => []
  | x :: t => (i, (reading n, x)) :: tag i (S n) t
  end.

Lemma of_request_tag i j n t : of_request j (tag i n t) = if decide (i = j) then t else [].
Proof.
  revert n. induction t as [|x t IH]; intros n; [by case_decide|].
  cbn [tag of_request omap list_omap fst snd]. fold (of_request j (tag i (S n) t)). rewrite IH.
  by repeat case_decide; case_bool_decide.
Qed.

Lemma of_request_app i h1 h2 : of_request i (h1 ++ h2) = of_request i h1 ++ of_request i h2.
Proof. apply omap_app. Qed.

Lemma run_sections {A} i (p : prog web_call A) st :
  fsteps (web_Login cfg) st.1 (sections (tag i st.2 (trace_of step p st))) (state_of step p st).1
  /\ (state_of step p st).2 = (st.2 + length (trace_of step p st))%nat.
Proof.
  unfold trace_of, state_of. revert st. induction p as [a|c k IH]; intros st; [split; [constructor|cbn; lia]|].
  cbn [run]. destruct (step c st) as [r st1] eqn:Hs. specialize (IH r st1).
  destruct (run step (k r) st1) as [[a st2] t]. cbn [fst snd] in IH |- *. destruct IH as [IH ->].
  assert (Hn : st1.2 = S st.2 /\ (match form_event (ev c r) with
    | Some y => form_step (web_Login cfg) (reading st.2) (projT1 y) st.1 = (projT2 y, st1.1)
    | None => st1.1 = st.1 end)).
  { destruct c as [[|?|]|[[]|[o| |? []|]]]; cbn [step] in Hs;
      try (injection Hs as <- <-; done).
    destruct (form_step (web_Login cfg) (reading st.2) o st.1) as [x forms] eqn:E.
    injection Hs as <- <-. split; [done|exact E]. }
  destruct Hn as [Hn1 Hn2]. rewrite Hn1 in IH |- *. split; [|cbn; lia].
  cbn [tag sections omap list_omap fst snd]. destruct (form_event (ev c r)) as [[o x]|]; cbn [fmap option_fmap option_map].
  - econstructor; [exact Hn2|exact IH].
  - rewrite <- Hn2. exact IH.
Qed.

Definition states (i : nat) : Forms * nat :=
  match i with 0%nat => start | 1%nat => after 0 start | _ => after 1 (after 0 start) end.

Definition trace (i : nat) : list (event web_call) :=
  match i with
  | 0%nat | 1%nat | 2%nat => trace_of step (answer_to (requests i)) (states i)
  | _ => []
  end.

Definition history : list record :=
  tag 0 (states 0).2 (trace 0) ++ tag 1 (states 1).2 (trace 1) ++ tag 2 (states 2).2 (trace 2).

Lemma of_request_history i : of_request i history = trace i.
Proof.
  unfold history. rewrite !of_request_app, !of_request_tag.
  destruct i as [|[|[|i]]]; cbn [decide decide_rel]; rewrite ?app_nil_r; done.
Qed.

Lemma history_served : served cfg (fun _ => true) media_type form_of page requests history.
Proof.
  constructor.
  - intros i. rewrite of_request_history.
    destruct i as [|[|[|i]]]; [right..|by left]; eexists; apply run_behaves.
  - exists (after 2 (after 1 (after 0 start))).1. unfold history. rewrite !sections_app. apply fsteps_app.
    exists (after 0 start).1. split; [exact (proj1 (run_sections 0 (answer_to (requests 0)) (states 0)))|].
    apply fsteps_app.
    exists (after 1 (after 0 start)).1. split;
      [exact (proj1 (run_sections 1 (answer_to (requests 1)) (states 1)))
      |exact (proj1 (run_sections 2 (answer_to (requests 2)) (states 2)))].
Qed.

Definition the_form : Form := [("csrf", "3136"); ("alias", "p"); ("confirm", "yes")].
Definition the_change : policyChange := mkPolicyChange "mode" "p" "" zero_input "automatic" [] true.

Definition the_entry : formToken :=
  mkFormToken "commit" "ann@example.org" "rev" "p" ten_minutes (Some the_change).

Lemma third_carries_out :
  edit_request cfg media_type form_of (requests 2) the_form the_entry the_change (MSetApproval "p" "automatic")
    (of_request 2 history).
Proof.
  rewrite of_request_history.
  exists [], "id", (true, None), (Ok tt).
  eexists. split; [vm_compute; reflexivity|]. split_and!; try done.
  - by right; right; left.
  - repeat constructor.
Qed.

Lemma history_fresh : fresh_tokens history.
Proof. unfold fresh_tokens. refine (bool_decide_unpack _ _). vm_compute. exact I. Qed.
End History_example.

Lemma one_edit_per_review_witness :
  served Example.cfg (fun _ => true) Example.media_type Example.form_of Example.page Example.requests
    History_example.history
  /\ (length [2] <= occurrences (reviews History_example.the_change) (sections History_example.history))%nat.
Proof.
  split; [apply History_example.history_served|].
  apply (one_edit_per_review _ _ _ _ _ Example.requests _ _ [2%nat] History_example.history_served).
  - repeat constructor; set_solver.
  - constructor; [|constructor]. do 3 eexists. exact History_example.third_carries_out.
Defined.

Lemma edits_were_reviewed_witness :
  fresh_tokens History_example.history
  /\ exists j token form' entry' current rd rd0,
       review_request Example.cfg (fun _ => true) Example.media_type Example.form_of (Example.requests j) token
         History_example.the_change form' entry' current (of_request j History_example.history)
       /\ at_key rd token < now rd0 + ten_minutes /\ ft_revision entry' = "rev".
Proof.
  split; [exact History_example.history_fresh|].
  destruct (edits_were_reviewed _ _ _ _ _ _ _ _ _ _ _ _ History_example.history_served
    History_example.history_fresh History_example.third_carries_out)
    as (j & token & form' & entry' & current & rd & rd0 & H & _ & _ & Ht & Hr & _).
  exists j, token, form', entry', current, rd, rd0. by split_and!.
Defined.
