(* ===== verification/AdminPagesSpec.v ===== *)
(** * AdminPagesSpec: the administrator confirms what is carried out

    The history of [AdminWebHistory] with the pages of [AdminPages]: the page
    that a confirmed change was shown on determines the change. *)

From S2P Require Import Prelude GoStrings GoText GoTemplate Effects Io Http AccessDiag ProjectList Config PolicyEditor Recovery.
From S2P Require Import AdminPath AdminLog AdminAudit AdminAccess AdminForms AdminWebConfig AdminWeb AdminPages AdminWebSpec AdminWebHistory.

#[local] Open Scope Z_scope.

(** Changes that a page shows alike are committed and confirmed alike. *)
Lemma same_change_commit c c' :
  readable c -> readable c' -> same_change c c' ->
  commit_mutation c = commit_mutation c' /\ forall form, confirmed c form = confirmed c' form.
Proof.
  intros [_ Hal _] [_ Hal' _] (Hk & Ha & Hw & Hi & Hm & Hv).
  split; [|intros form; unfold confirmed; by rewrite Hw].
  unfold commit_mutation. rewrite <- Hk, <- Ha.
  assert (Hin : pc_Kind c = "create" \/ pc_Kind c = "metadata" -> pc_Input c = pc_Input c').
  { intros Hc. destruct (Hi Hc) as (E1 & E2 & E3). pose proof (Hal Hc) as E4. rewrite Hk in Hc. pose proof (Hal' Hc) as E5.
    destruct (pc_Input c), (pc_Input c'). cbn in *. congruence. }
  destruct (String.eqb_spec (pc_Kind c) "create") as [E|_]; [by rewrite Hin by auto|].
  destruct (String.eqb_spec (pc_Kind c) "metadata") as [E|_]; [by rewrite Hin by auto|].
  destruct (String.eqb_spec (pc_Kind c) "mode") as [E|_]; [by rewrite Hm|].
  destruct (String.eqb_spec (pc_Kind c) "add") as [E|_]; [by rewrite Hv by auto|].
  destruct (String.eqb_spec (pc_Kind c) "remove") as [E|_]; [by rewrite Hv by auto|done].
Qed.

(** What [review] makes is a change of one of the five kinds. *)
Lemma reviewed_readable unicode_print form current tr c : reviewed unicode_print form current tr c -> nul_free c -> readable c.
Proof. intros [] Hn; (split; [cbn; set_solver|by cbn; intros [?|?]|exact Hn]). Qed.

Section Pages.
Context (cfg : WebConfig) (unicode_print : Z -> bool).
Context (ParseMediaType : string -> option string) (ParseForm : WebRequest -> Reader -> option Form).

Notation ServeHTTP := (AdminWeb.ServeHTTP cfg unicode_print ParseMediaType ParseForm Execute).
Notation served := (served cfg unicode_print ParseMediaType ParseForm Execute).
Notation edit_request := (edit_request cfg ParseMediaType ParseForm).

(** C9: what is carried out is what the administrator was shown: if a request
    carries out a change then a request of the administrator was answered,
    with status 200, by a page that shows that change: every change whose
    review could have looked the same, byte for byte, whatever its form token
    and the policy at its time, asks for the same confirmation and is committed
    by the same call of the editor.  The one condition is that the texts of the
    changes hold no zero byte. *)
Theorem confirmed_change_was_shown reqs h i form entry c m :
  served reqs h -> fresh_tokens h -> edit_request (reqs i) form entry c m (of_request i h) -> nul_free c ->
  exists j token shown resp,
    behaves (ServeHTTP (reqs j)) (of_request j h) resp
    /\ ev (inr (inr (WForm (FAttach token c))) : web_call) tt ∈ of_request j h
    /\ Code resp = StatusOK /\ WBody resp = render (pageTemplate (reviewPage cfg c token shown))
    /\ forall c' token' shown', readable c' ->
         WBody resp = render (pageTemplate (reviewPage cfg c' token' shown')) ->
         same_change c c' /\ commit_mutation c = commit_mutation c'
         /\ forall form', confirmed c form' = confirmed c' form'.
Proof.
  intros Hs Hf He Hn. destruct (edit_reviewed _ _ _ _ _ _ _ _ _ _ _ _ Hs Hf He)
    as (j & token & form' & entry' & current & rd & rd0 & resp & shown & Hrev & Hb & Hresp & _).
  exists j, token, shown, resp. split; [exact Hb|]. destruct Hrev as (_ & _ & _ & tr & Ht & Hrv).
  pose proof (reviewed_readable _ _ _ _ _ Hrv Hn) as Hr. subst resp. rewrite Ht.
  split; [rewrite !elem_of_app; right; right; right; right; right; by left|].
  split; [reflexivity|]. split; [reflexivity|]. intros c' token' shown' Hr' Heq.
  assert (Hsame : same_change c c')
    by (apply (review_page_reads cfg c c' token token' shown shown' Hr Hr'); unfold Execute; by f_equal).
  split; [exact Hsame|]. by apply same_change_commit.
Qed.

End Pages.

Lemma confirmed_change_was_shown_witness :
  nul_free History_example.the_change
  /\ exists j token shown resp,
       behaves (Example.answer_to (Example.requests j)) (of_request j History_example.history) resp
       /\ WBody resp = render (pageTemplate (reviewPage Example.cfg History_example.the_change token shown)).
Proof.
  assert (Hr : nul_free History_example.the_change) by (split; try (vm_compute; reflexivity); constructor).
  split; [exact Hr|].
  destruct (confirmed_change_was_shown _ _ _ _ _ _ _ _ _ _ _ History_example.history_served
    History_example.history_fresh History_example.third_carries_out Hr)
    as (j & token & shown & resp & Hb & _ & _ & Hbody & _).
  exists j, token, shown, resp. split; [exact Hb|exact Hbody].
Defined.
