(* ===== verification/AdminWebSystem.v ===== *)
(** * AdminWebSystem: the web server over the policy file

    [web_system] is [ServeHTTP] with the policy editor's operations carried
    out: the calls of the operating system are on the right of the sum, the
    log, the forms and the worker's checks on the left. *)

From S2P Require Import Prelude GoStrings GoSha256 Effects Io Http Config SecureFile Recovery PolicyText PolicyEditor.
From S2P Require Import PolicyWorld AdminPath AdminLog AdminAudit AdminSystem AdminAccess AdminForms AdminWebConfig AdminWeb AdminWebSpec.

#[local] Open Scope Z_scope.

(** ** The server and the policy *)

Section System.
Context (cfg : WebConfig) (unicode_print : Z -> bool).
Context (ParseMediaType : string -> option string) (ParseForm : WebRequest -> Reader -> option Form).
Context (Execute : pageData -> option string).
Context (url_Parse : string -> option URL) (toml_Unmarshal : string -> option Config).

Notation sys_call := (web_call + os_call)%type.

(** [admin.NewEditor(PolicyPath, 0)] *)
Definition policy_editor : Editor := NewEditor PolicyPath 0.

Definition serve_web (c : web_call) : prog sys_call (answer c) :=
  match c return prog sys_call (answer c) with
  | inr (inr WRevision) => on_right (on_left (Revision url_Parse toml_Unmarshal policy_editor) : prog os_call _)
  | inr (inr (WEditor revision op)) =>
      on_right (edit_program url_Parse toml_Unmarshal (WithRevision policy_editor revision) op)
  | c => call (inl c : sys_call)
  end.

Definition web_system (r : WebRequest) : prog sys_call Response :=
  interp serve_web (ServeHTTP cfg unicode_print ParseMediaType ParseForm Execute r).

Lemma behaves_on_right_stays {A} (p : prog os_call A) t a c :
  behaves (on_right p : prog sys_call A) t a -> only stays p -> inr c ∈ calls t -> stays c.
Proof.
  intros (t' & -> & H)%behaves_on_right Hp Hin. pose proof (only_behaves _ _ _ _ Hp H) as Hf.
  unfold calls in Hin. rewrite <- list_fmap_compose in Hin. apply list_elem_of_fmap in Hin as ([c' x] & E & Hx).
  cbn in E. injection E as ->. rewrite Forall_forall in Hf. apply Hf, list_elem_of_fmap.
  by exists (existT c' x).
Qed.

(** Where a rename comes from. *)
Lemma serve_web_renames c a t from to :
  behaves (serve_web c) t a -> inr (inl (Rename from to)) ∈ calls t ->
  exists revision op, c = inr (inr (WEditor revision op)) /\ changes_policy op = true.
Proof.
  intros H Hin. destruct c as [l|[k|[o| |revision op|]]].
  - destruct H as (x & t' & -> & [-> _]). by apply list_elem_of_singleton in Hin as [=].
  - destruct H as (x & t' & -> & [-> _]). by apply list_elem_of_singleton in Hin as [=].
  - destruct H as (x & t' & -> & [-> _]). by apply list_elem_of_singleton in Hin as [=].
  - destruct (behaves_on_right_stays _ _ _ _ H (only_on_left _ (only_Revision _ _ _)) Hin).
  - exists revision, op. split; [done|]. apply not_false_iff_true. intros Hop.
    destruct (behaves_on_right_stays _ _ _ _ H (only_reads _ _ _ _ Hop) Hin).
  - destruct H as (x & t' & -> & [-> _]). by apply list_elem_of_singleton in Hin as [=].
Qed.

Lemma edit_request_event r form entry change m t c a :
  edit_request cfg ParseMediaType ParseForm r form entry change m t ->
  ev c a ∈ t -> ~ harmless c ->
  exists a', (ev c a : event web_call) = ev (inr (inr (WEditor (ft_revision entry) (op_of (ChEdit m)))) : web_call) a'.
Proof.
  intros (tm & id & a0 & f & rest & -> & _ & _ & _ & _ & Hm & Hr) Hin Hc.
  assert (Hno : forall t', Forall harmless (calls t') -> ev c a ∈ t' -> False).
  { intros t' Hf Hx. apply Hc. rewrite Forall_forall in Hf. apply Hf, list_elem_of_fmap. by exists (ev c a). }
  rewrite !elem_of_app in Hin. destruct Hin as [Hin|[Hin|[Hin|Hin]]].
  - destruct (Hno _ (admission_harmless form entry) Hin).
  - destruct (Hno _ Hm Hin).
  - unfold attributed_edit in Hin. rewrite !elem_of_cons, elem_of_nil in Hin. destruct Hin as [Hin|[Hin|[Hin|[]]]].
    + destruct Hc. apply (f_equal (@projT1 _ _)) in Hin. cbn in Hin. by rewrite Hin.
    + by exists a0.
    + destruct Hc. apply (f_equal (@projT1 _ _)) in Hin. cbn in Hin. by rewrite Hin.
  - destruct (Hno _ Hr Hin).
Qed.

(** C3: from the browser to the policy file: whatever the operating system, the
    log and the other requests answer, if a request of the web server renames
    a file at all, then it is a confirmed commit of a reviewed change by the
    administrator; the file is the policy; what was replaced is the very text
    that was read for the edit, the file having been found unchanged under the
    lock, and its digest is the revision that the form was issued for, if it
    was issued for one; and what replaced it parses to the configuration that
    the reviewed change is meant to produce from it. *)
Theorem web_changes_what_was_shown r t resp from to :
  behaves (web_system r) t resp -> inr (inl (Rename from to)) ∈ calls t ->
  to = PolicyPath
  /\ from_administrator cfg r = true /\ Http.Path (http r) = ["projects"; "commit"]
  /\ exists es form entry change m tp t1 t2,
       edit_request cfg ParseMediaType ParseForm r form entry change m es
       /\ t = t1 ++ (right_ev <$> (left_ev <$> tp : list (event os_call))) ++ t2
       /\ policy_replaced url_Parse toml_Unmarshal (WithRevision policy_editor (ft_revision entry)) (ChEdit m) tp
       /\ exists data, ev (ReadFile PolicyPath maxPolicyBytes 18 true) (Ok data) ∈ tp
            /\ (ft_revision entry = "" \/ digestBytes data = ft_revision entry).
Proof.
  intros (es & ts & H & -> & Hx)%behaves_interp Hin.
  assert (Hloc : exists i c a te, es !! i = Some (ev c a) /\ ts !! i = Some te
      /\ behaves (serve_web c) te a /\ inr (inl (Rename from to)) ∈ calls te).
  { clear H. induction Hx as [|[c a] te es ts Hc _ IH]; [by inversion Hin|].
    cbn [List.concat] in Hin. rewrite calls_app, elem_of_app in Hin. destruct Hin as [Hin|Hin].
    - exists O, c, a, te. by split_and!.
    - destruct (IH Hin) as (i & c' & a' & te' & ? & ? & ? & ?). by exists (S i), c', a', te'. }
  destruct Hloc as (i & c & a & te & Hes & Hts & Hc & Hren).
  destruct (serve_web_renames _ _ _ _ _ Hc Hren) as (revision & op & -> & Hop).
  assert (Hedits : ~ harmless (inr (inr (WEditor revision op)))) by (cbn; congruence).
  apply list_elem_of_lookup_2 in Hes.
  assert (Hcall : inr (inr (WEditor revision op)) ∈ calls es).
  { apply list_elem_of_fmap. by exists (ev (inr (inr (WEditor revision op)) : web_call) a). }
  destruct (ServeHTTP_edits _ _ _ _ _ _ _ _ _ H Hcall Hedits) as (Hg & Hp & form & entry & change & m & He).
  destruct (edit_request_event _ _ _ _ _ _ _ _ He Hes Hedits) as [a' Hev].
  pose proof (f_equal (@projT1 _ _) Hev) as Hcc. cbn [projT1 ev] in Hcc.
  assert (Heq : revision = ft_revision entry /\ op = op_of (ChEdit m)) by (split; congruence).
  clear Hev Hcc. destruct Heq as [-> ->].
  cbn [serve_web] in Hc. apply behaves_on_right in Hc as (tos & -> & Hc).
  destruct (change_behaves _ _ _ _ _ _ Hc) as (tp & -> & Hrep).
  assert (Hrp : Rename from to ∈ calls tp).
  { unfold calls in Hren |- *. rewrite <- !list_fmap_compose in Hren.
    apply list_elem_of_fmap in Hren as ([c' x] & E & Hx'). apply list_elem_of_fmap. exists (existT c' x).
    split; [|done]. cbn in E. by injection E. }
  destruct (Hrep _ _ Hrp) as [-> Hpr]. split_and!; [done|done|done|].
  apply list_elem_of_lookup_2, list_elem_of_split in Hts as (l1 & l2 & ->).
  exists es, form, entry, change, m, tp, (List.concat l1), (List.concat l2). split_and!; [done| |done|].
  - by rewrite concat_app.
  - destruct Hpr as (t0 & t1 & tm & t2 & data & cfg0 & meta & updated & cfg' & b & -> & _ & _ & Hread & _).
    exists data. destruct Hread as (i1 & i2 & -> & _ & _ & Hrev & _).
    split; [|exact Hrev]. rewrite !elem_of_app. right; left. do 2 right. by left.
Qed.

End System.

(** ** A commit on the example world *)

Module System_example.

(** A reviewed change of mode, as a form issued for the policy of the world. *)
Definition entry : formToken :=
  mkFormToken "commit" "ann@example.org" (digestBytes (World.text World.start)) "" 1
    (Some (mkPolicyChange "mode" "web" "" (mkProjectInput "" "" "" "") "automatic" [] true)).

Definition forms : Forms := mkForms {[ "token" := entry ]} [] zero_time ∅.

Definition form_of (_ : WebRequest) (_ : Reader) : option Form :=
  Some [("csrf", "token"); ("confirm", "yes")].

Definition step : handler (web_call + os_call) ((Forms * nat) * World.World) := fun c st =>
  match c return answer c * _ with
  | inl c => let '(a, s) := Example.step c st.1 in (a, (s, st.2))
  | inr c => let '(a, w) := Logged_example.os_step c st.2 in (a, (st.1, w))
  end.

Definition answer_to (r : WebRequest) : prog (web_call + os_call) Response :=
  web_system Example.cfg (fun _ => true) Example.media_type form_of Example.page World.parse_url World.decode r.

Definition request : WebRequest := Example.post ["projects"; "commit"].
Definition before : (Forms * nat) * World.World := ((forms, 0%nat), World.start).
Definition commit_trace : list (event (web_call + os_call)) := trace_of step (answer_to request) before.
Definition renamed : os_call := inl (Rename ".policy.toml.tmp-1" PolicyPath).
End System_example.

Import System_example.

Lemma web_changes_what_was_shown_witness :
  inr (inl (Rename ".policy.toml.tmp-1" PolicyPath)) ∈ calls commit_trace
  /\ from_administrator Example.cfg request = true.
Proof.
  assert (Hin : inr (inl (Rename ".policy.toml.tmp-1" PolicyPath)) ∈ calls commit_trace).
  { apply (list_elem_of_lookup_2 _ 20). vm_compute. reflexivity. }
  split; [exact Hin|].
  exact (proj1 (proj2 (web_changes_what_was_shown _ _ _ _ _ _ _ request commit_trace _ _ PolicyPath
           (run_behaves step (answer_to request) before) Hin))).
Defined.
